(* ===== verification/_CoqProject ===== *)
-Q . S2P
Prelude.v
GoStr.v
Regex.v
Json.v
KubeTypes.v
DdcApi.v
DcrApi.v
Client.v
Traces.v
Mysql.v
Resource.v
External.v
SubDefault.v
StorageConf.v
DcrResource.v
DcrSub.v
PodTemplate.v
DcrPods.v
Claims.v
PrepareModify.v
Quiet.v
GracefulCodec.v
Graceful.v
ComputeGroups.v
CgLifecycle.v
Observers.v
DisFe.v
MetaService.v
DdcPods.v
DdcReconciler.v
DcrFe.v
DcrBe.v
DcrCn.v
DcrReconciler.v
GracefulSpec.v
GracefulLemmas.v
GracefulHistory.v
Demo.v
GracefulProps.v
ScaleProps.v
StorageProps.v
ApplyProps.v
GroupProps.v
FeProps.v
RolloutProps.v
ClusterProps.v
MysqlProps.v
DcrTraces.v
PodProps.v
DdcPodProps.v
DcrStorageProps.v
DcrFeProps.v
DcrStatusProps.v
DcrReconcilerProps.v
DcrClaimProps.v
DcrSettle.v
DcrConfigProps.v
RestartProps.v
Webhooks.v
WebhookProps.v
Ctl.v
CtlProps.v
Operator.v
OperatorProps.v
Namespace.v
NamespaceProps.v
DcrNamespaceProps.v
Converge.v
ConvergeProps.v
ConvergeCluster.v
ConvergeReconcile.v
GracefulLive.v
