(* ===== verification/Prelude.v ===== *)
(** * Verification of the Doris operator

    The operator (Go, [src/]) runs Apache Doris on Kubernetes.  It has two kinds
    of clusters, each with a reconciler whose passes bring the objects of a
    cluster (StatefulSets, services, claims, autoscalers) towards its spec:

    - a DorisCluster, with frontends (FE), backends (BE), compute nodes (CN) and
      brokers ([src/pkg/controller/doriscluster_controller.go] and
      [sub_controller/{fe,be,cn,broker}]);
    - a DorisDisaggregatedCluster, with a meta service, FE and compute groups
      ([src/pkg/controller/disaggregated_cluster_controller.go] and
      [sub_controller/disaggregated_cluster]).

    A reconciler reads the cluster, calls the [Sync] of each component's
    controller, then [ClearResources], then [UpdateComponentStatus], and writes
    the spec or the status back.  The controllers share the steps of
    [sub_controller.go] and [disaggregated_subcontroller.go], the builders of
    [src/pkg/common/utils/resource], the API server client of [utils/k8s] and the
    SQL client of [utils/mysql], which reads and changes Doris itself.

    ** How the program is modelled

    A function that makes no call outside the process is a function.  One that
    does is a program [op A] ([prog OpE A], below): a tree of calls, with a branch
    for every answer, that ends in a value or a panic.  [OpE] ([Client]) has a
    constructor for each call of the API server, of the clock, of the exec stream
    and of the SQL driver.  Nothing is assumed of the answers: a theorem about a
    program is about every sequence of answers, failures included, and one that
    needs more of the API server says so in its statement.  The certificates,
    the entry point and the command line tool have call types of their own
    ([CertE], [ProcE] and that of [Ctl]).

    Code that writes through pointers into the cluster it is given returns the
    cluster.  Nil pointers are [None], and their use is a [Panic], as is a failed
    type assertion.  Integers are [Z]; where the code computes in [int32] the
    result is wrapped ([int32]).  The loops of the code over Go maps take their
    order as an argument.

    Third-party code is never defined: the spew printer, [time.Parse], viper and
    the float printer are members of the class [External]; cryptography and PEM
    of [Crypto]; cobra's, gjson's and the markdown parser's parts of [Documents]
    and [Gjson]; the flags of controller-runtime of [OtherFlags]; the poller of
    apimachinery of [Poller].  Witnesses instantiate them.

    ** Files

    Foundations: [Prelude] (this file: programs, runs, record updates, lemmas),
    [GoStr], [Regex] and [Json] (Go's strings, strconv, fmt, regexp and
    encoding/json, as far as the operator uses them), [KubeTypes] (Kubernetes
    objects), [Traces] (weakest preconditions and trace predicates), [External],
    [Demo] (an executable environment for witnesses).

    API groups: [DdcApi] ([api/disaggregated/v1]), [DcrApi] ([api/doris/v1]), each
    with its names, labels and admission checks.

    Shared code: [Client] ([utils/k8s]), [Mysql] ([utils/mysql], [decommission.go]),
    [Resource] ([utils/hash], [set], [metadata], and the comparison and readers of
    [utils/resource]), [SubDefault] ([disaggregated_subcontroller.go]), [DcrSub]
    ([sub_controller.go]), [DcrResource] (services, claims, autoscalers and the
    comparison of StatefulSets of [utils/resource]), [StorageConf] ([utils/doris]),
    [PodTemplate] ([resource/pod.go], [kerberos.go], and the StatefulSet of a
    component of a DorisCluster), [Claims] and [Observers] (the removal of
    claims and of observers that several controllers share), [Quiet].

    Disaggregated clusters: [ComputeGroups] and [CgLifecycle]
    ([computegroups/controller.go], [util.go], [service.go]), [PrepareModify]
    ([prepare_modify.go]), [GracefulCodec] and [Graceful] ([graceful_rollout.go]),
    [DisFe] ([disaggregated_fe]), [MetaService] ([metaservice]), [DdcPods] (the pod
    templates of all three), [DdcReconciler].

    DorisClusters: [DcrFe], [DcrBe] (BE and broker), [DcrCn], [DcrPods] (their
    [pod.go]), [DcrReconciler].  A file of a controller takes the builder of its
    pods as an argument; [DcrReconciler.Scs] and [Operator.ddc_Scs] give it the
    builders of [DcrPods] and [DdcPods].

    The process: [Webhooks] ([utils/certificate], [controller/unnamedwatches]),
    [Operator] ([cmd/operator], [cmd/doris-debug], the [Init] functions), [Ctl]
    ([cmd/dorisctl], [common/cmd]).

    ** Theorems

    - The graceful rollout ([GracefulSpec], [GracefulLemmas], [GracefulHistory],
      [GracefulProps], [RolloutProps]): [GracefulSpec] has an abstract machine, a
      step relation on actions, that every run of the code refines; by induction
      on its steps a pod is deleted only after it was drained, and only the pod of
      the action.  A scale-down keeps the wanted pods, a replacement is accepted
      only when Doris shows it alive, the stored action reads back.
    - Scaling compute groups ([ScaleProps], [GroupProps]): the StatefulSet shrinks
      only after Doris let the backends go; what is removed belongs to no
      configured group.
    - FE and claims ([FeProps], [StorageProps], [DcrFeProps], [DcrClaimProps],
      [DcrStorageProps], [DcrSettle]): electing followers are not scaled away,
      observers are dropped before the StatefulSet shrinks, claims in use are kept,
      and the preparation of claims settles against a store of claims.
    - Objects and pods ([ApplyProps], [DcrConfigProps], [RestartProps], [PodProps],
      [DdcPodProps]): applied objects settle, the objects of a component fit
      together, a changed configuration restarts FE and BE, every mount has its
      volume, the builders write only what they must into the spec.
    - Passes ([ClusterProps], [DcrTraces], [DcrStatusProps], [DcrReconcilerProps]):
      health and status; [Namespace], [NamespaceProps] and [DcrNamespaceProps]: a
      pass, whatever the orders of its loops, touches nothing outside the
      namespace of its cluster.
    - Convergence ([Converge], [ConvergeProps]): against a shelf of services and
      StatefulSets that accepts writes, a notion of converging pass with rules of
      composition, and the passes of FE, BE and broker as instances: what one pass
      applies, the next finds equal.  The claims are [DcrSettle]'s.
      [ConvergeCluster] adds the compute nodes and that the builders read the same
      of a cluster through any step, and [ConvergeReconcile] composes the
      controllers into the pass of a DorisCluster at rest, whatever the order of its
      loops: some pass on, every pass leaves the services and StatefulSets alone.
      The cluster with its status, the other objects and the clock answer alike
      throughout.
    - Rolling updates ([GracefulLive]): in a cluster that replaces deleted pods by
      pods of the new revision, which get ready in the end, the passes of the state
      machine lead from phase to phase and from pod to pod to the end of the
      action.  Waits are measured by the time left to their deadlines; the one for
      the backend needs answers that settle, as a backend observed anew each time
      has no deadline.  A scale-down is not claimed to end: the apply of a pass
      puts back the replicas that the pass lowered.
    - The process ([WebhookProps], [OperatorProps], [CtlProps]): secret and webhook
      configurations agree on the certificate, the manager starts with every
      controller registered, flags and records read back.

    ** Bounds and fuel

    Programs are finite trees, so that termination is that of the definitions.
    Bounds of the code are those of the model: four attempts to write a status
    ([status_attempts], [update_attempts]), five of [RetryOnConflict].  Fuel is used by the printer of decimals
    (a number has no more digits than bits: [dec_fuel]) and by the JSON parser, whose
    fuel is twice the length of the text, which covers any value ([Json]
    proves that it parses what the encoder writes).  Matching
    of regular expressions is structural, by derivatives.

    ** Not modelled

    The generated clients, listers, informers and deep copies (values are
    immutable here, so that a deep copy is its argument, and the operator reads
    through controller-runtime's client); log output and metrics; the inside of
    controller-runtime (queues, caches, leader election), of cobra and of the SQL
    driver, whose calls appear in the traces; the mock handlers of doris-debug,
    which nothing calls. *)

From Stdlib Require Import ZArith Lia Ascii.
From stdpp Require Import base list gmap strings.

Set Warnings "-notation-overridden,-ambiguous-paths".

(** ** Notations and databases of the development *)

Declare Scope dop_scope.
Delimit Scope dop_scope with dop.

Create HintDb dop discriminated.
Create Rewrite HintDb gostr.
#[export] Hint Constants Opaque : dop.
#[export] Hint Variables Opaque : dop.

(** ** Functional record update

    [r <| f := v |>] is the record [r] with its field [f] replaced; [Etas]
    gives the eta expansion of the record type and [Setter] is found from
    it by the hint below. *)

Class Etas (R : Type) := eta_expand : R -> R.
Class Setter {R T : Type} (f : R -> T) := update_field : (T -> T) -> R -> R.

Ltac solve_setter :=
  match goal with
  | |- @Setter ?R ?T ?f =>
      let e := eval hnf in (@eta_expand R _) in
      exact (fun (g : T -> T) (r : R) =>
               ltac:(let b := eval cbv beta in (e r) in
                     let b' := eval pattern (f r) in b in
                     match b' with
                     | ?F _ => let t := eval cbv beta in (F (g (f r))) in exact t
                     end))
  end.

#[export] Hint Extern 1 (Setter _) => solve_setter : typeclass_instances.

Notation "r <| f := v |>" := (@update_field _ _ f _ (fun _ => v) r)
  (at level 1, left associativity, f at level 0, v at level 200,
   format "r  <| f  :=  v |>").

(** ** Programs over external calls

    The controllers talk to the API server, to the containers and to the
    Doris frontends only through calls of third-party clients.  A [prog E A]
    is the tree of those calls: [Call e k] performs the call [e], receives an
    answer and goes on with [k]; [Panic] is a Go run-time panic. *)

Inductive prog (E : Type -> Type) (A : Type) : Type :=
| Ret (a : A)
| Panic (why : string)
| Call {X : Type} (e : E X) (k : X -> prog E A).
Arguments Ret {E A} a.
Arguments Panic {E A} why.
Arguments Call {E A X} e k.

(** One performed call with its answer, and how an execution ends. *)
Inductive event (E : Type -> Type) : Type :=
| Ev {X : Type} (e : E X) (x : X).
Arguments Ev {E X} e x.

Inductive outcome (A : Type) : Type :=
| Done (a : A)
| Crashed (why : string).
Arguments Done {A} a.
Arguments Crashed {A} why.

Section programs.
Context {E : Type -> Type}.

Fixpoint bind {A B} (p : prog E A) (f : A -> prog E B) : prog E B :=
  match p with
  | Ret a => f a
  | Panic w => Panic w
  | Call e k => Call e (fun x => bind (k x) f)
  end.

Definition call {X} (e : E X) : prog E X := Call e Ret.

(** [wp p Q]: every execution of [p], whatever the answers of the
    environment, ends with a trace and an outcome that satisfy [Q]. *)
Fixpoint wp {A} (p : prog E A) (Q : list (event E) -> outcome A -> Prop) : Prop :=
  match p with
  | Ret a => Q [] (Done a)
  | Panic w => Q [] (Crashed w)
  | Call e k => forall x, wp (k x) (fun tr o => Q (Ev e x :: tr) o)
  end.

(** Execution against a handler, an environment that answers the calls. *)
Fixpoint run {A S} (h : forall X, E X -> S -> X * S) (p : prog E A) (s : S)
  : list (event E) * outcome A * S :=
  match p with
  | Ret a => ([], Done a, s)
  | Panic w => ([], Crashed w, s)
  | @Call _ _ X e k =>
      let '(x, s') := h X e s in
      let '(tr, o, s'') := run h (k x) s' in
      (Ev e x :: tr, o, s'')
  end.

Fixpoint foldM {A B} (f : A -> B -> prog E A) (a : A) (l : list B) : prog E A :=
  match l with
  | [] => Ret a
  | b :: l' => bind (f a b) (fun a' => foldM f a' l')
  end.

Lemma wp_mono {A} (p : prog E A) (Q Q' : list (event E) -> outcome A -> Prop) :
  wp p Q -> (forall tr o, Q tr o -> Q' tr o) -> wp p Q'.
Proof.
  revert Q Q'; induction p as [a|w|X e k IH]; intros Q Q' HQ H; cbn in *; auto.
  intros x; eapply IH; [apply HQ | auto].
Qed.

Lemma wp_true {A} (p : prog E A) (Q : list (event E) -> outcome A -> Prop) :
  (forall tr o, Q tr o) -> wp p Q.
Proof. revert Q; induction p; cbn; intros; auto. Qed.

Lemma wp_and {A} (p : prog E A) (Q Q' : list (event E) -> outcome A -> Prop) :
  wp p Q -> wp p Q' -> wp p (fun tr o => Q tr o /\ Q' tr o).
Proof. revert Q Q'; induction p; cbn; intros; auto. Qed.

Lemma wp_bind {A B} (p : prog E A) (f : A -> prog E B) Q :
  wp (bind p f) Q <->
  wp p (fun tr o => match o with
                    | Done a => wp (f a) (fun tr' o' => Q (tr ++ tr') o')
                    | Crashed w => Q tr (Crashed w)
                    end).
Proof.
  revert Q; induction p as [a|w|X e k IH]; intros Q; cbn; try reflexivity.
  split; intros H x; specialize (H x); apply IH in H || apply IH; auto.
Qed.

Lemma wp_run {A S} (h : forall X, E X -> S -> X * S) (p : prog E A) s Q :
  wp p Q -> Q (run h p s).1.1 (run h p s).1.2.
Proof.
  revert s Q; induction p as [a|w|X e k IH]; intros s Q H; cbn in *; auto.
  destruct (h X e s) as [x s'] eqn:Eh; cbn.
  specialize (IH x s' _ (H x)).
  destruct (run h (k x) s') as [[tr o] s'']; auto.
Qed.

Lemma wp_foldM {A B} (f : A -> B -> prog E A) (l : list B)
    (I : list B -> A -> list (event E) -> Prop) Q :
  (forall a b l' tr, I (b :: l') a tr ->
     wp (f a b) (fun tr' o => match o with
                              | Done a' => I l' a' (tr ++ tr')
                              | Crashed w => Q (tr ++ tr') (Crashed w)
                              end)) ->
  (forall a tr, I [] a tr -> Q tr (Done a)) ->
  forall a tr, I l a tr -> wp (foldM f a l) (fun tr' o => Q (tr ++ tr') o).
Proof.
  intros Hstep Hend; induction l as [|b l IH]; intros a tr HI; cbn.
  - rewrite app_nil_r; auto.
  - apply wp_bind; eapply wp_mono; [apply Hstep, HI|].
    intros tr' [a'|w]; [|done].
    intros HI'; eapply wp_mono; [apply IH, HI'|].
    intros tr'' o; by rewrite app_assoc.
Qed.

(** Two programs are equivalent when no postcondition tells them apart:
    the same calls and the same outcomes for the same answers. *)
Definition prog_equiv {A} (p q : prog E A) : Prop := forall Q, wp p Q <-> wp q Q.

#[export] Instance prog_equiv_equivalence {A} : Equivalence (@prog_equiv A).
Proof.
  split.
  - intros p Q; reflexivity.
  - intros p q H Q; symmetry; apply H.
  - intros p q r H1 H2 Q; etransitivity; [apply H1 | apply H2].
Qed.

#[export] Instance bind_proper {A B} :
  Proper (prog_equiv ==> pointwise_relation A prog_equiv ==> prog_equiv)
    (@bind A B).
Proof.
  intros p q Hpq f g Hfg Q; rewrite !wp_bind, (Hpq _).
  split; intros H; (eapply wp_mono; [exact H|]); intros tr [a|w]; try done;
    intros HQ; apply Hfg, HQ.
Qed.

Lemma bind_ret_r {A} (p : prog E A) : prog_equiv (bind p Ret) p.
Proof.
  intros Q; rewrite wp_bind; split; intros H; (eapply wp_mono; [exact H|]);
    intros tr [a|w]; cbn; rewrite ?app_nil_r; auto.
Qed.

Lemma bind_assoc {A B C} (p : prog E A) (f : A -> prog E B) (g : B -> prog E C) :
  prog_equiv (bind (bind p f) g) (bind p (fun a => bind (f a) g)).
Proof.
  intros Q; rewrite !wp_bind; split; intros H; (eapply wp_mono; [exact H|]);
    intros tr [a|w]; try done; rewrite !wp_bind; intros H'; (eapply wp_mono; [exact H'|]);
    intros tr' [b|w']; cbn; try done; intros H''; (eapply wp_mono; [exact H''|]);
    intros tr'' o; first [by rewrite app_assoc | by rewrite <- app_assoc].
Qed.
End programs.

Arguments wp {E A} p Q.
Arguments run {E A S} h p s.

Notation "'let!' x := p 'in' q" := (bind p (fun x => q))
  (at level 10, x name, p at level 100, q at level 200) : dop_scope.
Notation "'let!' ' pat := p 'in' q" := (bind p (fun x => match x with pat => q end))
  (at level 10, pat strict pattern, p at level 100, q at level 200) : dop_scope.
Notation "p ;;; q" := (bind p (fun _ => q))
  (at level 100, right associativity) : dop_scope.

(** [wp_step] computes through the head of a program; [wp_cases] splits on
    the first conditional or match that blocks it and closes the branches
    that computation settles. *)
Ltac wp_step := cbn [wp bind call]; intros.
Ltac case_match_goal :=
  match goal with
  | |- context [match ?x with _ => _ end] => destruct x eqn:?
  end.
