(* ===== verification/GoStr.v ===== *)
(** Go strings and numbers: the functions of the Go packages [strings],
    [strconv] and [fmt] that the controllers use, on byte strings.  Case and
    white space are those of ASCII (Kubernetes names, Doris hosts and
    configuration keys are ASCII). *)

From Stdlib Require Import ZArith Lia Ascii.
From stdpp Require Import base list gmap strings.
From S2P Require Import Prelude.

Local Open Scope string_scope.
Local Open Scope Z_scope.

(** ** Errors *)

(** The classes of API errors the code tells apart ([apierrors.IsNotFound],
    [IsConflict], [IsAlreadyExists]); every other error is [ReasonOther]. *)
Inductive reason := ReasonNotFound | ReasonAlreadyExists | ReasonConflict | ReasonOther.
#[export] Instance reason_eq_dec : EqDecision reason.
Proof. solve_decision. Defined.

Record goerr := mkErr { err_reason : reason; err_msg : string }.
#[export] Instance goerr_eq_dec : EqDecision goerr.
Proof. solve_decision. Defined.

Definition IsNotFound (e : goerr) : bool := bool_decide (err_reason e = ReasonNotFound).
Definition IsAlreadyExists (e : goerr) : bool := bool_decide (err_reason e = ReasonAlreadyExists).
Definition IsConflict (e : goerr) : bool := bool_decide (err_reason e = ReasonConflict).

(** [errors.New], and [fmt.Errorf] with a [%w] verb, which keeps the class. *)
Definition errorsNew (m : string) : goerr := mkErr ReasonOther m.
Definition wrapErr (prefix : string) (e : goerr) : goerr :=
  mkErr (err_reason e) (prefix +:+ err_msg e).

(** A call that returns a value and an error: exactly one is meaningful. *)
Inductive res (A : Type) := Ok (a : A) | Er (e : goerr).
Arguments Ok {A} a.
Arguments Er {A} e.

(** ** Characters *)

Definition ch_code (c : ascii) : Z := Z.of_nat (nat_of_ascii c).
Definition is_digit (c : ascii) : bool := (48 <=? ch_code c) && (ch_code c <=? 57).
Definition is_upper (c : ascii) : bool := (65 <=? ch_code c) && (ch_code c <=? 90).
Definition is_lower (c : ascii) : bool := (97 <=? ch_code c) && (ch_code c <=? 122).
Definition is_space (c : ascii) : bool :=
  (ch_code c =? 32) || ((9 <=? ch_code c) && (ch_code c <=? 13)).
Definition digit_of (d : Z) : ascii := ascii_of_nat (Z.to_nat (48 + d)).
Definition to_lower_ch (c : ascii) : ascii :=
  if is_upper c then ascii_of_nat (Z.to_nat (ch_code c + 32)) else c.

(** ** Package strings *)

Fixpoint str_map (f : ascii -> ascii) (s : string) : string :=
  match s with
  | "" => ""
  | String c s' => String (f c) (str_map f s')
  end.

Fixpoint str_forallb (f : ascii -> bool) (s : string) : bool :=
  match s with
  | "" => true
  | String c s' => f c && str_forallb f s'
  end.

Definition ToLower (s : string) : string := str_map to_lower_ch s.
Definition EqualFold (s t : string) : bool := bool_decide (ToLower s = ToLower t).

Fixpoint prefixb (p s : string) {struct p} : bool :=
  match p, s with
  | "", _ => true
  | String c p', String d s' => if ascii_dec c d then prefixb p' s' else false
  | String _ _, "" => false
  end.
Definition HasPrefix (s p : string) : bool := prefixb p s.

Fixpoint str_drop (n : nat) (s : string) : string :=
  match n, s with
  | S n', String _ s' => str_drop n' s'
  | _, _ => s
  end.

Fixpoint str_take (n : nat) (s : string) : string :=
  match n, s with
  | S n', String c s' => String c (str_take n' s')
  | _, _ => ""
  end.

Definition HasSuffix (s suf : string) : bool :=
  bool_decide (str_drop (String.length s - String.length suf) s = suf).

(** [strings.Split] with a non-empty separator: [skip] counts the characters
    of a separator occurrence still to pass over, [cur] is the current piece. *)
Fixpoint split_aux (sep : string) (skip : nat) (cur s : string) : list string :=
  match s with
  | "" => [cur]
  | String c s' =>
      match skip with
      | S k => split_aux sep k cur s'
      | O => if prefixb sep s
             then cur :: split_aux sep (String.length sep - 1) "" s'
             else split_aux sep 0 (cur +:+ String c "") s'
      end
  end.
Definition Split (s sep : string) : list string := split_aux sep 0 "" s.

Fixpoint Join (l : list string) (sep : string) : string :=
  match l with
  | [] => ""
  | [x] => x
  | x :: l' => x +:+ sep +:+ Join l' sep
  end.

(** [strings.ReplaceAll] with a non-empty pattern. *)
Definition ReplaceAll (s old new : string) : string := Join (Split s old) new.

Fixpoint trim_left (s : string) : string :=
  match s with
  | String c s' => if is_space c then trim_left s' else s
  | "" => ""
  end.
Fixpoint trim_right (s : string) : string :=
  match s with
  | "" => ""
  | String c s' =>
      match trim_right s' with
      | "" => if is_space c then "" else String c ""
      | t => String c t
      end
  end.
Definition TrimSpace (s : string) : string := trim_right (trim_left s).

(** ** Machine integers *)

Definition wrap (bits : Z) (n : Z) : Z :=
  let m := n mod 2 ^ bits in if m <? 2 ^ (bits - 1) then m else m - 2 ^ bits.
Definition int32 (n : Z) : Z := wrap 32 n.
Definition int64 (n : Z) : Z := wrap 64 n.
Definition in_int (bits : Z) (n : Z) : bool :=
  (- 2 ^ (bits - 1) <=? n) && (n <? 2 ^ (bits - 1)).

(** ** Package strconv *)

Fixpoint dec_go (fuel : nat) (n : Z) (acc : string) : string :=
  match fuel with
  | O => acc
  | S f =>
      let acc' := String (digit_of (n mod 10)) acc in
      if n <? 10 then acc' else dec_go f (n / 10) acc'
  end.

(** Decimal text of a natural number; [log2 n + 1] digits always suffice. *)
Definition dec (n : Z) : string := dec_go (S (Z.to_nat (Z.log2 n))) n "".

(** [strconv.Itoa], [strconv.FormatInt(n, 10)], [%d]. *)
Definition Itoa (n : Z) : string := if n <? 0 then "-" +:+ dec (- n) else dec n.

Fixpoint parse_digits (s : string) (acc : Z) : option Z :=
  match s with
  | "" => Some acc
  | String c s' =>
      if is_digit c then parse_digits s' (10 * acc + (ch_code c - 48)) else None
  end.

Inductive num_err := ErrSyntax | ErrRange.

(** [strconv.ParseInt(s, 10, bits)]: on a range error the value is the
    nearest bound, on a syntax error it is zero. *)
Definition ParseInt (s : string) (bits : Z) : Z * option num_err :=
  let signed (neg : bool) (body : string) :=
    match body with
    | "" => (0, Some ErrSyntax)
    | _ => match parse_digits body 0 with
           | None => (0, Some ErrSyntax)
           | Some m =>
               if neg
               then if 2 ^ (bits - 1) <? m then (- 2 ^ (bits - 1), Some ErrRange) else (- m, None)
               else if 2 ^ (bits - 1) <=? m then (2 ^ (bits - 1) - 1, Some ErrRange) else (m, None)
           end
    end in
  match s with
  | String "+" body => signed false body
  | String "-" body => signed true body
  | _ => signed false s
  end.

Definition hex_digit (n : Z) : ascii :=
  if n <? 10 then digit_of n else ascii_of_nat (Z.to_nat (87 + n)).

(** [strconv.Quote] on ASCII. *)
Fixpoint quote_body (s : string) : string :=
  match s with
  | "" => ""
  | String c s' =>
      let n := ch_code c in
      (if n =? 34 then "\" +:+ String c ""
       else if n =? 92 then "\\"
       else if n =? 7 then "\a" else if n =? 8 then "\b" else if n =? 12 then "\f"
       else if n =? 10 then "\n" else if n =? 13 then "\r" else if n =? 9 then "\t"
       else if n =? 11 then "\v"
       else if (n <? 32) || (n =? 127)
            then "\x" +:+ String (hex_digit (n / 16)) (String (hex_digit (n mod 16)) "")
       else String c "") +:+ quote_body s'
  end.
Definition dquote : string := String "034" "".
Definition Quote (s : string) : string := dquote +:+ quote_body s +:+ dquote.

Definition num_error (fn s : string) (e : num_err) : goerr :=
  errorsNew ("strconv." +:+ fn +:+ ": parsing " +:+ Quote s +:+ ": " +:+
    match e with ErrSyntax => "invalid syntax" | ErrRange => "value out of range" end).

(** [strconv.Atoi] on a 64-bit machine. *)
Definition Atoi (s : string) : res Z :=
  match ParseInt s 64 with
  | (n, None) => Ok n
  | (_, Some e) => Er (num_error "Atoi" s e)
  end.

(** [%t] *)
Definition fmt_bool (b : bool) : string := if b then "true" else "false".

(** ** Lemmas: characters and strings *)

#[global] Arguments String.append !_ _ / : simpl nomatch.

Lemma app_nil_str (s : string) : s +:+ "" = s.
Proof. induction s; cbn; congruence. Qed.

Lemma app_assoc_str (s t u : string) : (s +:+ t) +:+ u = s +:+ (t +:+ u).
Proof. induction s; cbn; congruence. Qed.

Lemma length_app_str (s t : string) :
  String.length (s +:+ t) = (String.length s + String.length t)%nat.
Proof. induction s; cbn; congruence. Qed.

Lemma app_inj_l_str (s t u : string) : s +:+ t = s +:+ u -> t = u.
Proof. induction s; cbn; [done | intros [=]; auto]. Qed.

Lemma length_zero_str (s : string) : String.length s = 0%nat -> s = "".
Proof. destruct s; cbn; [done | lia]. Qed.

#[export] Hint Rewrite app_nil_str app_assoc_str : gostr.

Lemma prefix_app (p s : string) : prefixb p (p +:+ s) = true.
Proof.
  induction p as [|c p IH]; [done | cbn].
  destruct (ascii_dec c c); [exact IH | congruence].
Qed.

Lemma prefix_spec (p s : string) :
  prefixb p s = true -> exists t, s = p +:+ t.
Proof.
  revert s; induction p as [|c p IH]; intros s H; [by exists s | destruct s as [|d s]; cbn in H].
  - done.
  - destruct (ascii_dec c d) as [->|]; [|done].
    destruct (IH s H) as [t ->]; by exists t.
Qed.

Lemma HasPrefix_app (p s : string) : HasPrefix (p +:+ s) p = true.
Proof. apply prefix_app. Qed.

Lemma str_drop_app (s t : string) : str_drop (String.length s) (s +:+ t) = t.
Proof. induction s as [|c s IH]; cbn; [by destruct t | exact IH]. Qed.

Lemma str_forallb_app f (s t : string) :
  str_forallb f (s +:+ t) = str_forallb f s && str_forallb f t.
Proof. induction s as [|c s IH]; cbn; [done | rewrite IH; apply andb_assoc]. Qed.

(** ** Lemmas: splitting and joining *)

Lemma Join_cons (x : string) l sep :
  l <> [] -> Join (x :: l) sep = x +:+ sep +:+ Join l sep.
Proof. by destruct l. Qed.

Lemma split_aux_nonnil sep k cur s : split_aux sep k cur s <> [].
Proof.
  revert k cur; induction s as [|c s IH]; intros [|k] cur; cbn [split_aux]; auto; try done.
  by destruct (prefixb sep (String c s)).
Qed.

Lemma split_aux_join sep : sep <> "" ->
  forall s k cur,
  (k <= String.length s)%nat ->
  Join (split_aux sep k cur s) sep =
  match k with
  | O => cur +:+ s
  | S _ => cur +:+ str_drop k s
  end.
Proof.
  intros Hsep s; induction s as [|c s IH]; intros k cur Hk.
  { destruct k; cbn in *; [by rewrite app_nil_str | lia]. }
  destruct k as [|k]; cbn [split_aux].
  - destruct (prefixb sep (String c s)) eqn:Hp.
    + rewrite Join_cons by apply split_aux_nonnil.
      destruct (prefix_spec _ _ Hp) as [t Ht].
      destruct sep as [|d sep]; [done|]. injection Ht as -> ->.
      replace (String.length (String d sep) - 1)%nat with (String.length sep) by (cbn; lia).
      rewrite IH by (rewrite length_app_str; lia).
      destruct sep as [|e sep]; cbn [String.length]; [done|].
      by rewrite (str_drop_app (String e sep) t : str_drop (S (String.length sep)) _ = t).
    + rewrite IH by lia. by rewrite app_assoc_str.
  - rewrite IH by (cbn in Hk; lia). by destruct k; destruct s.
Qed.

(** Joining the pieces of a split gives the string back. *)
Lemma Join_Split (s sep : string) : sep <> "" -> Join (Split s sep) sep = s.
Proof. intros H; unfold Split; rewrite split_aux_join by (done || lia); done. Qed.

(** ** Lemmas: decimal numbers *)

Lemma digit_of_spec d : 0 <= d < 10 ->
  is_digit (digit_of d) = true /\ ch_code (digit_of d) = 48 + d.
Proof.
  intros Hd.
  assert (Hc : ch_code (digit_of d) = 48 + d).
  { unfold ch_code, digit_of. rewrite nat_ascii_embedding by lia. lia. }
  split; [|exact Hc]. unfold is_digit. rewrite Hc.
  apply andb_true_iff; split; apply Z.leb_le; lia.
Qed.

Lemma dec_go_digits fuel n acc : 0 <= n ->
  str_forallb is_digit acc = true -> str_forallb is_digit (dec_go fuel n acc) = true.
Proof.
  revert n acc; induction fuel as [|f IH]; intros n acc Hn Hacc; cbn [dec_go]; [done|].
  assert (Hd : 0 <= n mod 10 < 10) by (apply Z.mod_pos_bound; lia).
  assert (H' : str_forallb is_digit (String (digit_of (n mod 10)) acc) = true).
  { cbn; by rewrite (proj1 (digit_of_spec _ Hd)). }
  destruct (n <? 10); [exact H' | apply IH; [apply Z.div_pos; lia | exact H']].
Qed.

Lemma parse_dec_go fuel n acc : 0 <= n < 10 ^ Z.of_nat fuel ->
  forall a, parse_digits (dec_go fuel n acc) a =
            parse_digits acc (a * 10 ^ (Z.of_nat (String.length (dec_go fuel n acc)) - Z.of_nat (String.length acc)) + n).
Proof.
  revert n acc; induction fuel as [|f IH]; intros n acc Hn a.
  { cbn in Hn; assert (n = 0) as -> by lia. cbn [dec_go].
    rewrite Z.sub_diag; cbn; f_equal; lia. }
  cbn [dec_go].
  assert (Hd : 0 <= n mod 10 < 10) by (apply Z.mod_pos_bound; lia).
  destruct (digit_of_spec _ Hd) as [Hdig Hcode].
  destruct (Z.ltb_spec n 10) as [Hlt|Hge].
  - cbn [parse_digits String.length]; rewrite Hdig, Hcode.
    rewrite Z.mod_small by lia. f_equal.
    replace (Z.of_nat (S (String.length acc)) - Z.of_nat (String.length acc)) with 1 by lia. lia.
  - assert (Hq : 0 <= n / 10 < 10 ^ Z.of_nat f).
    { split; [apply Z.div_pos; lia|]. apply Z.div_lt_upper_bound; [lia|].
      rewrite <- Z.pow_succ_r by lia. replace (Z.succ (Z.of_nat f)) with (Z.of_nat (S f)) by lia. lia. }
    rewrite (IH _ _ Hq). cbn [parse_digits String.length]; rewrite Hdig, Hcode.
    f_equal.
    set (L := Z.of_nat (String.length (dec_go f (n / 10) (String (digit_of (n mod 10)) acc)))).
    assert (HL : Z.of_nat (String.length acc) + 1 <= L).
    { subst L. clear. generalize (n / 10) (digit_of (n mod 10)); intros m c.
      enough (forall f m acc, (String.length acc <= String.length (dec_go f m acc))%nat) as Hle.
      { specialize (Hle f m (String c acc)); cbn [String.length] in Hle; lia. }
      clear; induction f as [|f IH]; intros m acc; cbn; [lia|].
      destruct (m <? 10); cbn; [lia|].
      specialize (IH (m / 10) (String (digit_of (m mod 10)) acc)); cbn in IH; lia. }
    replace (L - Z.of_nat (S (String.length acc))) with (L - Z.of_nat (String.length acc) - 1) by lia.
    pose proof (Z.div_mod n 10 ltac:(lia)) as Hdm.
    replace (a * 10 ^ (L - Z.of_nat (String.length acc)))
      with (10 * (a * 10 ^ (L - Z.of_nat (String.length acc) - 1))).
    2:{ replace (L - Z.of_nat (String.length acc)) with (Z.succ (L - Z.of_nat (String.length acc) - 1)) at 2 by lia.
        rewrite Z.pow_succ_r by lia. ring. }
    lia.
Qed.

Lemma dec_fuel n : 0 <= n -> n < 10 ^ Z.of_nat (S (Z.to_nat (Z.log2 n))).
Proof.
  intros Hn. destruct (Z.eq_dec n 0) as [->|Hnz]; [cbn; lia|].
  destruct (Z.log2_spec n) as [_ Hup]; [lia|].
  eapply Z.lt_le_trans; [exact Hup|].
  pose proof (Z.log2_nonneg n).
  replace (Z.of_nat (S (Z.to_nat (Z.log2 n)))) with (Z.succ (Z.log2 n)) by lia.
  apply Z.pow_le_mono_l; lia.
Qed.

Lemma parse_dec n : 0 <= n -> parse_digits (dec n) 0 = Some n.
Proof.
  intros Hn; unfold dec. rewrite parse_dec_go by (split; [lia | by apply dec_fuel]).
  cbn. f_equal; lia.
Qed.

Lemma dec_digits n : 0 <= n -> str_forallb is_digit (dec n) = true.
Proof. intros Hn; by apply dec_go_digits. Qed.

Lemma dec_go_nonempty f n acc : dec_go (S f) n acc <> "".
Proof.
  revert n acc; induction f as [|f IH]; intros n acc; cbn [dec_go]; [by destruct (n <? 10)|].
  destruct (n <? 10); [done|]. apply IH.
Qed.
Lemma dec_nonempty n : dec n <> "".
Proof. apply dec_go_nonempty. Qed.

Lemma dec_head n : 0 <= n -> exists c s, dec n = String c s /\ is_digit c = true.
Proof.
  intros Hn. pose proof (dec_digits n Hn) as Hd. pose proof (dec_nonempty n) as Hne.
  destruct (dec n) as [|c s]; [done|]. exists c, s; split; [done|].
  cbn in Hd; by apply andb_true_iff in Hd as [? _].
Qed.

Lemma ParseInt_dec n bits : 0 <= n < 2 ^ (bits - 1) -> ParseInt (dec n) bits = (n, None).
Proof.
  intros [Hn Hb]. destruct (dec_head n Hn) as (c & s & Hs & Hc).
  pose proof (parse_dec n Hn) as Hp. unfold ParseInt. rewrite Hs in *.
  assert (Hplus : c <> "+"%char) by (intros ->; done).
  assert (Hminus : c <> "-"%char) by (intros ->; done).
  assert ((2 ^ (bits - 1) <=? n) = false) as Hr by (apply Z.leb_gt; lia).
  destruct c as [[] [] [] [] [] [] [] []]; try (by destruct Hplus); try (by destruct Hminus);
    rewrite Hp, Hr; reflexivity.
Qed.

Lemma pow2_bits_pos bits : 0 < 2 ^ bits \/ 2 ^ bits = 0.
Proof. destruct (Z.lt_ge_cases bits 0); [right; by apply Z.pow_neg_r | left; apply Z.pow_pos_nonneg; lia]. Qed.

(** Printing then parsing a 64-bit integer gives it back. *)
Lemma Atoi_Itoa n : in_int 64 n = true -> Atoi (Itoa n) = Ok n.
Proof.
  unfold in_int; intros [Hlo Hhi]%andb_true_iff.
  apply Z.leb_le in Hlo; apply Z.ltb_lt in Hhi. unfold Atoi, Itoa.
  destruct (Z.ltb_spec n 0) as [Hneg|Hpos].
  - destruct (dec_head (- n)) as (c & s & Hs & _); [lia|].
    pose proof (parse_dec (- n) ltac:(lia)) as Hp. unfold ParseInt.
    cbn [String.append]. rewrite Hs in *. rewrite Hp.
    assert ((2 ^ (64 - 1) <? - n) = false) as -> by (apply Z.ltb_ge; lia).
    by rewrite Z.opp_involutive.
  - by rewrite ParseInt_dec by lia.
Qed.

Lemma wrap_id bits n : 0 < bits -> in_int bits n = true -> wrap bits n = n.
Proof.
  unfold in_int, wrap; intros Hb [Hlo Hhi]%andb_true_iff.
  apply Z.leb_le in Hlo; apply Z.ltb_lt in Hhi.
  assert (Hp : 2 ^ bits = 2 * 2 ^ (bits - 1)).
  { replace bits with (Z.succ (bits - 1)) at 1 by lia. apply Z.pow_succ_r; lia. }
  assert (0 < 2 ^ (bits - 1)) by (apply Z.pow_pos_nonneg; lia).
  destruct (Z.lt_ge_cases n 0) as [Hn|Hn].
  - assert (Hm : n mod 2 ^ bits = n + 2 ^ bits).
    { symmetry; apply (Z.mod_unique_pos n (2 ^ bits) (-1)); lia. }
    rewrite Hm. destruct (Z.ltb_spec (n + 2 ^ bits) (2 ^ (bits - 1))); lia.
  - rewrite Z.mod_small by lia. destruct (Z.ltb_spec n (2 ^ (bits - 1))); lia.
Qed.

Lemma wrap_in_int bits n : 0 < bits -> in_int bits (wrap bits n) = true.
Proof.
  unfold in_int, wrap; intros Hb.
  assert (Hp : 2 ^ bits = 2 * 2 ^ (bits - 1)).
  { replace bits with (Z.succ (bits - 1)) at 1 by lia. apply Z.pow_succ_r; lia. }
  assert (0 < 2 ^ (bits - 1)) by (apply Z.pow_pos_nonneg; lia).
  pose proof (Z.mod_pos_bound n (2 ^ bits) ltac:(lia)).
  destruct (Z.ltb_spec (n mod 2 ^ bits) (2 ^ (bits - 1))); apply andb_true_iff;
    split; (apply Z.leb_le || apply Z.ltb_lt); lia.
Qed.

(** ** Lemmas: joining the host name of a pod *)

(** A piece without the separator's first character is not split. *)
Fixpoint has_char (c : ascii) (s : string) : bool :=
  match s with
  | "" => false
  | String d s' => if ascii_dec c d then true else has_char c s'
  end.

Lemma has_char_app c s t : has_char c (s +:+ t) = has_char c s || has_char c t.
Proof. induction s as [|d s IH]; cbn; [done|]. by destruct (ascii_dec c d). Qed.

Lemma prefix_single c s : prefixb (String c "") s =
  match s with String d _ => if ascii_dec c d then true else false | "" => false end.
Proof. destruct s as [|d s]; cbn; [done|]. by destruct (ascii_dec c d). Qed.

Lemma split_char_nil c s cur : has_char c s = false ->
  split_aux (String c "") 0 cur s = [cur +:+ s].
Proof.
  revert cur; induction s as [|d s IH]; intros cur H; cbn [split_aux].
  { by rewrite app_nil_str. }
  rewrite prefix_single. cbn in H. destruct (ascii_dec c d); [done|].
  rewrite IH by done. by rewrite app_assoc_str.
Qed.

Lemma split_char_app c s t cur : has_char c s = false ->
  split_aux (String c "") 0 cur (s +:+ String c t) =
  (cur +:+ s) :: split_aux (String c "") 0 "" t.
Proof.
  revert cur; induction s as [|d s IH]; intros cur H; cbn [split_aux String.append].
  - rewrite prefix_single. destruct (ascii_dec c c); [|done]. by rewrite app_nil_str.
  - rewrite prefix_single. cbn in H. destruct (ascii_dec c d); [done|].
    rewrite IH by done. by rewrite app_assoc_str.
Qed.

Lemma split_char_last c s t cur : has_char c t = false ->
  List.last (split_aux (String c "") 0 cur (s +:+ String c t)) "" = t.
Proof.
  intros Ht; revert cur; induction s as [|d s IH]; intros cur; cbn [split_aux String.append];
    rewrite prefix_single.
  - destruct (ascii_dec c c); [|done]. by rewrite split_char_nil.
  - destruct (ascii_dec c d) as [<-|].
    + cbn [String.length Nat.sub]. specialize (IH "").
      destruct (split_aux (String c "") 0 "" (s +:+ String c t)) eqn:E; [by apply split_aux_nonnil in E | exact IH].
    + apply IH.
Qed.

Lemma digits_no_char c s : is_digit c = false -> str_forallb is_digit s = true -> has_char c s = false.
Proof.
  intros Hc; induction s as [|d s IH]; cbn; [done|].
  intros [Hd Hs]%andb_true_iff. destruct (ascii_dec c d) as [->|]; [congruence | auto].
Qed.

(** ** Lemmas: printed integers *)

Lemma ParseInt_Itoa n bits : in_int bits n = true -> ParseInt (Itoa n) bits = (n, None).
Proof.
  unfold in_int; intros [Hlo Hhi]%andb_true_iff.
  apply Z.leb_le in Hlo; apply Z.ltb_lt in Hhi. unfold Itoa.
  destruct (Z.ltb_spec n 0) as [Hneg|Hpos]; [|by rewrite ParseInt_dec by lia].
  destruct (dec_head (- n)) as (c & s & Hs & _); [lia|].
  pose proof (parse_dec (- n) ltac:(lia)) as Hp. unfold ParseInt.
  cbn [String.append]. rewrite Hs in *. rewrite Hp.
  assert ((2 ^ (bits - 1) <? - n) = false) as -> by (apply Z.ltb_ge; lia).
  by rewrite Z.opp_involutive.
Qed.

Definition no_zero_head (s : string) : Prop :=
  match s with String c _ => c <> "0"%char | "" => False end.

Lemma dec_go_head f n acc : 0 < n -> n < 10 ^ Z.of_nat f -> no_zero_head (dec_go f n acc).
Proof.
  revert n acc; induction f as [|f IH]; intros n acc Hn Hf; [cbn in Hf; lia|].
  cbn [dec_go]. destruct (Z.ltb_spec n 10) as [Hlt|Hge].
  - cbn. rewrite Z.mod_small by lia. intros Hc.
    pose proof (proj2 (digit_of_spec n ltac:(lia))) as Hcode.
    rewrite Hc in Hcode. change (ch_code "0"%char) with 48 in Hcode. lia.
  - apply IH; [apply Z.div_str_pos; lia|].
    apply Z.div_lt_upper_bound; [lia|].
    rewrite <- Z.pow_succ_r by lia. by replace (Z.succ (Z.of_nat f)) with (Z.of_nat (S f)) by lia.
Qed.

Lemma dec_no_zero_head n : 0 < n -> no_zero_head (dec n).
Proof. intros Hn; apply dec_go_head; [done | apply dec_fuel; lia]. Qed.

Lemma Itoa_nonempty n : Itoa n <> "".
Proof. unfold Itoa; destruct (n <? 0); [done | apply dec_nonempty]. Qed.

#[export] Hint Resolve dec_nonempty Itoa_nonempty dec_digits : dop.

(** ** Lemmas: the range of a parsed integer, and splitting at a given place *)

Lemma parse_digits_nonneg s a m : 0 <= a -> parse_digits s a = Some m -> 0 <= m.
Proof.
  revert a; induction s as [|c s IH]; intros a Ha; cbn; [intros [= <-]; done|].
  destruct (is_digit c) eqn:Hd; [|done]. apply IH.
  unfold is_digit in Hd. apply andb_true_iff in Hd as [Hlo _]. apply Z.leb_le in Hlo. lia.
Qed.

Lemma ParseInt_range s bits n : 0 < bits -> ParseInt s bits = (n, None) -> in_int bits n = true.
Proof.
  intros Hb. pose proof (Z.pow_pos_nonneg 2 (bits - 1) ltac:(lia) ltac:(lia)) as Hpow.
  set (signed := fun (neg : bool) body => match body with
    | "" => (0, Some ErrSyntax)
    | _ => match parse_digits body 0 with
           | None => (0, Some ErrSyntax)
           | Some m =>
               if neg then if 2 ^ (bits - 1) <? m then (- 2 ^ (bits - 1), Some ErrRange) else (- m, None)
               else if 2 ^ (bits - 1) <=? m then (2 ^ (bits - 1) - 1, Some ErrRange) else (m, None)
           end
    end).
  assert (Hs : forall neg body, signed neg body = (n, None) -> in_int bits n = true).
  { intros neg body. unfold signed. destruct body as [|c body]; [done|].
    destruct (parse_digits _ 0) as [m|] eqn:Em; [|done]. apply parse_digits_nonneg in Em; [|lia].
    unfold in_int. destruct neg.
    - destruct (Z.ltb_spec (2 ^ (bits - 1)) m); [done|]. intros [= <-].
      apply andb_true_iff; split; [apply Z.leb_le | apply Z.ltb_lt]; lia.
    - destruct (Z.leb_spec (2 ^ (bits - 1)) m); [done|]. intros [= <-].
      apply andb_true_iff; split; [apply Z.leb_le | apply Z.ltb_lt]; lia. }
  unfold ParseInt. destruct s as [|[b0 b1 b2 b3 b4 b5 b6 b7] s']; [exact (Hs false "")|].
  destruct b0, b1, b2, b3, b4, b5, b6, b7; cbv beta zeta;
    lazymatch goal with
    | |- context [parse_digits (String ?a s') 0] => exact (Hs false (String a s'))
    | _ => first [exact (Hs true s') | exact (Hs false s')]
    end.
Qed.

(** [sep] occurs in [s] at one of the first [n] places. *)
Fixpoint occurs_within (n : nat) (sep s : string) : bool :=
  match n with
  | O => false
  | S m => prefixb sep s || match s with "" => false | String _ s' => occurs_within m sep s' end
  end.

Lemma split_aux_skip sep u t cur : split_aux sep (String.length u) cur (u +:+ t) = split_aux sep 0 cur t.
Proof. induction u as [|c u IH]; [done|]. exact IH. Qed.

Lemma split_at sep p t cur : sep <> "" -> occurs_within (String.length p) sep (p +:+ sep +:+ t) = false ->
  split_aux sep 0 cur (p +:+ sep +:+ t) = (cur +:+ p) :: split_aux sep 0 "" t.
Proof.
  intros Hsep; revert cur; induction p as [|c p IH]; intros cur Hocc.
  - destruct sep as [|d sep]; [done|]. rewrite app_nil_str.
    change ("" +:+ String d sep +:+ t) with (String d (sep +:+ t)). cbn [split_aux].
    change (String d (sep +:+ t)) with (String d sep +:+ t) at 1. rewrite prefix_app. f_equal.
    cbn [String.length]. rewrite Nat.sub_succ, Nat.sub_0_r. apply split_aux_skip.
  - cbn [String.length occurs_within] in Hocc. apply orb_false_iff in Hocc as [Hp Hocc].
    change (String c p +:+ sep +:+ t) with (String c (p +:+ sep +:+ t)) in *. cbn [split_aux].
    rewrite Hp. rewrite IH by done. by rewrite app_assoc_str.
Qed.

Lemma prefix_has_char c p s : has_char c p = true -> prefixb p s = true -> has_char c s = true.
Proof. intros Hc Hp. destruct (prefix_spec _ _ Hp) as [t ->]. by rewrite has_char_app, Hc. Qed.

Lemma split_no_char sep c s cur : has_char c sep = true -> has_char c s = false ->
  split_aux sep 0 cur s = [cur +:+ s].
Proof.
  intros Hsep; revert cur; induction s as [|d s IH]; intros cur Hs; cbn [split_aux]; [by rewrite app_nil_str|].
  destruct (prefixb sep (String d s)) eqn:Hp.
  { exfalso. pose proof (prefix_has_char _ _ _ Hsep Hp). congruence. }
  cbn in Hs. destruct (ascii_dec c d); [done|]. rewrite IH by done. by rewrite app_assoc_str.
Qed.

(** Replacing one character is a map over the characters. *)
Definition replace_ch (c d x : ascii) : ascii := if Ascii.eqb x c then d else x.

Lemma str_map_app f (s t : string) : str_map f (s +:+ t) = str_map f s +:+ str_map f t.
Proof. induction s as [|x s IH]; [done|]. cbn. f_equal. exact IH. Qed.

Lemma replace_char c d s cur :
  Join (split_aux (String c "") 0 cur s) (String d "") = cur +:+ str_map (replace_ch c d) s.
Proof.
  revert cur; induction s as [|x s IH]; intros cur; [by rewrite app_nil_str|].
  cbn [split_aux str_map]. rewrite prefix_single. unfold replace_ch at 1.
  destruct (ascii_dec c x) as [->|Hne]; [rewrite Ascii.eqb_refl | replace (Ascii.eqb x c) with false by (symmetry; by apply Ascii.eqb_neq, not_eq_sym)].
  - cbn [String.length Nat.sub]. rewrite Join_cons by apply split_aux_nonnil. by rewrite IH.
  - rewrite IH, app_assoc_str. done.
Qed.

Lemma ReplaceAll_char c d s : ReplaceAll s (String c "") (String d "") = str_map (replace_ch c d) s.
Proof. unfold ReplaceAll, Split. by rewrite replace_char. Qed.

(** Until the first place where the separator occurs, the first piece grows. *)
Lemma split_head sep p t cur : occurs_within (String.length p) sep (p +:+ t) = false ->
  exists u l, split_aux sep 0 cur (p +:+ t) = (cur +:+ p +:+ u) :: l.
Proof.
  revert cur; induction p as [|c p IH]; intros cur Hocc.
  - change ("" +:+ t) with t. revert cur; induction t as [|c t IHt]; intros cur; cbn [split_aux].
    + exists "", []. by rewrite app_nil_str.
    + destruct (prefixb sep (String c t)); [by exists "", (split_aux sep (String.length sep - 1) "" t);
        rewrite app_nil_str|].
      destruct (IHt eq_refl (cur +:+ String c "")) as (u & l & Hl). exists (String c u), l.
      rewrite Hl. by rewrite app_assoc_str.
  - cbn [String.length occurs_within] in Hocc. apply orb_false_iff in Hocc as [Hp Hocc].
    change (String c p +:+ t) with (String c (p +:+ t)) in *. cbn [split_aux]. rewrite Hp.
    destruct (IH (cur +:+ String c "") Hocc) as (u & l & Hl). exists u, l.
    rewrite Hl. by rewrite app_assoc_str.
Qed.

(** A separator without the character that ends [q], and with a character that
    [q] lacks, does not occur from within [q]. *)
Lemma not_occurs_before sep c d q t :
  has_char c sep = false -> has_char d sep = true -> has_char d (q +:+ String c "") = false ->
  occurs_within (String.length (q +:+ String c "")) sep ((q +:+ String c "") +:+ t) = false.
Proof.
  intros Hc Hd.
  assert (Hpre : forall r, has_char d (r +:+ String c "") = false -> prefixb sep ((r +:+ String c "") +:+ t) = false).
  { intros r Hr. destruct (prefixb sep ((r +:+ String c "") +:+ t)) eqn:Hp; [|done]. exfalso.
    revert Hd Hc Hr Hp. generalize sep as s. induction r as [|x r IH]; intros s Hd Hc Hr Hp; destruct s as [|y s]; try done; cbn in *.
    - destruct (ascii_dec y c) as [->|]; [|done]. by destruct (ascii_dec c c).
    - destruct (ascii_dec y x) as [->|]; [|done]. destruct (ascii_dec d x); [done|]. destruct (ascii_dec c x); [done|]. by apply (IH s). }
  induction q as [|x q IH]; intros Hq; pose proof (Hpre _ Hq) as H1; revert H1.
  - intros H1. change (prefixb sep (String c t) || false = false). by rewrite orb_false_r.
  - intros H1. change (prefixb sep ((String x q +:+ String c "") +:+ t) ||
      occurs_within (String.length (q +:+ String c "")) sep ((q +:+ String c "") +:+ t) = false).
    rewrite H1. apply IH. cbn in Hq. by destruct (ascii_dec d x).
Qed.
