(* ===== verification/Regex.v ===== *)
(** Regular expressions of package regexp, as far as the operator uses them:
    an abstract syntax, a matcher by derivatives, and its correctness against
    the language of an expression.  [search] is [regexp.Match]: some substring
    matches. *)

From Stdlib Require Import ZArith Lia Ascii.
From stdpp Require Import base list strings.
From S2P Require Import Prelude GoStr.

Local Open Scope string_scope.
Local Open Scope Z_scope.

(** [RClass ranges] is a character class, a list of inclusive ranges of codes. *)
Inductive regex :=
| RNone
| REps
| RClass (ranges : list (Z * Z))
| RSeq (r1 r2 : regex)
| RAlt (r1 r2 : regex)
| RStar (r : regex).

Definition in_class (ranges : list (Z * Z)) (c : ascii) : bool :=
  existsb (fun '(lo, hi) => (lo <=? ch_code c) && (ch_code c <=? hi)) ranges.

Definition ROpt (r : regex) : regex := RAlt r REps.

(** ** Language *)

Inductive lang : regex -> string -> Prop :=
| lang_eps : lang REps ""
| lang_class l c : in_class l c = true -> lang (RClass l) (String c "")
| lang_seq r1 r2 s t : lang r1 s -> lang r2 t -> lang (RSeq r1 r2) (s +:+ t)
| lang_alt_l r1 r2 s : lang r1 s -> lang (RAlt r1 r2) s
| lang_alt_r r1 r2 s : lang r2 s -> lang (RAlt r1 r2) s
| lang_star_nil r : lang (RStar r) ""
| lang_star_cons r s t : lang r s -> lang (RStar r) t -> lang (RStar r) (s +:+ t).

(** ** Matcher *)

Fixpoint nullable (r : regex) : bool :=
  match r with
  | RNone | RClass _ => false
  | REps | RStar _ => true
  | RSeq r1 r2 => nullable r1 && nullable r2
  | RAlt r1 r2 => nullable r1 || nullable r2
  end.

Fixpoint deriv (c : ascii) (r : regex) : regex :=
  match r with
  | RNone | REps => RNone
  | RClass l => if in_class l c then REps else RNone
  | RSeq r1 r2 => if nullable r1 then RAlt (RSeq (deriv c r1) r2) (deriv c r2) else RSeq (deriv c r1) r2
  | RAlt r1 r2 => RAlt (deriv c r1) (deriv c r2)
  | RStar r => RSeq (deriv c r) (RStar r)
  end.

(** Some prefix of [s] is in the language. *)
Fixpoint match_prefix (r : regex) (s : string) : bool :=
  nullable r || match s with "" => false | String c s' => match_prefix (deriv c r) s' end.

Fixpoint search (r : regex) (s : string) : bool :=
  match_prefix r s || match s with "" => false | String _ s' => search r s' end.

(** ** Correctness *)

Lemma nullable_spec r : nullable r = true <-> lang r "".
Proof.
  split.
  - induction r; cbn; intros H; try done.
    + constructor.
    + apply andb_true_iff in H as [H1 H2]. change "" with ("" +:+ ""). constructor; auto.
    + apply orb_true_iff in H as [H|H]; [apply lang_alt_l | apply lang_alt_r]; auto.
    + constructor.
  - intros H. remember "" as e eqn:E. induction H; cbn; try done.
    + destruct s; [|done]. cbn in E. by rewrite IHlang1, IHlang2.
    + by rewrite IHlang.
    + rewrite IHlang by done. apply orb_true_r.
Qed.

Lemma lang_star_cons_inv r c s : lang (RStar r) (String c s) ->
  exists s1 s2, s = s1 +:+ s2 /\ lang r (String c s1) /\ lang (RStar r) s2.
Proof.
  intros H. remember (RStar r) as r' eqn:Er. remember (String c s) as t eqn:Et.
  revert s Et; induction H; intros s0 Et; try done.
  injection Er as ->. destruct s as [|d s1]; cbn in Et.
  - by apply IHlang2.
  - injection Et as -> <-. by exists s1, t.
Qed.

Lemma deriv_spec r c s : lang (deriv c r) s <-> lang r (String c s).
Proof.
  revert s; induction r as [| |l|r1 IH1 r2 IH2|r1 IH1 r2 IH2|r IH]; intros s; cbn.
  - split; intros H; inversion H.
  - split; intros H; inversion H.
  - destruct (in_class l c) eqn:E; split; intros H; inversion H; subst; try congruence; by constructor.
  - assert (Hseq : forall t, lang (RSeq (deriv c r1) r2) t <->
              exists t1 t2, t = t1 +:+ t2 /\ lang r1 (String c t1) /\ lang r2 t2).
    { intros t; split.
      - intros H; inversion H; subst. eexists _, _; split; [done|]. by rewrite <- IH1.
      - intros (t1 & t2 & -> & H1 & H2). constructor; [by apply IH1 | done]. }
    assert (Hcase : lang (RSeq r1 r2) (String c s) <->
              lang (RSeq (deriv c r1) r2) s \/ (nullable r1 = true /\ lang (deriv c r2) s)).
    { rewrite Hseq, nullable_spec, IH2. split.
      - intros H; inversion H as [| |? ? s1 s2 H1 H2 | | | |]; subst.
        destruct s1 as [|d s1]; cbn in *; [subst; by right|].
        match goal with E : String _ _ = String _ _ |- _ => injection E as -> <- end.
        left; by exists s1, s2.
      - intros [(t1 & t2 & -> & H1 & H2)|[H1 H2]].
        + change (String c (t1 +:+ t2)) with (String c t1 +:+ t2). by constructor.
        + change (String c s) with ("" +:+ String c s). by constructor. }
    rewrite Hcase. destruct (nullable r1).
    + split.
      * intros H; inversion H; subst; auto.
      * intros [H|[_ H]]; [by apply lang_alt_l | by apply lang_alt_r].
    + split; [auto | by intros [H|[? _]]].
  - split; intros H; inversion H; subst;
      first [apply lang_alt_l; first [by apply IH1 | done] | apply lang_alt_r; by apply IH2].
  - split.
    + intros H; inversion H; subst.
      match goal with |- lang _ (String c (?a +:+ ?b)) => change (String c (a +:+ b)) with (String c a +:+ b) end.
      constructor; [by apply IH | done].
    + intros (s1 & s2 & -> & H1 & H2)%lang_star_cons_inv. constructor; [by apply IH | done].
Qed.

Lemma match_prefix_spec r s :
  match_prefix r s = true <-> exists m q, s = m +:+ q /\ lang r m.
Proof.
  revert r; induction s as [|c s IH]; intros r; cbn; rewrite orb_true_iff, nullable_spec.
  - split; [intros [H|H]; [by exists "", ""|done]|].
    intros (m & q & E & H). destruct m; [by left|done].
  - rewrite IH. split.
    + intros [H|(m & q & -> & H)]; [by exists "", (String c s)|].
      exists (String c m), q. split; [done | by apply deriv_spec].
    + intros (m & q & E & H). destruct m as [|d m]; [by left|].
      cbn in E; injection E as -> ->. right. exists m, q. split; [done | by apply deriv_spec].
Qed.

Lemma search_spec r s :
  search r s = true <-> exists p m q, s = p +:+ m +:+ q /\ lang r m.
Proof.
  induction s as [|c s IH].
  - change (search r "") with (match_prefix r "" || false). rewrite orb_false_r, match_prefix_spec. split.
    + intros (m & q & E & H); by exists "", m, q.
    + intros ([|] & m & q & E & H); [by exists m, q | done].
  - change (search r (String c s)) with (match_prefix r (String c s) || search r s).
    rewrite orb_true_iff, match_prefix_spec, IH. split.
    + intros [(m & q & E & H)|(p & m & q & -> & H)]; [by exists "", m, q | by exists (String c p), m, q].
    + intros (p & m & q & E & H). destruct p as [|d p]; cbn in E; [left; by exists m, q|].
      injection E as -> ->. right; by exists p, m, q.
Qed.
