(* ===== verification/Json.v ===== *)
(** The part of Go's [encoding/json] that the controllers rely on: values, the
    encoder's text ([json.Marshal], HTML escaping on) and the decoder
    ([json.Unmarshal] into an [interface{}]).  Numbers keep their literal
    text.  Strings are read as UTF-8, and bytes that are not become U+FFFD both
    ways.  The decoder's nesting limit (10000) is not modelled. *)

From Stdlib Require Import ZArith Lia Ascii.
From stdpp Require Import base list gmap strings.
From S2P Require Import Prelude GoStr.

Local Open Scope string_scope.
Local Open Scope Z_scope.
Set Warnings "-register-all".

Inductive json :=
| JNull
| JBool (b : bool)
| JNum (lit : string)
| JStr (s : string)
| JArr (l : list json)
| JObj (l : list (string * json)).

(** ** UTF-8 *)

Definition byte_in (lo hi : Z) (c : ascii) : bool := (lo <=? ch_code c) && (ch_code c <=? hi).
Definition cont : ascii -> bool := byte_in 128 191.

(** The sequences of two, three and four bytes that are characters. *)
Definition rune2 (a b : ascii) : bool := byte_in 194 223 a && cont b.
Definition rune3 (a b c : ascii) : bool :=
  (byte_in 224 224 a && byte_in 160 191 b || (byte_in 225 236 a || byte_in 238 239 a) && cont b ||
   byte_in 237 237 a && byte_in 128 159 b) && cont c.
Definition rune4 (a b c d : ascii) : bool :=
  (byte_in 240 240 a && byte_in 144 191 b || byte_in 241 243 a && cont b || byte_in 244 244 a && byte_in 128 143 b) &&
  cont c && cont d.

(** The characters of a string as [utf8.DecodeRune] reads them; the empty string
    stands for a byte that begins none. *)
Fixpoint runes (s : string) : list string :=
  match s with
  | "" => []
  | String a s1 =>
      if ch_code a <? 128 then String a "" :: runes s1 else
      match s1 with
      | "" => [""]
      | String b s2 =>
          if rune2 a b then String a (String b "") :: runes s2 else
          match s2 with
          | "" => "" :: runes s1
          | String c s3 =>
              if rune3 a b c then String a (String b (String c "")) :: runes s3 else
              match s3 with
              | "" => "" :: runes s1
              | String d s4 =>
                  if rune4 a b c d then String a (String b (String c (String d ""))) :: runes s4
                  else "" :: runes s1
              end
          end
      end
  end.

Definition over_runes (f : string -> string) (s : string) : string := foldr (fun r t => f r +:+ t) "" (runes s).

(** U+FFFD, which stands for what is not UTF-8. *)
Definition rune_error : string := String "239" (String "191" (String "189" "")).
Definition coerce_rune (r : string) : string := match r with "" => rune_error | _ => r end.
Definition coerce : string -> string := over_runes coerce_rune.
Definition valid_utf8 (s : string) : bool := forallb (fun r => negb (bool_decide (r = ""))) (runes s).

(** ** Encoder *)

Definition encode_char (c : ascii) : string :=
  let n := ch_code c in
  if n =? 34 then String "\" (String c "")
  else if n =? 92 then "\\"
  else if n =? 8 then "\b" else if n =? 12 then "\f"
  else if n =? 10 then "\n" else if n =? 13 then "\r" else if n =? 9 then "\t"
  else if (n <? 32) || (n =? 60) || (n =? 62) || (n =? 38)
  then "\u00" +:+ String (hex_digit (n / 16)) (String (hex_digit (n mod 16)) "")
  else String c "".

(** A character of several bytes is written as it is, but for the line and the
    paragraph separator. *)
Definition encode_rune (r : string) : string :=
  match r with
  | "" => "\ufffd"
  | String c "" => encode_char c
  | _ => if decide (r = String "226" (String "128" (String "168" ""))) then "\u2028"
         else if decide (r = String "226" (String "128" (String "169" ""))) then "\u2029"
         else r
  end.
Definition encode_body : string -> string := over_runes encode_rune.
Definition encode_str (s : string) : string := dquote +:+ encode_body s +:+ dquote.

Fixpoint print_json (j : json) : string :=
  match j with
  | JNull => "null"
  | JBool b => fmt_bool b
  | JNum lit => lit
  | JStr s => encode_str s
  | JArr l =>
      "[" +:+ (fix elems (l : list json) : string :=
                 match l with
                 | [] => "]"
                 | [x] => print_json x +:+ "]"
                 | x :: l' => print_json x +:+ "," +:+ elems l'
                 end) l
  | JObj l =>
      "{" +:+ (fix members (l : list (string * json)) : string :=
                 match l with
                 | [] => "}"
                 | [(k, x)] => encode_str k +:+ ":" +:+ print_json x +:+ "}"
                 | (k, x) :: l' => encode_str k +:+ ":" +:+ print_json x +:+ "," +:+ members l'
                 end) l
  end.

(** ** Decoder *)

Fixpoint skip_ws (s : string) : string :=
  match s with
  | String c s' =>
      let n := ch_code c in
      if (n =? 32) || (n =? 9) || (n =? 10) || (n =? 13) then skip_ws s' else s
  | "" => ""
  end.

Definition hex_val (c : ascii) : option Z :=
  let n := ch_code c in
  if is_digit c then Some (n - 48)
  else if (97 <=? n) && (n <=? 102) then Some (n - 87)
  else if (65 <=? n) && (n <=? 70) then Some (n - 55)
  else None.

Definition hex4 (a b c d : ascii) : option Z :=
  match hex_val a, hex_val b, hex_val c, hex_val d with
  | Some w, Some x, Some y, Some z => Some (((w * 16 + x) * 16 + y) * 16 + z)
  | _, _, _, _ => None
  end.

Definition byte (n : Z) (s : string) : string := String (ascii_of_nat (Z.to_nat n)) s.

(** UTF-8 text of a code point; surrogates become U+FFFD. *)
Definition utf8 (n : Z) : string :=
  let n := if (55296 <=? n) && (n <=? 57343) then 65533 else n in
  if n <? 128 then byte n ""
  else if n <? 2048 then byte (192 + n / 64) (byte (128 + n mod 64) "")
  else if n <? 65536
  then byte (224 + n / 4096) (byte (128 + n / 64 mod 64) (byte (128 + n mod 64) ""))
  else byte (240 + n / 262144) (byte (128 + n / 4096 mod 64)
         (byte (128 + n / 64 mod 64) (byte (128 + n mod 64) ""))).

Definition prepend (p : string) (r : option (string * string)) : option (string * string) :=
  match r with Some (s, t) => Some (p +:+ s, t) | None => None end.

(** The characters of a string literal up to its closing quote. *)
Fixpoint parse_body (s : string) : option (string * string) :=
  match s with
  | "" => None
  | String c s1 =>
      let n := ch_code c in
      if n =? 34 then Some ("", s1)
      else if n =? 92 then
        match s1 with
        | "" => None
        | String e s2 =>
            let m := ch_code e in
            if (m =? 34) || (m =? 92) || (m =? 47) then prepend (String e "") (parse_body s2)
            else if m =? 98 then prepend (byte 8 "") (parse_body s2)
            else if m =? 102 then prepend (byte 12 "") (parse_body s2)
            else if m =? 110 then prepend (byte 10 "") (parse_body s2)
            else if m =? 114 then prepend (byte 13 "") (parse_body s2)
            else if m =? 116 then prepend (byte 9 "") (parse_body s2)
            else if m =? 117 then
              match s2 with
              | String h1 (String h2 (String h3 (String h4 s3))) =>
                  match hex4 h1 h2 h3 h4 with
                  | None => None
                  | Some u =>
                      match s3 with
                      | String b (String v (String g1 (String g2 (String g3 (String g4 s4))))) =>
                          match hex4 g1 g2 g3 g4 with
                          | Some u' =>
                              if (ch_code b =? 92) && (ch_code v =? 117) &&
                                 (55296 <=? u) && (u <=? 56319) && (56320 <=? u') && (u' <=? 57343)
                              then prepend (utf8 (65536 + (u - 55296) * 1024 + (u' - 56320))) (parse_body s4)
                              else prepend (utf8 u) (parse_body s3)
                          | None => prepend (utf8 u) (parse_body s3)
                          end
                      | _ => prepend (utf8 u) (parse_body s3)
                      end
                  end
              | _ => None
              end
            else None
        end
      else if n <? 32 then None
      else if n <? 128 then prepend (String c "") (parse_body s1)
      else
        match s1 with
        | "" => None
        | String d s2 =>
            if rune2 c d then prepend (String c (String d "")) (parse_body s2) else
            match s2 with
            | "" => prepend rune_error (parse_body s1)
            | String e s3 =>
                if rune3 c d e then prepend (String c (String d (String e ""))) (parse_body s3) else
                match s3 with
                | "" => prepend rune_error (parse_body s1)
                | String g s4 =>
                    if rune4 c d e g then prepend (String c (String d (String e (String g "")))) (parse_body s4)
                    else prepend rune_error (parse_body s1)
                end
            end
        end
  end.

(** The longest prefix of number characters, checked against the grammar. *)
Definition num_char (c : ascii) : bool :=
  let n := ch_code c in
  is_digit c || (n =? 45) || (n =? 43) || (n =? 46) || (n =? 101) || (n =? 69).

Fixpoint span (f : ascii -> bool) (s : string) : string * string :=
  match s with
  | "" => ("", "")
  | String c s' => if f c then let '(a, b) := span f s' in (String c a, b) else ("", s)
  end.

Definition digits1 (s : string) : bool := negb (bool_decide (s = "")) && str_forallb is_digit s.

Definition valid_exp (s : string) : bool :=
  match s with
  | "" => true
  | String e s' =>
      ((ch_code e =? 101) || (ch_code e =? 69)) &&
      match s' with
      | String g s'' => if (ch_code g =? 43) || (ch_code g =? 45) then digits1 s'' else digits1 s'
      | "" => false
      end
  end.

Definition valid_num (s : string) : bool :=
  let s := match s with String "-" s' => s' | _ => s end in
  let '(ip, r) := span is_digit s in
  digits1 ip && match ip with String "0" (String _ _) => false | _ => true end &&
  match r with
  | String "." r' => let '(fp, r'') := span is_digit r' in digits1 fp && valid_exp r''
  | _ => valid_exp r
  end.

Definition strip (p s : string) : option string :=
  if HasPrefix s p then Some (str_drop (String.length p) s) else None.

Fixpoint parse_value (fuel : nat) (s : string) : option (json * string) :=
  match fuel with
  | O => None
  | S f =>
      match skip_ws s with
      | "" => None
      | String c r as s0 =>
          let n := ch_code c in
          if n =? 123 then
            match skip_ws r with
            | "" => None
            | String d r' as r0 =>
                if ch_code d =? 125 then Some (JObj [], r')
                else match parse_members f r0 with
                     | Some (l, t) => Some (JObj l, t)
                     | None => None
                     end
            end
          else if n =? 91 then
            match skip_ws r with
            | "" => None
            | String d r' as r0 =>
                if ch_code d =? 93 then Some (JArr [], r')
                else match parse_elems f r0 with
                     | Some (l, t) => Some (JArr l, t)
                     | None => None
                     end
            end
          else if n =? 34 then
            match parse_body r with
            | Some (x, t) => Some (JStr x, t)
            | None => None
            end
          else if n =? 116 then
            match strip "true" s0 with Some t => Some (JBool true, t) | None => None end
          else if n =? 102 then
            match strip "false" s0 with Some t => Some (JBool false, t) | None => None end
          else if n =? 110 then
            match strip "null" s0 with Some t => Some (JNull, t) | None => None end
          else
            let '(lit, t) := span num_char s0 in
            if valid_num lit then Some (JNum lit, t) else None
      end
  end
with parse_members (fuel : nat) (s : string) : option (list (string * json) * string) :=
  match fuel with
  | O => None
  | S f =>
      match skip_ws s with
      | String q r =>
          if ch_code q =? 34 then
            match parse_body r with
            | None => None
            | Some (k, r1) =>
                match skip_ws r1 with
                | String ":" r2 =>
                    match parse_value f r2 with
                    | None => None
                    | Some (v, r3) =>
                        match skip_ws r3 with
                        | String "," r4 =>
                            match parse_members f r4 with
                            | Some (l, t) => Some ((k, v) :: l, t)
                            | None => None
                            end
                        | String "}" r4 => Some ([(k, v)], r4)
                        | _ => None
                        end
                    end
                | _ => None
                end
            end
          else None
      | "" => None
      end
  end
with parse_elems (fuel : nat) (s : string) : option (list json * string) :=
  match fuel with
  | O => None
  | S f =>
      match parse_value f s with
      | None => None
      | Some (v, r) =>
          match skip_ws r with
          | String "," r' =>
              match parse_elems f r' with
              | Some (l, t) => Some (v :: l, t)
              | None => None
              end
          | String "]" r' => Some ([v], r')
          | _ => None
          end
      end
  end.

(** Every recursive call of [parse_value] has consumed a character, and a
    member or element list adds one call per comma. *)
Definition parse_json (s : string) : option json :=
  match parse_value (S (2 * String.length s)) s with
  | Some (j, t) => if bool_decide (skip_ws t = "") then Some j else None
  | None => None
  end.

(** ** Decoding into Go types *)

(** Into a [map[string]interface{}]: later duplicates win; [null] leaves the
    nil map; any other value is a type error. *)
Definition json_to_map (j : json) : option (gmap string json) :=
  match j with
  | JObj l => Some (foldl (fun m '(k, v) => <[k := v]> m) ∅ l)
  | JNull => Some ∅
  | _ => None
  end.

(** Into a [map[string]string]: a [null] value is the empty string. *)
Definition json_to_strmap (j : json) : option (gmap string string) :=
  match j with
  | JObj l =>
      foldl (fun om '(k, v) =>
        match om, v with
        | Some m, JStr s => Some (<[k := s]> m)
        | Some m, JNull => Some (<[k := ""]> m)
        | _, _ => None
        end) (Some ∅) l
  | JNull => Some ∅
  | _ => None
  end.

Definition Unmarshal_map (s : string) : option (gmap string json) :=
  match parse_json s with Some j => json_to_map j | None => None end.
Definition Unmarshal_strmap (s : string) : option (gmap string string) :=
  match parse_json s with Some j => json_to_strmap j | None => None end.

(** ** The decoder inverts the encoder *)

Section json_ind.
Variable P : json -> Prop.
Hypothesis Hnull : P JNull.
Hypothesis Hbool : forall b, P (JBool b).
Hypothesis Hnum : forall l, P (JNum l).
Hypothesis Hstr : forall s, P (JStr s).
Hypothesis Harr : forall l, Forall P l -> P (JArr l).
Hypothesis Hobj : forall l, Forall (fun kv => P kv.2) l -> P (JObj l).

Fixpoint json_nested_ind (j : json) : P j :=
  match j with
  | JNull => Hnull
  | JBool b => Hbool b
  | JNum l => Hnum l
  | JStr s => Hstr s
  | JArr l => Harr l ((fix go l : Forall P l :=
      match l with [] => Forall_nil_2 _ | x :: l' => Forall_cons_2 _ _ _ (json_nested_ind x) (go l') end) l)
  | JObj l => Hobj l ((fix go (l : list (string * json)) : Forall (fun kv => P kv.2) l :=
      match l with
      | [] => Forall_nil_2 _
      | kx :: l' => Forall_cons_2 (fun kv => P kv.2) kx l' (json_nested_ind kx.2) (go l')
      end) l)
  end.
End json_ind.

(** Number literals a value may hold: the encoder prints them as they are. *)
Fixpoint wf_json (j : json) : Prop :=
  match j with
  | JNum lit => valid_num lit = true /\ str_forallb num_char lit = true
  | JArr l => (fix go l := match l with [] => True | x :: l' => wf_json x /\ go l' end) l
  | JObj l => (fix go l := match l with [] => True | (_, x) :: l' => wf_json x /\ go l' end) l
  | _ => True
  end.

(** A value with its strings coerced to UTF-8, and one that is so already. *)
Fixpoint coerce_json (j : json) : json :=
  match j with
  | JStr s => JStr (coerce s)
  | JArr l => JArr (List.map coerce_json l)
  | JObj l => JObj (List.map (fun '(k, x) => (coerce k, coerce_json x)) l)
  | _ => j
  end.
Fixpoint valid_json (j : json) : bool :=
  match j with
  | JStr s => valid_utf8 s
  | JArr l => forallb valid_json l
  | JObj l => forallb (fun '(k, x) => valid_utf8 k && valid_json x) l
  | _ => true
  end.

(** Recursive calls the decoder needs on the text of a value. *)
Fixpoint need (j : json) : nat :=
  match j with
  | JArr l => S ((fix go l := match l with [] => 0%nat | x :: l' => S (need x + go l') end) l)
  | JObj l => S ((fix go l := match l with [] => 0%nat | (_, x) :: l' => S (need x + go l') end) l)
  | _ => 1%nat
  end.

(** *** Characters *)

Inductive is_rune : string -> Prop :=
| rune_bad : is_rune ""
| rune_1 a : ch_code a < 128 -> is_rune (String a "")
| rune_2 a b : rune2 a b = true -> is_rune (String a (String b ""))
| rune_3 a b c : rune3 a b c = true -> is_rune (String a (String b (String c "")))
| rune_4 a b c d : rune4 a b c d = true -> is_rune (String a (String b (String c (String d "")))).
#[local] Hint Constructors is_rune : core.

(** How a string begins: with a character, or with a byte that begins none. *)
Lemma runes_cons a s1 : exists r rest, runes (String a s1) = r :: runes rest /\ is_rune r /\
  (r = "" /\ rest = s1 \/ r <> "" /\ String a s1 = r +:+ rest) /\ (String.length rest <= String.length s1)%nat.
Proof.
  cbn [runes]. destruct (Z.ltb_spec (ch_code a) 128).
  { exists (String a ""), s1. repeat split; [by constructor | by right | lia]. }
  destruct s1 as [|b s2]; [exists "", ""; repeat split; [done | by left | done]|].
  assert (Hbad : exists r rest, "" :: runes (String b s2) = r :: runes rest /\ is_rune r /\
    (r = "" /\ rest = String b s2 \/ r <> "" /\ String a (String b s2) = r +:+ rest) /\
    (String.length rest <= String.length (String b s2))%nat).
  { exists "", (String b s2). repeat split; [done | by left | lia]. }
  destruct (rune2 a b) eqn:E2; [exists (String a (String b "")), s2; repeat split; [auto | by right | cbn; lia]|].
  destruct s2 as [|c s3]; [done|].
  destruct (rune3 a b c) eqn:E3; [exists (String a (String b (String c ""))), s3; repeat split; [auto | by right | cbn; lia]|].
  destruct s3 as [|d s4]; [done|].
  destruct (rune4 a b c d) eqn:E4; [|done].
  exists (String a (String b (String c (String d "")))), s4; repeat split; [auto | by right | cbn; lia].
Qed.

Lemma runes_are s : Forall is_rune (runes s).
Proof.
  remember (String.length s) as n eqn:Hn. revert s Hn; induction n as [n IH] using lt_wf_ind; intros [|a s1] ->; [done|].
  destruct (runes_cons a s1) as (r & rest & -> & Hr & _ & Hlen). constructor; [done|]. eapply IH; [|done]. cbn; lia.
Qed.

Lemma coerce_valid s : valid_utf8 s = true -> coerce s = s.
Proof.
  unfold coerce, over_runes, valid_utf8.
  remember (String.length s) as n eqn:Hn. revert s Hn; induction n as [n IH] using lt_wf_ind; intros [|a s1] -> Hv; [done|].
  destruct (runes_cons a s1) as (r & rest & E & _ & Hor & Hlen). rewrite E in *. cbn [forallb foldr] in *.
  apply andb_true_iff in Hv as [Hr Hv]. rewrite (IH (String.length rest)) by (done || cbn; lia).
  destruct Hor as [[-> _]|[Hne ->]]; [done|]. by destruct r.
Qed.

Lemma coerce_json_valid j : valid_json j = true -> coerce_json j = j.
Proof.
  induction j as [|b|lit|s|l IH|l IH] using json_nested_ind; cbn [valid_json coerce_json]; intros Hv; try done.
  - by rewrite coerce_valid.
  - f_equal. induction IH as [|x l Hx _ IHl]; [done|]. cbn in *. apply andb_true_iff in Hv as [? ?]. by rewrite Hx, IHl.
  - f_equal. induction IH as [|[k x] l Hx _ IHl]; [done|]. cbn in *. apply andb_true_iff in Hv as [[? ?]%andb_true_iff ?].
    by rewrite coerce_valid, Hx, IHl.
Qed.

Lemma valid_ascii s : str_forallb (fun c => ch_code c <? 128) s = true -> valid_utf8 s = true.
Proof.
  unfold valid_utf8. induction s as [|c s IH]; [done|]. cbn [str_forallb runes]. intros [-> Hs]%andb_true_iff.
  cbn [forallb]. by rewrite IH.
Qed.

Lemma parse_body_u a b c d u s :
  hex4 a b c d = Some u -> u < 55296 \/ 57343 < u ->
  parse_body (String "\" (String "u" (String a (String b (String c (String d s)))))) =
  prepend (utf8 u) (parse_body s).
Proof.
  intros Hu Hlt. remember (parse_body s) as p eqn:Hp.
  cbn [parse_body]. change (ch_code "\" =? 34) with false.
  change (ch_code "\" =? 92) with true. cbn [parse_body].
  change (ch_code "u" =? 117) with true.
  change ((ch_code "u" =? 34) || (ch_code "u" =? 92) || (ch_code "u" =? 47)) with false.
  change (ch_code "u" =? 98) with false. change (ch_code "u" =? 102) with false.
  change (ch_code "u" =? 110) with false. change (ch_code "u" =? 114) with false.
  change (ch_code "u" =? 116) with false. cbv beta iota. rewrite Hu.
  destruct s as [|b0 [|v [|g1 [|g2 [|g3 [|g4 s4]]]]]]; try (by rewrite <- Hp).
  destruct (hex4 g1 g2 g3 g4); [|by rewrite <- Hp].
  assert (Hl : (55296 <=? u) && (u <=? 56319) = false) by (apply andb_false_iff; rewrite !Z.leb_gt; lia).
  rewrite <- (andb_assoc _ (55296 <=? u)), Hl, andb_false_r, !andb_false_l, <- Hp. done.
Qed.

Lemma parse_body_char c t : ch_code c < 128 ->
  parse_body (encode_char c +:+ t) = prepend (String c "") (parse_body t).
Proof.
  destruct c as [[] [] [] [] [] [] [] []]; intros Hc; try (by exfalso; revert Hc; vm_compute; intros; discriminate);
    first [ reflexivity
          | etransitivity;
            [ match goal with |- parse_body (?a +:+ t) = _ => let a' := eval vm_compute in a in change a with a' end;
              apply parse_body_u; [reflexivity | by left]
            | reflexivity ] ].
Qed.

Lemma byte_in_true lo hi c : byte_in lo hi c = true -> lo <= ch_code c <= hi.
Proof. unfold byte_in. intros [H1%Z.leb_le H2%Z.leb_le]%andb_true_iff. lia. Qed.
Lemma byte_in_false lo hi c : ch_code c < lo \/ hi < ch_code c -> byte_in lo hi c = false.
Proof. unfold byte_in. rewrite andb_false_iff, !Z.leb_gt. lia. Qed.

(** The first bytes of characters of different lengths differ. *)
Lemma rune2_lead a b : rune2 a b = true -> 194 <= ch_code a <= 223.
Proof. unfold rune2. intros [H%byte_in_true _]%andb_true_iff. done. Qed.
Lemma rune3_lead a b c : rune3 a b c = true -> 224 <= ch_code a <= 239.
Proof.
  unfold rune3. intros [H _]%andb_true_iff.
  repeat match goal with
  | H : _ || _ = true |- _ => apply orb_true_iff in H as [H|H]
  | H : _ && _ = true |- _ => apply andb_true_iff in H as [H _]
  end; apply byte_in_true in H; lia.
Qed.
Lemma rune4_lead a b c d : rune4 a b c d = true -> 240 <= ch_code a <= 244.
Proof.
  unfold rune4. intros [[H _]%andb_true_iff _]%andb_true_iff.
  repeat match goal with
  | H : _ || _ = true |- _ => apply orb_true_iff in H as [H|H]
  | H : _ && _ = true |- _ => apply andb_true_iff in H as [H _]
  end; apply byte_in_true in H; lia.
Qed.
Lemma rune2_other a b : 223 < ch_code a -> rune2 a b = false.
Proof. intros H. unfold rune2. by rewrite (byte_in_false 194 223 a) by lia. Qed.
Lemma rune3_other a b c : 239 < ch_code a -> rune3 a b c = false.
Proof. intros H. unfold rune3.
  by rewrite (byte_in_false 224 224 a), (byte_in_false 225 236 a), (byte_in_false 238 239 a), (byte_in_false 237 237 a) by lia. Qed.

(** A character of several bytes is read as it is. *)
Lemma parse_body_multi r t : is_rune r -> (1 < String.length r)%nat -> parse_body (r +:+ t) = prepend r (parse_body t).
Proof.
  intros Hr Hlen. assert (Hlead : forall a, 128 <= ch_code a ->
    (ch_code a =? 34) = false /\ (ch_code a =? 92) = false /\ (ch_code a <? 32) = false /\ (ch_code a <? 128) = false)
    by (intros a Ha; repeat split; first [apply Z.eqb_neq | apply Z.ltb_ge]; lia).
  destruct Hr as [|a|a b H|a b c H|a b c d H]; cbn in Hlen; try lia; cbn [String.append parse_body].
  - destruct (Hlead a) as (-> & -> & -> & ->); [pose proof (rune2_lead _ _ H); lia|]. by rewrite H.
  - pose proof (rune3_lead _ _ _ H). destruct (Hlead a) as (-> & -> & -> & ->); [lia|].
    by rewrite rune2_other, H by lia.
  - pose proof (rune4_lead _ _ _ _ H). destruct (Hlead a) as (-> & -> & -> & ->); [lia|].
    by rewrite rune2_other, rune3_other, H by lia.
Qed.

Lemma parse_body_rune r t : is_rune r -> parse_body (encode_rune r +:+ t) = prepend (coerce_rune r) (parse_body t).
Proof.
  intros Hr. destruct r as [|a [|b r]].
  - etransitivity; [apply parse_body_u; [reflexivity | by right] | reflexivity].
  - apply parse_body_char. inversion Hr; subst; done.
  - unfold encode_rune. case_decide as E1; [rewrite E1; etransitivity; [apply parse_body_u; [reflexivity | by left] | reflexivity]|].
    case_decide as E2; [rewrite E2; etransitivity; [apply parse_body_u; [reflexivity | by left] | reflexivity]|].
    apply parse_body_multi; [done | cbn; lia].
Qed.

Lemma parse_body_encode s r : parse_body (encode_body s +:+ dquote +:+ r) = Some (coerce s, r).
Proof.
  unfold encode_body, coerce, over_runes. induction (runes_are s) as [|x l Hx _ IH]; [done|]. cbn [foldr].
  rewrite app_assoc_str, parse_body_rune, IH by done. reflexivity.
Qed.

Definition print_elems := fix elems (l : list json) : string :=
  match l with
  | [] => "]"
  | [x] => print_json x +:+ "]"
  | x :: l' => print_json x +:+ "," +:+ elems l'
  end.
Definition print_members := fix members (l : list (string * json)) : string :=
  match l with
  | [] => "}"
  | [(k, x)] => encode_str k +:+ ":" +:+ print_json x +:+ "}"
  | (k, x) :: l' => encode_str k +:+ ":" +:+ print_json x +:+ "," +:+ members l'
  end.
Definition need_elems := fix go (l : list json) : nat :=
  match l with [] => 0%nat | x :: l' => S (need x + go l') end.
Definition need_members := fix go (l : list (string * json)) : nat :=
  match l with [] => 0%nat | (_, x) :: l' => S (need x + go l') end.

Lemma print_arr l : print_json (JArr l) = "[" +:+ print_elems l. Proof. done. Qed.
Lemma print_obj l : print_json (JObj l) = "{" +:+ print_members l. Proof. done. Qed.

(** What may follow a value: nothing that would lengthen a number. *)
Definition ends_value (r : string) : Prop :=
  match r with "" => True | String c _ => num_char c = false end.

Lemma span_all f s r : str_forallb f s = true ->
  match r with "" => True | String c _ => f c = false end -> span f (s +:+ r) = (s, r).
Proof.
  intros Hs Hr; induction s as [|c s IH]; cbn.
  - destruct r as [|c r]; cbn; [done | by rewrite Hr].
  - cbn in Hs; apply andb_true_iff in Hs as [-> Hs]. by rewrite IH.
Qed.

Lemma valid_num_head lit : valid_num lit = true ->
  exists c s, lit = String c s /\ (is_digit c = true \/ c = "-"%char).
Proof.
  destruct lit as [|c s]; [done|]. intros H. exists c, s; split; [done|].
  destruct (ascii_dec c "-") as [|Hne]; [by right|left].
  unfold valid_num in H.
  replace (match String c s with String "-" s' => s' | _ => String c s end) with (String c s) in H
    by (destruct c as [[] [] [] [] [] [] [] []]; done || by destruct Hne).
  cbn in H. destruct (is_digit c); [done|]. done.
Qed.

Lemma skip_ws_cons c s : (ch_code c =? 32) || (ch_code c =? 9) || (ch_code c =? 10) || (ch_code c =? 13) = false ->
  skip_ws (String c s) = String c s.
Proof. intros H; cbn. by rewrite H. Qed.

(** The recursive calls of the decoder on one step, as equations. *)
Lemma parse_value_num f lit r : valid_num lit = true -> str_forallb num_char lit = true ->
  ends_value r -> parse_value (S f) (lit +:+ r) = Some (JNum lit, r).
Proof.
  intros Hv Hn Hr. destruct (valid_num_head lit Hv) as (c & s & -> & Hc).
  cbn [String.append parse_value].
  rewrite skip_ws_cons by (destruct Hc as [Hc| ->]; [|done]; destruct c as [[] [] [] [] [] [] [] []]; done).
  assert (Hne : forall n, n <> 45 -> n < 48 \/ 57 < n -> (ch_code c =? n) = false).
  { intros n Hn45 Hn48; apply Z.eqb_neq. destruct Hc as [Hc| ->]; [|change (ch_code "-") with 45; lia].
    unfold is_digit in Hc. apply andb_true_iff in Hc as [H1%Z.leb_le H2%Z.leb_le]. lia. }
  rewrite !Hne by lia.
  rewrite (span_all num_char (String c s) r Hn Hr : span num_char (String c (s +:+ r)) = _).
  by rewrite Hv.
Qed.

Lemma encode_str_app s r : encode_str s +:+ r = String "034" (encode_body s +:+ dquote +:+ r).
Proof. unfold encode_str; by rewrite !app_assoc_str. Qed.

Lemma parse_value_str f s r : parse_value (S f) (encode_str s +:+ r) = Some (JStr (coerce s), r).
Proof.
  rewrite encode_str_app. cbn [parse_value]. rewrite skip_ws_cons by done.
  change (ch_code "034" =? 123) with false; change (ch_code "034" =? 91) with false;
    change (ch_code "034" =? 34) with true; cbv beta iota.
  by rewrite parse_body_encode.
Qed.

Definition parses (j : json) : Prop := wf_json j ->
  forall f r, (need j <= f)%nat -> ends_value r ->
  parse_value f (print_json j +:+ r) = Some (coerce_json j, r).

Lemma parse_elems_print l : l <> [] -> Forall parses l ->
  (fix go l := match l with [] => True | x :: l' => wf_json x /\ go l' end) l ->
  forall f r, (need_elems l <= f)%nat ->
  parse_elems f (print_elems l +:+ r) = Some (List.map coerce_json l, r).
Proof.
  induction l as [|x l IH]; [done|]. intros _ [Hx Hl]%Forall_cons [Hwx Hwl] f r Hf.
  cbn [need_elems] in Hf. destruct f as [|f]; [lia|]. cbn [parse_elems].
  destruct l as [|y l].
  - cbn [print_elems]. rewrite app_assoc_str. by rewrite (Hx Hwx f) by (done || lia).
  - change (print_elems (x :: y :: l)) with (print_json x +:+ "," +:+ print_elems (y :: l)).
    rewrite !app_assoc_str, (Hx Hwx f) by (done || lia).
    cbn [String.append skip_ws]. change (ch_code ",") with 44. cbv beta iota.
    cbn [Z.eqb orb Pos.eqb]. by rewrite (IH ltac:(done) Hl Hwl f) by lia.
Qed.

Definition coerce_members : list (string * json) -> list (string * json) := List.map (fun '(k, x) => (coerce k, coerce_json x)).

Lemma parse_members_print l : l <> [] -> Forall (fun kv => parses kv.2) l ->
  (fix go (l : list (string * json)) := match l with [] => True | (_, x) :: l' => wf_json x /\ go l' end) l ->
  forall f r, (need_members l <= f)%nat ->
  parse_members f (print_members l +:+ r) = Some (coerce_members l, r).
Proof.
  induction l as [|[k x] l IH]; [done|]. intros _ [Hx Hl]%Forall_cons [Hwx Hwl] f r Hf.
  cbn [need_members snd] in *. destruct f as [|f]; [lia|]. cbn [parse_members].
  assert (Hkey : forall t,
    skip_ws ((encode_str k +:+ ":" +:+ print_json x +:+ t) +:+ r) =
    String "034" (encode_body k +:+ dquote +:+ ":" +:+ print_json x +:+ t +:+ r)).
  { intros t. by rewrite app_assoc_str, encode_str_app, !app_assoc_str. }
  destruct l as [|y l].
  - cbn [print_members]. rewrite Hkey.
    change (ch_code "034" =? 34) with true; cbv beta iota. rewrite parse_body_encode.
    cbn [String.append skip_ws]. change (ch_code ":") with 58.
    cbn [Z.eqb orb Pos.eqb]. by rewrite (Hx Hwx f) by (done || lia).
  - change (print_members ((k, x) :: y :: l))
      with (encode_str k +:+ ":" +:+ print_json x +:+ ("," +:+ print_members (y :: l))).
    rewrite Hkey. change (ch_code "034" =? 34) with true; cbv beta iota. rewrite parse_body_encode.
    cbn [String.append skip_ws]. change (ch_code ":") with 58.
    cbn [Z.eqb orb Pos.eqb]. rewrite (Hx Hwx f) by (done || lia).
    cbn [String.append skip_ws]. change (ch_code ",") with 44. cbn [Z.eqb orb Pos.eqb].
    by rewrite (IH ltac:(done) Hl Hwl f) by lia.
Qed.

(** The first character of a value's text: no white space, no closing bracket. *)
Lemma print_head j : wf_json j -> exists c t, print_json j = String c t /\
  (ch_code c =? 32) || (ch_code c =? 9) || (ch_code c =? 10) || (ch_code c =? 13) = false /\
  (ch_code c =? 93) = false.
Proof.
  destruct j as [|[]|lit|s|l|l]; intros Hwf; try (by eexists _, _); cbn [print_json].
  destruct Hwf as [Hv _]; destruct (valid_num_head lit Hv) as (c & s & -> & Hc).
  exists c, s; split; [done|]. destruct Hc as [Hc| ->]; [|done].
  destruct c as [[] [] [] [] [] [] [] []]; done.
Qed.

Lemma parse_value_arr f l r : l <> [] -> wf_json (JArr l) ->
  parse_elems f (print_elems l +:+ r) = Some (List.map coerce_json l, r) ->
  parse_value (S f) (print_json (JArr l) +:+ r) = Some (coerce_json (JArr l), r).
Proof.
  intros Hl Hwf Hp. rewrite print_arr, app_assoc_str. destruct l as [|x l]; [done|].
  assert (exists t, print_elems (x :: l) +:+ r = print_json x +:+ t) as [t Ht].
  { destruct l; eexists; cbn [print_elems]; rewrite !app_assoc_str; reflexivity. }
  destruct Hwf as [Hx _]. destruct (print_head x Hx) as (c & u & Hc & Hws & H93).
  cbn [String.append parse_value]. rewrite skip_ws_cons by done. cbv beta iota.
  change (ch_code "[" =? 123) with false; change (ch_code "[" =? 91) with true. cbv beta iota.
  rewrite Hp || idtac. rewrite Ht, Hc in *. cbn [String.append] in *.
  rewrite skip_ws_cons by done. by rewrite H93, Hp.
Qed.

Lemma parse_value_obj f l r : l <> [] ->
  parse_members f (print_members l +:+ r) = Some (coerce_members l, r) ->
  parse_value (S f) (print_json (JObj l) +:+ r) = Some (coerce_json (JObj l), r).
Proof.
  intros Hl Hp. rewrite print_obj, app_assoc_str. destruct l as [|[k x] l]; [done|].
  assert (exists t, print_members ((k, x) :: l) +:+ r = String "034" t) as [t Ht].
  { destruct l; eexists; cbn [print_members]; rewrite ?app_assoc_str, encode_str_app; reflexivity. }
  cbn [String.append parse_value]. rewrite skip_ws_cons by done. cbv beta iota.
  change (ch_code "{" =? 123) with true. cbv beta iota.
  rewrite Ht in *. rewrite skip_ws_cons by done. by rewrite Hp.
Qed.

Lemma parse_value_print j : parses j.
Proof.
  induction j as [|b|lit|s|l IH|l IH] using json_nested_ind; intros Hwf f r Hf Hr;
    (destruct f as [|f]; [cbn in Hf; lia|]).
  - reflexivity.
  - destruct b; reflexivity.
  - destruct Hwf; by apply parse_value_num.
  - apply parse_value_str.
  - destruct l as [|x l]; [done|]. apply parse_value_arr; [done | exact Hwf|].
    apply parse_elems_print; [done | exact IH | exact Hwf | exact (le_S_n _ _ Hf)].
  - destruct l as [|x l]; [done|]. apply parse_value_obj; [done|].
    apply parse_members_print; [done | exact IH | exact Hwf | exact (le_S_n _ _ Hf)].
Qed.

(** The fuel of [parse_json] covers the text of any value. *)
Definition fits (j : json) : Prop := wf_json j -> (S (need j) <= 2 * String.length (print_json j))%nat.

Lemma need_elems_le l : Forall fits l -> wf_json (JArr l) ->
  (need_elems l <= 2 * String.length (print_elems l))%nat.
Proof.
  induction l as [|x l IH]; intros HF Hwf; [cbn; lia|].
  apply Forall_cons in HF as [Hx Hl]. destruct Hwf as [Hwx Hwl].
  specialize (IH Hl Hwl). specialize (Hx Hwx).
  assert (need_elems (x :: l) = S (need x + need_elems l)) as -> by done.
  destruct l as [|y l].
  - change (print_elems [x]) with (print_json x +:+ "]"). rewrite length_app_str. cbn; lia.
  - change (print_elems (x :: y :: l)) with (print_json x +:+ "," +:+ print_elems (y :: l)).
    rewrite !length_app_str. cbn [String.length]. lia.
Qed.

Lemma need_members_le l : Forall (fun kv => fits kv.2) l -> wf_json (JObj l) ->
  (need_members l <= 2 * String.length (print_members l))%nat.
Proof.
  induction l as [|[k x] l IH]; intros HF Hwf; [cbn; lia|].
  apply Forall_cons in HF as [Hx Hl]. destruct Hwf as [Hwx Hwl].
  specialize (IH Hl Hwl). specialize (Hx Hwx).
  assert (need_members ((k, x) :: l) = S (need x + need_members l)) as -> by done.
  cbn [snd] in Hx. destruct l as [|y l].
  - change (print_members [(k, x)]) with (encode_str k +:+ ":" +:+ print_json x +:+ "}").
    rewrite !length_app_str. cbn [need_members String.length]; lia.
  - change (print_members ((k, x) :: y :: l))
      with (encode_str k +:+ ":" +:+ print_json x +:+ "," +:+ print_members (y :: l)).
    rewrite !length_app_str. cbn [String.length]. lia.
Qed.

Lemma need_print j : fits j.
Proof.
  induction j as [|b|lit|s|l IH|l IH] using json_nested_ind; intros Hwf.
  - cbn; lia.
  - destruct b; cbn; lia.
  - destruct Hwf as [Hv _]; destruct (valid_num_head lit Hv) as (c & s & -> & _); cbn; lia.
  - cbn [print_json need]. unfold encode_str. rewrite !length_app_str. cbn; lia.
  - rewrite print_arr, length_app_str. pose proof (need_elems_le l IH Hwf).
    assert (need (JArr l) = S (need_elems l)) as -> by done. cbn [String.length]; lia.
  - rewrite print_obj, length_app_str. pose proof (need_members_le l IH Hwf).
    assert (need (JObj l) = S (need_members l)) as -> by done. cbn [String.length]; lia.
Qed.

(** Decoding the encoder's text gives the value back, its strings coerced. *)
Lemma parse_json_print j : wf_json j -> parse_json (print_json j) = Some (coerce_json j).
Proof.
  intros Hwf. unfold parse_json. pose proof (need_print j Hwf).
  rewrite <- (app_nil_str (print_json j)) at 2.
  rewrite parse_value_print by (done || lia). done.
Qed.

Lemma span_digits s : str_forallb is_digit s = true -> span is_digit s = (s, "").
Proof.
  induction s as [|c s IH]; [done|]. cbn. intros [Hc Hs]%andb_true_iff.
  rewrite Hc, IH by done. done.
Qed.

Lemma valid_num_dec n : 0 <= n -> valid_num (dec n) = true /\ valid_num (String "-" (dec n)) = true.
Proof.
  intros Hn.
  assert (Hd : digits1 (dec n) = true).
  { unfold digits1. rewrite bool_decide_false by apply dec_nonempty. by rewrite dec_digits. }
  assert (Hz : match dec n with String "0" (String _ _) => false | _ => true end = true).
  { destruct (Z.eq_dec n 0) as [->|Hnz]; [done|].
    pose proof (dec_no_zero_head n ltac:(lia)) as Hh. destruct (dec n) as [|c s]; [done|].
    cbn in Hh. destruct c as [[] [] [] [] [] [] [] []]; first [reflexivity | by destruct Hh]. }
  assert (Hm : match dec n with String "-" s' => s' | _ => dec n end = dec n).
  { destruct (dec_head n Hn) as (c & s & Hs & Hc). rewrite Hs.
    destruct c as [[] [] [] [] [] [] [] []]; try done; cbn in Hc; done. }
  split; unfold valid_num; rewrite ?Hm; rewrite span_digits by (by apply dec_digits);
    rewrite Hd, Hz; done.
Qed.

Lemma digits_num_char s : str_forallb is_digit s = true -> str_forallb num_char s = true.
Proof.
  induction s as [|c s IH]; [done|]. cbn [str_forallb]. intros [Hc Hs]%andb_true_iff.
  unfold num_char at 1. by rewrite Hc, IH.
Qed.

Lemma valid_Itoa n : valid_utf8 (Itoa n) = true.
Proof.
  assert (Hd : forall m, 0 <= m -> str_forallb (fun c => ch_code c <? 128) (dec m) = true).
  { intros m Hm. pose proof (dec_digits m Hm) as H. induction (dec m) as [|c s IH]; [done|]. cbn [str_forallb] in *.
    apply andb_true_iff in H as [Hc Hs]. rewrite IH by done. unfold is_digit in Hc.
    apply andb_true_iff in Hc as [_ Hc%Z.leb_le]. rewrite (proj2 (Z.ltb_lt _ _)) by lia. done. }
  apply valid_ascii. unfold Itoa. destruct (Z.ltb_spec n 0); [|by apply Hd]. cbn. apply Hd. lia.
Qed.

(** The text of an integer is a JSON number. *)
Lemma wf_Itoa n : wf_json (JNum (Itoa n)).
Proof.
  unfold Itoa. destruct (Z.ltb_spec n 0) as [Hneg|Hpos].
  - destruct (valid_num_dec (- n) ltac:(lia)) as [_ Hv]. split; [exact Hv|].
    change (num_char "-" && str_forallb num_char (dec (- n)) = true).
    by rewrite digits_num_char by (apply dec_digits; lia).
  - destruct (valid_num_dec n ltac:(lia)) as [Hv _]. split; [exact Hv|].
    apply digits_num_char, dec_digits; lia.
Qed.
