(* ===== verification/KubeTypes.v ===== *)
(** The Kubernetes object types the operator reads and writes, restricted to
    the fields that the modelled code touches.  An absent pointer is [None];
    a Go map is a [gmap] (the nil map and the empty map are not told apart
    by the code); API timestamps are nanoseconds since the zero time. *)

From Stdlib Require Import ZArith.
From stdpp Require Import base list gmap strings.
From S2P Require Import Prelude.

Abbreviation strmap := (gmap string string).

(** ** Metadata *)

Record OwnerReference := mkOwnerReference {
  or_APIVersion : string;
  or_Kind : string;
  or_Name : string;
  or_UID : string
}.
#[export] Instance OwnerReference_eq_dec : EqDecision OwnerReference.
Proof. solve_decision. Defined.

Record ObjectMeta := mkObjectMeta {
  m_Name : string;
  m_Namespace : string;
  m_UID : string;
  m_ResourceVersion : string;
  m_Generation : Z;
  m_DeletionTimestamp : option Z;
  m_Labels : strmap;
  m_Annotations : strmap;
  m_OwnerReferences : list OwnerReference;
  m_Finalizers : list string
}.
#[export] Instance ObjectMeta_etas : Etas ObjectMeta := fun m =>
  mkObjectMeta (m_Name m) (m_Namespace m) (m_UID m) (m_ResourceVersion m)
    (m_Generation m) (m_DeletionTimestamp m) (m_Labels m) (m_Annotations m)
    (m_OwnerReferences m) (m_Finalizers m).
Definition emptyMeta : ObjectMeta :=
  mkObjectMeta "" "" "" "" 0 None ∅ ∅ [] [].
#[export] Instance ObjectMeta_eq_dec : EqDecision ObjectMeta.
Proof. solve_decision. Defined.

(** ** Pods *)

Record LabelSelector := mkLabelSelector {
  ls_MatchLabels : strmap;
  ls_MatchExpressions : list (string * string * list string)
}.
#[export] Instance LabelSelector_eq_dec : EqDecision LabelSelector.
Proof. solve_decision. Defined.

(** The sources of a variable other than a field of the pod are carried unread. *)
Inductive EnvVarSource := FieldRef (fieldPath : string) | OtherSource (source : string).
#[export] Instance EnvVarSource_eq_dec : EqDecision EnvVarSource.
Proof. solve_decision. Defined.
Record EnvVar := mkEnvVar { ev_Name : string; ev_Value : string; ev_ValueFrom : option EnvVarSource }.
#[export] Instance EnvVar_eq_dec : EqDecision EnvVar.
Proof. solve_decision. Defined.
(** A variable with a value of its own. *)
Definition env_var (name value : string) : EnvVar := mkEnvVar name value None.

Inductive VolumeSource :=
| VolPVC (claimName : string)
| VolEmptyDir
| VolConfigMap (name : string)
| VolSecret (secretName : string)
| VolDownwardAPI (items : list (string * string)).
#[export] Instance VolumeSource_eq_dec : EqDecision VolumeSource.
Proof. solve_decision. Defined.
Record Volume := mkVolume { v_Name : string; v_Source : VolumeSource }.
#[export] Instance Volume_eq_dec : EqDecision Volume.
Proof. solve_decision. Defined.
Record VolumeMount := mkVolumeMount { vm_Name : string; vm_MountPath : string }.
#[export] Instance VolumeMount_eq_dec : EqDecision VolumeMount.
Proof. solve_decision. Defined.

Record ContainerPort := mkContainerPort { cp_Name : string; cp_ContainerPort : Z; cp_Protocol : string }.
#[export] Instance ContainerPort_eq_dec : EqDecision ContainerPort.
Proof. solve_decision. Defined.

Inductive ProbeHandler :=
| NoHandler
| ExecAction (command : list string)
| HTTPGetAction (path : string) (port : Z)
| TCPSocketAction (port : Z).
#[export] Instance ProbeHandler_eq_dec : EqDecision ProbeHandler.
Proof. solve_decision. Defined.
Record Probe := mkProbe {
  pr_Handler : ProbeHandler;
  pr_InitialDelaySeconds : Z;
  pr_TimeoutSeconds : Z;
  pr_PeriodSeconds : Z;
  pr_FailureThreshold : Z
}.
#[export] Instance Probe_etas : Etas Probe := fun p =>
  mkProbe (pr_Handler p) (pr_InitialDelaySeconds p) (pr_TimeoutSeconds p) (pr_PeriodSeconds p) (pr_FailureThreshold p).
#[export] Instance Probe_eq_dec : EqDecision Probe.
Proof. solve_decision. Defined.

(** Quantities of resources by their canonical text. *)
Record ResourceRequirements := mkResources { rr_Limits : strmap; rr_Requests : strmap }.
#[export] Instance ResourceRequirements_eq_dec : EqDecision ResourceRequirements.
Proof. solve_decision. Defined.
Definition noResources : ResourceRequirements := mkResources ∅ ∅.

(** [sc_Rest]: the members that are carried unread. *)
Record SecurityContext := mkSecurityContext { sc_Privileged : option bool; sc_Rest : string }.
#[export] Instance SecurityContext_etas : Etas SecurityContext := fun c => mkSecurityContext (sc_Privileged c) (sc_Rest c).
#[export] Instance SecurityContext_eq_dec : EqDecision SecurityContext.
Proof. solve_decision. Defined.

(** [c_PreStop]: the command that the lifecycle runs before the container stops. *)
Record Container := mkContainer {
  c_Name : string;
  c_Image : string;
  c_Command : list string;
  c_Args : list string;
  c_Ports : list ContainerPort;
  c_Env : list EnvVar;
  c_Resources : ResourceRequirements;
  c_VolumeMounts : list VolumeMount;
  c_LivenessProbe : option Probe;
  c_ReadinessProbe : option Probe;
  c_StartupProbe : option Probe;
  c_PreStop : option (list string);
  c_ImagePullPolicy : string;
  c_SecurityContext : option SecurityContext
}.
#[export] Instance Container_etas : Etas Container := fun c =>
  mkContainer (c_Name c) (c_Image c) (c_Command c) (c_Args c) (c_Ports c) (c_Env c) (c_Resources c)
    (c_VolumeMounts c) (c_LivenessProbe c) (c_ReadinessProbe c) (c_StartupProbe c) (c_PreStop c)
    (c_ImagePullPolicy c) (c_SecurityContext c).
#[export] Instance Container_eq_dec : EqDecision Container.
Proof. solve_decision. Defined.
Definition emptyContainer : Container :=
  mkContainer "" "" [] [] [] [] noResources [] None None None None "" None.

Record PodAffinityTerm := mkPodAffinityTerm { pat_LabelSelector : option LabelSelector; pat_TopologyKey : string }.
#[export] Instance PodAffinityTerm_eq_dec : EqDecision PodAffinityTerm.
Proof. solve_decision. Defined.
Record WeightedPodAffinityTerm := mkWeightedTerm { wt_Weight : Z; wt_Term : PodAffinityTerm }.
#[export] Instance WeightedPodAffinityTerm_eq_dec : EqDecision WeightedPodAffinityTerm.
Proof. solve_decision. Defined.
(** The terms of an affinity or an anti-affinity between pods. *)
Record PodAffinity := mkPodAffinity {
  pa_Required : list PodAffinityTerm;
  pa_Preferred : list WeightedPodAffinityTerm
}.
#[export] Instance PodAffinity_etas : Etas PodAffinity := fun a => mkPodAffinity (pa_Required a) (pa_Preferred a).
#[export] Instance PodAffinity_eq_dec : EqDecision PodAffinity.
Proof. solve_decision. Defined.
(** [af_NodeAffinity] is carried unread. *)
Record Affinity := mkAffinity {
  af_NodeAffinity : option string;
  af_PodAffinity : option PodAffinity;
  af_PodAntiAffinity : option PodAffinity
}.
#[export] Instance Affinity_etas : Etas Affinity := fun a =>
  mkAffinity (af_NodeAffinity a) (af_PodAffinity a) (af_PodAntiAffinity a).
#[export] Instance Affinity_eq_dec : EqDecision Affinity.
Proof. solve_decision. Defined.

(** Tolerations, host aliases and the security context of the pod are carried unread. *)
Record PodTemplateSpec := mkPodTemplateSpec {
  pt_Name : string;
  pt_Labels : strmap;
  pt_Annotations : strmap;
  pt_Volumes : list Volume;
  pt_Containers : list Container;
  pt_InitContainers : list Container;
  pt_TerminationGracePeriodSeconds : option Z;
  pt_ImagePullSecrets : list string;
  pt_NodeSelector : strmap;
  pt_ServiceAccountName : string;
  pt_Affinity : option Affinity;
  pt_Tolerations : list string;
  pt_HostAliases : list string;
  pt_SecurityContext : option string
}.
#[export] Instance PodTemplateSpec_etas : Etas PodTemplateSpec := fun t =>
  mkPodTemplateSpec (pt_Name t) (pt_Labels t) (pt_Annotations t) (pt_Volumes t) (pt_Containers t)
    (pt_InitContainers t) (pt_TerminationGracePeriodSeconds t) (pt_ImagePullSecrets t) (pt_NodeSelector t)
    (pt_ServiceAccountName t) (pt_Affinity t) (pt_Tolerations t) (pt_HostAliases t) (pt_SecurityContext t).
#[export] Instance PodTemplateSpec_eq_dec : EqDecision PodTemplateSpec.
Proof. solve_decision. Defined.
Definition emptyTemplate : PodTemplateSpec :=
  mkPodTemplateSpec "" ∅ ∅ [] [] [] None [] ∅ "" None [] [] None.

Record ContainerStateTerminated := mkTerminated { ct_Reason : string; ct_ExitCode : Z }.

Record ContainerStatus := mkContainerStatus {
  cs_Name : string;
  cs_Ready : bool;
  cs_RestartCount : Z;
  cs_ContainerID : string;
  cs_Terminated : option ContainerStateTerminated
}.

(** [ps_ContainerStatuses] is [None] for the nil slice. *)
Record PodStatus := mkPodStatus {
  ps_Phase : string;
  ps_PodIP : string;
  ps_ContainerStatuses : option (list ContainerStatus);
  ps_Reason : string;
  ps_Message : string
}.

Record Pod := mkPod {
  p_Meta : ObjectMeta;
  p_TerminationGracePeriodSeconds : option Z;
  p_Status : PodStatus
}.

Definition p_Name (p : Pod) : string := m_Name (p_Meta p).
Definition p_UID (p : Pod) : string := m_UID (p_Meta p).

(** Ranging over a possibly nil slice. *)
Definition container_statuses (p : Pod) : list ContainerStatus :=
  match ps_ContainerStatuses (p_Status p) with Some l => l | None => [] end.

(** ** Persistent volume claims *)

(** A quantity is its value; [Cmp] is the comparison of values. *)
Record PVCSpec := mkPVCSpec {
  pvs_AccessModes : list string;
  pvs_StorageClassName : option string;
  pvs_VolumeMode : option string;
  pvs_Requests : gmap string Z
}.
#[export] Instance PVCSpec_etas : Etas PVCSpec := fun s =>
  mkPVCSpec (pvs_AccessModes s) (pvs_StorageClassName s) (pvs_VolumeMode s) (pvs_Requests s).
#[export] Instance PVCSpec_eq_dec : EqDecision PVCSpec.
Proof. solve_decision. Defined.

Record PersistentVolumeClaim := mkPVC {
  pvc_Kind : string;
  pvc_APIVersion : string;
  pvc_Meta : ObjectMeta;
  pvc_Spec : PVCSpec;
  pvc_StatusPhase : string
}.
#[export] Instance PersistentVolumeClaim_etas : Etas PersistentVolumeClaim := fun p =>
  mkPVC (pvc_Kind p) (pvc_APIVersion p) (pvc_Meta p) (pvc_Spec p) (pvc_StatusPhase p).
#[export] Instance PersistentVolumeClaim_eq_dec : EqDecision PersistentVolumeClaim.
Proof. solve_decision. Defined.

Definition pvc_Name (p : PersistentVolumeClaim) : string := m_Name (pvc_Meta p).
Definition storage_request (s : PVCSpec) : Z :=
  match pvs_Requests s !! "storage" with Some q => q | None => 0%Z end.

(** ** StatefulSets *)

(** [us_RollingUpdate]: the nil pointer, or the partition it points to. *)
Record UpdateStrategy := mkUpdateStrategy {
  us_Type : string;
  us_RollingUpdate : option (option Z)
}.
#[export] Instance UpdateStrategy_eq_dec : EqDecision UpdateStrategy.
Proof. solve_decision. Defined.
Definition emptyStrategy : UpdateStrategy := mkUpdateStrategy "" None.
Definition OnDelete : string := "OnDelete".
Definition RollingUpdate : string := "RollingUpdate".

Record StatefulSet := mkStatefulSet {
  st_Meta : ObjectMeta;
  st_Replicas : option Z;
  st_Selector : option LabelSelector;
  st_Template : PodTemplateSpec;
  st_VolumeClaimTemplates : list PersistentVolumeClaim;
  st_ServiceName : string;
  st_UpdateStrategy : UpdateStrategy;
  st_RevisionHistoryLimit : option Z;
  st_PodManagementPolicy : string;
  st_UpdateRevision : string;
  st_CurrentRevision : string
}.
#[export] Instance StatefulSet_etas : Etas StatefulSet := fun s =>
  mkStatefulSet (st_Meta s) (st_Replicas s) (st_Selector s) (st_Template s)
    (st_VolumeClaimTemplates s) (st_ServiceName s) (st_UpdateStrategy s)
    (st_RevisionHistoryLimit s) (st_PodManagementPolicy s) (st_UpdateRevision s) (st_CurrentRevision s).
#[export] Instance StatefulSet_eq_dec : EqDecision StatefulSet.
Proof. solve_decision. Defined.
Definition emptySts : StatefulSet :=
  mkStatefulSet emptyMeta None None emptyTemplate [] "" emptyStrategy None "" "" "".
Definition ParallelPodManagement : string := "Parallel".

Definition st_Name (s : StatefulSet) : string := m_Name (st_Meta s).
Definition st_Namespace (s : StatefulSet) : string := m_Namespace (st_Meta s).
Definition st_Annotations (s : StatefulSet) : strmap := m_Annotations (st_Meta s).
Definition set_sts_Annotations (a : strmap) (s : StatefulSet) : StatefulSet :=
  s <| st_Meta := (st_Meta s) <| m_Annotations := a |> |>.

(** ** Services, endpoints, secrets, config maps *)

Record ServicePort := mkServicePort {
  sp_Name : string;
  sp_Port : Z;
  sp_TargetPort : Z;
  sp_NodePort : Z
}.
#[export] Instance ServicePort_etas : Etas ServicePort := fun p =>
  mkServicePort (sp_Name p) (sp_Port p) (sp_TargetPort p) (sp_NodePort p).
#[export] Instance ServicePort_eq_dec : EqDecision ServicePort.
Proof. solve_decision. Defined.

Record Service := mkService {
  svc_Meta : ObjectMeta;
  svc_ClusterIP : string;
  svc_ClusterIPs : list string;
  svc_Ports : list ServicePort;
  svc_Selector : strmap;
  svc_Type : string;
  svc_SessionAffinity : string;
  svc_LoadBalancerIP : string;
  svc_PublishNotReadyAddresses : bool
}.
#[export] Instance Service_etas : Etas Service := fun s =>
  mkService (svc_Meta s) (svc_ClusterIP s) (svc_ClusterIPs s) (svc_Ports s)
    (svc_Selector s) (svc_Type s) (svc_SessionAffinity s) (svc_LoadBalancerIP s)
    (svc_PublishNotReadyAddresses s).
#[export] Instance Service_eq_dec : EqDecision Service.
Proof. solve_decision. Defined.
Definition emptySvc : Service := mkService emptyMeta "" [] [] ∅ "" "" "" false.
Definition svc_Name (s : Service) : string := m_Name (svc_Meta s).
Definition svc_Namespace (s : Service) : string := m_Namespace (svc_Meta s).
Definition svc_Annotations (s : Service) : strmap := m_Annotations (svc_Meta s).

(** The addresses of each subset. *)
Record Endpoints := mkEndpoints { ep_Subsets : list (list string) }.
Record Secret := mkSecret { sec_Meta : ObjectMeta; sec_Data : strmap }.
Record ConfigMap := mkConfigMap { cm_Meta : ObjectMeta; cm_Data : strmap }.
