(* ===== verification/DdcApi.v ===== *)
(** The DorisDisaggregatedCluster resource: the types of
    [src/api/disaggregated/v1/types.go] (the fields the modelled code reads or
    writes), the name functions of [unique_id.go], the constants and defaults
    of [utils.go] and the admission webhook. *)

From Stdlib Require Import ZArith Lia Ascii.
From stdpp Require Import base list gmap strings.
From S2P Require Import Prelude GoStr KubeTypes.

Local Open Scope string_scope.
Local Open Scope Z_scope.

(** ** Spec *)

Inductive PVCProvisioner := PVCProvisionerOperator | PVCProvisionerOther (s : string).
#[export] Instance PVCProvisioner_eq_dec : EqDecision PVCProvisioner.
Proof. solve_decision. Defined.

Record PersistentVolume := mkPV {
  pv_Spec : PVCSpec;
  pv_MountPaths : list string;
  pv_LogNotStore : bool;
  pv_Annotations : strmap;
  pv_PVCProvisioner : PVCProvisioner
}.

Record SecretMount := mkSecretMount { sm_SecretName : string; sm_MountPath : string }.
Record ConfigMapMount := mkConfigMapMount { cmm_Name : string; cmm_MountPath : string }.
Record PortMap := mkPortMap { pm_NodePort : Z; pm_TargetPort : Z }.
Record ExportService := mkExportService {
  es_Type : string;
  es_Annotations : strmap;
  es_PortMaps : list PortMap
}.

Record ReadinessProbePolicy := mkReadinessPolicy {
  rp_TimeoutSeconds : Z;
  rp_FailureThreshold : Z;
  rp_PeriodSeconds : Z
}.

Record SystemInitialization := mkSystemInitialization {
  InitImage : string;
  si_Command : list string;
  si_Args : list string;
  si_Resources : ResourceRequirements
}.
#[export] Instance SystemInitialization_etas : Etas SystemInitialization := fun s =>
  mkSystemInitialization (InitImage s) (si_Command s) (si_Args s) (si_Resources s).

Record KerberosInfo := mkKerberosInfo {
  Krb5ConfigMap : string;
  KeytabSecretName : string;
  KeytabPath : string
}.

(** Tolerations, host aliases and the pod's security context are carried unread. *)
Record CommonSpec := mkCommonSpec {
  Replicas : option Z;
  Image : string;
  ImagePullSecrets : list string;
  StartTimeout : Z;
  LiveTimeout : Z;
  ReadinessPolicy : option ReadinessProbePolicy;
  Resources : ResourceRequirements;
  CommonLabels : strmap;
  CommonAnnotations : strmap;
  CommonAffinity : option Affinity;
  PersistentVolume_ : option PersistentVolume;
  LogNotStore : bool;
  PersistentVolumes : list PersistentVolume;
  Tolerations : list string;
  ServiceSpec : option ExportService;
  ConfigMaps : list ConfigMapMount;
  NodeSelector : strmap;
  ServiceAccount : string;
  HostAliases : list string;
  PodSecurity : option string;
  ContainerSecurityContext : option SecurityContext;
  EnvVars : list EnvVar;
  SystemInit : option SystemInitialization;
  Secrets : list SecretMount
}.
#[export] Instance CommonSpec_etas : Etas CommonSpec := fun c =>
  mkCommonSpec (Replicas c) (Image c) (ImagePullSecrets c) (StartTimeout c) (LiveTimeout c) (ReadinessPolicy c)
    (Resources c) (CommonLabels c) (CommonAnnotations c) (CommonAffinity c) (PersistentVolume_ c) (LogNotStore c)
    (PersistentVolumes c) (Tolerations c) (ServiceSpec c) (ConfigMaps c) (NodeSelector c) (ServiceAccount c)
    (HostAliases c) (PodSecurity c) (ContainerSecurityContext c) (EnvVars c) (SystemInit c) (Secrets c).
Definition emptyCommon : CommonSpec :=
  mkCommonSpec None "" [] 0 0 None noResources ∅ ∅ None None false [] [] None [] ∅ "" [] None None [] None [].

(** The foundationdb of the meta service: its address, or the config map that has it. *)
Record FDB := mkFDB { fdb_Address : string; fdb_Namespace : string; fdb_Name : string }.
Record MetaServiceOf := mkMetaService { ms_Common : CommonSpec; ms_FDB : FDB }.
#[export] Instance MetaServiceOf_etas : Etas MetaServiceOf := fun m => mkMetaService (ms_Common m) (ms_FDB m).

Record FeSpec := mkFeSpec { ElectionNumber : option Z; fe_Common : CommonSpec }.
#[export] Instance FeSpec_etas : Etas FeSpec := fun f => mkFeSpec (ElectionNumber f) (fe_Common f).

Record ComputeGroup := mkComputeGroup {
  UniqueId : string;
  EnableWorkloadGroup : bool;
  cg_Common : CommonSpec;
  SkipDefaultSystemInit : bool;
  AutoResolveLimitCPU : bool
}.
#[export] Instance ComputeGroup_etas : Etas ComputeGroup := fun c =>
  mkComputeGroup (UniqueId c) (EnableWorkloadGroup c) (cg_Common c) (SkipDefaultSystemInit c) (AutoResolveLimitCPU c).
Definition cg_Replicas (cg : ComputeGroup) : option Z := Replicas (cg_Common cg).

Record AdminUser := mkAdminUser { au_Name : string; au_Password : string }.

Record DdcSpec := mkDdcSpec {
  MetaService_ : MetaServiceOf;
  Fe : FeSpec;
  ComputeGroups : list ComputeGroup;
  AuthSecret : string;
  Admin : option AdminUser;
  EnableDecommission : bool;
  Kerberos : option KerberosInfo
}.
#[export] Instance DdcSpec_etas : Etas DdcSpec := fun s =>
  mkDdcSpec (MetaService_ s) (Fe s) (ComputeGroups s) (AuthSecret s) (Admin s)
    (EnableDecommission s) (Kerberos s).
Definition emptyDdcSpec : DdcSpec :=
  mkDdcSpec (mkMetaService emptyCommon (mkFDB "" "" "")) (mkFeSpec None emptyCommon) [] "" None false None.
Definition MetaServiceSpec (s : DdcSpec) : CommonSpec := ms_Common (MetaService_ s).

(** ** Status *)

Inductive Phase :=
| Ready | Reconciling | Scaling | Decommissioning | ScaleDownFailed | ResumeFailed
| SuspendFailed | Suspended | GracefulRolling | GracefulScaling | GracefulDeleting
| PhaseOther (s : string).
#[export] Instance Phase_eq_dec : EqDecision Phase.
Proof. solve_decision. Defined.

Inductive AvailableStatus := Available | UnAvailable | AvailableOther (s : string).
#[export] Instance AvailableStatus_eq_dec : EqDecision AvailableStatus.
Proof. solve_decision. Defined.

Inductive Health := Green | Yellow | Red | HealthUnset.
#[export] Instance Health_eq_dec : EqDecision Health.
Proof. solve_decision. Defined.

Inductive GracefulActionType :=
| GracefulActionRollingUpdate | GracefulActionScaleDown | GracefulActionDelete
| GracefulActionOther (s : string).
#[export] Instance GracefulActionType_eq_dec : EqDecision GracefulActionType.
Proof. solve_decision. Defined.

Inductive GracefulActionPhase :=
| GracefulPhaseTriggerDrain | GracefulPhaseWaitDrain | GracefulPhaseDeletePod
| GracefulPhaseWaitPodReady | GracefulPhaseWaitBEAlive | GracefulPhaseDone
| GracefulPhaseFailed | GracefulPhaseOther (s : string).
#[export] Instance GracefulActionPhase_eq_dec : EqDecision GracefulActionPhase.
Proof. solve_decision. Defined.

Definition action_type_string (t : GracefulActionType) : string :=
  match t with
  | GracefulActionRollingUpdate => "RollingUpdate"
  | GracefulActionScaleDown => "ScaleDown"
  | GracefulActionDelete => "Delete"
  | GracefulActionOther s => s
  end.
Definition action_type_of (s : string) : GracefulActionType :=
  if decide (s = "RollingUpdate") then GracefulActionRollingUpdate
  else if decide (s = "ScaleDown") then GracefulActionScaleDown
  else if decide (s = "Delete") then GracefulActionDelete
  else GracefulActionOther s.

Definition action_phase_string (p : GracefulActionPhase) : string :=
  match p with
  | GracefulPhaseTriggerDrain => "TriggerDrain"
  | GracefulPhaseWaitDrain => "WaitDrain"
  | GracefulPhaseDeletePod => "DeletePod"
  | GracefulPhaseWaitPodReady => "WaitPodReady"
  | GracefulPhaseWaitBEAlive => "WaitBEAlive"
  | GracefulPhaseDone => "Done"
  | GracefulPhaseFailed => "Failed"
  | GracefulPhaseOther s => s
  end.
Definition action_phase_of (s : string) : GracefulActionPhase :=
  if decide (s = "TriggerDrain") then GracefulPhaseTriggerDrain
  else if decide (s = "WaitDrain") then GracefulPhaseWaitDrain
  else if decide (s = "DeletePod") then GracefulPhaseDeletePod
  else if decide (s = "WaitPodReady") then GracefulPhaseWaitPodReady
  else if decide (s = "WaitBEAlive") then GracefulPhaseWaitBEAlive
  else if decide (s = "Done") then GracefulPhaseDone
  else if decide (s = "Failed") then GracefulPhaseFailed
  else GracefulPhaseOther s.

(** Times are nanoseconds since the zero time, 0 being the zero time. *)
Record GracefulAction := mkGA {
  ga_Type : GracefulActionType;
  ga_Phase : GracefulActionPhase;
  ga_CurrentPod : string;
  ga_CurrentOrdinal : Z;
  ga_TargetRevision : string;
  ga_DesiredReplicas : option Z;
  ga_StartedAt : Z;
  ga_DeadlineAt : Z;
  ga_LastMessage : string;
  ga_DrainTriggered : bool;
  ga_InitialRestartCount : Z;
  ga_SentinelWritten : bool;
  ga_RestartAnomalyDetected : bool;
  ga_InitialPodUID : string;
  ga_InitialContainerID : string;
  ga_InitialBackendStartTime : string;
  ga_InitialBackendEpoch : string;
  ga_ReplacementPodUID : string;
  ga_ReplacementContainerID : string;
  ga_ReplacementBackendStartTime : string;
  ga_ReplacementBackendEpoch : string;
  ga_StableBackendObservations : Z
}.
#[export] Instance GracefulAction_etas : Etas GracefulAction := fun g =>
  mkGA (ga_Type g) (ga_Phase g) (ga_CurrentPod g) (ga_CurrentOrdinal g)
    (ga_TargetRevision g) (ga_DesiredReplicas g) (ga_StartedAt g) (ga_DeadlineAt g)
    (ga_LastMessage g) (ga_DrainTriggered g) (ga_InitialRestartCount g)
    (ga_SentinelWritten g) (ga_RestartAnomalyDetected g) (ga_InitialPodUID g)
    (ga_InitialContainerID g) (ga_InitialBackendStartTime g) (ga_InitialBackendEpoch g)
    (ga_ReplacementPodUID g) (ga_ReplacementContainerID g)
    (ga_ReplacementBackendStartTime g) (ga_ReplacementBackendEpoch g)
    (ga_StableBackendObservations g).
#[export] Instance GracefulAction_eq_dec : EqDecision GracefulAction.
Proof. solve_decision. Defined.

(** The zero value of the struct; its string-typed fields are empty. *)
Definition zeroGA : GracefulAction :=
  mkGA (GracefulActionOther "") (GracefulPhaseOther "") "" 0 "" None 0 0 "" false 0
    false false "" "" "" "" "" "" "" "" 0.

Record ComputeGroupStatus := mkCGStatus {
  cgs_Phase : Phase;
  cgs_StatefulsetName : string;
  cgs_ServiceName : string;
  cgs_UniqueId : string;
  cgs_ComputeGroupId : string;
  cgs_Replicas : Z;
  cgs_AvailableReplicas : Z;
  cgs_GracefulAction : option GracefulAction
}.
#[export] Instance ComputeGroupStatus_etas : Etas ComputeGroupStatus := fun c =>
  mkCGStatus (cgs_Phase c) (cgs_StatefulsetName c) (cgs_ServiceName c) (cgs_UniqueId c)
    (cgs_ComputeGroupId c) (cgs_Replicas c) (cgs_AvailableReplicas c) (cgs_GracefulAction c).
#[export] Instance ComputeGroupStatus_eq_dec : EqDecision ComputeGroupStatus.
Proof. solve_decision. Defined.

Record MetaServiceStatus := mkMSStatus {
  ms_Phase : Phase;
  ms_AvailableStatus : AvailableStatus;
  ms_Endpoint : string;
  ms_Token : string
}.
#[export] Instance MetaServiceStatus_etas : Etas MetaServiceStatus := fun m =>
  mkMSStatus (ms_Phase m) (ms_AvailableStatus m) (ms_Endpoint m) (ms_Token m).
#[export] Instance MetaServiceStatus_eq_dec : EqDecision MetaServiceStatus.
Proof. solve_decision. Defined.

Record FEStatus := mkFEStatus {
  fes_Phase : Phase;
  fes_AvailableStatus : AvailableStatus;
  fes_ClusterId : string
}.
#[export] Instance FEStatus_etas : Etas FEStatus := fun f =>
  mkFEStatus (fes_Phase f) (fes_AvailableStatus f) (fes_ClusterId f).
#[export] Instance FEStatus_eq_dec : EqDecision FEStatus.
Proof. solve_decision. Defined.

Record ClusterHealth := mkClusterHealth {
  ch_Health : Health;
  ch_FeAvailable : bool;
  ch_CGCount : Z;
  ch_CGAvailableCount : Z;
  ch_CGFullAvailableCount : Z
}.
#[export] Instance ClusterHealth_etas : Etas ClusterHealth := fun c =>
  mkClusterHealth (ch_Health c) (ch_FeAvailable c) (ch_CGCount c) (ch_CGAvailableCount c)
    (ch_CGFullAvailableCount c).
#[export] Instance ClusterHealth_eq_dec : EqDecision ClusterHealth.
Proof. solve_decision. Defined.

Record DdcStatus := mkDdcStatus {
  MSStatus : MetaServiceStatus;
  FEStatus_ : FEStatus;
  ClusterHealth_ : ClusterHealth;
  ComputeGroupStatuses : list ComputeGroupStatus;
  ObservedGeneration : Z
}.
#[export] Instance DdcStatus_etas : Etas DdcStatus := fun s =>
  mkDdcStatus (MSStatus s) (FEStatus_ s) (ClusterHealth_ s) (ComputeGroupStatuses s)
    (ObservedGeneration s).
#[export] Instance DdcStatus_eq_dec : EqDecision DdcStatus.
Proof. solve_decision. Defined.
Definition emptyDdcStatus : DdcStatus :=
  mkDdcStatus (mkMSStatus (PhaseOther "") (AvailableOther "") "" "")
    (mkFEStatus (PhaseOther "") (AvailableOther "") "")
    (mkClusterHealth HealthUnset false 0 0 0) [] 0.

Record Ddc := mkDdc {
  ddc_Meta : ObjectMeta;
  ddc_APIVersion : string;
  ddc_Kind : string;
  ddc_Spec : DdcSpec;
  ddc_Status : DdcStatus
}.
#[export] Instance Ddc_etas : Etas Ddc := fun d =>
  mkDdc (ddc_Meta d) (ddc_APIVersion d) (ddc_Kind d) (ddc_Spec d) (ddc_Status d).
Definition emptyDdc : Ddc := mkDdc emptyMeta "" "" emptyDdcSpec emptyDdcStatus.

Definition ddc_Name (d : Ddc) : string := m_Name (ddc_Meta d).
Definition ddc_Namespace (d : Ddc) : string := m_Namespace (ddc_Meta d).

Definition set_ddc_Annotations (a : strmap) (d : Ddc) : Ddc :=
  d <| ddc_Meta := (ddc_Meta d) <| m_Annotations := a |> |>.
Definition ddc_Annotations (d : Ddc) : strmap := m_Annotations (ddc_Meta d).

(** ** utils.go *)

Definition DorisDisaggregatedClusterName : string := "app.doris.disaggregated.cluster".
Definition DorisDisaggregatedOwnerReference : string := "app.doris.disaggregated.ownerreference/name".
Definition DorisDisaggregatedComputeGroupUniqueId : string := "app.doris.disaggregated.cg-uniqueid".
Definition DorisDisaggregatedPodType : string := "app.doris.disaggregated.type".
Definition DisaggregatedSpecHashValueAnnotation : string := "doris.disaggregated.cluster/hash".
Definition ServiceRoleForCluster : string := "app.doris.service/role".
Definition UpdateStatefulsetGeneration : string := "doris.disaggregated.cluster/generation".
(** [fmt.Sprintf(UpdateStatefulsetName, name)] *)
Definition UpdateStatefulsetName (name : string) : string := "doris.disaggregated.cluster/" +:+ name.

(** The key on the cluster that says its StatefulSet was updated in this pass. *)
Definition update_key (stsName : string) : string := ToLower (UpdateStatefulsetName stsName).

Inductive DisaggregatedComponentType :=
| DisaggregatedFE | DisaggregatedBE | DisaggregatedMS | DisaggregatedOther (s : string).
#[export] Instance DisaggregatedComponentType_eq_dec : EqDecision DisaggregatedComponentType.
Proof. solve_decision. Defined.

Definition DefaultMetaserviceNumber : Z := 2.
Definition DefaultFeReplicaNumber : Z := 2.
Definition DefaultDisFeElectionNumber : Z := 1.

Definition GetElectionNumber (ddc : Ddc) : Z :=
  match ElectionNumber (Fe (ddc_Spec ddc)) with
  | Some n => n
  | None => DefaultDisFeElectionNumber
  end.

(** ** unique_id.go *)

Definition GetCGStatefulsetName (ddc : Ddc) (cg : ComputeGroup) : string :=
  ReplaceAll (ddc_Name ddc +:+ "-" +:+ UniqueId cg) "_" "-".
Definition GetFEStatefulsetName (ddc : Ddc) : string := ddc_Name ddc +:+ "-" +:+ "fe".
Definition GetMSStatefulsetName (ddc : Ddc) : string := ddc_Name ddc +:+ "-" +:+ "ms".
Definition GetCGServiceName (ddc : Ddc) (cg : ComputeGroup) : string :=
  ReplaceAll (ddc_Name ddc +:+ "-" +:+ UniqueId cg) "_" "-".
Definition GetCGExternalServiceName (ddc : Ddc) (cg : ComputeGroup) : string :=
  GetCGServiceName ddc cg +:+ "-external".
Definition GetFEServiceName (ddc : Ddc) : string := ddc_Name ddc +:+ "-" +:+ "fe".
Definition GetFEVIPAddresss (ddc : Ddc) : string :=
  GetFEServiceName ddc +:+ "." +:+ ddc_Namespace ddc.
Definition GetFEInternalServiceName (ddc : Ddc) : string := ddc_Name ddc +:+ "-" +:+ "fe-internal".
Definition GetMSServiceName (ddc : Ddc) : string := ddc_Name ddc +:+ "-" +:+ "ms".
Definition GetCGName (cg : ComputeGroup) : string := ReplaceAll (UniqueId cg) "-" "_".

(** [sha256] is the digest read as a big-endian integer. *)
Definition GetInstanceHashId (sha256 : string -> Z) (ddc : Ddc) : Z :=
  let hashInt := sha256 (ddc_Namespace ddc +:+ "-" +:+ ddc_Name ddc) in
  let rangeStart := 1000000000 in
  let rangeEnd := 2000000000 in
  let rangeSize := rangeEnd - rangeStart in
  int64 (hashInt mod rangeSize + rangeStart).

(** ** disaggregatedcluster_webhook.go *)

Definition validateManagementUser (ddc : Ddc) : list goerr :=
  match Admin (ddc_Spec ddc) with
  | None => []
  | Some u =>
      if EqualFold (au_Name u) "admin"
      then [errorsNew "'adminUser.name' error: admin is not supported as management user, use root or a dedicated user with NODE_PRIV"]
      else []
  end.

Definition validateFEReplicas (ddc : Ddc) : option goerr :=
  match Replicas (fe_Common (Fe (ddc_Spec ddc))) with
  | None => None
  | Some n =>
      if n <? GetElectionNumber ddc
      then Some (errorsNew "'FeSpec.Replicas' error: the number of FeSpec.Replicas should greater than or equal to FeSpec.ElectionNumber")
      else None
  end.

Definition validate (ddc : Ddc) : list goerr :=
  let errs := validateManagementUser ddc in
  match validateFEReplicas ddc with
  | Some err => app errs [err]
  | None => errs
  end.

(** The admission answer: [kerrors.NewAggregate] of a non-empty list. *)
Definition ValidateCreate (cluster : Ddc) : option (list goerr) :=
  match validate cluster with [] => None | errs => Some errs end.
Definition ValidateUpdate (oldObj newObj : Ddc) : option (list goerr) :=
  match validate newObj with [] => None | errs => Some errs end.
Definition ValidateDelete (ddc : Ddc) : option (list goerr) := None.

(** ** Lemmas *)

Definition canonical_type (t : GracefulActionType) : Prop := action_type_of (action_type_string t) = t.
Definition canonical_phase (p : GracefulActionPhase) : Prop := action_phase_of (action_phase_string p) = p.

Lemma action_type_of_string s : action_type_string (action_type_of s) = s.
Proof. unfold action_type_of. repeat case_decide; cbn; congruence. Qed.
Lemma action_phase_of_string s : action_phase_string (action_phase_of s) = s.
Proof. unfold action_phase_of. repeat case_decide; cbn; congruence. Qed.

Lemma GetInstanceHashId_range sha256 ddc :
  1000000000 <= GetInstanceHashId sha256 ddc < 2000000000.
Proof.
  unfold GetInstanceHashId. cbn -[Z.modulo].
  set (h := sha256 _). pose proof (Z.mod_pos_bound h (2000000000 - 1000000000) ltac:(lia)).
  assert (in_int 64 (h mod (2000000000 - 1000000000) + 1000000000) = true) as Hin.
  { unfold in_int. apply andb_true_iff; split; [apply Z.leb_le | apply Z.ltb_lt]; cbn; lia. }
  unfold int64; rewrite wrap_id by (done || lia). lia.
Qed.
