(* ===== verification/DcrApi.v ===== *)
(** The DorisCluster resource: the types of [src/api/doris/v1/types.go] and
    [autoscaler.go] (the fields that the modelled code reads or writes), the
    name and label functions of [doriscluster_util.go] and the admission
    webhook.  Constructors of the two API groups share names; a file that
    uses both imports the one it means last. *)

From Stdlib Require Import ZArith Lia Ascii.
From stdpp Require Import base list gmap strings.
From S2P Require Import Prelude GoStr KubeTypes DdcApi.

Local Open Scope string_scope.
Local Open Scope Z_scope.

(** ** Components *)

Inductive ComponentType :=
| Component_FE | Component_BE | Component_CN | Component_Broker | ComponentOther (s : string).
#[export] Instance ComponentType_eq_dec : EqDecision ComponentType.
Proof. solve_decision. Defined.

Definition component_string (c : ComponentType) : string :=
  match c with
  | Component_FE => "fe"
  | Component_BE => "be"
  | Component_CN => "cn"
  | Component_Broker => "broker"
  | ComponentOther s => s
  end.

(** ** Autoscaling *)

Inductive AutoScalerVersion := AutoScalerV1 | AutoSclaerV2 | AutoScalerOther (s : string).
#[export] Instance AutoScalerVersion_eq_dec : EqDecision AutoScalerVersion.
Proof. solve_decision. Defined.

Record CrossVersionObjectReference := mkObjRef { ref_Kind : string; ref_Name : string; ref_APIVersion : string }.
Record MetricIdentifier := mkMetricId { mi_Name : string; mi_Selector : option LabelSelector }.
Record MetricTarget := mkMetricTarget {
  mt_Type : string;
  mt_Value : option Z;
  mt_AverageValue : option Z;
  mt_AverageUtilization : option Z
}.
Record ObjectMetricSource := mkObjectMetric {
  om_DescribedObject : CrossVersionObjectReference;
  om_Target : MetricTarget;
  om_Metric : MetricIdentifier
}.
Record PodsMetricSource := mkPodsMetric { pms_Metric : MetricIdentifier; pms_Target : MetricTarget }.
Record ResourceMetricSource := mkResourceMetric { rms_Name : string; rms_Target : MetricTarget }.
Record ContainerResourceMetricSource := mkContainerMetric {
  crm_Name : string;
  crm_Target : MetricTarget;
  crm_Container : string
}.
Record ExternalMetricSource := mkExternalMetric { em_Metric : MetricIdentifier; em_Target : MetricTarget }.
Record MetricSpec := mkMetricSpec {
  mts_Type : string;
  mts_Object : option ObjectMetricSource;
  mts_Pods : option PodsMetricSource;
  mts_Resource : option ResourceMetricSource;
  mts_ContainerResource : option ContainerResourceMetricSource;
  mts_External : option ExternalMetricSource
}.
Record HPAScalingPolicy := mkHPAScalingPolicy { hsp_Type : string; hsp_Value : Z; hsp_PeriodSeconds : Z }.
Record HPAScalingRules := mkHPAScalingRules {
  hsr_StabilizationWindowSeconds : option Z;
  hsr_SelectPolicy : option string;
  hsr_Policies : list HPAScalingPolicy
}.
Record HorizontalPodAutoscalerBehavior := mkBehavior {
  hb_ScaleUp : option HPAScalingRules;
  hb_ScaleDown : option HPAScalingRules
}.
Record HPAPolicy := mkHPAPolicy {
  hp_Metrics : list MetricSpec;
  hp_Behavior : option HorizontalPodAutoscalerBehavior
}.
Record AutoScalingPolicy := mkAutoScalingPolicy {
  asp_HPAPolicy : option HPAPolicy;
  asp_Version : AutoScalerVersion;
  asp_MinReplicas : option Z;
  asp_MaxReplicas : Z
}.

(** The autoscaler object of the API server, of version v1 or v2. *)
Record HorizontalPodAutoscaler := mkHPA {
  hpa_Kind : string;
  hpa_APIVersion : string;
  hpa_Meta : ObjectMeta;
  hpa_ScaleTargetRef : CrossVersionObjectReference;
  hpa_MaxReplicas : Z;
  hpa_MinReplicas : option Z;
  hpa_Metrics : list MetricSpec;
  hpa_Behavior : option HorizontalPodAutoscalerBehavior
}.
#[export] Instance HorizontalPodAutoscaler_etas : Etas HorizontalPodAutoscaler := fun h =>
  mkHPA (hpa_Kind h) (hpa_APIVersion h) (hpa_Meta h) (hpa_ScaleTargetRef h) (hpa_MaxReplicas h)
    (hpa_MinReplicas h) (hpa_Metrics h) (hpa_Behavior h).

(** ** Spec *)

Record FeEndpoints := mkFeEndpoints { fep_Address : list string; fep_Port : Z }.
Record FeAddress := mkFeAddress { fa_ServiceName : string; fa_Endpoints : FeEndpoints }.

Record DorisServicePort := mkDorisServicePort { dsp_NodePort : Z; dsp_TargetPort : Z }.
Record DcrExportService := mkDcrExportService {
  xs_Type : string;
  xs_ServicePorts : list DorisServicePort;
  xs_Annotations : strmap;
  xs_LoadBalancerIP : string
}.

Record DcrVolume := mkDcrVolume {
  dv_Spec : PVCSpec;
  dv_MountPath : string;
  dv_Name : string;
  dv_Annotations : strmap;
  dv_PVCProvisioner : PVCProvisioner
}.
#[export] Instance DcrVolume_etas : Etas DcrVolume := fun v =>
  mkDcrVolume (dv_Spec v) (dv_MountPath v) (dv_Name v) (dv_Annotations v) (dv_PVCProvisioner v).
#[export] Instance DcrVolume_eq_dec : EqDecision DcrVolume.
Proof. solve_decision. Defined.

Record ConfigMapInfo := mkConfigMapInfo {
  cmi_ConfigMapName : string;
  cmi_ResolveKey : string;
  cmi_ConfigMaps : list ConfigMapMount
}.

Record SharedPersistentVolumeClaim := mkSharedPVC {
  spc_MountPath : string;
  spc_PersistentVolumeClaimName : string;
  spc_SupportComponents : list ComponentType
}.

(** Tolerations, host aliases and the pod's security context are carried unread. *)
Record BaseSpec := mkBaseSpec {
  bs_StartTimeout : Z;
  bs_LiveTimeout : Z;
  bs_ReadinessProbePolicy : option ReadinessProbePolicy;
  bs_Annotations : strmap;
  bs_ServiceAccount : string;
  bs_Service : option DcrExportService;
  bs_FeAddress : option FeAddress;
  bs_Replicas : option Z;
  bs_Image : string;
  bs_ImagePullSecrets : list string;
  bs_ConfigMapInfo : ConfigMapInfo;
  bs_Resources : ResourceRequirements;
  bs_NodeSelector : strmap;
  bs_EnvVars : list EnvVar;
  bs_Affinity : option Affinity;
  bs_Tolerations : list string;
  bs_PodLabels : strmap;
  bs_HostAliases : list string;
  bs_PersistentVolumes : list DcrVolume;
  bs_SystemInitialization : option SystemInitialization;
  bs_SecurityContext : option string;
  bs_ContainerSecurityContext : option SecurityContext;
  bs_Secrets : list SecretMount
}.
#[export] Instance BaseSpec_etas : Etas BaseSpec := fun b =>
  mkBaseSpec (bs_StartTimeout b) (bs_LiveTimeout b) (bs_ReadinessProbePolicy b) (bs_Annotations b)
    (bs_ServiceAccount b) (bs_Service b) (bs_FeAddress b) (bs_Replicas b) (bs_Image b) (bs_ImagePullSecrets b)
    (bs_ConfigMapInfo b) (bs_Resources b) (bs_NodeSelector b) (bs_EnvVars b) (bs_Affinity b) (bs_Tolerations b)
    (bs_PodLabels b) (bs_HostAliases b) (bs_PersistentVolumes b) (bs_SystemInitialization b)
    (bs_SecurityContext b) (bs_ContainerSecurityContext b) (bs_Secrets b).
Definition emptyBase : BaseSpec :=
  mkBaseSpec 0 0 None ∅ "" None None None "" [] (mkConfigMapInfo "" "" []) noResources ∅ [] None [] ∅ [] []
    None None None [].

Record FeSpec := mkFeSpec { ElectionNumber : option Z; fe_Base : BaseSpec }.
#[export] Instance FeSpec_etas : Etas FeSpec := fun f => mkFeSpec (ElectionNumber f) (fe_Base f).
Record BeSpec := mkBeSpec {
  be_Base : BaseSpec;
  be_EnableWorkloadGroup : bool;
  be_SkipDefaultSystemInit : bool;
  be_EnableFeAffinity : bool;
  be_AutoResolveLimitCPU : bool
}.
#[export] Instance BeSpec_etas : Etas BeSpec := fun b =>
  mkBeSpec (be_Base b) (be_EnableWorkloadGroup b) (be_SkipDefaultSystemInit b) (be_EnableFeAffinity b)
    (be_AutoResolveLimitCPU b).
Record CnSpec := mkCnSpec {
  cn_Base : BaseSpec;
  cn_SkipDefaultSystemInit : bool;
  cn_AutoScalingPolicy : option AutoScalingPolicy;
  cn_AutoResolveLimitCPU : bool
}.
#[export] Instance CnSpec_etas : Etas CnSpec := fun c =>
  mkCnSpec (cn_Base c) (cn_SkipDefaultSystemInit c) (cn_AutoScalingPolicy c) (cn_AutoResolveLimitCPU c).
Record BrokerSpec := mkBrokerSpec { bk_Base : BaseSpec; bk_KickOffAffinityBe : bool }.
#[export] Instance BrokerSpec_etas : Etas BrokerSpec := fun b => mkBrokerSpec (bk_Base b) (bk_KickOffAffinityBe b).

Record DcrSpec := mkDcrSpec {
  FeSpec_ : option FeSpec;
  BeSpec_ : option BeSpec;
  CnSpec_ : option CnSpec;
  BrokerSpec_ : option BrokerSpec;
  AdminUser_ : option AdminUser;
  AuthSecret : string;
  EnableRestartWhenConfigChange : bool;
  KerberosInfo_ : option KerberosInfo;
  SharedPersistentVolumeClaims : list SharedPersistentVolumeClaim
}.
#[export] Instance DcrSpec_etas : Etas DcrSpec := fun s =>
  mkDcrSpec (FeSpec_ s) (BeSpec_ s) (CnSpec_ s) (BrokerSpec_ s) (AdminUser_ s) (AuthSecret s)
    (EnableRestartWhenConfigChange s) (KerberosInfo_ s) (SharedPersistentVolumeClaims s).

(** ** Status *)

Inductive ComponentPhase :=
| Reconciling | WaitScheduling | HaveMemberFailed | Available | Initializing | Upgrading
| Scaling | Restarting | ComponentPhaseOther (s : string).
#[export] Instance ComponentPhase_eq_dec : EqDecision ComponentPhase.
Proof. solve_decision. Defined.

(** A [time.Time]: its wall clock, and whether it carries a monotonic reading,
    as the clock's own values do and decoded ones do not; [==] tells them apart. *)
Record Time := mkTime { t_nano : Z; t_monotonic : bool }.
#[export] Instance Time_eq_dec : EqDecision Time.
Proof. solve_decision. Defined.
Definition zeroTime : Time := mkTime 0 false.

Record ComponentCondition := mkCondition {
  cc_SubResourceName : string;
  cc_Phase : ComponentPhase;
  cc_LastTransitionTime : Time;
  cc_Reason : string;
  cc_Message : string
}.
#[export] Instance ComponentCondition_etas : Etas ComponentCondition := fun c =>
  mkCondition (cc_SubResourceName c) (cc_Phase c) (cc_LastTransitionTime c) (cc_Reason c) (cc_Message c).
#[export] Instance ComponentCondition_eq_dec : EqDecision ComponentCondition.
Proof. solve_decision. Defined.

Record ComponentStatus := mkComponentStatus {
  cst_AccessService : string;
  cst_CoreConfigMapHashValue : string;
  cst_FailedMembers : list string;
  cst_CreatingMembers : list string;
  cst_RunningMembers : list string;
  cst_ComponentCondition : ComponentCondition
}.
#[export] Instance ComponentStatus_etas : Etas ComponentStatus := fun c =>
  mkComponentStatus (cst_AccessService c) (cst_CoreConfigMapHashValue c) (cst_FailedMembers c)
    (cst_CreatingMembers c) (cst_RunningMembers c) (cst_ComponentCondition c).
#[export] Instance ComponentStatus_eq_dec : EqDecision ComponentStatus.
Proof. solve_decision. Defined.
Definition zeroComponentStatus : ComponentStatus :=
  mkComponentStatus "" "" [] [] [] (mkCondition "" (ComponentPhaseOther "") zeroTime "" "").

Definition cst_Phase (c : ComponentStatus) : ComponentPhase := cc_Phase (cst_ComponentCondition c).
Definition set_phase (p : ComponentPhase) (c : ComponentStatus) : ComponentStatus :=
  c <| cst_ComponentCondition := (cst_ComponentCondition c) <| cc_Phase := p |> |>.

Record HorizontalScaler := mkHorizontalScaler { hs_Name : string; hs_Version : AutoScalerVersion }.
#[export] Instance HorizontalScaler_eq_dec : EqDecision HorizontalScaler.
Proof. solve_decision. Defined.

Record CnStatus := mkCnStatus { cns_Status : ComponentStatus; cns_HorizontalScaler : option HorizontalScaler }.
#[export] Instance CnStatus_etas : Etas CnStatus := fun c => mkCnStatus (cns_Status c) (cns_HorizontalScaler c).
#[export] Instance CnStatus_eq_dec : EqDecision CnStatus.
Proof. solve_decision. Defined.

Record DcrStatus := mkDcrStatus {
  FEStatus : option ComponentStatus;
  BEStatus : option ComponentStatus;
  CnStatus_ : option CnStatus;
  BrokerStatus : option ComponentStatus
}.
#[export] Instance DcrStatus_etas : Etas DcrStatus := fun s =>
  mkDcrStatus (FEStatus s) (BEStatus s) (CnStatus_ s) (BrokerStatus s).
#[export] Instance DcrStatus_eq_dec : EqDecision DcrStatus.
Proof. solve_decision. Defined.

Record Dcr := mkDcr {
  dcr_Meta : ObjectMeta;
  dcr_APIVersion : string;
  dcr_Kind : string;
  dcr_Spec : DcrSpec;
  dcr_Status : DcrStatus
}.
#[export] Instance Dcr_etas : Etas Dcr := fun d =>
  mkDcr (dcr_Meta d) (dcr_APIVersion d) (dcr_Kind d) (dcr_Spec d) (dcr_Status d).
Definition emptyDcr : Dcr :=
  mkDcr emptyMeta "" "" (mkDcrSpec None None None None None "" false None []) (mkDcrStatus None None None None).

Definition dcr_Name (d : Dcr) : string := m_Name (dcr_Meta d).
Definition dcr_Namespace (d : Dcr) : string := m_Namespace (dcr_Meta d).
Definition dcr_Annotations (d : Dcr) : strmap := m_Annotations (dcr_Meta d).
Definition set_dcr_Annotations (a : strmap) (d : Dcr) : Dcr :=
  d <| dcr_Meta := (dcr_Meta d) <| m_Annotations := a |> |>.

(** The base spec of a component, absent when its spec is. *)
Definition base_of (d : Dcr) (c : ComponentType) : option BaseSpec :=
  match c with
  | Component_FE => fe_Base <$> FeSpec_ (dcr_Spec d)
  | Component_BE => be_Base <$> BeSpec_ (dcr_Spec d)
  | Component_CN => cn_Base <$> CnSpec_ (dcr_Spec d)
  | Component_Broker => bk_Base <$> BrokerSpec_ (dcr_Spec d)
  | ComponentOther _ => None
  end.

(** Writing through the pointer to the base spec of FE, BE or broker. *)
Definition set_fe_base (b : BaseSpec) (d : Dcr) : Dcr :=
  d <| dcr_Spec := (dcr_Spec d) <| FeSpec_ := (fun f => f <| fe_Base := b |>) <$> FeSpec_ (dcr_Spec d) |> |>.
Definition set_be_base (b : BaseSpec) (d : Dcr) : Dcr :=
  d <| dcr_Spec := (dcr_Spec d) <| BeSpec_ := (fun f => f <| be_Base := b |>) <$> BeSpec_ (dcr_Spec d) |> |>.
Definition set_broker_base (b : BaseSpec) (d : Dcr) : Dcr :=
  d <| dcr_Spec := (dcr_Spec d) <| BrokerSpec_ := (fun f => f <| bk_Base := b |>) <$> BrokerSpec_ (dcr_Spec d) |> |>.
Definition set_fe_status (s : option ComponentStatus) (d : Dcr) : Dcr :=
  d <| dcr_Status := (dcr_Status d) <| FEStatus := s |> |>.
Definition set_be_status (s : option ComponentStatus) (d : Dcr) : Dcr :=
  d <| dcr_Status := (dcr_Status d) <| BEStatus := s |> |>.
Definition set_cn_status (s : option CnStatus) (d : Dcr) : Dcr :=
  d <| dcr_Status := (dcr_Status d) <| CnStatus_ := s |> |>.
Definition set_broker_status (s : option ComponentStatus) (d : Dcr) : Dcr :=
  d <| dcr_Status := (dcr_Status d) <| BrokerStatus := s |> |>.

(** ** doriscluster_util.go *)

Definition DcrComponentResourceHash : string := "app.doris.components/hash".
Definition FERestartAt : string := "apache.doris.fe/restartedAt".
Definition BERestartAt : string := "apache.doris.be/restartedAt".
Definition ComponentLabelKey : string := "app.kubernetes.io/component".
Definition DorisClusterLabelKey : string := "app.doris.cluster".
Definition DcrOwnerReference : string := "app.doris.ownerreference/name".
Definition DcrServiceRoleForCluster : string := "app.doris.service/role".
Definition Service_Role_Access : string := "access".
Definition Service_Role_Internal : string := "internal".
Definition SEARCH_SERVICE_SUFFIX : string := "-internal".
Definition DefaultFeElectionNumber : Z := 3.

Definition GenerateExternalServiceName (dcr : Dcr) (c : ComponentType) : string :=
  match c with
  | ComponentOther _ => ""
  | _ => dcr_Name dcr +:+ "-" +:+ component_string c +:+ "-service"
  end.

Definition GenerateComponentStatefulSetName (dcr : Dcr) (c : ComponentType) : string :=
  match c with
  | ComponentOther _ => ""
  | _ => dcr_Name dcr +:+ "-" +:+ component_string c
  end.

Definition GenerateInternalCommunicateServiceName (dcr : Dcr) (c : ComponentType) : string :=
  dcr_Name dcr +:+ "-" +:+ component_string c +:+ SEARCH_SERVICE_SUFFIX.

Definition service_labels (dcr : Dcr) (c : ComponentType) (role : string) : strmap :=
  <[DcrServiceRoleForCluster := role]>
    (<[ComponentLabelKey := component_string c]> {[DcrOwnerReference := dcr_Name dcr]}).
Definition GenerateExternalServiceLabels (dcr : Dcr) (c : ComponentType) : strmap :=
  service_labels dcr c Service_Role_Access.
Definition GenerateInternalServiceLabels (dcr : Dcr) (c : ComponentType) : strmap :=
  service_labels dcr c Service_Role_Internal.

Definition GenerateStatefulSetSelector (dcr : Dcr) (c : ComponentType) : strmap :=
  match c with
  | ComponentOther _ => ∅
  | _ => <[ComponentLabelKey := component_string c]>
           {[DcrOwnerReference := GenerateComponentStatefulSetName dcr c]}
  end.
Definition GenerateServiceSelector (dcr : Dcr) (c : ComponentType) : strmap :=
  GenerateStatefulSetSelector dcr c.

Definition GenerateStatefulSetLabels (dcr : Dcr) (c : ComponentType) : strmap :=
  match c with
  | ComponentOther _ => ∅
  | _ => <[ComponentLabelKey := component_string c]> {[DcrOwnerReference := dcr_Name dcr]}
  end.

Definition getDefaultLabels (dcr : Dcr) : strmap := {[DorisClusterLabelKey := dcr_Name dcr]}.

(** [AddLabel]: the added pair wins.  [None] is the panic on an absent spec. *)
Definition GetPodLabels (dcr : Dcr) (c : ComponentType) : option strmap :=
  match c with
  | ComponentOther _ => Some ∅
  | _ => base ← base_of dcr c;
         Some (bs_PodLabels base ∪ (getDefaultLabels dcr ∪ GenerateStatefulSetSelector dcr c))
  end.

Definition getEndpointsToString (ep : FeEndpoints) : string * Z :=
  match fep_Address ep with
  | [] => ("", -1)
  | _ => (Join (fep_Address ep) ",", fep_Port ep)
  end.

(** The address configured on a base spec, when it has one. *)
Definition configured_address (base : option BaseSpec) : option (string * Z) :=
  b ← base;
  a ← bs_FeAddress b;
  match fep_Address (fa_Endpoints a) with
  | [] => None
  | _ => Some (getEndpointsToString (fa_Endpoints a))
  end.

Definition getFEAccessAddrForFEADD (dcr : Dcr) : string * Z :=
  default ("", -1) (configured_address (base_of dcr Component_FE)).

Definition GetConfigFEAddrForAccess (dcr : Dcr) (c : ComponentType) : string * Z :=
  match c with
  | ComponentOther _ => ("", -1)
  | _ => default (getFEAccessAddrForFEADD dcr) (configured_address (base_of dcr c))
  end.

Definition secret_value (s : Secret) (k : string) : string := default "" (sec_Data s !! k).

(** A secret without data has a nil map. *)
Definition GetClusterSecret (dcr : Dcr) (secret : option Secret) : string * string :=
  let fallback :=
    match AdminUser_ (dcr_Spec dcr) with
    | Some u => (au_Name u, au_Password u)
    | None => ("root", "")
    end in
  match secret with
  | Some s => if decide (sec_Data s = ∅) then fallback else (secret_value s "username", secret_value s "password")
  | None => fallback
  end.

Definition IsReconcilingStatusPhase (c : ComponentStatus) : bool :=
  match cst_Phase c with
  | Upgrading | Scaling | Restarting | Reconciling => true
  | _ => false
  end.

Definition GetElectionNumber (fe : FeSpec) : Z := default DefaultFeElectionNumber (ElectionNumber fe).

Definition GetRestartAnnotationKey (c : ComponentType) : string :=
  match c with
  | Component_FE => FERestartAt
  | Component_BE => BERestartAt
  | _ => ""
  end.

(** [None] is the nil pointer; the status of CN is a field of an absent struct. *)
Definition GetComponentStatus (dcr : Dcr) (c : ComponentType) : option ComponentStatus :=
  match c with
  | Component_FE => FEStatus (dcr_Status dcr)
  | Component_BE => BEStatus (dcr_Status dcr)
  | Component_CN => cns_Status <$> CnStatus_ (dcr_Status dcr)
  | Component_Broker => BrokerStatus (dcr_Status dcr)
  | ComponentOther _ => None
  end.

(** ** doriscluster_webhook.go *)

Definition validateManagementUser (dcr : Dcr) : list goerr :=
  match AdminUser_ (dcr_Spec dcr) with
  | None => []
  | Some u =>
      if EqualFold (au_Name u) "admin"
      then [errorsNew "'adminUser.name' error: admin is not supported as management user, use root or a dedicated user with NODE_PRIV"]
      else []
  end.

Definition ValidateCreate (cluster : Dcr) : option (list goerr) :=
  match validateManagementUser cluster with [] => None | errs => Some errs end.

(** The answer, [inl] when the spec of the FE is absent: a panic. *)
Definition ValidateUpdate (oldObj newObj : Dcr) : string + option (list goerr) :=
  let errors := validateManagementUser newObj in
  match FeSpec_ (dcr_Spec newObj) with
  | None => inl "nil pointer dereference"
  | Some fe =>
      let errors :=
        match bs_Replicas (fe_Base fe) with
        | Some n =>
            if n <? GetElectionNumber fe
            then app errors [errorsNew "'FeSpec.Replicas' error: the number of FeSpec.Replicas should greater than or equal to FeSpec.ElectionNumber"]
            else errors
        | None => errors
        end in
      inr match errors with [] => None | errs => Some errs end
  end.

Definition ValidateDelete (dcr : Dcr) : option (list goerr) := None.
