(* ===== verification/Client.v ===== *)
(** The external world of the controllers and [pkg/common/utils/k8s].

    [OpE] lists every call the modelled code makes outside the repository:
    the controller-runtime client (one constructor per verb, indexed by the
    kind of the object), the event recorder, the clock, the exec stream of
    client-go, the TLS helpers and the sqlx client.  The functions of
    [client.go] and [exec.go] are programs over these calls. *)

From Stdlib Require Import ZArith Lia.
From stdpp Require Import base list gmap strings.
From S2P Require Import Prelude GoStr KubeTypes DcrApi DdcApi.

Local Open Scope string_scope.
Local Open Scope Z_scope.
Local Open Scope dop_scope.

(** ** Calls *)

Inductive kind := KPod | KSts | KSvc | KPvc | KEndpoints | KSecret | KConfigMap | KDdc | KDcr
| KHpaV1 | KHpaV2.
#[export] Instance kind_eq_dec : EqDecision kind.
Proof. solve_decision. Defined.

Definition obj (k : kind) : Type :=
  match k with
  | KPod => Pod
  | KSts => StatefulSet
  | KSvc => Service
  | KPvc => PersistentVolumeClaim
  | KEndpoints => Endpoints
  | KSecret => Secret
  | KConfigMap => ConfigMap
  | KDdc => Ddc
  | KDcr => Dcr
  | KHpaV1 | KHpaV2 => HorizontalPodAutoscaler
  end.

(** How a list call selects: a label set, or the selector of a label selector. *)
Inductive list_by := MatchingLabels (m : strmap) | MatchingSelector (s : option LabelSelector).

(** A row of [show frontends] and of [show backends]: the columns the code reads. *)
Record Frontend := mkFrontend {
  fe_Name : string;
  fe_Host : string;
  fe_EditLogPort : Z;
  fe_Role : string;
  fe_IsMaster : bool;
  fe_CurrentConnected : string
}.

Record Backend := mkBackend {
  be_Host : string;
  be_HeartbeatPort : Z;
  be_LastStartTime : option string;
  be_Alive : bool;
  be_SystemDecommissioned : bool;
  be_TabletNum : Z;
  be_Tag : string;
  be_ErrMsg : string;
  be_Status : string;
  be_HeartbeatFailureCounter : Z
}.

(** A connection pool of sqlx. *)
Definition sqlx_DB : Type := string.

Inductive OpE : Type -> Type :=
| CGet (k : kind) (ns name : string) : OpE (res (obj k))
| CList (k : kind) (ns : string) (sel : list_by) : OpE (res (list (obj k)))
| CCreate (k : kind) (o : obj k) : OpE (option goerr)
| CUpdate (k : kind) (o : obj k) : OpE (option goerr)
| CPatchMerge (k : kind) (o : obj k) : OpE (option goerr)
| CPatchRaw (k : kind) (ns name : string) (patch : string) : OpE (option goerr)
| CDelete (k : kind) (o : obj k) : OpE (option goerr)
| CUpdateDdc (ddc : Ddc) : OpE (res Ddc)
| CStatusUpdate (ddc : Ddc) : OpE (res Ddc)
| DcrPatch (dcr : Dcr) : OpE (res Dcr)
| DcrStatusUpdate (dcr : Dcr) : OpE (option goerr)
| REvent (etype reason message : string) : OpE unit
| TimeNow : OpE Z
| KubeNewForConfig : OpE (option goerr)
| NewSPDYExecutor (ns pod container : string) (command : list string) : OpE (option goerr)
| StreamExec (ns pod container : string) (command : list string) (timeout : Z)
    : OpE (string * string * option goerr)
| X509AppendCertsFromPEM (ca : string) : OpE bool
| X509KeyPair (cert key : string) : OpE (option goerr)
| RegisterTLSConfig (key : string) : OpE (option goerr)
| SqlxOpen (dsn : string) : OpE (res sqlx_DB)
| SqlxPing (db : sqlx_DB) : OpE (option goerr)
| SqlxClose (db : sqlx_DB) : OpE unit
| SqlxShowFrontends (db : sqlx_DB) : OpE (res (list Frontend))
| SqlxShowBackends (db : sqlx_DB) : OpE (res (list Backend))
| SqlxExec (db : sqlx_DB) (query : string) : OpE (option goerr).

Abbreviation op := (prog OpE).
Abbreviation trace := (list (event OpE)).

(** A program that fails with [e], or continues, on an error value. *)
Definition fail_with {A} (e : goerr) : op (res A) := Ret (Er e).

(** Ranging over the result of a fallible call: an error returns at once. *)
Definition bind_res {A B} (p : op (res A)) (f : A -> op (res B)) : op (res B) :=
  let! r := p in match r with Ok a => f a | Er e => Ret (Er e) end.

(** [*p] for a pointer field: the nil pointer is a panic. *)
Definition deref {A B} (o : option A) (f : A -> op B) : op B :=
  match o with Some a => f a | None => Panic "nil pointer dereference" end.

(** A failed type assertion of a configuration reader is a panic. *)
Definition assert_ok {A B} (o : option A) (f : A -> op B) : op B :=
  match o with
  | Some a => f a
  | None => Panic "interface conversion: interface {} is not string"
  end.

(** ** client.go *)

Definition CreateClientObject (k : kind) (o : obj k) : op (option goerr) := call (CCreate k o).
Definition UpdateClientObject (k : kind) (o : obj k) : op (option goerr) := call (CUpdate k o).
Definition PatchClientObject (k : kind) (o : obj k) : op (option goerr) := call (CPatchMerge k o).
Definition DeleteClientObject (k : kind) (o : obj k) : op (option goerr) := call (CDelete k o).

Definition CreateOrUpdateClientObject (k : kind) (o : obj k) : op (option goerr) :=
  let! err := call (CUpdate k o) in
  match err with
  | Some e => if IsNotFound e then call (CCreate k o) else Ret (Some e)
  | None => Ret None
  end.

Definition PatchOrCreate (k : kind) (o : obj k) : op (option goerr) :=
  let! err := call (CPatchMerge k o) in
  match err with
  | Some e => if IsNotFound e then call (CCreate k o) else Ret (Some e)
  | None => Ret None
  end.

Definition set_svc_ResourceVersion (v : string) (s : Service) : Service :=
  s <| svc_Meta := (svc_Meta s) <| m_ResourceVersion := v |> |>.
Definition set_st_ResourceVersion (v : string) (s : StatefulSet) : StatefulSet :=
  s <| st_Meta := (st_Meta s) <| m_ResourceVersion := v |> |>.

(** [equal] returns the service as the comparison leaves it, and the verdict.
    A [Get] that fails leaves the zero service in [esvc]. *)
Definition ApplyService (svc : Service) (equal : Service -> Service -> Service * bool)
  : op (option goerr) :=
  let svc := svc <| svc_ClusterIPs := [] |> in
  let! got := call (CGet KSvc (svc_Namespace svc) (svc_Name svc)) in
  let compare (esvc : Service) :=
    let '(svc, eq) := equal svc esvc in
    if eq then Ret None
    else PatchClientObject KSvc (set_svc_ResourceVersion (m_ResourceVersion (svc_Meta esvc)) svc) in
  match got with
  | Ok esvc => compare esvc
  | Er err =>
      if IsNotFound err then
        let svc := set_svc_ResourceVersion "" svc in
        let! cerr := CreateClientObject KSvc svc in
        match cerr with
        | None => Ret None
        | Some e => if IsAlreadyExists e then Ret None else Ret (Some e)
        end
      else compare emptySvc
  end.

Definition ListServicesInNamespace (ns : string) (selector : strmap) : op (res (list Service)) :=
  call (CList KSvc ns (MatchingLabels selector)).
Definition ListStatefulsetInNamespace (ns : string) (selector : strmap) : op (res (list StatefulSet)) :=
  call (CList KSts ns (MatchingLabels selector)).

Section apply.
(** State the comparison closure updates besides the new StatefulSet. *)
Context {C : Type}.

Definition apply_stateful_set (st : StatefulSet) (c : C)
    (equal : StatefulSet -> StatefulSet -> C -> op (StatefulSet * C * bool))
    (pasfs : list (StatefulSet -> option StatefulSet -> StatefulSet))
  : op (C * option goerr) :=
  let! got := call (CGet KSts (st_Namespace st) (st_Name st)) in
  let go (create : bool) (est : StatefulSet) :=
    let! '(st, c, ev) := equal st est c in
    let st := foldl (fun st pasf => pasf st None) st pasfs in
    if create then
      let! err := CreateClientObject KSts st in Ret (c, err)
    else if ev then Ret (c, None)
    else
      let! err := PatchClientObject KSts (set_st_ResourceVersion (m_ResourceVersion (st_Meta est)) st) in
      match err with
      | None => Ret (c, None)
      | Some e => if IsConflict e then Ret (c, None) else Ret (c, Some e)
      end in
  match got with
  | Ok est => go false est
  | Er err => if IsNotFound err then go true emptySts else Ret (c, Some err)
  end.

(** With a comparison that cannot panic. *)
Definition ApplyStatefulSet (st : StatefulSet) (c : C)
    (equal : StatefulSet -> StatefulSet -> C -> StatefulSet * C * bool)
    (pasfs : list (StatefulSet -> option StatefulSet -> StatefulSet)) : op (C * option goerr) :=
  apply_stateful_set st c (fun new old c => Ret (equal new old c)) pasfs.
End apply.

Definition GetStatefulSet (ns name : string) : op (res StatefulSet) := call (CGet KSts ns name).

Definition DeleteStatefulset (ns name : string) : op (option goerr) :=
  let! got := call (CGet KSts ns name) in
  match got with
  | Er err => if IsNotFound err then Ret None else Ret (Some err)
  | Ok st => call (CDelete KSts st)
  end.

Definition DeleteService (ns name : string) : op (option goerr) :=
  let! got := call (CGet KSvc ns name) in
  match got with
  | Er err => if IsNotFound err then Ret None else Ret (Some err)
  | Ok svc => call (CDelete KSvc svc)
  end.

(** A conflict is no error: the next pass sees the newer cluster.  The answer of
    the API server is read into the cluster that was sent, status included. *)
Definition ApplyDorisCluster (dcr : Dcr) : op (Dcr * option goerr) :=
  let! r := call (DcrPatch dcr) in
  match r with
  | Er e => if IsConflict e then Ret (dcr, None) else Ret (dcr, Some e)
  | Ok answer => Ret (answer, None)
  end.

Definition version_string (v : AutoScalerVersion) : string :=
  match v with AutoScalerV1 => "v1" | AutoSclaerV2 => "v2" | AutoScalerOther s => s end.

Definition DeleteAutoscaler (ns name : string) (autoscalerVersion : AutoScalerVersion) : op (option goerr) :=
  let get_delete (k : kind) :=
    let! got := call (CGet k ns name) in
    match got with
    | Er err => if IsNotFound err then Ret None else Ret (Some err)
    | Ok autoscaler => call (CDelete k autoscaler)
    end in
  match autoscalerVersion with
  | AutoScalerV1 => get_delete KHpaV1
  | AutoSclaerV2 => get_delete KHpaV2
  | AutoScalerOther s => Ret (Some (errorsNew ("the autoscaler type " +:+ s +:+ " is not supported.")))
  end.

Definition PodIsReady (status : PodStatus) : bool :=
  match ps_ContainerStatuses status with
  | None => false
  | Some css => forallb cs_Ready css
  end.

Definition GetSecret (ns name : string) : op (res Secret) := call (CGet KSecret ns name).
Definition CreateSecret (secret : Secret) : op (option goerr) := call (CCreate KSecret secret).
Definition UpdateSecret (secret : Secret) : op (option goerr) := call (CUpdate KSecret secret).
Definition GetConfigMap (ns name : string) : op (res ConfigMap) := call (CGet KConfigMap ns name).

(** The config maps of a list, a zero one in the place of each that is not
    found, and the messages of the failed gets. *)
Fixpoint get_config_maps (ns : string) (cms : list ConfigMapMount) (configMaps : list ConfigMap)
    (errMessage : string) : op (list ConfigMap * string) :=
  match cms with
  | [] => Ret (configMaps, errMessage)
  | cm :: rest =>
      let! r := call (CGet KConfigMap ns (cmm_Name cm)) in
      match r with
      | Ok configMap => get_config_maps ns rest (app configMaps [configMap]) errMessage
      | Er e => get_config_maps ns rest (app configMaps [mkConfigMap emptyMeta ∅])
                  (errMessage +:+ "(name: " +:+ cmm_Name cm +:+ ", namespace: " +:+ ns +:+ ", err: " +:+
                   err_msg e +:+ "), ")
      end
  end.

Definition GetConfigMaps (ns : string) (cms : list ConfigMapMount) : op (list ConfigMap * option goerr) :=
  let! '(configMaps, errMessage) := get_config_maps ns cms [] "" in
  Ret (configMaps,
       if decide (errMessage <> "") then Some (errorsNew ("Failed to get configmap: " +:+ errMessage)) else None).

Definition GetService (ns name : string) : op (res Service) := call (CGet KSvc ns name).
Definition GetPods (ns : string) (labels : strmap) : op (res (list Pod)) :=
  call (CList KPod ns (MatchingLabels labels)).
Definition GetPVC (name ns : string) : op (res PersistentVolumeClaim) := call (CGet KPvc ns name).

Definition emptyPVC : PersistentVolumeClaim :=
  mkPVC "" "" emptyMeta (mkPVCSpec [] None None ∅) "".

Definition DeletePVC (ns pvcName : string) (labels : strmap) : op (option goerr) :=
  let pvc := emptyPVC <| pvc_Meta :=
    emptyMeta <| m_Name := pvcName |> <| m_Namespace := ns |> <| m_Labels := labels |> |> in
  let! err := call (CDelete KPvc pvc) in
  match err with
  | Some e => if IsNotFound e then Ret None else Ret (Some e)
  | None => Ret None
  end.

(** ** exec.go *)

(** Standard output, standard error and the error. *)
Definition ExecInPod (ns podName containerName : string) (command : list string) (timeout : Z)
  : op (string * string * option goerr) :=
  let! cerr := call KubeNewForConfig in
  match cerr with
  | Some e => Ret ("", "", Some (wrapErr "failed to create kubernetes clientset: " e))
  | None =>
      let! xerr := call (NewSPDYExecutor ns podName containerName command) in
      match xerr with
      | Some e => Ret ("", "", Some (wrapErr "failed to create SPDY executor: " e))
      | None => call (StreamExec ns podName containerName command timeout)
      end
  end.

(** ** error.go *)

Definition MergeError (err1 err2 : option goerr) : option goerr :=
  match err1, err2 with
  | None, None => None
  | None, Some e => Some e
  | Some e, None => Some e
  | Some e1, Some e2 => Some (errorsNew (err_msg e1 +:+ "; " +:+ err_msg e2))
  end.
