(* ===== verification/Traces.v ===== *)
(** Reasoning about executions: which calls a program makes and what it
    returns.

    [exec p tr o] is the relational semantics of a program; [wp] is the
    weakest precondition for it.  [spec P R p] says that every call that [p]
    makes satisfies [P] and every value it returns satisfies [R]; it composes
    along [bind], so that a property of a whole reconcile pass follows from
    the properties of its steps.  The projections name the calls that change
    the world. *)

From Stdlib Require Import ZArith Lia.
From stdpp Require Import base list gmap strings.
From S2P Require Import Prelude GoStr KubeTypes DdcApi Client.

Local Open Scope dop_scope.

(** ** Relational semantics *)

Inductive exec {E : Type -> Type} {A} : prog E A -> list (event E) -> outcome A -> Prop :=
| exec_ret a : exec (Ret a) [] (Done a)
| exec_panic w : exec (Panic w) [] (Crashed w)
| exec_call X (e : E X) k x tr o : exec (k x) tr o -> exec (Call e k) (Ev e x :: tr) o.

Lemma wp_exec {E A} (p : prog E A) Q : wp p Q -> forall tr o, exec p tr o -> Q tr o.
Proof.
  intros H tr o Hex. revert Q H. induction Hex; intros Q HQ; cbn in HQ; auto.
  by apply (IHHex (fun tr o => Q (Ev e x :: tr) o)).
Qed.

Lemma exec_wp {E A} (p : prog E A) Q : (forall tr o, exec p tr o -> Q tr o) -> wp p Q.
Proof.
  revert Q; induction p as [a|w|X e k IH]; intros Q HQ; cbn.
  - apply HQ; constructor.
  - apply HQ; constructor.
  - intros x; apply IH; intros tr o Hex; apply HQ; by constructor.
Qed.

(** ** Calls and results *)

Section spec.
Context {E : Type -> Type}.

Definition returns {A} (R : A -> Prop) (o : outcome A) : Prop :=
  match o with Done a => R a | Crashed _ => True end.

Definition spec {A} (P : event E -> Prop) (R : A -> Prop) (p : prog E A) : Prop :=
  wp p (fun tr o => Forall P tr /\ returns R o).

Lemma spec_ret {A} (P : event E -> Prop) (R : A -> Prop) a : R a -> spec P R (Ret a).
Proof. by split. Qed.

Lemma spec_panic {A} (P : event E -> Prop) (R : A -> Prop) w : spec P R (Panic w).
Proof. by split. Qed.

Lemma spec_call {A X} (P : event E -> Prop) (R : A -> Prop) (e : E X) k :
  (forall x, P (Ev e x)) -> (forall x, P (Ev e x) -> spec P R (k x)) -> spec P R (Call e k).
Proof.
  intros HP Hk x. eapply wp_mono; [apply Hk, HP|]. intros tr o [Htr Ho].
  split; [by constructor | done].
Qed.

Lemma spec_bind {A B} (P : event E -> Prop) (R1 : A -> Prop) (R : B -> Prop) (p : prog E A) f :
  spec P R1 p -> (forall a, R1 a -> spec P R (f a)) -> spec P R (bind p f).
Proof.
  intros Hp Hf. apply wp_bind. eapply wp_mono; [exact Hp|].
  intros tr [a|w] [Htr HR]; [|by split].
  eapply wp_mono; [apply Hf, HR|]. intros tr' o [Htr' Ho].
  split; [by apply Forall_app | done].
Qed.

Lemma spec_weaken {A} (P P' : event E -> Prop) (R R' : A -> Prop) (p : prog E A) :
  spec P R p -> (forall e, P e -> P' e) -> (forall a, R a -> R' a) -> spec P' R' p.
Proof.
  intros Hp HP HR. eapply wp_mono; [exact Hp|]. intros tr [a|w] [Htr Ho]; split; cbn in *; auto;
    (eapply Forall_impl; [exact Htr | auto]).
Qed.

Lemma spec_foldM {A B} (P : event E -> Prop) (R : A -> Prop) (f : A -> B -> prog E A) l a :
  (forall a b, R a -> spec P R (f a b)) -> R a -> spec P R (foldM f a l).
Proof.
  intros Hf. revert a; induction l as [|b l IH]; intros a Ha; cbn; [by apply spec_ret|].
  eapply spec_bind; [by apply Hf | auto].
Qed.

Lemma spec_exec {A} (P : event E -> Prop) (R : A -> Prop) (p : prog E A) tr o :
  spec P R p -> exec p tr o -> Forall P tr /\ returns R o.
Proof. intros Hp Hex. exact (wp_exec _ _ Hp _ _ Hex). Qed.
End spec.
Arguments spec : simpl never.

(** No condition on the result, or on the calls. *)
Abbreviation only P p := (spec P (fun _ => True) p).
Definition any_event {E : Type -> Type} (e : event E) : Prop := True.
Abbreviation result R p := (spec any_event R p).

Lemma only_any {E : Type -> Type} {A} (p : prog E A) : only any_event p.
Proof. apply wp_true. intros tr o. split; [by apply Forall_true | by destruct o]. Qed.

(** ** Executions against an environment *)

(** [p] returns [a] against the environment [h]: the trace, and the two states. *)
Definition runs {E : Type -> Type} {A S} (h : forall X, E X -> S -> X * S) (p : prog E A) (s : S)
    (tr : list (event E)) (a : A) (s' : S) : Prop := run h p s = (tr, Done a, s').

Section runs.
Context {E : Type -> Type} {S : Type} (h : forall X, E X -> S -> X * S).

Lemma runs_ret {A} (a : A) s : runs h (Ret a) s [] a s.
Proof. done. Qed.

Lemma runs_bind {A B} (p : prog E A) (f : A -> prog E B) s tr a s' tr' b s'' :
  runs h p s tr a s' -> runs h (f a) s' tr' b s'' -> runs h (bind p f) s (tr ++ tr') b s''.
Proof.
  unfold runs. revert s tr; induction p as [x|w|X e k IH]; intros s tr; cbn.
  - by intros [= <- <- <-].
  - done.
  - destruct (h X e s) as [x s1]. specialize (IH x s1). destruct (run h (k x) s1) as [[tr1 o1] s2].
    intros [= <- -> ->] Hf. by rewrite (IH _ eq_refl Hf).
Qed.

Lemma runs_call {X B} (e : E X) (k : X -> prog E B) s x s' tr b s'' :
  h X e s = (x, s') -> runs h (k x) s' tr b s'' -> runs h (bind (call e) k) s (Ev e x :: tr) b s''.
Proof. unfold runs. cbn. intros ->. by destruct (run h (k x) s') as [[? ?] ?] eqn:E0; intros [= -> -> ->]. Qed.
End runs.

Lemma run_bind {E : Type -> Type} {A B S} (h : forall X, E X -> S -> X * S) (p : prog E A) (f : A -> prog E B) s :
  run h (bind p f) s =
  match run h p s with
  | (tr, Done a, s') => let '(tr', o, s'') := run h (f a) s' in (app tr tr', o, s'')
  | (tr, Crashed w, s') => (tr, Crashed w, s')
  end.
Proof.
  revert s; induction p as [a|w|X e k IH]; intros s; cbn; [by destruct (run h (f a) s) as [[? ?] ?] | done|].
  destruct (h X e s) as [x s']. rewrite IH. destruct (run h (k x) s') as [[tr [a|w]] s'']; [|done].
  by destruct (run h (f a) s'') as [[? ?] ?].
Qed.

(** An execution against an environment is an execution. *)
Lemma run_exec {E A S} (h : forall X, E X -> S -> X * S) (p : prog E A) s :
  exec p (run h p s).1.1 (run h p s).1.2.
Proof.
  revert s; induction p as [a|w|X e k IH]; intros s; cbn; [constructor..|].
  destruct (h X e s) as [x s']. specialize (IH x s').
  destruct (run h (k x) s') as [[tr o] s'']. by constructor.
Qed.

Lemma run_exec_eq {E A S} (h : forall X, E X -> S -> X * S) (p : prog E A) s tr o s' :
  run h p s = (tr, o, s') -> exec p tr o.
Proof. intros E0. pose proof (run_exec h p s) as Hex. by rewrite E0 in Hex. Qed.

(** ** The calls that change the world *)

(** The pod that a call deletes. *)
Definition pod_delete (e : event OpE) : option Pod :=
  match e with
  | Ev (CDelete k o) _ => match k return obj k -> option Pod with KPod => Some | _ => fun _ => None end o
  | _ => None
  end.

(** The StatefulSet that a call creates, replaces or patches. *)
Definition sts_of (k : kind) : obj k -> option StatefulSet :=
  match k return obj k -> option StatefulSet with KSts => Some | _ => fun _ => None end.
Definition sts_write (e : event OpE) : option StatefulSet :=
  match e with
  | Ev (CCreate k o) _ | Ev (CUpdate k o) _ | Ev (CPatchMerge k o) _ => sts_of k o
  | _ => None
  end.

(** The name of the claim that a call deletes. *)
Definition pvc_delete (e : event OpE) : option string :=
  match e with
  | Ev (CDelete k o) _ => match k return obj k -> option string with
                          | KPvc => fun p => Some (pvc_Name p) | _ => fun _ => None end o
  | _ => None
  end.

(** The statement that a call runs on Doris. *)
Definition sql_exec (e : event OpE) : option string :=
  match e with Ev (SqlxExec _ query) _ => Some query | _ => None end.

(** The pods that a call lists, and the pod that a call fetches. *)
Definition pod_list (e : event OpE) : option (list Pod) :=
  match e with
  | Ev ev x =>
      match ev in OpE X return X -> option (list Pod) with
      | CList k _ _ => match k return res (list (obj k)) -> option (list Pod) with
                       | KPod => fun r => match r with Ok l => Some l | Er _ => None end
                       | _ => fun _ => None
                       end
      | _ => fun _ => None
      end x
  end.

(** The backends that a call shows. *)
Definition backends_shown (e : event OpE) : option (list Backend) :=
  match e with
  | Ev ev x =>
      match ev in OpE X return X -> option (list Backend) with
      | SqlxShowBackends _ => fun r => match r with Ok l => Some l | Er _ => None end
      | _ => fun _ => None
      end x
  end.

(** The time that a call reads. *)
Definition time_read (e : event OpE) : option Z :=
  match e with
  | Ev ev x => match ev in OpE X return X -> option Z with TimeNow => Some | _ => fun _ => None end x
  end.

(** A call that changes an object of the cluster or the state of Doris. *)
Definition is_write (e : event OpE) : bool :=
  match e with
  | Ev (CCreate _ _) _ | Ev (CUpdate _ _) _ | Ev (CPatchMerge _ _) _ | Ev (CPatchRaw _ _ _ _) _
  | Ev (CDelete _ _) _ | Ev (CUpdateDdc _) _ | Ev (CStatusUpdate _) _ | Ev (DcrPatch _) _ | Ev (DcrStatusUpdate _) _ | Ev (SqlxExec _ _) _
  | Ev (StreamExec _ _ _ _ _) _ => true
  | _ => false
  end.

Definition quiet (e : event OpE) : Prop := is_write e = false.
Definition no_pod_delete (e : event OpE) : Prop := pod_delete e = None.
Definition no_sql (e : event OpE) : Prop := sql_exec e = None.
Definition no_sts_write (e : event OpE) : Prop := sts_write e = None.

Lemma quiet_no_pod_delete e : quiet e -> no_pod_delete e.
Proof. destruct e as [X e x]; destruct e; try done; by destruct k. Qed.
Lemma quiet_no_sql e : quiet e -> no_sql e.
Proof. destruct e as [X e x]; by destruct e. Qed.

Lemma quiet_no_sts_write e : quiet e -> no_sts_write e.
Proof. destruct e as [X e x]; by destruct e. Qed.

Lemma omap_none {A B} (f : A -> option B) l : Forall (fun x => f x = None) l -> omap f l = [].
Proof. induction 1 as [|x l Hx Hl IH]; [done|]. cbn. by rewrite Hx. Qed.

Create HintDb spec discriminated.
#[export] Hint Constants Opaque : spec.
#[export] Hint Variables Opaque : spec.

(** [spec_step] takes one step through a program: a call, a branch, or a
    sub-program whose lemma is in the database [spec]; [spec_go] repeats it and
    decides the conditions that compute. *)
Ltac spec_step :=
  lazymatch goal with
  | |- spec _ _ (Ret _) => apply spec_ret
  | |- spec _ _ (Panic _) => apply spec_panic
  | |- spec _ _ (call _) => apply spec_call; [intros ? | intros ? _]
  | |- spec _ _ (Call _ _) => apply spec_call; [intros ? | intros ? _]
  | |- spec _ _ (deref ?o _) => destruct o; cbn [deref]
  | |- spec _ _ (bind _ _) =>
      first [ eapply spec_bind; [solve [eauto 3 with spec] | intros ? ?]
            | apply (spec_bind _ (fun _ => True)); [ | intros ? _] ]
  | |- spec _ _ (match ?x with _ => _ end) => destruct x eqn:?
  | |- spec _ _ _ => cbv beta zeta
  end.
Ltac spec_go :=
  repeat first [ progress cbv beta zeta | exact I | reflexivity | solve [eauto 3 with spec] | progress spec_step ].

Lemma DeleteService_spec (P : event OpE -> Prop) ns name :
  (forall k n m (r : res (obj k)), P (Ev (CGet k n m) r)) -> (forall s r, P (Ev (CDelete KSvc s) r)) ->
  only P (DeleteService ns name).
Proof. intros Hg Hd. unfold DeleteService. repeat (spec_step; auto). Qed.

Lemma DeleteStatefulset_spec (P : event OpE -> Prop) ns name :
  (forall k n m (r : res (obj k)), P (Ev (CGet k n m) r)) -> (forall s r, P (Ev (CDelete KSts s) r)) ->
  only P (DeleteStatefulset ns name).
Proof. intros Hg Hd. unfold DeleteStatefulset. repeat (spec_step; auto). Qed.
