(* ===== verification/Mysql.v ===== *)
(** The Doris SQL client ([pkg/common/utils/mysql]) and the decommission
    progress ([pkg/common/utils/resource/decommission.go]). *)

From Stdlib Require Import ZArith Lia Ascii.
From stdpp Require Import base list gmap strings sorting.
From S2P Require Import Prelude GoStr Json KubeTypes DdcApi Client.

Local Open Scope string_scope.
Local Open Scope Z_scope.
Local Open Scope dop_scope.

(** ** Printing a decoded value with [%v] and [%s]

    [fmt_float] is Go's text of the float64 a number literal denotes. *)
Fixpoint insert_sorted {A} (k : string) (v : A) (l : list (string * A)) : list (string * A) :=
  match l with
  | [] => [(k, v)]
  | (k', v') :: l' =>
      match String.compare k k' with
      | Lt => (k, v) :: l
      | Eq => (k, v) :: l'
      | Gt => (k', v') :: insert_sorted k v l'
      end
  end.

Section fmt.
Context (fmt_float : string -> string).

Fixpoint fmt_v (j : json) : string :=
  match j with
  | JNull => "<nil>"
  | JBool b => fmt_bool b
  | JNum lit => fmt_float lit
  | JStr s => s
  | JArr l => "[" +:+ Join ((fix go l := match l with [] => [] | x :: l' => fmt_v x :: go l' end) l) " " +:+ "]"
  | JObj l =>
      "map[" +:+ Join (map (fun kv => kv.1 +:+ ":" +:+ kv.2)
        ((fix go (acc : list (string * string)) (l : list (string * json)) := match l with
           | [] => acc
           | (k, x) :: l' => go (insert_sorted k (fmt_v x) acc) l'
           end) [] l)) " " +:+ "]"
  end.

Fixpoint fmt_s (j : json) : string :=
  match j with
  | JNull => "%!s(<nil>)"
  | JBool b => "%!s(bool=" +:+ fmt_bool b +:+ ")"
  | JNum lit => "%!s(float64=" +:+ fmt_float lit +:+ ")"
  | JStr s => s
  | JArr l => "[" +:+ Join ((fix go l := match l with [] => [] | x :: l' => fmt_s x :: go l' end) l) " " +:+ "]"
  | JObj l =>
      "map[" +:+ Join (map (fun kv => kv.1 +:+ ":" +:+ kv.2)
        ((fix go (acc : list (string * string)) (l : list (string * json)) := match l with
           | [] => acc
           | (k, x) :: l' => go (insert_sorted k (fmt_s x) acc) l'
           end) [] l)) " " +:+ "]"
  end.
End fmt.

(** ** mysql.go *)

Record DBConfig := mkDBConfig {
  db_User : string;
  db_Password : string;
  db_Host : string;
  db_Port : string;
  db_Database : string
}.
#[export] Instance DBConfig_etas : Etas DBConfig := fun d =>
  mkDBConfig (db_User d) (db_Password d) (db_Host d) (db_Port d) (db_Database d).

Record TLSConfig := mkTLSConfig {
  tls_CAFileName : string;
  tls_ClientCertFileName : string;
  tls_ClientKeyFileName : string
}.

Definition NewDBConfig : DBConfig := mkDBConfig "" "" "" "" "mysql".

(** [type DB struct { *sqlx.DB }] *)
Record DB := mkDB { db_sqlx : sqlx_DB }.

Definition map_get (m : strmap) (k : string) : string :=
  match m !! k with Some v => v | None => "" end.

(** Opening and pinging, once the data source name is known. *)
Definition open_and_ping (dsn : string) : op (res DB) :=
  let! opened := call (SqlxOpen dsn) in
  match opened with
  | Er err => Ret (Er err)
  | Ok db =>
      let! perr := call (SqlxPing db) in
      match perr with
      | Some err => Ret (Er err)
      | None => Ret (Ok (mkDB db))
      end
  end.

Definition NewDorisSqlDB (cfg : DBConfig) (tlsConfig : option TLSConfig) (secret : option Secret)
  : op (res DB) :=
  let dsn := db_User cfg +:+ ":" +:+ db_Password cfg +:+ "@tcp(" +:+ db_Host cfg +:+ ":" +:+
             db_Port cfg +:+ ")/" +:+ db_Database cfg in
  match tlsConfig, secret with
  | Some tls, Some sec =>
      let ca := map_get (sec_Data sec) (tls_CAFileName tls) in
      let clientCert := map_get (sec_Data sec) (tls_ClientCertFileName tls) in
      let clientKey := map_get (sec_Data sec) (tls_ClientKeyFileName tls) in
      let! ok := call (X509AppendCertsFromPEM ca) in
      if ok : bool then
        let! kerr := call (X509KeyPair clientCert clientKey) in
        match kerr with
        | Some err => Ret (Er (errorsNew ("NewDorisSqlDB load x509 key pair failed," +:+ err_msg err)))
        | None =>
            let registerKey := m_Namespace (sec_Meta sec) +:+ "-" +:+ m_Name (sec_Meta sec) in
            let! rerr := call (RegisterTLSConfig registerKey) in
            match rerr with
            | Some err => Ret (Er (errorsNew ("NewDorisSqlDB register tls config failed," +:+ err_msg err)))
            | None => open_and_ping (dsn +:+ "?tls=" +:+ registerKey)
            end
        end
      else Ret (Er (errorsNew "NewDorisSqlDB append cert from pem failed"))
  | _, _ => open_and_ping dsn
  end.

Definition Close (db : DB) : op unit := call (SqlxClose (db_sqlx db)).
Definition Exec (db : DB) (query : string) : op (option goerr) := call (SqlxExec (db_sqlx db) query).
Definition ShowFrontends (db : DB) : op (res (list Frontend)) := call (SqlxShowFrontends (db_sqlx db)).
Definition ShowBackends (db : DB) : op (res (list Backend)) := call (SqlxShowBackends (db_sqlx db)).

(** [defer db.Close()]: after the body, whether it returns or panics. *)
Fixpoint with_close {A} (db : DB) (body : op A) : op A :=
  match body with
  | Ret a => Close db ;;; Ret a
  | Panic why => Close db ;;; Panic why
  | Call e k => Call e (fun x => with_close db (k x))
  end.

Definition FE_FOLLOWER_ROLE : string := "FOLLOWER".
Definition FE_OBSERVE_ROLE : string := "OBSERVER".
Definition COMPUTE_GROUP_ID : string := "compute_group_id".

(** The last master in the list, and the followers (master included). *)
Definition followers_of (frontends : list Frontend) : option Frontend * list Frontend :=
  foldl (fun '(master, res) fe =>
    if decide (fe_Role fe = FE_FOLLOWER_ROLE)
    then (if fe_IsMaster fe then Some fe else master, app res [fe])
    else (master, res)) (None, []) frontends.

Definition GetFollowers (db : DB) : op (res (option Frontend * list Frontend)) :=
  let! r := ShowFrontends db in
  match r with
  | Er err => Ret (Er err)
  | Ok frontends => Ret (Ok (followers_of frontends))
  end.

Definition GetObservers (db : DB) : op (res (list Frontend)) :=
  let! r := ShowFrontends db in
  match r with
  | Er err => Ret (Er err)
  | Ok frontends => Ret (Ok (filter (fun fe => fe_Role fe = FE_OBSERVE_ROLE) frontends))
  end.

(** The load-balanced connection is closed once the master's is open (or has
    failed); a cluster without a master makes [master] the nil pointer. *)
Definition NewDorisMasterSqlDB (dbConf : DBConfig) (tlsConfig : option TLSConfig) (secret : option Secret)
  : op (res DB) :=
  let! r := NewDorisSqlDB dbConf tlsConfig secret in
  match r with
  | Er err => Ret (Er err)
  | Ok loadBalanceDBClient =>
      let! f := GetFollowers loadBalanceDBClient in
      match f with
      | Er err => Ret (Er err)
      | Ok (master, _) =>
          deref master (fun master =>
            if decide (fe_CurrentConnected master = "Yes") then Ret (Ok loadBalanceDBClient)
            else
              let! m := NewDorisSqlDB
                (mkDBConfig (db_User dbConf) (db_Password dbConf) (fe_Host master) (db_Port dbConf) "mysql")
                tlsConfig secret in
              Close loadBalanceDBClient ;;;
              Ret m)
      end
  end.

(** [fmt.Sprintf(`"%s:%d"`, host, port)] *)
Definition quoted_addr (host : string) (port : Z) : string :=
  dquote +:+ host +:+ ":" +:+ Itoa port +:+ dquote.

Definition backend_list (n0 : Backend) (rest : list Backend) : string :=
  foldl (fun s node => s +:+ "," +:+ quoted_addr (be_Host node) (be_HeartbeatPort node))
    (quoted_addr (be_Host n0) (be_HeartbeatPort n0)) rest.

Definition DecommissionBE (db : DB) (nodes : list Backend) : op (option goerr) :=
  match nodes with
  | [] => Ret None
  | n0 :: rest => Exec db ("ALTER SYSTEM DECOMMISSION BACKEND " +:+ backend_list n0 rest +:+ ";")
  end.

Definition DropBE (db : DB) (nodes : list Backend) : op (option goerr) :=
  match nodes with
  | [] => Ret None
  | n0 :: rest => Exec db ("ALTER SYSTEM DROPP BACKEND " +:+ backend_list n0 rest +:+ ";")
  end.

Definition DropObserver (db : DB) (nodes : list Frontend) : op (option goerr) :=
  match nodes with
  | [] => Ret None
  | _ =>
      let alter := foldl (fun s node =>
        s +:+ "ALTER SYSTEM DROP OBSERVER " +:+ quoted_addr (fe_Host node) (fe_EditLogPort node) +:+ ";")
        "" nodes in
      Exec db alter
  end.

Section backends.
(** Text of a float64, and the decoder's error for a malformed text. *)
Context (fmt_float : string -> string) (json_err : string -> goerr).

(** The loop of [GetBackendsByComputeGroupId]: the first malformed tag ends it. *)
Fixpoint backends_of_group (cgid : string) (l : list Backend) (acc : list Backend)
  : res (list Backend) :=
  match l with
  | [] => Ok acc
  | be :: l' =>
      match Unmarshal_map (be_Tag be) with
      | None => Er (json_err (be_Tag be))
      | Some m =>
          match m !! COMPUTE_GROUP_ID with
          | None => Er (errorsNew ("GetBackendsByComputeGroupId backends tag get compute_group_name failed, tag: " +:+
                          be_Tag be +:+ ", err: no compute_group_id field found"))
          | Some v =>
              backends_of_group cgid l'
                (if decide (fmt_s fmt_float v = cgid) then app acc [be] else acc)
          end
      end
  end.

Definition GetBackendsByComputeGroupId (db : DB) (cgid : string) : op (res (list Backend)) :=
  let! r := ShowBackends db in
  match r with
  | Er err => Ret (Er err)
  | Ok backends => Ret (backends_of_group cgid backends [])
  end.
End backends.

(** ** doris.go *)

Definition nth_piece (l : list string) (i : nat) (k : string -> op (res (gmap Z Frontend))) : op (res (gmap Z Frontend)) :=
  match l !! i with Some s => k s | None => Panic "index out of range" end.

Fixpoint BuildSeqNumberToFrontendMap_go (ipMap : strmap) (podTemplateName : string)
    (frontends : list Frontend) (m : gmap Z Frontend) : op (res (gmap Z Frontend)) :=
  match frontends with
  | [] => Ret (Ok m)
  | fe :: rest =>
      let podSignName := if HasPrefix (fe_Host fe) podTemplateName then fe_Host fe
                         else map_get ipMap (fe_Host fe) in
      nth_piece (Split podSignName podTemplateName) 1 (fun p1 =>
      nth_piece (Split p1 ".") 0 (fun p2 =>
        match Atoi (List.last (Split p2 "-") "") with
        | Er err => Ret (Er err)
        | Ok num => BuildSeqNumberToFrontendMap_go ipMap podTemplateName rest (<[num := fe]> m)
        end))
  end.

Definition BuildSeqNumberToFrontendMap (frontends : list Frontend) (ipMap : strmap)
    (podTemplateName : string) : op (res (gmap Z Frontend)) :=
  BuildSeqNumberToFrontendMap_go ipMap podTemplateName frontends ∅.

(** Keys in descending order. *)
Definition desc (a b : Z) : Prop := b <= a.
#[export] Instance desc_dec : RelDecision desc := fun a b => Z_le_dec b a.
Definition keys_desc (m : gmap Z Frontend) : list Z :=
  merge_sort desc (map fst (map_to_list m)).

Definition FindNeedDeletedObservers (frontendMap : gmap Z Frontend) (needRemovedAmount : Z)
  : list Frontend :=
  if needRemovedAmount <=? Z.of_nat (size frontendMap)
  then omap (fun k => frontendMap !! k) (take (Z.to_nat needRemovedAmount) (keys_desc frontendMap))
  else [].

(** ** decommission.go *)

Inductive DecommissionPhase :=
| PhaseDecommissioned | PhaseDecommissioning | DecommissionAcceptable | DecommissionPhaseUnknown.
#[export] Instance DecommissionPhase_eq_dec : EqDecision DecommissionPhase.
Proof. solve_decision. Defined.

Record DecommissionTaskStatus := mkDTS {
  AllBackendsSize : Z;
  UnDecommissionedCount : Z;
  DecommissioningCount : Z;
  DecommissionedCount : Z;
  BeKeepAmount : Z
}.

Definition count_backend (c : Z * Z * Z) (node : Backend) : Z * Z * Z :=
  let '(un, ing, ed) := c in
  if negb (be_SystemDecommissioned node) then (un + 1, ing, ed)
  else if be_TabletNum node =? 0 then (un, ing, ed + 1)
  else (un, ing + 1, ed).

Definition ConstructDecommissionTaskStatus (allBackends : list Backend) (cgKeepAmount : Z)
  : DecommissionTaskStatus :=
  let '(un, ing, ed) := foldl count_backend (0, 0, 0) allBackends in
  mkDTS (Z.of_nat (length allBackends)) un ing ed cgKeepAmount.

Definition GetDecommissionPhase (d : DecommissionTaskStatus) : DecommissionPhase :=
  if (DecommissioningCount d =? 0) && (DecommissionedCount d =? 0) &&
     (BeKeepAmount d <? UnDecommissionedCount d) then DecommissionAcceptable
  else if (UnDecommissionedCount d =? BeKeepAmount d) && (0 <? DecommissioningCount d)
  then PhaseDecommissioning
  else if (UnDecommissionedCount d =? BeKeepAmount d) &&
          (UnDecommissionedCount d + DecommissionedCount d =? AllBackendsSize d)
  then PhaseDecommissioned
  else DecommissionPhaseUnknown.

(** ** Lemmas *)

Definition is_undecommissioned (b : Backend) : bool := negb (be_SystemDecommissioned b).
Definition is_decommissioned (b : Backend) : bool := be_SystemDecommissioned b && (be_TabletNum b =? 0).
Definition is_decommissioning (b : Backend) : bool := be_SystemDecommissioned b && negb (be_TabletNum b =? 0).

Definition count (f : Backend -> bool) (l : list Backend) : Z := Z.of_nat (length (List.filter f l)).

Lemma count_cons f b l : count f (b :: l) = (if f b then 1 else 0) + count f l.
Proof. unfold count; cbn. destruct (f b); cbn [length]; lia. Qed.

Lemma count_nonneg f l : 0 <= count f l.
Proof. unfold count; lia. Qed.

Lemma count_zero f l : count f l = 0 <-> Forall (fun b => f b = false) l.
Proof.
  induction l as [|b l IH]; [split; [constructor | done]|].
  rewrite count_cons, Forall_cons, <- IH. pose proof (count_nonneg f l).
  destruct (f b); (split; [intros ?; first [lia | split; [done | lia]] | intros [? ?]; (done || lia)]).
Qed.

Lemma foldl_count_backend l un ing ed :
  foldl count_backend (un, ing, ed) l =
  (un + count is_undecommissioned l, ing + count is_decommissioning l, ed + count is_decommissioned l).
Proof.
  revert un ing ed; induction l as [|b l IH]; intros un ing ed; cbn [foldl].
  { unfold count; cbn. apply f_equal2; [apply f_equal2|]; lia. }
  rewrite !count_cons. unfold count_backend at 2.
  unfold is_undecommissioned at 1, is_decommissioning at 1, is_decommissioned at 1.
  destruct (be_SystemDecommissioned b), (be_TabletNum b =? 0); cbn [negb andb]; rewrite IH;
    (apply f_equal2; [apply f_equal2|]; lia).
Qed.

Lemma Construct_counts l keep :
  ConstructDecommissionTaskStatus l keep =
  mkDTS (Z.of_nat (length l)) (count is_undecommissioned l) (count is_decommissioning l)
    (count is_decommissioned l) keep.
Proof. unfold ConstructDecommissionTaskStatus. rewrite foldl_count_backend. done. Qed.

Lemma counts_sum l :
  count is_undecommissioned l + count is_decommissioning l + count is_decommissioned l =
  Z.of_nat (length l).
Proof.
  induction l as [|b l IH]; [done|]. rewrite !count_cons. cbn [length].
  unfold is_undecommissioned at 1, is_decommissioning at 1, is_decommissioned at 1.
  destruct (be_SystemDecommissioned b), (be_TabletNum b =? 0); cbn [negb andb]; lia.
Qed.

(** The phase is [Decommissioned] exactly when the nodes left in service are
    the wanted number and every node taken out of service is empty. *)
Lemma Decommissioned_iff l keep :
  GetDecommissionPhase (ConstructDecommissionTaskStatus l keep) = PhaseDecommissioned <->
  count is_undecommissioned l = keep /\
  Forall (fun b => be_SystemDecommissioned b = true -> be_TabletNum b = 0) l.
Proof.
  rewrite Construct_counts. unfold GetDecommissionPhase; cbn.
  pose proof (counts_sum l) as Hsum.
  pose proof (count_nonneg is_decommissioning l). pose proof (count_nonneg is_decommissioned l).
  assert (Hing : count is_decommissioning l = 0 <->
    Forall (fun b => be_SystemDecommissioned b = true -> be_TabletNum b = 0) l).
  { rewrite count_zero, !Forall_forall. unfold is_decommissioning.
    split; intros H' b Hb; specialize (H' b Hb); revert H';
      destruct (be_SystemDecommissioned b), (Z.eqb_spec (be_TabletNum b) 0); cbn; auto; try done.
    intros H'. by specialize (H' eq_refl). }
  rewrite <- Hing.
  destruct (Z.eqb_spec (count is_decommissioning l) 0), (Z.eqb_spec (count is_decommissioned l) 0),
    (Z.ltb_spec keep (count is_undecommissioned l)), (Z.eqb_spec (count is_undecommissioned l) keep),
    (Z.ltb_spec 0 (count is_decommissioning l)),
    (Z.eqb_spec (count is_undecommissioned l + count is_decommissioned l) (Z.of_nat (length l)));
    cbn [andb]; split; intros Hx; try done; lia.
Qed.

(** *** Observers *)

Lemma keys_desc_perm m : keys_desc m ≡ₚ map fst (map_to_list m).
Proof. apply merge_sort_Permutation. Qed.

Lemma keys_desc_elem m k : k ∈ keys_desc m <-> is_Some (m !! k).
Proof.
  rewrite keys_desc_perm, list_elem_of_fmap. split.
  - intros ((k' & v) & -> & H%elem_of_map_to_list). by exists v.
  - intros [v Hv]. exists (k, v); split; [done | by apply elem_of_map_to_list].
Qed.

Lemma keys_desc_NoDup m : NoDup (keys_desc m).
Proof. rewrite keys_desc_perm. apply NoDup_fst_map_to_list. Qed.

Lemma keys_desc_length m : length (keys_desc m) = size m.
Proof. rewrite (Permutation_length (keys_desc_perm m)), length_map. apply length_map_to_list. Qed.

#[export] Instance desc_trans : Transitive desc.
Proof. unfold desc; intros a b c ??; lia. Qed.
#[export] Instance desc_total : Total desc.
Proof. unfold desc; intros a b; lia. Qed.

Lemma keys_desc_sorted m : StronglySorted desc (keys_desc m).
Proof. apply StronglySorted_merge_sort; apply _. Qed.

Lemma StronglySorted_app_le (l1 l2 : list Z) : StronglySorted desc (app l1 l2) ->
  forall a b, a ∈ l1 -> b ∈ l2 -> b <= a.
Proof.
  induction l1 as [|x l1 IH]; cbn; intros Hs a b Ha Hb; [by apply elem_of_nil in Ha|].
  apply StronglySorted_inv in Hs as [Hs Hx].
  apply elem_of_cons in Ha as [->|Ha]; [|by eapply IH].
  rewrite Forall_forall in Hx. apply (Hx b). apply elem_of_app; by right.
Qed.

(** The chosen frontends are those of the [n] highest indexes. *)
Lemma FindNeedDeletedObservers_top m n : 0 <= n <= Z.of_nat (size m) ->
  exists removed kept : list Z,
    keys_desc m = app removed kept /\
    Z.of_nat (length removed) = n /\
    (forall i j, i ∈ removed -> j ∈ kept -> j < i) /\
    map Some (FindNeedDeletedObservers m n) = map (fun k => m !! k) removed.
Proof.
  intros Hn. set (r := take (Z.to_nat n) (keys_desc m)). set (k := drop (Z.to_nat n) (keys_desc m)).
  assert (Hsplit : keys_desc m = app r k) by (symmetry; apply take_drop).
  exists r, k. split; [done|]. split.
  { subst r. rewrite length_take, keys_desc_length. lia. }
  split.
  { intros i j Hi Hj. pose proof (keys_desc_sorted m) as Hs. rewrite Hsplit in Hs.
    pose proof (StronglySorted_app_le _ _ Hs i j Hi Hj).
    pose proof (keys_desc_NoDup m) as Hnd. rewrite Hsplit, NoDup_app in Hnd.
    destruct Hnd as (_ & Hdisj & _). specialize (Hdisj i Hi).
    assert (i <> j) by (intros ->; done). lia. }
  unfold FindNeedDeletedObservers. rewrite (proj2 (Z.leb_le _ _)) by lia. fold r.
  assert (Hall : forall x, x ∈ r -> is_Some (m !! x)).
  { intros x Hx. apply keys_desc_elem. rewrite Hsplit. apply elem_of_app; by left. }
  clearbody r; clear -Hall. induction r as [|x r IH]; [done|].
  destruct (Hall x) as [v Hv]; [by left|]. cbn. rewrite Hv. cbn. rewrite IH; [done|].
  intros y Hy; apply Hall; by right.
Qed.
