(* ===== verification/Resource.v ===== *)
(** The resource helpers of [pkg/common/utils]: object hashes ([hash]),
    string sets ([set]), metadata merging ([resource/metadata.go],
    [metadata/labels.go]), the hash comparison of StatefulSets and Services,
    PVC names and annotations, and the configuration readers. *)

From Stdlib Require Import ZArith Lia Ascii.
From stdpp Require Import base list gmap strings.
From S2P Require Import Prelude GoStr KubeTypes DcrApi DdcApi Client.

Local Open Scope string_scope.
Local Open Scope Z_scope.

(** ** hash.go *)

(** The text that the spew library prints for a value with [%#v]. *)
Class SpewPrint (A : Type) := spew_fprintf : A -> string.

Definition fnv32_offset : Z := 2166136261.
Definition fnv32_prime : Z := 16777619.

(** [fnv.New32a]: the 32-bit FNV-1a state after a string. *)
Fixpoint fnv32a (h : Z) (s : string) : Z :=
  match s with
  | "" => h
  | String c s' => fnv32a ((Z.lxor h (ch_code c) * fnv32_prime) mod 2 ^ 32) s'
  end.

Definition HashObject {A} `{SpewPrint A} (object : A) : string :=
  Itoa (fnv32a fnv32_offset (spew_fprintf object)).

Definition setHashLabel {A} `{SpewPrint A} (labelName : string) (labels : strmap) (template : A) : strmap :=
  <[labelName := HashObject template]> labels.

(** ** set.go and array.go *)

Definition NewSetString (strs : list string) : gset string := foldl (fun s x => {[x]} ∪ s) ∅ strs.
Definition set_Add (s : gset string) (x : string) : gset string := {[x]} ∪ s.
Definition set_Del (s : gset string) (x : string) : gset string := s ∖ {[x]}.
Definition set_Find (s : gset string) (x : string) : bool := bool_decide (x ∈ s).
Definition ArrayContains {A} `{EqDecision A} (arr : list A) (target : A) : bool :=
  existsb (fun item => bool_decide (item = target)) arr.

(** ** metadata.go *)

(** Adding every pair of [l] to [m]: the added pair wins. *)
Definition AddLabel (m l : strmap) : strmap := l ∪ m.
Definition AddAnnotation (a annotation : strmap) : strmap := annotation ∪ a.
Definition NewLabels (labels : list strmap) : strmap := foldl AddLabel ∅ labels.
Definition NewAnnotations (annotations : list strmap) : strmap := foldl AddAnnotation ∅ annotations.

Definition mergeMapsByPrefix (from to : strmap) (prefix : string) : strmap :=
  filter (fun kv => HasPrefix kv.1 prefix = true) from ∪ to.
Definition mergeMaps (new old : strmap) : strmap := mergeMapsByPrefix new old "".

(** Appends the items of [old] that are not in [new]; the test uses the
    original [new], so a repeated item of [old] is appended each time. *)
Definition MergeSlices (new old : list string) : list string :=
  app new (filter (fun s => s ∉ new) old).
Definition mergeOwnerReferences (old new : list OwnerReference) : list OwnerReference :=
  app old (filter (fun r => r ∉ old) new).

(** [MergeMetadata] of package resource. *)
Definition MergeMetadata (new old : ObjectMeta) : ObjectMeta :=
  new <| m_ResourceVersion := m_ResourceVersion old |>
      <| m_Finalizers := MergeSlices (m_Finalizers new) (m_Finalizers old) |>
      <| m_Labels := mergeMaps (m_Labels new) (m_Labels old) |>
      <| m_Annotations := mergeMaps (m_Annotations new) (m_Annotations old) |>
      <| m_OwnerReferences := mergeOwnerReferences (m_OwnerReferences new) (m_OwnerReferences old) |>.

(** [MergeMetadata] of package metadata: the merged owner references are computed and dropped. *)
Definition metadata_MergeMetadata (new old : ObjectMeta) : ObjectMeta :=
  new <| m_ResourceVersion := m_ResourceVersion old |>
      <| m_Finalizers := MergeSlices (m_Finalizers new) (m_Finalizers old) |>
      <| m_Labels := mergeMaps (m_Labels new) (m_Labels old) |>
      <| m_Annotations := mergeMaps (m_Annotations new) (m_Annotations old) |>.

Definition GetDdcOwnerReference (d : Ddc) : OwnerReference :=
  mkOwnerReference (ddc_APIVersion d) (ddc_Kind d) (ddc_Name d) (m_UID (ddc_Meta d)).

Definition MergeStatefulSets (new old : StatefulSet) : StatefulSet :=
  new <| st_Meta := MergeMetadata (st_Meta new) (st_Meta old) |>.

(** ** statefulset.go: hash comparison *)

Definition ComponentResourceHash : string := "app.doris.components/hash".

Record hashStatefulsetObject := mkHashSts {
  hs_name : string;
  hs_namespace : string;
  hs_labels : strmap;
  hs_selector : LabelSelector;
  hs_podTemplate : PodTemplateSpec;
  hs_serviceName : string;
  hs_volumeClaimTemplates : list PersistentVolumeClaim;
  hs_replicas : Z
}.

Definition statefulSetHashObject (st : StatefulSet) (excludeReplica : bool) : hashStatefulsetObject :=
  let replicas :=
    if negb excludeReplica then match st_Replicas st with Some r => r | None => -1 end else -1 in
  let selector := match st_Selector st with Some s => s | None => mkLabelSelector ∅ [] end in
  mkHashSts (st_Name st) (st_Namespace st) (m_Labels (st_Meta st)) selector (st_Template st)
    (st_ServiceName st) (st_VolumeClaimTemplates st) replicas.

(** The StatefulSet with its hash recorded, and whether both hashes agree. *)
Definition StatefulsetDeepEqualWithKey `{SpewPrint hashStatefulsetObject}
    (new old : StatefulSet) (annoKey : string) (excludeReplicas : bool) : StatefulSet * bool :=
  let annoKey := if decide (annoKey = "") then ComponentResourceHash else annoKey in
  let newHashv := match st_Annotations new !! annoKey with
                  | Some v => v
                  | None => HashObject (statefulSetHashObject new excludeReplicas)
                  end in
  let oldHashv := match st_Annotations old !! annoKey with
                  | Some v => v
                  | None => HashObject (statefulSetHashObject old excludeReplicas)
                  end in
  let anno := <[annoKey := newHashv]> (AddAnnotation ∅ (st_Annotations new)) in
  (set_sts_Annotations anno new,
   bool_decide (newHashv = oldHashv) && bool_decide (st_Namespace new = st_Namespace old)).

(** ** service.go: hash comparison *)

Record hashService := mkHashService {
  hsv_name : string;
  hsv_namespace : string;
  hsv_ports : list ServicePort;
  hsv_selector : strmap;
  hsv_serviceType : string;
  hsv_labels : strmap;
  hsv_annotations : strmap
}.

Definition serviceHashObject (svc : Service) (avoidAnnoKeys : gset string) : hashService :=
  let annos := filter (fun kv => set_Find avoidAnnoKeys kv.1 = false) (svc_Annotations svc) in
  mkHashService (svc_Name svc) (svc_Namespace svc) (svc_Ports svc) (svc_Selector svc)
    (svc_Type svc) (m_Labels (svc_Meta svc)) annos.

Definition set_svc_Annotations (a : strmap) (s : Service) : Service :=
  s <| svc_Meta := (svc_Meta s) <| m_Annotations := a |> |>.

Definition ServiceDeepEqualWithAnnoKey `{SpewPrint hashService}
    (nsvc osvc : Service) (annoKey : string) : Service * bool :=
  let annoKey := if decide (annoKey = "") then ComponentResourceHash else annoKey in
  let hash_of svc :=
    match svc_Annotations svc !! annoKey with
    | Some v => v
    | None => HashObject (serviceHashObject svc (NewSetString [annoKey]))
    end in
  let newHashValue := hash_of nsvc in
  let oldHashValue := hash_of osvc in
  (set_svc_Annotations (mergeMaps (svc_Annotations nsvc) {[annoKey := newHashValue]}) nsvc,
   bool_decide (newHashValue = oldHashValue) && bool_decide (svc_Namespace nsvc = svc_Namespace osvc)).

Definition ServiceDeepEqual `{SpewPrint hashService} (newSvc oldSvc : Service) : Service * bool :=
  ServiceDeepEqualWithAnnoKey newSvc oldSvc ComponentResourceHash.

(** ** persistent_volume_claim.go *)

Definition pvcFinalizerApache : string := "apache.doris.org/pvc-finalizer".
Definition PVCManagerAnnotationApache : string := "apache.doris.org/pvc-manager".

Definition BuildPVCName (stsName ordinal volumeName : string) : string :=
  let pvcName := stsName +:+ "-" +:+ ordinal in
  if decide (volumeName <> "") then volumeName +:+ "-" +:+ pvcName else pvcName.

Definition BuildDisaggregatedPVC (pvcTemplate : PersistentVolumeClaim) (labels : strmap)
    (namespace stsName ordinal : string) : PersistentVolumeClaim :=
  mkPVC "" ""
    (emptyMeta <| m_Name := BuildPVCName stsName ordinal (pvc_Name pvcTemplate) |>
               <| m_Namespace := namespace |>
               <| m_Labels := labels |>
               <| m_Annotations := m_Annotations (pvc_Meta pvcTemplate) |>
               <| m_Finalizers := [pvcFinalizerApache] |>)
    (pvc_Spec pvcTemplate) "".

Definition BuildDisaggregatedPVCAnnotations `{SpewPrint PVCSpec} (volume : PersistentVolume) : strmap :=
  let annotations : strmap :=
    if decide (pv_PVCProvisioner volume = PVCProvisionerOperator)
    then <[ComponentResourceHash := HashObject (pv_Spec volume)]> {[PVCManagerAnnotationApache := "operator"]}
    else ∅ in
  AddAnnotation annotations (pv_Annotations volume).

(** ** convert.go, configmap.go and secret.go *)

(** A value of the parsed configuration: the code asserts that it is a string. *)
Inductive cfgval := CfgStr (s : string) | CfgOther.
Abbreviation config := (gmap string cfgval).

Definition HTTP_PORT : string := "http_port".
Definition RPC_PORT : string := "rpc_port".
Definition QUERY_PORT : string := "query_port".
Definition EDIT_LOG_PORT : string := "edit_log_port".
Definition THRIFT_PORT : string := "thrift_port".
Definition BE_PORT : string := "be_port".
Definition WEBSERVER_PORT : string := "webserver_port".
Definition HEARTBEAT_SERVICE_PORT : string := "heartbeat_service_port".
Definition BRPC_PORT : string := "brpc_port".
Definition BROKER_IPC_PORT : string := "broker_ipc_port".
Definition BRPC_LISTEN_PORT : string := "brpc_listen_port".
Definition ARROW_FLIGHT_SQL_PORT : string := "arrow_flight_sql_port".
Definition GRACE_SHUTDOWN_WAIT_SECONDS : string := "grace_shutdown_wait_seconds".
Definition ENABLE_FQDN : string := "enable_fqdn_mode".
Definition START_MODEL_FQDN : string := "FQDN".
Definition START_MODEL_IP : string := "IP".
Definition FE_RESOLVEKEY : string := "fe.conf".
Definition BE_RESOLVEKEY : string := "be.conf".
Definition MS_RESOLVEKEY : string := "doris_cloud.conf".
Definition ENABLE_TLS_KEY : string := "enable_tls".
Definition TLS_CERTIFICATE_PATH_KEY : string := "tls_certificate_path".
Definition TLS_PRIVATE_KEY_PATH_KEY : string := "tls_private_key_path".
Definition TLS_CA_CERTIFICATE_PATH_KEY : string := "tls_ca_certificate_path".
Definition DEFAULT_ROOT_PATH : string := "/opt/apache-doris".

Definition defMap : gmap string Z :=
  list_to_map [(HTTP_PORT, 8030); (RPC_PORT, 9020); (QUERY_PORT, 9030); (EDIT_LOG_PORT, 9010);
    (THRIFT_PORT, 9060); (BE_PORT, 9060); (WEBSERVER_PORT, 8040); (HEARTBEAT_SERVICE_PORT, 9050);
    (BRPC_PORT, 8060); (BROKER_IPC_PORT, 8000); (BRPC_LISTEN_PORT, 5000); (ARROW_FLIGHT_SQL_PORT, -1)].

Definition GetDefaultPort (key : string) : Z := match defMap !! key with Some p => p | None => 0 end.

(** [v.(string)]; [None] is the panic of a failed assertion. *)
Definition as_string (v : cfgval) : option string :=
  match v with CfgStr s => Some s | CfgOther => None end.

Definition GetPort (cfg : config) (key : string) : option Z :=
  match cfg !! key with
  | Some v =>
      s ← as_string v;
      match ParseInt s 32 with
      | (port, None) => Some (int32 port)
      | (_, Some _) => Some (GetDefaultPort key)
      end
  | None => Some (GetDefaultPort key)
  end.

Definition GetTerminationGracePeriodSeconds (cfg : config) : option Z :=
  match cfg !! GRACE_SHUTDOWN_WAIT_SECONDS with
  | Some v =>
      s ← as_string v;
      match ParseInt s 64 with
      | (seconds, None) => Some seconds
      | (_, Some _) => Some 0
      end
  | None => Some 0
  end.

Definition GetString (cfg : config) (key : string) : option string :=
  match cfg !! key with
  | Some v => as_string v
  | None => Some ""
  end.

Definition GetStartMode (cfg : config) : option string :=
  if decide (cfg = ∅) then Some START_MODEL_FQDN
  else match cfg !! ENABLE_FQDN with
       | Some v =>
           s ← as_string v;
           Some (if decide (s = "true") then START_MODEL_FQDN else START_MODEL_IP)
       | None => Some START_MODEL_IP
       end.

Definition GetDorisLoginInformation (secret : option Secret) : string * string :=
  match secret with
  | None => ("root", "")
  | Some sec =>
      (match sec_Data sec !! "username" with Some u => u | None => "root" end,
       match sec_Data sec !! "password" with Some p => p | None => "" end)
  end.

(** ** service.go: ports *)

Definition GetPortKey (configKey : string) : string :=
  if decide (configKey = HEARTBEAT_SERVICE_PORT) then "heartbeat-port"
  else if decide (configKey = BRPC_LISTEN_PORT) then "brpc-port"
  else if decide (configKey = ARROW_FLIGHT_SQL_PORT) then "arrow-flight"
  else if decide (configKey ∈ [BE_PORT; WEBSERVER_PORT; BRPC_PORT; HTTP_PORT; QUERY_PORT; RPC_PORT;
                                EDIT_LOG_PORT; BROKER_IPC_PORT])
  then ReplaceAll configKey "_" "-"
  else "".

Definition port_of (key : string) (port : Z) : ServicePort := mkServicePort (GetPortKey key) port port 0.

Definition set_node_port (pms : list PortMap) (sp : ServicePort) : ServicePort :=
  foldl (fun sp pm => if sp_Port sp =? pm_TargetPort pm then sp <| sp_NodePort := pm_NodePort pm |> else sp) sp pms.

(** ** pod.go: the default image of init containers *)

Definition DEFAULT_INIT_IMAGE : string := "selectdb/alpine:latest".
Definition DISAGGREGATED_BE_MAIN_CONTAINER_NAME : string := "compute".
Definition DEFAULT_BE_TERMINATION_GRACE_PERIOD_SECONDS : Z := 200.
Definition POD_CONTROLLER_REVISION_HASH_KEY : string := "controller-revision-hash".

Fixpoint be_image (cs : list Container) : string :=
  match cs with
  | [] => ""
  | c :: cs' =>
      if decide (c_Name c = component_string Component_BE \/ c_Name c = DISAGGREGATED_BE_MAIN_CONTAINER_NAME)
      then c_Image c else be_image cs'
  end.

Definition UseNewDefaultInitContainerImage (pts : PodTemplateSpec) : PodTemplateSpec :=
  let beImage := be_image (pt_Containers pts) in
  pts <| pt_InitContainers :=
    map (fun c => if decide (c_Image c = DEFAULT_INIT_IMAGE) then c <| c_Image := beImage |> else c)
      (pt_InitContainers pts) |>.
