(* ===== verification/External.v ===== *)
(** Third-party code and process environment that the pure parts depend on,
    as one class: its members are arguments of every definition that uses
    them, and the laws a theorem needs are stated where they are needed. *)

From Stdlib Require Import ZArith.
From stdpp Require Import base list gmap strings.
From S2P Require Import Prelude GoStr KubeTypes DdcApi Client Resource.

Local Open Scope string_scope.
Local Open Scope Z_scope.

Class External := {
  (** [%v] of the float64 that a JSON number literal denotes, and its
      conversion to [int64]. *)
  fmt_float : string -> string;
  float_to_int64 : string -> Z;
  (** The decoder's error for a malformed JSON text. *)
  json_err : string -> goerr;
  (** [time.Format(RFC3339)] in the process's time zone. *)
  local_rfc3339 : Z -> string;
  (** The text of [metav1.Time] in JSON (UTC, whole seconds), and its parser. *)
  time_marshal : Z -> string;
  time_unmarshal : string -> option Z;
  (** [metav1.LabelSelectorAsSelector]: the error of an invalid selector. *)
  LabelSelectorAsSelector : option LabelSelector -> option goerr;
  (** [viper] on a properties text, with [DORIS_HOME] set: all settings. *)
  viper_AllSettings : string -> string -> config;
  (** [time.Parse(time.RFC3339, s)], in nanoseconds. *)
  time_parse_rfc3339 : string -> res Z;
  (** [%#v] of an error. *)
  fmt_sharp_err : goerr -> string;
  (** [json.Marshal] of the settings of [viper]. *)
  marshal_config : config -> res string;
  (** The SHA-256 digest read as a big-endian integer. *)
  sha256_int : string -> Z;
  (** The spew library's printer on the hashed types. *)
  spew_sts :: SpewPrint hashStatefulsetObject;
  spew_svc :: SpewPrint hashService;
  spew_pvc :: SpewPrint PVCSpec;
  spew_ddc :: SpewPrint DdcSpec
}.

(** A concrete instance, used to evaluate the development on inputs: times
    print as their whole seconds, the printer keeps the names, the replica
    count and the images, every selector is valid, configurations are empty. *)
Definition demo_external : External := {|
  fmt_float := fun lit => lit;
  float_to_int64 := fun lit => (ParseInt lit 64).1;
  json_err := fun text => errorsNew ("invalid text " +:+ text);
  local_rfc3339 := fun t => Itoa (t / 1000000000);
  time_marshal := fun t => Itoa (t / 1000000000);
  time_unmarshal := fun s => match ParseInt s 64 with
                             | (n, None) => Some (n * 1000000000)%Z
                             | _ => None
                             end;
  LabelSelectorAsSelector := fun _ => None;
  viper_AllSettings := fun _ _ => ∅;
  time_parse_rfc3339 := fun s => match ParseInt s 64 with
                                 | (n, None) => Ok (n * 1000000000)%Z
                                 | _ => Er (errorsNew "cannot parse")
                                 end;
  fmt_sharp_err := err_msg;
  marshal_config := fun c => Ok (Join (map fst (map_to_list c)) ",");
  sha256_int := fun s => Z.of_nat (String.length s);
  spew_sts := fun h => Join (hs_name h :: hs_namespace h :: Itoa (hs_replicas h) ::
                             map c_Image (pt_Containers (hs_podTemplate h))) ",";
  spew_svc := fun h => Join [hsv_name h; hsv_namespace h; hsv_serviceType h] ",";
  spew_pvc := fun s => Itoa (storage_request s);
  spew_ddc := fun _ => "spec"
|}.
