(* ===== verification/SubDefault.v ===== *)
(** [DisaggregatedSubDefaultController]
    ([src/pkg/controller/sub_controller/disaggregated_subcontroller.go]): the
    behaviour shared by the meta service, FE and compute group controllers:
    configuration lookup, service application, secrets checks, the volumes and
    claims of a component and the reconciliation of its claims. *)

From Stdlib Require Import ZArith Lia Ascii.
From stdpp Require Import base list gmap strings.
From S2P Require Import Prelude GoStr Json KubeTypes DdcApi Client Mysql Resource External.

Local Open Scope string_scope.
Local Open Scope Z_scope.
Local Open Scope dop_scope.

(** ** events.go *)

Record SubEvent := mkSubEvent { sev_Type : string; sev_Reason : string; sev_Message : string }.
Definition EventNormal : string := "Normal".
Definition EventWarning : string := "Warning".
Definition EventString (event : SubEvent) : string := sev_Reason event +:+ "," +:+ sev_Message event.

(** What a reconcile step reports: nothing, or an error with an optional event. *)
Definition step_error : Type := option SubEvent * goerr.

(** ** Package path *)

Fixpoint strip_trailing (c : ascii) (s : string) : string :=
  match s with
  | "" => ""
  | String d s' =>
      match strip_trailing c s' with
      | "" => if ascii_dec d c then "" else String d ""
      | t => String d t
      end
  end.

Definition path_Base (p : string) : string :=
  if decide (p = "") then "."
  else match List.last (Split (strip_trailing "/" p) "/") "" with
       | "" => "/"
       | b => b
       end.

(** One element of a path being cleaned: [out] holds the kept elements, last first. *)
Definition clean_step (rooted : bool) (out : list string) (e : string) : list string :=
  if decide (e = "" \/ e = ".") then out
  else if decide (e = "..") then
    match out with
    | [] => if rooted then [] else [".."]
    | x :: out' => if decide (x = "..") then ".." :: out else out'
    end
  else e :: out.

Definition path_Clean (p : string) : string :=
  if decide (p = "") then "."
  else
    let rooted := HasPrefix p "/" in
    let body := Join (rev (foldl (clean_step rooted) [] (Split p "/"))) "/" in
    if rooted then "/" +:+ body else if decide (body = "") then "." else body.

Definition path_Dir (p : string) : string :=
  path_Clean (Join (removelast (Split p "/") ) "/" +:+
              (if has_char "/" p then "/" else "")).

(** ** Volumes *)

Definition oldLogPathKey : string := "LOG_DIR".
Definition newLogPathKey : string := "sys_log_dir".
Definition FEMetaPathKey : string := "meta_dir".
Definition FELogStoreName : string := "fe-log".
Definition FEMetaStoreName : string := "fe-meta".
Definition BELogStoreName : string := "be-log".
Definition BECacheStorePreName : string := "be-storage".
Definition MSLogStoreName : string := "ms-log".
Definition DefaultCacheRootPath : string := "/opt/apache-doris/be/file_cache".
Definition DefaultCacheSize : Z := 107374182400.
Definition FileCachePathKey : string := "file_cache_path".
Definition FileCacheSubConfigPathKey : string := "path".
Definition FileCacheSubConfigTotalSizeKey : string := "total_size".
Definition ConfigEnvPath : string := "/etc/doris".

Section SubDefault.
Context `{External}.

(** *** Configuration *)

Definition resolveStartConfig (vb resolveKey : string) : config :=
  let home :=
    if decide (resolveKey = MS_RESOLVEKEY) then DEFAULT_ROOT_PATH +:+ "/ms"
    else if decide (resolveKey = FE_RESOLVEKEY) then DEFAULT_ROOT_PATH +:+ "/fe"
    else if decide (resolveKey = BE_RESOLVEKEY) then DEFAULT_ROOT_PATH +:+ "/be"
    else "" in
  viper_AllSettings home vb.

Fixpoint GetConfigValuesFromConfigMaps (namespace resolveKey : string) (cms : list ConfigMapMount)
  : op config :=
  match cms with
  | [] => Ret ∅
  | cm :: rest =>
      let! r := GetConfigMap namespace (cmm_Name cm) in
      match r with
      | Er _ => GetConfigValuesFromConfigMaps namespace resolveKey rest
      | Ok kcm =>
          match cm_Data kcm !! resolveKey with
          | None => GetConfigValuesFromConfigMaps namespace resolveKey rest
          | Some v => Ret (resolveStartConfig v resolveKey)
          end
      end
  end.

Definition NewDefaultService (ddc : Ddc) : Service :=
  emptySvc <| svc_Meta := emptyMeta <| m_Namespace := ddc_Namespace ddc |>
                                    <| m_OwnerReferences := [GetDdcOwnerReference ddc] |> |>
           <| svc_SessionAffinity := "ClientIP" |>.

Definition NewDefaultStatefulset (ddc : Ddc) : StatefulSet :=
  emptySts <| st_Meta := emptyMeta <| m_Namespace := ddc_Namespace ddc |>
                                   <| m_OwnerReferences := [GetDdcOwnerReference ddc] |> |>
           <| st_PodManagementPolicy := ParallelPodManagement |>
           <| st_RevisionHistoryLimit := Some 5 |>
           <| st_UpdateStrategy := mkUpdateStrategy RollingUpdate (Some (Some 0)) |>.

Definition BuildDefaultConfigMapVolumesVolumeMounts (cms : list ConfigMapMount)
  : list Volume * list VolumeMount :=
  (map (fun cm => mkVolume (cmm_Name cm) (VolConfigMap (cmm_Name cm))) cms,
   map (fun cm => mkVolumeMount (cmm_Name cm)
          (if decide (cmm_MountPath cm = "") then ConfigEnvPath else cmm_MountPath cm)) cms).

(** *** Services and secrets *)

Definition DefaultReconcileService (svc : Service) : op (option step_error) :=
  let! err := ApplyService svc (fun nsvc osvc =>
    ServiceDeepEqualWithAnnoKey nsvc osvc DisaggregatedSpecHashValueAnnotation) in
  match err with
  | Some e => Ret (Some (Some (mkSubEvent EventWarning "ServiceApplyedFailed" (err_msg e)), e))
  | None => Ret None
  end.

Fixpoint CheckSecretMountPath_go (m : gmap string SecretMount) (secrets : list SecretMount) : op unit :=
  match secrets with
  | [] => Ret tt
  | secret :: rest =>
      let path := sm_MountPath secret in
      (match m !! path with
       | Some s =>
           call (REvent EventWarning "SecretPathRepeated"
             ("the mountPath " +:+ path +:+ " is repeated between secret: " +:+
              sm_SecretName secret +:+ " and secret: " +:+ sm_SecretName s +:+ "."))
       | None => Ret tt
       end) ;;;
      CheckSecretMountPath_go (<[path := secret]> m) rest
  end.
Definition CheckSecretMountPath (ddc : Ddc) (secrets : list SecretMount) : op unit :=
  CheckSecretMountPath_go ∅ secrets.

Fixpoint missing_secrets (ns : string) (secrets : list SecretMount) (errMessage : string) : op string :=
  match secrets with
  | [] => Ret errMessage
  | secret :: rest =>
      let! r := call (CGet KSecret ns (sm_SecretName secret)) in
      match r with
      | Ok _ => missing_secrets ns rest errMessage
      | Er e => missing_secrets ns rest (errMessage +:+ "(name: " +:+ sm_SecretName secret +:+
          ", namespace: " +:+ ns +:+ ", err: " +:+ err_msg e +:+ "), ")
      end
  end.
Definition CheckSecretExist (ddc : Ddc) (secrets : list SecretMount) : op unit :=
  let! errMessage := missing_secrets (ddc_Namespace ddc) secrets "" in
  if decide (errMessage <> "")
  then call (REvent EventWarning "SecretNotExist" ("CheckSecretExist error: " +:+ errMessage +:+ "."))
  else Ret tt.

(** *** StatefulSets and credentials *)

Definition RestrictConditionsEqual (new old : StatefulSet) : StatefulSet :=
  match st_VolumeClaimTemplates old with
  | [] => new
  | vcts => new <| st_VolumeClaimTemplates := vcts |>
  end.

(** Records the cluster's generation on a StatefulSet that is going to be
    updated, and the update on the cluster. *)
Definition record_update (stsName : string) (new : StatefulSet) (cluster : Ddc) : StatefulSet * Ddc :=
  (set_sts_Annotations (<[UpdateStatefulsetGeneration := Itoa (m_Generation (ddc_Meta cluster))]>
     (st_Annotations new)) new,
   set_ddc_Annotations (<[update_key stsName := "true"]> (ddc_Annotations cluster)) cluster).

(** The comparison of the FE and meta service controllers. *)
Definition generation_equal (stsName : string) (new est : StatefulSet) (cluster : Ddc)
  : StatefulSet * Ddc * bool :=
  let '(new, equal) := StatefulsetDeepEqualWithKey (RestrictConditionsEqual new est) est
                         DisaggregatedSpecHashValueAnnotation false in
  if equal then (new, cluster, true) else (record_update stsName new cluster, false).

(** The StatefulSet was updated in this pass and its recorded generation is not the cluster's. *)
Definition ReturnStatefulsetUpdatedGeneration (sts : StatefulSet) (annoGenerationKey : string) : Z :=
  if decide (st_Annotations sts = ∅) then 0
  else (ParseInt (map_get (st_Annotations sts) annoGenerationKey) 64).1.
Definition waiting_update (ddc : Ddc) (sts : StatefulSet) (stfName : string) : bool :=
  match ddc_Annotations ddc !! update_key stfName with
  | None => false
  | Some _ =>
      negb (m_Generation (ddc_Meta ddc) =? ReturnStatefulsetUpdatedGeneration sts (update_key stfName))
  end.

(** An endpoints object with an address. *)
Definition endpoints_available (ns name : string) : op bool :=
  let! r := call (CGet KEndpoints ns name) in
  match r with
  | Er _ => Ret false
  | Ok endpoints => Ret (existsb (fun sub : list string => match sub with [] => false | _ => true end) (ep_Subsets endpoints))
  end.

(** Available, creating and failed pods. *)
Definition classify_pods (pods : list Pod) : Z * Z * Z :=
  foldl (fun '(available, creating, failed) pod =>
    if PodIsReady (p_Status pod) then (available + 1, creating, failed)
    else if decide (ps_Phase (p_Status pod) = "Running" \/ ps_Phase (p_Status pod) = "Pending")
    then (available, creating + 1, failed)
    else (available, creating, failed + 1)) (0, 0, 0) pods.

Definition emit (event : option SubEvent) : op unit :=
  match event with
  | Some ev => call (REvent (sev_Type ev) (sev_Reason ev) (sev_Message ev))
  | None => Ret tt
  end.

Definition GetManagementAdminUserAndPWD (ddc : Ddc) : op (string * string) :=
  if decide (AuthSecret (ddc_Spec ddc) <> "") then
    let! r := GetSecret (ddc_Namespace ddc) (AuthSecret (ddc_Spec ddc)) in
    Ret (GetDorisLoginInformation (match r with Ok s => Some s | Er _ => None end))
  else match Admin (ddc_Spec ddc) with
       | Some u => Ret (au_Name u, au_Password u)
       | None => Ret ("root", "")
       end.

Definition StatefulsetControlledPodsAllUseNewUpdateRevision (stsUpdateRevision : string)
    (pods : list Pod) : bool :=
  if decide (stsUpdateRevision = "") then false
  else match pods with
       | [] => false
       | _ => forallb (fun pod => bool_decide
           (stsUpdateRevision = map_get (m_Labels (p_Meta pod)) POD_CONTROLLER_REVISION_HASH_KEY)) pods
       end.

Definition FindSecretTLSConfig (feConfMap : config) (ddc : Ddc) : option (option TLSConfig * string) :=
  enableTLS ← GetString feConfMap ENABLE_TLS_KEY;
  if decide (enableTLS = "") then Some (None, "")
  else
    caCertFile ← GetString feConfMap TLS_CA_CERTIFICATE_PATH_KEY;
    clientCertFile ← GetString feConfMap TLS_CERTIFICATE_PATH_KEY;
    clientKeyFile ← GetString feConfMap TLS_PRIVATE_KEY_PATH_KEY;
    let caCertDir := path_Dir caCertFile in
    let secretName :=
      match List.find (fun sn => bool_decide (sm_MountPath sn = caCertDir))
              (Secrets (fe_Common (Fe (ddc_Spec ddc)))) with
      | Some sn => sm_SecretName sn
      | None => ""
      end in
    Some (Some (mkTLSConfig (path_Base caCertFile) (path_Base clientCertFile) (path_Base clientKeyFile)),
          secretName).

(** *** Paths *)

Definition getLogPath (confMap : config) (componentType : DisaggregatedComponentType) : option string :=
  match confMap !! oldLogPathKey with
  | Some v => as_string v
  | None =>
      match confMap !! newLogPathKey with
      | Some v => as_string v
      | None =>
          Some match componentType with
               | DisaggregatedMS => DEFAULT_ROOT_PATH +:+ "/ms/log"
               | DisaggregatedFE => DEFAULT_ROOT_PATH +:+ "/fe/log"
               | DisaggregatedBE => DEFAULT_ROOT_PATH +:+ "/be/log"
               | DisaggregatedOther _ => ""
               end
      end
  end.

Definition getFEMetaPath (confMap : config) : option string :=
  match confMap !! FEMetaPathKey with
  | None => Some (DEFAULT_ROOT_PATH +:+ "/fe/doris-meta")
  | Some v => as_string v
  end.

(** Decoding into [[]map[string]interface{}]. *)
Definition Unmarshal_maps (s : string) : option (list (gmap string json)) :=
  match parse_json s with
  | Some (JArr l) => mapM json_to_map l
  | Some JNull => Some []
  | _ => None
  end.

Fixpoint cache_paths (pa : list (gmap string json)) (paths : list string) (maxCacheSize : Z)
  : list string * Z :=
  match pa with
  | [] => (paths, maxCacheSize)
  | mp :: rest =>
      match mp !! FileCacheSubConfigPathKey with
      | Some (JStr pv_str) =>
          let paths := app paths [pv_str] in
          match mp !! FileCacheSubConfigTotalSizeKey with
          | Some (JNum lit) =>
              let cache_size := float_to_int64 lit in
              cache_paths rest paths (if maxCacheSize <? cache_size then cache_size else maxCacheSize)
          | _ => cache_paths rest paths maxCacheSize
          end
      | _ => cache_paths rest paths maxCacheSize
      end
  end.

Definition getCacheMaxSizeAndPaths (cvs : config) : option (list string * Z) :=
  match cvs !! FileCachePathKey with
  | None => Some ([DefaultCacheRootPath], DefaultCacheSize)
  | Some v =>
      vbys ← as_string v;
      match Unmarshal_maps vbys with
      | None => Some ([], 0)
      | Some pa => Some (cache_paths pa [] 0)
      end
  end.

(** *** Volumes and claims of a component *)

Definition components_result : Type := list Volume * list VolumeMount * list PersistentVolumeClaim.

Definition getMSEmptyDirVolumesVolumeMounts (confMap : config) : option (list Volume * list VolumeMount) :=
  logPath ← getLogPath confMap DisaggregatedMS;
  Some ([mkVolume MSLogStoreName VolEmptyDir], [mkVolumeMount MSLogStoreName logPath]).

Definition getFEEmptyDirVolumesVolumeMounts (confMap : config) : option (list Volume * list VolumeMount) :=
  logPath ← getLogPath confMap DisaggregatedFE;
  metaPath ← getFEMetaPath confMap;
  Some ([mkVolume FELogStoreName VolEmptyDir; mkVolume FEMetaStoreName VolEmptyDir],
        [mkVolumeMount FELogStoreName logPath; mkVolumeMount FEMetaStoreName metaPath]).

Definition cache_names (paths : list string) : list string :=
  imap (fun i _ => BECacheStorePreName +:+ Itoa (Z.of_nat i)) paths.

Definition getBEEmptyDirVolumesVolumeMounts (confMap : config) : option (list Volume * list VolumeMount) :=
  logPath ← getLogPath confMap DisaggregatedBE;
  caches ← getCacheMaxSizeAndPaths confMap;
  let names := cache_names caches.1 in
  Some (mkVolume BELogStoreName VolEmptyDir :: map (fun n => mkVolume n VolEmptyDir) names,
        mkVolumeMount BELogStoreName logPath :: zip_with mkVolumeMount names caches.1).

Definition getEmptyDirVolumesVolumeMounts (confMap : config) (componentType : DisaggregatedComponentType)
  : option (list Volume * list VolumeMount) :=
  match componentType with
  | DisaggregatedMS => getMSEmptyDirVolumesVolumeMounts confMap
  | DisaggregatedFE => getFEEmptyDirVolumesVolumeMounts confMap
  | DisaggregatedBE => getBEEmptyDirVolumesVolumeMounts confMap
  | DisaggregatedOther _ => Some ([], [])
  end.

(** A volume, its mount and its claim template, all of the same name. *)
Definition claim_for (name path : string) (pv : PersistentVolume) : Volume * VolumeMount * PersistentVolumeClaim :=
  (mkVolume name (VolPVC name), mkVolumeMount name path,
   mkPVC "" "" (emptyMeta <| m_Name := name |> <| m_Annotations := BuildDisaggregatedPVCAnnotations pv |>)
     (pv_Spec pv) "").
Definition unzip3 (l : list (Volume * VolumeMount * PersistentVolumeClaim)) : components_result :=
  (map (fun x => x.1.1) l, map (fun x => x.1.2) l, map snd l).

(** Paths in order of discovery, and the volume name of each path. *)
Definition paths_names : Type := list string * strmap.
Definition add_path (path name : string) (s : paths_names) : paths_names :=
  (app s.1 [path], <[path := name]> s.2).

Fixpoint add_mount_paths (mps : list string) (baseIndex : Z) (s : paths_names) : paths_names :=
  match mps with
  | [] => s
  | path :: rest =>
      match s.2 !! path with
      | Some _ => add_mount_paths rest baseIndex s
      | None => add_mount_paths rest (baseIndex + 1)
                  (add_path path (BECacheStorePreName +:+ Itoa baseIndex) s)
      end
  end.

Definition with_log_path (commonSpec : CommonSpec) (v1pv : PersistentVolume) (confMap : config)
    (componentType : DisaggregatedComponentType) (name : string) : option paths_names :=
  if negb (pv_LogNotStore v1pv) && negb (LogNotStore commonSpec)
  then logPath ← getLogPath confMap componentType; Some (add_path logPath name ([], ∅))
  else Some ([], ∅).

Definition PersistentVolumeBuildVolumesVolumeMountsAndPVCs (commonSpec : CommonSpec) (confMap : config)
    (componentType : DisaggregatedComponentType) : option components_result :=
  match PersistentVolume_ commonSpec with
  | None => Some ([], [], [])
  | Some v1pv =>
      s ← match componentType with
          | DisaggregatedMS => with_log_path commonSpec v1pv confMap DisaggregatedMS MSLogStoreName
          | DisaggregatedFE =>
              s ← with_log_path commonSpec v1pv confMap DisaggregatedFE FELogStoreName;
              metaPath ← getFEMetaPath confMap;
              Some (add_path metaPath FEMetaStoreName s)
          | DisaggregatedBE =>
              s ← with_log_path commonSpec v1pv confMap DisaggregatedBE BELogStoreName;
              caches ← getCacheMaxSizeAndPaths confMap;
              let s := foldl (fun s '(p, n) => add_path p n s) s (zip caches.1 (cache_names caches.1)) in
              Some (add_mount_paths (pv_MountPaths v1pv) (Z.of_nat (length caches.1)) s)
          | DisaggregatedOther _ => Some ([], ∅)
          end;
      Some (unzip3 (map (fun path => claim_for (map_get s.2 path) path v1pv) s.1))
  end.

(** The shortest name made of the last non-empty path elements that is not in use. *)
Fixpoint unique_name (used : string -> bool) (rev_sp : list string) (name : string) : string :=
  match rev_sp with
  | [] => name
  | c :: rest =>
      if decide (c = "") then unique_name used rest name
      else let name' := if decide (name = "") then c else c +:+ "-" +:+ name in
           if used name' then unique_name used rest name' else name'
  end.

(** One step of the naming loop over paths: [(namePath, pathName)]. *)
Definition name_path (s : strmap * strmap) (path : string) : strmap * strmap :=
  let name := unique_name (fun n => bool_decide (is_Some (s.1 !! n))) (rev (Split path "/")) "" in
  (<[name := path]> s.1, <[path := name]> s.2).
Definition name_paths (paths : list string) : strmap * strmap := foldl name_path (∅, ∅) paths.

(** The template volume: the last one without mount paths. *)
Definition template_pv (pvs : list PersistentVolume) : option PersistentVolume :=
  foldl (fun t pv => match pv_MountPaths pv with [] => Some pv | _ => t end) None pvs.
Definition path_pvs (pvs : list PersistentVolume) : gmap string PersistentVolume :=
  foldl (fun m pv => foldl (fun m mp => <[mp := pv]> m) m (pv_MountPaths pv)) ∅ pvs.

(** Claims from the last required path to the first, each path once. *)
Fixpoint claims_backwards (pathName : strmap) (pathPV : gmap string PersistentVolume)
    (template : option PersistentVolume) (ss : gset string) (rev_paths : list string)
  : list (Volume * VolumeMount * PersistentVolumeClaim) :=
  match rev_paths with
  | [] => []
  | path :: rest =>
      if set_Find ss path then claims_backwards pathName pathPV template ss rest
      else
        let metadataName := ReplaceAll (map_get pathName path) "_" "-" in
        let more := claims_backwards pathName pathPV template (set_Add ss path) rest in
        match pathPV !! path with
        | Some pv => claim_for metadataName path pv :: more
        | None => match template with
                  | Some pv => claim_for metadataName path pv :: more
                  | None => more
                  end
        end
  end.

Definition PersistentVolumeArrayBuildVolumesVolumeMountsAndPVCs (commonSpec : CommonSpec) (confMap : config)
    (componentType : DisaggregatedComponentType) : option components_result :=
  storage ← match componentType with
            | DisaggregatedFE => p ← getFEMetaPath confMap; Some [p]
            | DisaggregatedBE => caches ← getCacheMaxSizeAndPaths confMap; Some caches.1
            | _ => Some []
            end;
  let pvs := PersistentVolumes commonSpec in
  let requiredPaths := app storage (concat (map pv_MountPaths pvs)) in
  let logNotStore := existsb pv_LogNotStore pvs in
  requiredPaths ← (if negb logNotStore && negb (LogNotStore commonSpec)
                   then logPath ← getLogPath confMap componentType; Some (app requiredPaths [logPath])
                   else Some requiredPaths);
  Some (unzip3 (claims_backwards (name_paths requiredPaths).2 (path_pvs pvs) (template_pv pvs) ∅
                  (rev requiredPaths))).

Definition BuildVolumesVolumeMountsAndPVCs (confMap : config) (componentType : DisaggregatedComponentType)
    (commonSpec : CommonSpec) : option components_result :=
  match PersistentVolume_ commonSpec, PersistentVolumes commonSpec with
  | None, [] =>
      vm ← getEmptyDirVolumesVolumeMounts confMap componentType;
      Some (vm.1, vm.2, [])
  | Some _, _ => PersistentVolumeBuildVolumesVolumeMountsAndPVCs commonSpec confMap componentType
  | None, _ => PersistentVolumeArrayBuildVolumesVolumeMountsAndPVCs commonSpec confMap componentType
  end.

(** *** Reconciling claims *)

Definition getPvc (pvcs : list PersistentVolumeClaim) (pvcName : string) : option PersistentVolumeClaim :=
  List.find (fun pvc => bool_decide (pvc_Name pvc = pvcName)) pvcs.

Definition pvc_message (verb : string) (ddc : Ddc) (tail : string) : string :=
  "ReconcilePVC " +:+ verb +:+ ", namespace: " +:+ ddc_Namespace ddc +:+ tail.

Definition set_storage (p : PersistentVolumeClaim) (q : Z) : PersistentVolumeClaim :=
  p <| pvc_Spec := (pvc_Spec p) <| pvs_Requests := <["storage" := q]> (pvs_Requests (pvc_Spec p)) |> |>.

(** An assignment to the requests of a claim: the map of a claim without
    requests is nil, as the decoding leaves it, and assigning to it panics. *)
Definition into_requests {A} (pvc : PersistentVolumeClaim) (body : op A) : op A :=
  if decide (pvs_Requests (pvc_Spec pvc) = ∅) then Panic "assignment to entry in nil map" else body.

(** The body of the inner loop for the claim [pvc]. *)
Definition reconcile_claim (ddc : Ddc) (old : option PersistentVolumeClaim) (pvc : PersistentVolumeClaim)
  : op (option step_error) :=
  match old with
  | None =>
      let! err := call (CCreate KPvc pvc) in
      let created :=
        call (REvent EventNormal "PVCCreate" (pvc_message "create pvc" ddc
          (", name: " +:+ ddc_Name ddc +:+ " create pvc " +:+ pvc_Name pvc +:+ " ."))) ;;; Ret None in
      match err with
      | Some e =>
          if IsAlreadyExists e then created
          else Ret (Some (Some (mkSubEvent EventWarning "PVCCreateFailed" (pvc_message "create pvc failed" ddc
                 (", name: " +:+ ddc_Name ddc +:+ " create pvc " +:+ pvc_Name pvc +:+ ", error " +:+ err_msg e +:+ "."))), e))
      | None => created
      end
  | Some oldPvc =>
      let oldQuantity := storage_request (pvc_Spec oldPvc) in
      let newQuantity := storage_request (pvc_Spec pvc) in
      if oldQuantity <? newQuantity then
        into_requests oldPvc (
        let! err := call (CPatchMerge KPvc (set_storage oldPvc newQuantity)) in
        match err with
        | Some e => Ret (Some (Some (mkSubEvent EventWarning "PVCUpdateFailed" (pvc_message "patch pvc failed" ddc
               (", ddc name: " +:+ ddc_Name ddc +:+ ", patch pvc " +:+ pvc_Name pvc +:+ ", error: " +:+ err_msg e))), e))
        | None =>
            call (REvent EventNormal "PVCUpdated" (pvc_message "patch pvc" ddc
              (", ddc name: " +:+ ddc_Name ddc +:+ " update pvc " +:+ pvc_Name pvc +:+ " ."))) ;;; Ret None
        end)
      else if newQuantity <? oldQuantity then
        call (REvent EventWarning "PVCUpdateFailed"
          ("ReconcilePVC pvc resize is rejected, PVC shrinking is not supported. namespace: " +:+
           ddc_Namespace ddc +:+ ", ddc name: " +:+ ddc_Name ddc +:+ ", resize pvc " +:+ pvc_Name pvc)) ;;; Ret None
      else Ret None
  end.

(** Runs the steps in order until one reports an error. *)
Fixpoint until_error (steps : list (op (option step_error))) : op (option step_error) :=
  match steps with
  | [] => Ret None
  | p :: rest =>
      let! r := p in
      match r with
      | Some e => Ret (Some e)
      | None => until_error rest
      end
  end.

Definition template_claims (ddc : Ddc) (stsName : string) (selector : strmap) (replicas : Z)
    (t : PersistentVolumeClaim) : list PersistentVolumeClaim :=
  map (fun ordinal => BuildDisaggregatedPVC t selector (ddc_Namespace ddc) stsName (Itoa (Z.of_nat ordinal)))
    (seq 0 (Z.to_nat replicas)).

Definition ReconcilePVC (ddc : Ddc) (cm : config) (componentType : DisaggregatedComponentType)
    (sts : StatefulSet) (cg : option ComputeGroup) : op (option step_error) :=
  let commonSpec :=
    match componentType with
    | DisaggregatedMS => Some (MetaServiceSpec (ddc_Spec ddc))
    | DisaggregatedFE => Some (fe_Common (Fe (ddc_Spec ddc)))
    | DisaggregatedBE => match cg with Some g => Some (cg_Common g) | None => None end
    | DisaggregatedOther _ => None
    end in
  deref commonSpec (fun commonSpec =>
  match BuildVolumesVolumeMountsAndPVCs cm componentType commonSpec with
  | None => Panic "interface conversion: interface {} is not string"
  | Some (_, _, pvcTemplates) =>
      deref (st_Selector sts) (fun sel =>
      let selector := ls_MatchLabels sel in
      let! listed := call (CList KPvc (ddc_Namespace ddc) (MatchingLabels selector)) in
      match listed with
      | Er e =>
          Ret (Some (Some (mkSubEvent EventWarning "PVCListFailed"
            ("ReconcilePVC list pvc failed, namespace: " +:+ ddc_Namespace ddc +:+ ", name: " +:+
             ddc_Name ddc +:+ ", error: " +:+ err_msg e)), e))
      | Ok oldPvcList =>
          let managed := List.filter (fun t => bool_decide
            (map_get (m_Annotations (pvc_Meta t)) PVCManagerAnnotationApache = "operator")) pvcTemplates in
          match managed with
          | [] => Ret None
          | _ =>
              deref (Replicas commonSpec) (fun replicas =>
              until_error
                (map (fun pvc => reconcile_claim ddc (getPvc oldPvcList (pvc_Name pvc)) pvc)
                  (concat (map (template_claims ddc (st_Name sts) selector replicas) managed))))
          end
      end)
  end).
End SubDefault.
