(* ===== verification/StorageConf.v ===== *)
(** [src/pkg/common/utils/doris/storage_conf.go]: the paths of a
    [storage_root_path], and the names of the volumes made for them. *)

From Stdlib Require Import ZArith Lia Ascii.
From stdpp Require Import base list gmap strings.
From S2P Require Import Prelude GoStr KubeTypes.

Local Open Scope string_scope.

(** ** Parsing *)

Definition parseSinglePath (pathConfig : string) : string :=
  if decide (pathConfig = "") then ""
  else
    let path := TrimSpace (List.hd "" (Split (List.hd "" (Split pathConfig ".")) ",")) in
    if HasSuffix path "/" then str_take (String.length path - 1) path else path.

Definition ResolveStorageRootPath (configPath : string) : list string :=
  if decide (configPath = "") then []
  else List.filter (fun path => negb (bool_decide (path = ""))) (map parseSinglePath (Split configPath ";")).

(** ** Names *)

(** The pieces of a path from its end: the name grows until it is new. *)
Fixpoint grow_name (namePath : strmap) (pieces : list string) (name : string) : string :=
  match pieces with
  | [] => name
  | piece :: rest =>
      if decide (piece = "") then grow_name namePath rest name
      else
        let name := if decide (name = "") then piece else piece +:+ "-" +:+ name in
        match namePath !! name with
        | None => name
        | Some _ => grow_name namePath rest name
        end
  end.

Definition name_path (maps : strmap * strmap) (path : string) : strmap * strmap :=
  let '(namePath, pathName) := maps in
  let name := grow_name namePath (rev (Split path "/")) "" in
  (<[name := path]> namePath, <[path := name]> pathName).

Definition GetNameOfEachPath (paths : list string) : list string :=
  let '(_, pathName) := foldl name_path (∅, ∅) paths in
  map (fun path => ReplaceAll (default "" (pathName !! path)) "_" "-") paths.

Example names_of_disks :
  GetNameOfEachPath ["/home/disk1/doris"; "/home/disk2/doris"] = ["doris"; "disk2-doris"].
Proof. vm_compute. reflexivity. Qed.

Example names_of_nested : GetNameOfEachPath ["/data/disk"; "/disk"] = ["disk"; "disk"].
Proof. vm_compute. reflexivity. Qed.

Example resolve_example :
  ResolveStorageRootPath "/home/disk1/doris.HDD,50;/home/disk2/doris/;" = ["/home/disk1/doris"; "/home/disk2/doris"].
Proof. vm_compute. reflexivity. Qed.

(** ** Lemmas: the names tell the paths apart *)

Local Open Scope list_scope.

(** The pieces of a path that are not empty. *)
Definition pieces (path : string) : list string :=
  List.filter (fun piece => negb (bool_decide (piece = ""))) (Split path "/").

(** A piece that [-] joins unambiguously and that the last replacement keeps. *)
Definition plain (piece : string) : Prop := has_char "-" piece = false /\ has_char "_" piece = false.

Lemma Split_Join_char c l : l <> [] -> Forall (fun x => has_char c x = false) l ->
  Split (Join l (String c "")) (String c "") = l.
Proof.
  intros Hne Hl. induction Hl as [|x l Hx Hl IH]; [done|].
  destruct l as [|y l]; [by apply split_char_nil|].
  rewrite Join_cons by done. unfold Split in *.
  change (x +:+ String c "" +:+ Join (y :: l) (String c "")) with (x +:+ String c (Join (y :: l) (String c ""))).
  rewrite split_char_app by done. by rewrite IH.
Qed.

(** Names of pieces are equal only when the pieces are. *)
Lemma Join_inj_dash l1 l2 : l1 <> [] -> l2 <> [] -> Forall plain l1 -> Forall plain l2 ->
  Join l1 "-" = Join l2 "-" -> l1 = l2.
Proof.
  intros H1 H2 P1 P2 E. rewrite <- (Split_Join_char "-" l1), <- (Split_Join_char "-" l2); [by rewrite E|done| |done|];
    (eapply Forall_impl; [eassumption | by intros x []]).
Qed.

Lemma Forall_suffix {A} (P : A -> Prop) (l s : list A) : s `suffix_of` l -> Forall P l -> Forall P s.
Proof. intros [k ->] H. by apply Forall_app in H as []. Qed.

Lemma filter_rev_pieces (l : list string) :
  List.filter (fun p => negb (bool_decide (p = ""))) (rev l) =
  rev (List.filter (fun p => negb (bool_decide (p = ""))) l).
Proof.
  induction l as [|x l IH]; [done|]. cbn [rev List.filter]. rewrite List.filter_app, IH. cbn [List.filter].
  destruct (negb (bool_decide (x = ""))); cbn [rev]; by rewrite ?app_nil_r.
Qed.

(** The name chosen is that of a suffix of the pieces, and is new unless it is
    the name of all of them. *)
Lemma grow_name_suffix np l name suf :
  Forall (fun x => x <> "") suf -> name = Join suf "-" ->
  exists pre1 pre2,
    rev (List.filter (fun p => negb (bool_decide (p = ""))) l) = pre1 ++ pre2 /\
    grow_name np l name = Join (pre2 ++ suf) "-" /\
    (pre1 ++ pre2 = [] \/ (pre2 <> [] /\ (pre1 = [] \/ np !! grow_name np l name = None))).
Proof.
  revert name suf; induction l as [|x l IH]; intros name suf Hsuf Hname.
  { exists [], []. split; [done|]. split; [done|]. by left. }
  cbn [grow_name List.filter]. case_decide as Hx.
  { rewrite bool_decide_eq_true_2 by done. cbn [negb]. by apply IH. }
  rewrite bool_decide_eq_false_2 by done. cbn [negb].
  set (name' := if decide (name = "") then x else x +:+ "-" +:+ name).
  assert (name' = Join (x :: suf) "-") as Hname'.
  { unfold name'. destruct suf as [|y suf].
    - cbn in Hname. rewrite decide_True by done. done.
    - rewrite Join_cons by done. rewrite <- Hname. rewrite decide_False; [done|].
      rewrite Hname. inversion Hsuf; subst. destruct suf; [by cbn|]. rewrite Join_cons by done.
      destruct y; [done|]. done. }
  assert (Forall (fun x => x <> "") (x :: suf)) as Hsuf' by (by constructor).
  cbn [rev].
  destruct (np !! name') eqn:Hnp.
  - destruct (IH name' (x :: suf) Hsuf' Hname') as (pre1 & pre2 & H1 & H2 & H3).
    exists pre1, (pre2 ++ [x]). rewrite H1. split; [by rewrite app_assoc|].
    split; [by rewrite H2, <- app_assoc|]. right. split; [by destruct pre2|].
    destruct H3 as [H3|[_ H3]]; [left; by destruct pre1 | exact H3].
  - exists (rev (List.filter (fun p => negb (bool_decide (p = ""))) l)), [x].
    split; [done|]. split; [by rewrite Hname'|]. right. split; [done|]. by right.
Qed.

Lemma grow_name_path np path :
  exists s, s `suffix_of` pieces path /\ grow_name np (rev (Split path "/")) "" = Join s "-" /\
    (pieces path <> [] -> s <> []) /\
    (np !! grow_name np (rev (Split path "/")) "" = None \/ s = pieces path).
Proof.
  destruct (grow_name_suffix np (rev (Split path "/")) "" [] (Forall_nil_2 _) eq_refl)
    as (pre1 & pre2 & H1 & H2 & H3).
  rewrite filter_rev_pieces, rev_involutive in H1. fold (pieces path) in H1.
  rewrite app_nil_r in H2.
  exists pre2. split; [by exists pre1|]. split; [done|]. split.
  - intros Hne. destruct H3 as [H3|[H3 _]]; [by rewrite H1, H3 in Hne | done].
  - destruct H3 as [H3|[_ [->|H3]]]; [right|by right|by left].
    apply app_eq_nil in H3 as [-> ->]. done.
Qed.

(** No path of the list ends with, or repeats, all the pieces of a later one. *)
Fixpoint no_nested (paths : list string) : Prop :=
  match paths with
  | [] => True
  | p :: rest => Forall (fun q => ~ (pieces q `suffix_of` pieces p)) rest /\ no_nested rest
  end.

Definition names_of (pathName : strmap) (paths : list string) : list string :=
  map (fun path => default "" (pathName !! path)) paths.

(** What the two maps hold after the paths of [done]. *)
Record named (done : list string) (maps : strmap * strmap) : Prop := {
  nm_names : forall name q, maps.1 !! name = Some q ->
    exists p s, p ∈ done /\ s `suffix_of` pieces p /\ s <> [] /\ name = Join s "-";
  nm_paths : forall p, p ∈ done -> exists name, maps.2 !! p = Some name /\ is_Some (maps.1 !! name) /\
    exists s, s `suffix_of` pieces p /\ name = Join s "-";
  nm_inj : forall p q name, p ∈ done -> q ∈ done -> maps.2 !! p = Some name -> maps.2 !! q = Some name -> p = q
}.

Lemma name_path_named done maps p :
  named done maps -> Forall (fun q => Forall plain (pieces q)) (p :: done) ->
  pieces p <> [] -> Forall (fun q => ~ (pieces p `suffix_of` pieces q)) done ->
  named (done ++ [p]) (name_path maps p).
Proof.
  intros [Hn Hp Hi] Hplain Hne Hnest. destruct maps as [np pn]; cbn in *.
  inversion Hplain as [|? ? Pp Pd]; subst.
  destruct (grow_name_path np p) as (s & Hs & Hname & Hs0 & Hnew). specialize (Hs0 Hne).
  set (name := grow_name np (rev (Split p "/")) "") in *.
  assert (np !! name = None) as Hfresh.
  { destruct Hnew as [H| ->]; [done|]. destruct (np !! name) as [q|] eqn:E; [|done]. exfalso.
    destruct (Hn _ _ E) as (r & s & Hr & Hsr & Hs1 & Heq).
    rewrite Hname in Heq. rewrite Forall_forall in Pd, Hnest.
    apply Join_inj_dash in Heq; [|done|done|done|eapply Forall_suffix; [done | by apply Pd]].
    apply (Hnest r Hr). by rewrite Heq. }
  assert (forall q, q ∈ done -> q <> p) as Hdiff.
  { intros q Hq ->. rewrite Forall_forall in Hnest. by apply (Hnest p Hq). }
  split; cbn.
  - intros n q Hl. destruct (decide (n = name)) as [->|Hnn].
    + exists p, s. split; [apply elem_of_app; right; by apply list_elem_of_singleton | done].
    + rewrite lookup_insert_ne in Hl by done. destruct (Hn _ _ Hl) as (r & s' & Hr & Hrest).
      exists r, s'. split; [apply elem_of_app; by left | done].
  - intros q [Hq|Hq%list_elem_of_singleton]%elem_of_app.
    + destruct (Hp q Hq) as (n & H1 & [w H2] & H3). exists n.
      rewrite lookup_insert_ne by (by apply not_eq_sym, Hdiff).
      split; [done|]. split; [|done]. destruct (decide (n = name)) as [->|]; [by rewrite lookup_insert_eq|].
      rewrite lookup_insert_ne by done. by exists w.
    + subst q. exists name. rewrite !lookup_insert_eq. split; [done|]. split; [by eexists|]. by exists s.
  - assert (forall q, q ∈ done -> pn !! q = Some name -> False) as Habs.
    { intros q Hq E. destruct (Hp q Hq) as (n & H1 & [w H2] & _). rewrite E in H1. injection H1 as <-.
      by rewrite Hfresh in H2. }
    intros a b n [Ha|Ha%list_elem_of_singleton]%elem_of_app [Hb|Hb%list_elem_of_singleton]%elem_of_app.
    + rewrite !lookup_insert_ne by (by apply not_eq_sym, Hdiff). by apply Hi.
    + subst b. rewrite lookup_insert_ne by (by apply not_eq_sym, Hdiff). rewrite lookup_insert_eq.
      intros E [= <-]. by destruct (Habs a Ha).
    + subst a. rewrite lookup_insert_eq, lookup_insert_ne by (by apply not_eq_sym, Hdiff).
      intros [= <-] E. by destruct (Habs b Hb).
    + by subst.
Qed.

Lemma foldl_named paths : forall done maps,
  named done maps -> Forall (fun q => Forall plain (pieces q)) (done ++ paths) ->
  Forall (fun q => pieces q <> []) paths ->
  Forall (fun q => Forall (fun p => ~ (pieces q `suffix_of` pieces p)) done) paths -> no_nested paths ->
  named (done ++ paths) (foldl name_path maps paths).
Proof.
  induction paths as [|p paths IH]; intros done maps Hn Hpl Hne Hd Hnest; [by rewrite app_nil_r|].
  inversion Hne; subst. inversion Hd; subst. destruct Hnest as [Hp Hnest].
  assert (Forall (fun q => Forall plain (pieces q)) (p :: done)) as Hpd.
  { apply Forall_app in Hpl as [Hpd Hpp]. inversion Hpp; subst. by constructor. }
  replace (done ++ p :: paths) with ((done ++ [p]) ++ paths) in * by (by rewrite <- app_assoc).
  cbn [foldl]. apply IH; [by apply name_path_named|done|done| |done].
  rewrite Forall_forall in *. intros q Hq. apply Forall_app; split; [by auto|].
  constructor; [by auto | done].
Qed.

Lemma no_nested_NoDup paths : no_nested paths -> NoDup paths.
Proof.
  induction paths as [|p paths IH]; [intros _; constructor|]. intros [Hp Hn]. constructor; [|by apply IH].
  intros Hin. rewrite Forall_forall in Hp. by apply (Hp p Hin).
Qed.

Lemma join_no_underscore l : Forall plain l -> has_char "_" (Join l "-") = false.
Proof.
  induction 1 as [|x l Hx Hl IH]; [done|]. destruct l as [|y l]; [apply Hx|].
  rewrite Join_cons by done. rewrite !has_char_app, IH. by rewrite (proj2 Hx).
Qed.

Lemma replace_absent c d s : has_char c s = false -> str_map (replace_ch c d) s = s.
Proof.
  induction s as [|x s IH]; [done|]. cbn. destruct (ascii_dec c x) as [|Hne]; [done|]. intros H.
  rewrite IH by done. unfold replace_ch.
  replace (Ascii.eqb x c) with false by (symmetry; by apply Ascii.eqb_neq, not_eq_sym). done.
Qed.

Lemma NoDup_map_inj_on {A B} (f : A -> B) (l : list A) :
  (forall a b, a ∈ l -> b ∈ l -> f a = f b -> a = b) -> NoDup l -> NoDup (map f l).
Proof.
  induction l as [|a l IH]; [constructor|]. intros Hf Hd. inversion Hd; subst. cbn. constructor.
  - intros Hin. apply list_elem_of_fmap in Hin as (b & Hb & Hbl).
    assert (a = b) as -> by (apply Hf; [by left | by right | done]). done.
  - apply IH; [|done]. intros; apply Hf; [by right | by right | done].
Qed.
