(* ===== verification/DcrResource.v ===== *)
(** The builders of [src/pkg/common/utils/resource] for a DorisCluster: its
    configuration ([configmap.go]), services ([service.go]), volumes and claims
    ([persistent_volume_claim.go], the shared volumes of [pod.go]), the
    comparison of StatefulSets ([statefulset.go]), and the autoscaler
    ([autoscaler.go]). *)

From Stdlib Require Import ZArith Lia Ascii.
From stdpp Require Import base list gmap strings.
From S2P Require Import Prelude GoStr KubeTypes DdcApi Client Mysql Resource External SubDefault.
From S2P Require Import DcrApi StorageConf.

Local Open Scope string_scope.
Local Open Scope Z_scope.
Local Open Scope dop_scope.

(** ** configmap.go *)

Definition BROKER_RESOLVEKEY : string := "apache_hdfs_broker.conf".

Definition getDefaultResolveKey (c : ComponentType) : string :=
  match c with
  | Component_FE => FE_RESOLVEKEY
  | Component_BE | Component_CN => BE_RESOLVEKEY
  | Component_Broker => BROKER_RESOLVEKEY
  | ComponentOther _ => ""
  end.

Definition getDefaultDorisHome (c : ComponentType) : string :=
  match c with
  | Component_FE => DEFAULT_ROOT_PATH +:+ "/fe"
  | Component_BE | Component_CN => DEFAULT_ROOT_PATH +:+ "/be"
  | Component_Broker => DEFAULT_ROOT_PATH +:+ "/apache_hdfs_broker"
  | ComponentOther _ => ""
  end.

Definition GetMountConfigMapInfo (c : ConfigMapInfo) : list ConfigMapMount :=
  app (if decide (cmi_ConfigMapName c <> "") then [mkConfigMapMount (cmi_ConfigMapName c) ""] else [])
      (cmi_ConfigMaps c).

(** The first config map mounted at the configuration directory; [None] is the panic on an absent spec. *)
Definition core_config_map (c : ConfigMapInfo) : string :=
  match List.find (fun cm => bool_decide (cmm_MountPath cm = "" \/ cmm_MountPath cm = ConfigEnvPath))
                  (GetMountConfigMapInfo c) with
  | Some cm => cmm_Name cm
  | None => ""
  end.
Definition getDorisCoreConfigMapName (dcr : Dcr) (c : ComponentType) : option string :=
  base ← base_of dcr c; Some (core_config_map (bs_ConfigMapInfo base)).

(** Keyed by the component; a component without spec or core config map has no entry. *)
Definition GetDorisCoreConfigMapNames (dcr : Dcr) : strmap :=
  foldl (fun names c =>
    match getDorisCoreConfigMapName dcr c with
    | Some cm => if decide (cm <> "") then <[component_string c := cm]> names else names
    | None => names
    end) ∅ [Component_FE; Component_BE; Component_CN; Component_Broker].

Section DcrResource.
Context `{External}.

Fixpoint ResolveConfigMaps (configMaps : list ConfigMap) (c : ComponentType) : config * option goerr :=
  match configMaps with
  | [] => (∅, Some (errorsNew ("not fund configmap ResolveKey: " +:+ getDefaultResolveKey c)))
  | configMap :: rest =>
      match cm_Data configMap !! getDefaultResolveKey c with
      | Some value => (viper_AllSettings (getDefaultDorisHome c) value, None)
      | None => ResolveConfigMaps rest c
      end
  end.

(** [k8s.GetConfig] *)
Definition k8s_GetConfig (configMapInfo : ConfigMapInfo) (namespace : string) (c : ComponentType)
  : op (config * option goerr) :=
  match GetMountConfigMapInfo configMapInfo with
  | [] => Ret (∅, None)
  | cms =>
      let! '(configMaps, err) := GetConfigMaps namespace cms in
      let '(res, resolveErr) := ResolveConfigMaps configMaps c in
      Ret (res, MergeError err resolveErr)
  end.

(** ** service.go *)

(** The port of a configuration key; [None] is the panic of a failed type assertion. *)
Definition service_port (cfg : config) (key : string) : option ServicePort :=
  p ← GetPort cfg key; Some (port_of key p).

Definition getInternalServicePort (cfg : config) (c : ComponentType) : option ServicePort :=
  match c with
  | Component_FE => service_port cfg QUERY_PORT
  | Component_BE | Component_CN => service_port cfg HEARTBEAT_SERVICE_PORT
  | Component_Broker => service_port cfg BROKER_IPC_PORT
  | ComponentOther _ => Some (mkServicePort "" 0 0 0)
  end.

Definition GetDcrOwnerReference (d : Dcr) : OwnerReference :=
  mkOwnerReference (dcr_APIVersion d) (dcr_Kind d) (dcr_Name d) (m_UID (dcr_Meta d)).

Definition BuildInternalService (dcr : Dcr) (c : ComponentType) (cfg : config) : option Service :=
  port ← getInternalServicePort cfg c;
  Some (emptySvc <| svc_Meta := emptyMeta <| m_Name := GenerateInternalCommunicateServiceName dcr c |>
                                          <| m_Namespace := dcr_Namespace dcr |>
                                          <| m_Labels := GenerateInternalServiceLabels dcr c |>
                                          <| m_OwnerReferences := [GetDcrOwnerReference dcr] |> |>
                 <| svc_ClusterIP := "None" |>
                 <| svc_Ports := [port] |>
                 <| svc_Selector := GenerateServiceSelector dcr c |>
                 <| svc_PublishNotReadyAddresses := true |>).

Definition ClusterIP : string := "ClusterIP".
Definition LoadBalancer : string := "LoadBalancer".

(** The ports of the keys, in order, with the arrow flight port when it is configured. *)
Definition ports_with_arrow (cfg : config) (keys : list string) : option (list ServicePort) :=
  ports ← mapM (service_port cfg) keys;
  arrow ← service_port cfg ARROW_FLIGHT_SQL_PORT;
  Some (if sp_Port arrow =? -1 then ports else app ports [arrow]).
Definition getFeServicePorts (cfg : config) : option (list ServicePort) :=
  ports_with_arrow cfg [HTTP_PORT; RPC_PORT; QUERY_PORT; EDIT_LOG_PORT].
Definition getBeServicePorts (cfg : config) : option (list ServicePort) :=
  ports_with_arrow cfg [BE_PORT; WEBSERVER_PORT; HEARTBEAT_SERVICE_PORT; BRPC_PORT].

Definition export_port (exportPorts : list DorisServicePort) (p : ServicePort) : ServicePort :=
  foldl (fun p ep => if dsp_TargetPort ep =? sp_TargetPort p then p <| sp_NodePort := dsp_NodePort ep |> else p)
        p exportPorts.

Definition setServiceType (svc : option DcrExportService) (service : Service) : Service :=
  let t := match svc with
           | Some s => if decide (xs_Type s <> "") then xs_Type s else ClusterIP
           | None => ClusterIP
           end in
  let service := service <| svc_Type := t |> in
  match svc with
  | Some s => if decide (t = LoadBalancer /\ xs_LoadBalancerIP s <> "")
              then service <| svc_LoadBalancerIP := xs_LoadBalancerIP s |> else service
  | None => service
  end.

Definition constructServiceSpec (exportService : option DcrExportService) (svc : Service)
    (selector : strmap) (ports : list ServicePort) : Service :=
  let exportPorts := match exportService with Some s => xs_ServicePorts s | None => [] end in
  let affinity := match exportService with
                  | Some s => if decide (xs_Type s = LoadBalancer) then "None" else "ClientIP"
                  | None => "ClientIP"
                  end in
  setServiceType exportService
    (svc <| svc_Selector := selector |>
         <| svc_Ports := map (export_port exportPorts) ports |>
         <| svc_SessionAffinity := affinity |>).

Definition BuildExternalService (dcr : Dcr) (c : ComponentType) (cfg : config) : option Service :=
  '(exportService, ports) ←
    match c with
    | Component_FE => base ← base_of dcr c; ports ← getFeServicePorts cfg; Some (bs_Service base, ports)
    | Component_BE | Component_CN =>
        base ← base_of dcr c; ports ← getBeServicePorts cfg; Some (bs_Service base, ports)
    | _ => Some (None, [])
    end;
  let svc := emptySvc <| svc_Meta := emptyMeta <| m_Name := GenerateExternalServiceName dcr c |>
                                               <| m_Namespace := dcr_Namespace dcr |>
                                               <| m_Labels := GenerateExternalServiceLabels dcr c |> |> in
  let svc := constructServiceSpec exportService svc (GenerateServiceSelector dcr c) ports in
  let svc := match exportService with Some s => set_svc_Annotations (xs_Annotations s) svc | None => svc end in
  Some (svc <| svc_Meta := (svc_Meta svc) <| m_OwnerReferences := [GetDcrOwnerReference dcr] |> |>).

(** ** persistent_volume_claim.go *)

Definition pvc_finalizer : string := "selectdb.doris.com/pvc-finalizer".
Definition pvc_manager_annotation : string := "selectdb.doris.com/pvc-manager".

Definition buildPVCAnnotations (volume : DcrVolume) : strmap :=
  let annotations : strmap :=
    if decide (dv_PVCProvisioner volume = PVCProvisionerOperator)
    then <[DcrComponentResourceHash := HashObject (dv_Spec volume)]> {[pvc_manager_annotation := "operator"]}
    else ∅ in
  AddAnnotation annotations (dv_Annotations volume).

Definition BuildPVC (volume : DcrVolume) (labels : strmap) (namespace stsName ordinal : string)
  : PersistentVolumeClaim :=
  mkPVC "" ""
    (emptyMeta <| m_Name := BuildPVCName stsName ordinal (dv_Name volume) |>
               <| m_Namespace := namespace |>
               <| m_Labels := labels |>
               <| m_Annotations := buildPVCAnnotations volume |>
               <| m_Finalizers := [pvc_finalizer] |>)
    (dv_Spec volume) "".

Definition drop_slash (path : string) : string :=
  if HasSuffix path "/" then str_take (String.length path - 1) path else path.

(** Volumes with a mount path that is not excluded, in order. *)
Definition explicit_volumes (excludePaths : list string) (volumes : list DcrVolume) : list DcrVolume :=
  List.filter (fun v => negb (bool_decide (dv_MountPath v = "")) &&
                        negb (ArrayContains excludePaths (drop_slash (dv_MountPath v)))) volumes.

(** The last volume without a mount path is the template. *)
Definition volume_template (volumes : list DcrVolume) : option DcrVolume :=
  List.last (map Some (List.filter (fun v => bool_decide (dv_MountPath v = "")) volumes)) None.

(** The volumes of the data paths: a single one keeps the name of the template. *)
Definition template_volumes (template : DcrVolume) (dataPaths : list string) : list DcrVolume :=
  match dataPaths with
  | [path] => [template <| dv_MountPath := path |>]
  | _ => zip_with (fun path name => template <| dv_Name := dv_Name template +:+ "-" +:+ name |>
                                             <| dv_MountPath := path |>)
                  dataPaths (GetNameOfEachPath dataPaths)
  end.

(** The key of the data paths of a component, and the default path. *)
Definition data_path_key (c : ComponentType) : option (string * string) :=
  match c with
  | Component_FE => Some ("meta_dir", getDefaultDorisHome c +:+ "/doris-meta")
  | Component_BE | Component_CN => Some ("storage_root_path", getDefaultDorisHome c +:+ "/storage")
  | _ => None
  end.

(** [None] is the panic of a failed type assertion; the error that the code returns is always nil. *)
Definition GenerateEveryoneMountPathDorisPersistentVolume (spec : BaseSpec) (excludePaths : list string)
    (cfg : config) (c : ComponentType) : option (list DcrVolume) :=
  let dorisPersistentVolumes := explicit_volumes excludePaths (bs_PersistentVolumes spec) in
  match volume_template (bs_PersistentVolumes spec), data_path_key c with
  | Some template, Some (dataPathKey, dataDefaultPath) =>
      dataPaths ← match cfg !! dataPathKey with
                  | None => Some [dataDefaultPath]
                  | Some v => s ← as_string v; Some (ResolveStorageRootPath s)
                  end;
      Some (app dorisPersistentVolumes
              (List.filter (fun v => negb (ArrayContains excludePaths (dv_MountPath v)))
                 (template_volumes template dataPaths)))
  | _, _ => Some dorisPersistentVolumes
  end.

(** ** pod.go: the shared claims *)

(** The claims that a component mounts, with their paths. *)
Definition shared_claims (spvcs : list SharedPersistentVolumeClaim) (c : ComponentType)
  : list (string * string) :=
  map (fun claim => (spc_PersistentVolumeClaimName claim,
                     drop_slash (ReplaceAll (spc_MountPath claim) "$DORIS_HOME" (getDefaultDorisHome c))))
    (List.filter (fun claim => match spc_SupportComponents claim with
                               | [] => true
                               | cs => ArrayContains cs c
                               end) spvcs).

Definition BuildSharedVolumesAndVolumeMounts (spvcs : list SharedPersistentVolumeClaim) (c : ComponentType)
  : list Volume * list VolumeMount * list string :=
  let claims := shared_claims spvcs c in
  (map (fun cp => mkVolume cp.1 (VolPVC cp.1)) claims,
   map (fun cp => mkVolumeMount cp.1 cp.2) claims,
   map snd claims).

Definition GeneratePodTemplateName (dcr : Dcr) (c : ComponentType) : string :=
  match c with
  | ComponentOther _ => ""
  | _ => dcr_Name dcr +:+ "-" +:+ component_string c
  end.

(** ** statefulset.go *)

Definition config_env_name : string := "CONFIGMAP_MOUNT_PATH".
Definition config_env_path : string := "/etc/doris".
Definition config_env : EnvVar := env_var config_env_name config_env_path.

Definition is_main_container (c : Container) : bool :=
  bool_decide (c_Name c ∈ map component_string [Component_FE; Component_BE; Component_CN; Component_Broker]).

(** The first main container and its position. *)
Fixpoint main_container (cs : list Container) : option (nat * Container) :=
  match cs with
  | [] => None
  | c :: cs' =>
      if is_main_container c then Some (O, c)
      else match main_container cs' with Some (i, c') => Some (S i, c') | None => None end
  end.

Definition main_envs (cs : list Container) : list EnvVar :=
  match main_container cs with Some (_, c) => c_Env c | None => [] end.

Definition is_config_env (e : EnvVar) : bool := bool_decide (ev_Name e = config_env_name).

(** The positions of the configuration variable. *)
Fixpoint config_positions (i : nat) (envs : list EnvVar) : list nat :=
  match envs with
  | [] => []
  | e :: envs' => app (if is_config_env e then [i] else []) (config_positions (S i) envs')
  end.

Definition insert_config_env (envs : list EnvVar) (pos : nat) : list EnvVar :=
  if (length envs <=? pos)%nat then app envs [config_env]
  else app (take pos envs) (config_env :: drop pos envs).

(** The variables of the new container with the configuration variable placed
    as in the old one. *)
Definition aligned_envs (new old : list EnvVar) : list EnvVar :=
  foldl insert_config_env (List.filter (fun e => negb (is_config_env e)) new) (config_positions 0 old).

(** Same names, and same values but where the new one has none. *)
Fixpoint same_envs (new old : list EnvVar) : bool :=
  match new, old with
  | [], [] => true
  | n :: new', o :: old' =>
      bool_decide (ev_Name n = ev_Name o) &&
      (bool_decide (ev_Value n = "") || bool_decide (ev_Value n = ev_Value o)) && same_envs new' old'
  | _, _ => false
  end.

Definition set_container_envs (i : nat) (envs : list EnvVar) (st : StatefulSet) : StatefulSet :=
  st <| st_Template := (st_Template st) <| pt_Containers :=
    alter (fun c => c <| c_Env := envs |>) i (pt_Containers (st_Template st)) |> |>.

(** The new StatefulSet as the comparison leaves it, and the verdict; [None] is
    a panic: no main container, or no replica count. *)
Definition clear_config_env_path_numbers_alwaysEquals (new old : StatefulSet) (annoKey : string)
    (excludeReplicas : bool) : option (StatefulSet * bool) :=
  let oldEnvs := main_envs (pt_Containers (st_Template old)) in
  let newEnvs := aligned_envs (main_envs (pt_Containers (st_Template new))) oldEnvs in
  if negb (same_envs newEnvs oldEnvs) then Some (new, false)
  else
    '(i, _) ← main_container (pt_Containers (st_Template new));
    let newAvoidEnvsSt := set_container_envs i newEnvs new in
    nr ← st_Replicas new;
    or ← st_Replicas old;
    let oldHash := map_get (st_Annotations old) annoKey in
    if nr =? or then
      Some (new, bool_decide (HashObject (statefulSetHashObject newAvoidEnvsSt excludeReplicas) = oldHash))
    else
      let nAvoidHash :=
        HashObject (statefulSetHashObject (newAvoidEnvsSt <| st_Replicas := Some or |>) excludeReplicas) in
      Some (if decide (nAvoidHash = oldHash) then newAvoidEnvsSt else new, false).

Definition StatefulSetDeepEqual (new old : StatefulSet) (excludeReplicas : bool)
  : option (StatefulSet * bool) :=
  let '(new, equal) := StatefulsetDeepEqualWithKey new old DcrComponentResourceHash excludeReplicas in
  if equal then Some (new, true)
  else clear_config_env_path_numbers_alwaysEquals new old DcrComponentResourceHash excludeReplicas.

(** ** autoscaler.go *)

Record PodAutoscalerParams := mkAutoscalerParams {
  pap_AutoscalerType : AutoScalerVersion;
  pap_Namespace : string;
  pap_Name : string;
  pap_Labels : strmap;
  pap_TargetName : string;
  pap_OwnerReferences : list OwnerReference;
  pap_ScalerPolicy : AutoScalingPolicy
}.

Definition build_autoscaler (apiVersion : string) (pap : PodAutoscalerParams) (metrics : list MetricSpec)
    (behavior : option HorizontalPodAutoscalerBehavior) : HorizontalPodAutoscaler :=
  mkHPA "HorizontalPodAutoscaler" apiVersion
    (emptyMeta <| m_Name := pap_Name pap |> <| m_Namespace := pap_Namespace pap |>
               <| m_Labels := pap_Labels pap |> <| m_OwnerReferences := pap_OwnerReferences pap |>)
    (mkObjRef "StatefulSet" (pap_TargetName pap) "apps/v1")
    (asp_MaxReplicas (pap_ScalerPolicy pap)) (asp_MinReplicas (pap_ScalerPolicy pap)) metrics behavior.
Definition buildAutoscalerV1 (pap : PodAutoscalerParams) : HorizontalPodAutoscaler :=
  build_autoscaler "autoscaling/v1" pap [] None.

(** The conversion through an unsafe pointer keeps the fields: the structs have the same ones in the same order. *)
Definition buildAutoscalerV2 (pap : PodAutoscalerParams) : HorizontalPodAutoscaler :=
  let policy := asp_HPAPolicy (pap_ScalerPolicy pap) in
  build_autoscaler "autoscaling/v2" pap
    (match policy with Some p => hp_Metrics p | None => [] end) (p ← policy; hp_Behavior p).

(** The object and its kind; [None] is the nil object of an unknown version. *)
Definition BuildHorizontalPodAutoscaler (pap : PodAutoscalerParams) : option (kind * HorizontalPodAutoscaler) :=
  match pap_AutoscalerType pap with
  | AutoScalerV1 => Some (KHpaV1, buildAutoscalerV1 pap)
  | AutoSclaerV2 => Some (KHpaV2, buildAutoscalerV2 pap)
  | AutoScalerOther _ => None
  end.
End DcrResource.
