(* ===== verification/DcrSub.v ===== *)
(** [SubDefaultController]
    ([src/pkg/controller/sub_controller/sub_controller.go]): what the
    controllers of a DorisCluster's components share: the restart annotation,
    the classification of pods, the checks, the claims of a component and the
    restart on a changed configuration. *)

From Stdlib Require Import ZArith Lia Ascii.
From stdpp Require Import base list gmap strings.
From S2P Require Import Prelude GoStr KubeTypes DdcApi Client Mysql Resource External SubDefault.
From S2P Require Import DcrApi DcrResource.

Local Open Scope string_scope.
Local Open Scope Z_scope.
Local Open Scope dop_scope.

Definition warn (reason message : string) : op unit := call (REvent EventWarning reason message).

(** Writing through the pointer to the base spec of FE or BE. *)
Definition set_base (c : ComponentType) (b : BaseSpec) (dcr : Dcr) : Dcr :=
  match c with
  | Component_FE => set_fe_base b dcr
  | Component_BE => set_be_base b dcr
  | _ => dcr
  end.
Definition set_status (c : ComponentType) (s : option ComponentStatus) (dcr : Dcr) : Dcr :=
  match c with
  | Component_FE => set_fe_status s dcr
  | Component_BE => set_be_status s dcr
  | _ => dcr
  end.

(** ten minutes, in nanoseconds *)
Definition restart_window : Z := 600000000000.

(** ** Pods *)

Record pod_classes := mkPodClasses { pc_readys : list Pod; pc_creatings : list Pod; pc_faileds : list Pod }.

Definition pod_starting (p : Pod) : bool :=
  bool_decide (ps_Phase (p_Status p) = "Running" \/ ps_Phase (p_Status p) = "Pending").
Definition classify (pods : list Pod) : pod_classes :=
  mkPodClasses
    (List.filter (fun p => PodIsReady (p_Status p)) pods)
    (List.filter (fun p => negb (PodIsReady (p_Status p)) && pod_starting p) pods)
    (List.filter (fun p => negb (PodIsReady (p_Status p)) && negb (pod_starting p)) pods).

(** The last pod of a name. *)
Definition podmap (pods : list Pod) : gmap string Pod :=
  foldl (fun m p => <[p_Name p := p]> m) ∅ pods.

Definition same_restart (key : string) (pods : list Pod) : bool :=
  match pods with
  | [] => true
  | p :: _ => forallb (fun q => bool_decide (map_get (m_Annotations (p_Meta q)) key =
                                             map_get (m_Annotations (p_Meta p)) key)) pods
  end.

(** Reason and message of the first pod of a list. *)
Definition explain (m : gmap string Pod) (members : list Pod) (c : ComponentCondition) : ComponentCondition :=
  match members with
  | [] => c
  | p :: _ =>
      match m !! p_Name p with
      | Some q => c <| cc_Reason := ps_Reason (p_Status q) |> <| cc_Message := ps_Message (p_Status q) |>
      | None => c <| cc_Reason := "" |> <| cc_Message := "" |>
      end
  end.

(** The status after a list of pods that is not empty. *)
Definition status_of_pods (pods : list Pod) (replicas : Z) (c : ComponentType) (status : ComponentStatus)
  : ComponentStatus :=
  let cl := classify pods in
  let cond := cst_ComponentCondition status in
  let cond :=
    if (Z.of_nat (length (pc_readys cl)) =? replicas) && same_restart (GetRestartAnnotationKey c) pods
    then cond <| cc_Phase := Available |>
    else match pc_faileds cl with
         | _ :: _ => explain (podmap pods) (pc_faileds cl) (cond <| cc_Phase := HaveMemberFailed |>)
         | [] => explain (podmap pods) (pc_creatings cl) cond
         end in
  status <| cst_ComponentCondition := cond |>
         <| cst_RunningMembers := map p_Name (pc_readys cl) |>
         <| cst_FailedMembers := map p_Name (pc_faileds cl) |>
         <| cst_CreatingMembers := map p_Name (pc_creatings cl) |>.

Definition ClassifyPodsByStatus (namespace : string) (status : ComponentStatus) (labels : strmap)
    (replicas : Z) (c : ComponentType) : op (ComponentStatus * option goerr) :=
  let! r := call (CList KPod namespace (MatchingLabels labels)) in
  match r with
  | Er err => Ret (status, Some err)
  | Ok [] => Ret (status, None)
  | Ok pods => Ret (status_of_pods pods replicas c status, None)
  end.

(** ** Checks *)

Fixpoint CheckConfigMountPath_go (m : gmap string ConfigMapMount) (cms : list ConfigMapMount) : op unit :=
  match cms with
  | [] => Ret tt
  | cm :: rest =>
      let path := cmm_MountPath cm in
      (match m !! path with
       | Some n => warn "ConfigMapPathRepeated"
             ("the mountPath " +:+ path +:+ " is repeated between configmap: " +:+ cmm_Name cm +:+
              " and configmap: " +:+ cmm_Name n +:+ ".")
       | None => Ret tt
       end) ;;;
      CheckConfigMountPath_go (<[path := cm]> m) rest
  end.

(** [f] on the base spec of a component; an unknown component has an empty one. *)
Definition with_base {A} (dcr : Dcr) (c : ComponentType) (f : BaseSpec -> op A) : op A :=
  match c with
  | ComponentOther _ => f emptyBase
  | _ => deref (base_of dcr c) f
  end.

Definition CheckConfigMountPath (dcr : Dcr) (c : ComponentType) : op unit :=
  with_base dcr c (fun base => CheckConfigMountPath_go ∅ (GetMountConfigMapInfo (bs_ConfigMapInfo base))).

Definition DcrCheckSecretMountPath (dcr : Dcr) (c : ComponentType) : op unit :=
  with_base dcr c (fun base => CheckSecretMountPath_go ∅ (bs_Secrets base)).

Definition DcrCheckSecretExist (dcr : Dcr) (c : ComponentType) : op unit :=
  with_base dcr c (fun base =>
    let! errMessage := missing_secrets (dcr_Namespace dcr) (bs_Secrets base) "" in
    if decide (errMessage <> "")
    then warn "SecretNotExist" ("CheckSecretExist error: " +:+ errMessage +:+ ".")
    else Ret tt).

Definition ReadWriteMany : string := "ReadWriteMany".

Section DcrSub.
Context `{External}.

(** Stops at the first claim that is missing or cannot be shared. *)
Fixpoint check_shared_claims (namespace : string) (claims : list SharedPersistentVolumeClaim) : op unit :=
  match claims with
  | [] => Ret tt
  | claim :: rest =>
      let name := spc_PersistentVolumeClaimName claim in
      let! r := GetPVC name namespace in
      match r with
      | Er err => warn "CheckSharePVC" ("(PersistentVolumeClaim get failed name: " +:+ name +:+
                    ", namespace: " +:+ namespace +:+ ", err: " +:+ fmt_sharp_err err +:+ "), ")
      | Ok pvc =>
          if ArrayContains (pvs_AccessModes (pvc_Spec pvc)) ReadWriteMany
          then check_shared_claims namespace rest
          else warn "CheckSharePVC" ("(PersistentVolumeClaim name: " +:+ name +:+ ", namespace: " +:+
                 namespace +:+ " AccessMode cannot be shared: [" +:+ Join (pvs_AccessModes (pvc_Spec pvc)) " " +:+ "]), ")
      end
  end.
Definition CheckSharedPVC (dcr : Dcr) : op unit :=
  check_shared_claims (dcr_Namespace dcr) (SharedPersistentVolumeClaims (dcr_Spec dcr)).

(** ** The restart annotation *)

Definition CheckRestartTimeAndInject (dcr : Dcr) (c : ComponentType) : op (Dcr * bool) :=
  match c with
  | Component_FE | Component_BE =>
      deref (base_of dcr c) (fun baseSpec =>
      let key := GetRestartAnnotationKey c in
      let restartedAt := map_get (dcr_Annotations dcr) key in
      if decide (restartedAt = "") then Ret (dcr, false)
      else
        match time_parse_rfc3339 restartedAt with
        | Er err =>
            warn "RestartTimeInvalid"
              ("CheckRestartTimeAndInject error: time format is incorrect. dorisClusterName: " +:+ dcr_Name dcr +:+
               ", namespace: " +:+ dcr_Namespace dcr +:+ ", componentType " +:+ component_string c +:+
               ", wrong parse 'restartedAt': " +:+ restartedAt +:+ " , error: " +:+ err_msg err) ;;;
            Ret (dcr, false)
        | Ok parseTime =>
            let! now := call TimeNow in
            if parseTime <? now - restart_window then
              warn "RestartTimeInvalid"
                ("the " +:+ component_string c +:+ " restart time is not effective. the 'restartedAt' " +:+
                 restartedAt +:+ " can't be earlier than 10 minutes before the current time") ;;;
              Ret (dcr, false)
            else
              Ret (set_base c (baseSpec <| bs_Annotations := <[key := restartedAt]> (bs_Annotations baseSpec) |>) dcr,
                   true)
        end)
  | _ => Ret (dcr, false)
  end.

(** ** Configuration and volumes *)

(** The error of the lookup is only logged. *)
Definition GetConfig (configMapInfo : ConfigMapInfo) (namespace : string) (c : ComponentType)
  : op (config * option goerr) :=
  let! '(cfg, _) := k8s_GetConfig configMapInfo namespace c in
  Ret (cfg, None).

Definition GetFinalPersistentVolumes (dcr : Dcr) (c : ComponentType) : op (res (list DcrVolume)) :=
  with_base dcr c (fun baseSpec =>
  let! '(cfg, err) := GetConfig (bs_ConfigMapInfo baseSpec) (dcr_Namespace dcr) c in
  match err with
  | Some e => Ret (Er e)
  | None =>
      let '(_, _, sharedPaths) := BuildSharedVolumesAndVolumeMounts (SharedPersistentVolumeClaims (dcr_Spec dcr)) c in
      assert_ok (GenerateEveryoneMountPathDorisPersistentVolume baseSpec sharedPaths cfg c) (fun volumes =>
        Ret (Ok volumes))
  end).

Definition DcrFindSecretTLSConfig (feConfMap : config) (dcr : Dcr) : option (option TLSConfig * string) :=
  enableTLS ← GetString feConfMap ENABLE_TLS_KEY;
  if decide (enableTLS = "") then Some (None, "")
  else
    caCertFile ← GetString feConfMap TLS_CA_CERTIFICATE_PATH_KEY;
    clientCertFile ← GetString feConfMap TLS_CERTIFICATE_PATH_KEY;
    clientKeyFile ← GetString feConfMap TLS_PRIVATE_KEY_PATH_KEY;
    let caCertDir := path_Dir caCertFile in
    let secrets := match base_of dcr Component_FE with Some base => bs_Secrets base | None => [] end in
    let secretName :=
      match List.find (fun sn => bool_decide (sm_MountPath sn = caCertDir)) secrets with
      | Some sn => sm_SecretName sn
      | None => ""
      end in
    Some (Some (mkTLSConfig (path_Base caCertFile) (path_Base clientCertFile) (path_Base clientKeyFile)),
          secretName).

(** ** Removal and availability *)

(** Deletes the StatefulSet, the internal and the external service of a component. *)
Definition ClearCommonResources (dcr : Dcr) (c : ComponentType) : op (bool * option goerr) :=
  let attempt (p : op (option goerr)) (k : op (bool * option goerr)) : op (bool * option goerr) :=
    let! err := p in
    match err with
    | Some e => if IsNotFound e then k else Ret (false, Some e)
    | None => k
    end in
  let ns := dcr_Namespace dcr in
  attempt (DeleteStatefulset ns (GenerateComponentStatefulSetName dcr c))
    (attempt (DeleteService ns (GenerateInternalCommunicateServiceName dcr c))
      (attempt (DeleteService ns (GenerateExternalServiceName dcr c))
        (Ret (true, None)))).

(** Every component asks with the address that is configured for BE. *)
Definition FeAvailable (dcr : Dcr) : op bool :=
  let '(addr, _) := GetConfigFEAddrForAccess dcr Component_BE in
  if decide (addr <> "") then Ret true
  else endpoints_available (dcr_Namespace dcr) (GenerateExternalServiceName dcr Component_FE).

(** ** Claims *)

(** The volume that a claim belongs to: the first one whose name starts the name of the claim. *)
Definition claim_volume (volumes : list DcrVolume) (pvc : PersistentVolumeClaim) : option DcrVolume :=
  List.find (fun v => negb (bool_decide (dv_Name v = "")) && HasPrefix (pvc_Name pvc) (dv_Name v)) volumes.

Definition claim_key (volumes : list DcrVolume) (pvc : PersistentVolumeClaim) : string :=
  "-^" +:+ match claim_volume volumes pvc with Some v => dv_Name v | None => "" end.

(** The claims of a key, in the order of the list. *)
Definition claims_of (volumes : list DcrVolume) (pvcs : list PersistentVolumeClaim) (volumeName : string)
  : list PersistentVolumeClaim :=
  List.filter (fun pvc => bool_decide (claim_key volumes pvc = "-^" +:+ volumeName)) pvcs.

Definition set_capacity (capacity : Z) (pvc : PersistentVolumeClaim) : PersistentVolumeClaim :=
  pvc <| pvc_Spec := (pvc_Spec pvc) <| pvs_Requests := <["storage" := capacity]> (pvs_Requests (pvc_Spec pvc)) |> |>.

(** Patches the claims of another capacity; [true] when there is none. *)
Fixpoint patch_claims (newCapacity : Z) (pvcs : list PersistentVolumeClaim) (prepared : bool) : op bool :=
  match pvcs with
  | [] => Ret prepared
  | pvc :: rest =>
      if storage_request (pvc_Spec pvc) =? newCapacity then patch_claims newCapacity rest prepared
      else
        into_requests pvc (
        let! err := call (CPatchMerge KPvc (set_capacity newCapacity pvc)) in
        (match err with
         | Some e => warn "PVCUpdateFailed" (pvc_Name pvc +:+ " update failed, " +:+ err_msg e)
         | None => call (REvent EventNormal "PVCUpdated" (pvc_Name pvc +:+ " update successfully!"))
         end) ;;;
        patch_claims newCapacity rest false)
  end.

(** The loop from an ordinal: [left] claims are created, with ascending ordinals. *)
Fixpoint create_claims (dcr : Dcr) (selector : strmap) (stsName : string) (volume : DcrVolume)
    (baseOrdinal : Z) (left : nat) : op unit :=
  match left with
  | O => Ret tt
  | S left' =>
      let pvc := BuildPVC volume selector (dcr_Namespace dcr) stsName (Itoa baseOrdinal) in
      let! err := call (CCreate KPvc pvc) in
      (match err with
       | Some e => if IsAlreadyExists e then Ret tt else warn "PVCCreateFailed" (err_msg e)
       | None => Ret tt
       end) ;;;
      create_claims dcr selector stsName volume (baseOrdinal + 1) left'
  end.

Definition patchPVCs (dcr : Dcr) (selector : strmap) (pvcs : list PersistentVolumeClaim) (stsName : string)
    (volume : DcrVolume) (replicas : Z) : op bool :=
  let! prepared := patch_claims (storage_request (dv_Spec volume)) pvcs true in
  let n := Z.of_nat (length pvcs) in
  let! prepared :=
    if n <? replicas then
      call (REvent EventNormal "PVCCreate" ("create PVC ordinal " +:+ Itoa n +:+ " - " +:+ Itoa replicas)) ;;;
      Ret false
    else Ret prepared in
  create_claims dcr selector stsName volume n (Z.to_nat (replicas - n)) ;;;
  Ret prepared.

(** The replicas of FE, BE and CN; broker has no claims. *)
Definition claim_replicas {A} (dcr : Dcr) (c : ComponentType) (f : Z -> op A) : op A :=
  match c with
  | Component_FE | Component_BE | Component_CN =>
      deref (base_of dcr c) (fun base => deref (bs_Replicas base) f)
  | _ => f 0
  end.

Fixpoint prepare_volumes (dcr : Dcr) (selector : strmap) (stsName : string) (replicas : Z)
    (all : list DcrVolume) (pvcs : list PersistentVolumeClaim) (volumes : list DcrVolume) (prepared : bool)
  : op bool :=
  match volumes with
  | [] => Ret prepared
  | volume :: rest =>
      if decide (dv_PVCProvisioner volume = PVCProvisionerOperator) then
        let! ok := patchPVCs dcr selector (claims_of all pvcs (dv_Name volume)) stsName volume replicas in
        prepare_volumes dcr selector stsName replicas all pvcs rest (prepared && ok)
      else prepare_volumes dcr selector stsName replicas all pvcs rest prepared
  end.

(** The final volumes and the claims of a component, for a continuation; a failure is an event. *)
Definition with_claims {A} (dcr : Dcr) (c : ComponentType) (explain : string) (fail : goerr -> op A)
    (f : list DcrVolume -> list PersistentVolumeClaim -> op A) : op A :=
  let! r := GetFinalPersistentVolumes dcr c in
  match r with
  | Er err =>
      warn "PVCExplainFailed" ("listAndDeletePersistentVolumeClaim " +:+ component_string c +:+ explain +:+ err_msg err) ;;;
      fail err
  | Ok volumes =>
      let! l := call (CList KPvc (dcr_Namespace dcr) (MatchingLabels (GenerateStatefulSetSelector dcr c))) in
      match l with
      | Er err =>
          warn "PVCListFailed" ("list component " +:+ component_string c +:+ " failed!") ;;;
          fail err
      | Ok pvcs => f volumes pvcs
      end
  end.

Definition preparePersistentVolumeClaim (dcr : Dcr) (c : ComponentType) : op bool :=
  claim_replicas dcr c (fun replicas =>
  with_claims dcr c " GetFinalPersistentVolumes failed：" (fun _ => Ret false) (fun volumes pvcs =>
    prepare_volumes dcr (GenerateStatefulSetSelector dcr c) (GenerateComponentStatefulSetName dcr c) replicas
      volumes pvcs volumes true)).

Definition prepare_component (dcr : Dcr) (c : ComponentType) : op bool :=
  deref (base_of dcr c) (fun base =>
    match bs_PersistentVolumes base with
    | [] => Ret true
    | _ => preparePersistentVolumeClaim dcr c
    end).

Definition PrepareReconcileResources (dcr : Dcr) (c : ComponentType) : op bool :=
  match c with
  | Component_FE | Component_BE | Component_CN => prepare_component dcr c
  | _ => Ret true
  end.

(** The loop from the highest ordinal down: [left] claims are deleted. *)
Fixpoint delete_from (dcr : Dcr) (selector : strmap) (stsName volumeName : string) (maxOrdinal : Z)
    (left : nat) (mergeError : option goerr) : op (option goerr) :=
  match left with
  | O => Ret mergeError
  | S left' =>
      let pvcName := BuildPVCName stsName (Itoa (maxOrdinal - 1)) volumeName in
      let! err := DeletePVC (dcr_Namespace dcr) pvcName selector in
      match err with
      | Some e =>
          warn "PVCDeleteFailed" (err_msg e) ;;;
          delete_from dcr selector stsName volumeName (maxOrdinal - 1) left' (MergeError mergeError (Some e))
      | None => delete_from dcr selector stsName volumeName (maxOrdinal - 1) left' mergeError
      end
  end.

Definition deletePVCs (dcr : Dcr) (selector : strmap) (pvcSize : Z) (stsName volumeName : string) (replicas : Z)
  : op (option goerr) :=
  delete_from dcr selector stsName volumeName pvcSize (Z.to_nat (pvcSize - replicas)) None.

Fixpoint delete_surplus (dcr : Dcr) (selector : strmap) (stsName : string) (replicas : Z)
    (all : list DcrVolume) (pvcs : list PersistentVolumeClaim) (volumes : list DcrVolume)
    (mergeError : option goerr) : op (option goerr) :=
  match volumes with
  | [] => Ret mergeError
  | volume :: rest =>
      let size := Z.of_nat (length (claims_of all pvcs (dv_Name volume))) in
      if size <=? replicas then delete_surplus dcr selector stsName replicas all pvcs rest mergeError
      else
        let! err := deletePVCs dcr selector size stsName (dv_Name volume) replicas in
        delete_surplus dcr selector stsName replicas all pvcs rest
          (match err with Some e => MergeError mergeError (Some e) | None => mergeError end)
  end.

Definition listAndDeletePersistentVolumeClaim (dcr : Dcr) (c : ComponentType) : op (option goerr) :=
  claim_replicas dcr c (fun replicas =>
  with_claims dcr c " GetFinalPersistentVolumes failed: " (fun e => Ret (Some e)) (fun volumes pvcs =>
    delete_surplus dcr (GenerateStatefulSetSelector dcr c) (GenerateComponentStatefulSetName dcr c) replicas
      volumes pvcs volumes None)).

Definition recycleFEResources (dcr : Dcr) : op (option goerr) :=
  deref (base_of dcr Component_FE) (fun base =>
    match bs_PersistentVolumes base with
    | [] => Ret None
    | _ => listAndDeletePersistentVolumeClaim dcr Component_FE
    end).

Definition RecycleResources (dcr : Dcr) (c : ComponentType) : op (option goerr) :=
  match c with
  | Component_FE => recycleFEResources dcr
  | _ => Ret None
  end.

(** ** Status *)

Definition init_status (old : option ComponentStatus) (dcr : Dcr) (c : ComponentType) (now : Z) : ComponentStatus :=
  let initPhase :=
    match old with
    | Some s => if IsReconcilingStatusPhase s then cst_Phase s else Initializing
    | None => Initializing
    end in
  zeroComponentStatus
    <| cst_ComponentCondition :=
         mkCondition (GenerateComponentStatefulSetName dcr c) initPhase (mkTime now true) "" "" |>
    <| cst_AccessService := GenerateExternalServiceName dcr c |>.

Definition InitStatus (dcr : Dcr) (c : ComponentType) : op Dcr :=
  match c with
  | Component_FE | Component_BE =>
      let! now := call TimeNow in
      Ret (set_status c (Some (init_status (GetComponentStatus dcr c) dcr c now)) dcr)
  | _ => Ret dcr
  end.

(** ** Restart on a changed configuration *)

Fixpoint hex_fixed (digits : nat) (n : Z) : string :=
  match digits with
  | O => ""
  | S d => hex_fixed d (n / 16) +:+ String (hex_digit (n mod 16)) ""
  end.

(** set.Map2Hash: the digest in hexadecimal, 64 digits. *)
Definition Map2Hash (m : config) : string :=
  match marshal_config m with
  | Er _ => ""
  | Ok text => hex_fixed 64 (sha256_int text)
  end.

Definition BuildCoreConfigmapStatusHash (dcr : Dcr) (c : ComponentType) : op string :=
  let cmName := map_get (GetDorisCoreConfigMapNames dcr) (component_string c) in
  if decide (cmName <> "") then
    let failed (e : goerr) : op string :=
      warn "ConfigMapGetFailed" ("BuildCoreConfigmapStatusHash configmap namespace " +:+ dcr_Namespace dcr +:+
        " name " +:+ cmName +:+ " find failed " +:+ err_msg e) ;;;
      Ret "" in
    let! r := GetConfigMap (dcr_Namespace dcr) cmName in
    match r with
    | Er err => failed err
    | Ok cm =>
        match ResolveConfigMaps [cm] c with
        | (_, Some err) => failed err
        | (confMap, None) => Ret (Map2Hash confMap)
        end
    end
  else Ret "".

Definition CompareConfigmapAndTriggerRestart (dcr : Dcr) (oldStatus : ComponentStatus) (c : ComponentType)
  : op Dcr :=
  let oldCmHash := cst_CoreConfigMapHashValue oldStatus in
  if decide (oldCmHash = "") then Ret dcr
  else
    let! newCmHash := BuildCoreConfigmapStatusHash dcr c in
    if decide (newCmHash = "" \/ oldCmHash = newCmHash) then Ret dcr
    else if decide (cst_Phase oldStatus = Available) then
      let! now := call TimeNow in
      let dcr := set_dcr_Annotations
                   (<[GetRestartAnnotationKey c := local_rfc3339 now]> (dcr_Annotations dcr)) dcr in
      deref (GetComponentStatus dcr c) (fun status =>
        Ret (set_status c (Some (set_phase Restarting status)) dcr))
    else Ret dcr.
End DcrSub.
