(* ===== verification/PodTemplate.v ===== *)
(** The pods of the components ([src/pkg/common/utils/resource/pod.go], with
    the container ports of [service.go], [kerberos.go] and the commands of
    [sub_controller/common.go]): probes, volumes and mounts, environment, init
    containers and affinity, as far as both kinds of clusters share them, and
    the template, the main container and the StatefulSet ([statefulset.go]) of a
    DorisCluster's component.  [None] is a panic: a failed type assertion on a
    configuration value, or a spec that is absent. *)

From Stdlib Require Import ZArith Lia Ascii.
From stdpp Require Import base list gmap strings.
From S2P Require Import Prelude GoStr KubeTypes DdcApi Client Mysql Resource External SubDefault DcrApi DcrResource.

Local Open Scope string_scope.
Local Open Scope Z_scope.

Definition auth_volume_name : string := "basic-auth".
Definition basic_auth_path : string := "/etc/basic_auth".
Definition POD_INFO_VOLUME_NAME : string := "podinfo".
Definition POD_INFO_PATH : string := "/etc/podinfo".
Definition NODE_TOPOLOGYKEY : string := "kubernetes.io/hostname".
Definition PullIfNotPresent : string := "IfNotPresent".
Definition DEFAULT_FE_TERMINATION_GRACE_PERIOD_SECONDS : Z := 330.
Definition HEALTH_API_PATH : string := "/api/health".
Definition ENV_FE_ADDR : string := "ENV_FE_ADDR".
Definition ENV_FE_PORT : string := "FE_QUERY_PORT".

(** ** Probes *)

(** The last constructor is the empty probe type. *)
Inductive ProbeType := HttpGet | TcpSocket | Exec | NoProbeType.

Definition getHttpProbe (port : Z) (path : string) : ProbeHandler :=
  if decide (path <> "") then HTTPGetAction path port else NoHandler.
Definition getExecProbe (commands : list string) : ProbeHandler :=
  match commands with [] => NoHandler | _ => ExecAction commands end.
Definition getProbe (port : Z) (path : string) (commands : list string) (pt : ProbeType) : ProbeHandler :=
  match pt with
  | TcpSocket => TCPSocketAction port
  | HttpGet => getHttpProbe port path
  | Exec => getExecProbe commands
  | NoProbeType => NoHandler
  end.

Definition startupProbe (port timeout : Z) (path : string) (commands : list string) (pt : ProbeType) : Probe :=
  let timeout := if timeout <? 360 then 360 else timeout in
  mkProbe (getProbe port path commands pt) 0 0 5 (Z.quot timeout 5).

Definition livenessProbe (port timeout : Z) (path : string) (commands : list string) (pt : ProbeType) : Probe :=
  let timeout := if timeout <? 1 then 180 else timeout in
  mkProbe (getProbe port path commands pt) 80 timeout 5 3.

Definition applyReadinessProbePolicy (probe : Probe) (timeoutSeconds failureThreshold periodSeconds : Z) : Probe :=
  let probe := if 0 <? periodSeconds then probe <| pr_PeriodSeconds := periodSeconds |> else probe in
  let probe := if 0 <? failureThreshold then probe <| pr_FailureThreshold := failureThreshold |> else probe in
  if 0 <? timeoutSeconds then probe <| pr_TimeoutSeconds := timeoutSeconds |> else probe.

(** The guard of every caller: an absent policy changes nothing. *)
Definition with_policy (policy : option ReadinessProbePolicy) (probe : Probe) : Probe :=
  match policy with
  | Some p => applyReadinessProbePolicy probe (rp_TimeoutSeconds p) (rp_FailureThreshold p) (rp_PeriodSeconds p)
  | None => probe
  end.

Definition readinessProbe (port : Z) (path : string) (commands : list string) (pt : ProbeType)
    (policy : option ReadinessProbePolicy) : Probe :=
  with_policy policy (mkProbe (getProbe port path commands pt) 0 0 5 3).

Definition curl_probe (curlCmd : string) : Probe := mkProbe (ExecAction ["bash"; "-c"; curlCmd]) 0 0 5 3.

(** The options that give curl the client's certificates. *)
Definition curl_certs (cfg : config) : option string :=
  caCert ← GetString cfg TLS_CA_CERTIFICATE_PATH_KEY;
  clientCert ← GetString cfg TLS_CERTIFICATE_PATH_KEY;
  clientKey ← GetString cfg TLS_PRIVATE_KEY_PATH_KEY;
  Some (" --cacert " +:+ caCert +:+ " --cert " +:+ clientCert +:+ " --key " +:+ clientKey).

Definition buildFQDNReadinessExecProbe (enableTLS : string) (cfg : config) (port : Z) (path : string) : option Probe :=
  let host := dquote +:+ "$host" +:+ dquote in
  let resolve := "host=$(hostname -f); (getent hosts " +:+ host +:+ " >/dev/null 2>&1 || nslookup " +:+ host +:+
                 " >/dev/null 2>&1) && curl --fail --silent --output /dev/null" in
  let target := "://$host:" +:+ Itoa port +:+ path in
  if decide (enableTLS = "true") then
    certs ← curl_certs cfg; Some (curl_probe (resolve +:+ certs +:+ " https" +:+ target))
  else Some (curl_probe (resolve +:+ " http" +:+ target)).

Definition buildTLSReadinessExecProbe (cfg : config) (port : Z) (path : string) : option Probe :=
  certs ← curl_certs cfg;
  Some (curl_probe ("curl --fail --silent --output /dev/null" +:+ certs +:+ " https://localhost:" +:+ Itoa port +:+ path)).

(** The readiness probe of a main container: an HTTP probe becomes a call of
    curl when the pods go by their names, or when TLS is on. *)
Definition readiness_of (c : ComponentType) (cfg : config) (port : Z) (path : string) (commands : list string)
    (pt : ProbeType) (policy : option ReadinessProbePolicy) : option Probe :=
  let probe := readinessProbe port path commands pt policy in
  enableTLS ← GetString cfg ENABLE_TLS_KEY;
  match pr_Handler probe with
  | HTTPGetAction _ _ =>
      mode ← GetStartMode cfg;
      if decide (mode = START_MODEL_FQDN /\ c ∈ [Component_FE; Component_BE; Component_CN]) then
        p ← buildFQDNReadinessExecProbe enableTLS cfg port path; Some (with_policy policy p)
      else if decide (enableTLS = "true") then
        p ← buildTLSReadinessExecProbe cfg port path; Some (with_policy policy p)
      else Some probe
  | _ => Some probe
  end.

Definition disaggregated_probe_command (c : DisaggregatedComponentType) : string :=
  match c with
  | DisaggregatedFE => "/opt/apache-doris/fe_disaggregated_probe.sh"
  | DisaggregatedBE => "/opt/apache-doris/be_disaggregated_probe.sh"
  | DisaggregatedMS => "/opt/apache-doris/ms_disaggregated_probe.sh"
  | DisaggregatedOther _ => ""
  end.

Definition BuildDisaggregatedProbe (container : Container) (cs : CommonSpec) (c : DisaggregatedComponentType) : Container :=
  let startTimeout := if 360 <=? StartTimeout cs then StartTimeout cs else 360 in
  let liveTimeout := if LiveTimeout cs <? 1 then 180 else LiveTimeout cs in
  let alive := ExecAction [disaggregated_probe_command c; "alive"] in
  let ready := ExecAction [disaggregated_probe_command c; "ready"] in
  container <| c_LivenessProbe := Some (mkProbe alive 80 liveTimeout 5 3) |>
            <| c_StartupProbe := Some (mkProbe alive 0 0 5 (Z.quot startTimeout 5)) |>
            <| c_ReadinessProbe := Some (with_policy (ReadinessPolicy cs) (mkProbe ready 0 0 5 3)) |>.

(** ** Container ports of service.go *)

Definition container_port (protocol : string) (cfg : config) (key : string) : option ContainerPort :=
  p ← GetPort cfg key; Some (mkContainerPort (GetPortKey key) p protocol).

(** The ports, with that of arrow flight when it is configured. *)
Definition container_ports_with_arrow (cfg : config) (ports : list (string * string)) : option (list ContainerPort) :=
  ps ← mapM (fun kp => container_port kp.2 cfg kp.1) ports;
  arrowFlightPort ← GetPort cfg ARROW_FLIGHT_SQL_PORT;
  Some (if decide (arrowFlightPort <> -1)
        then app ps [mkContainerPort (GetPortKey ARROW_FLIGHT_SQL_PORT) arrowFlightPort "TCP"] else ps).
Definition getFeContainerPorts (cfg : config) : option (list ContainerPort) :=
  container_ports_with_arrow cfg [(HTTP_PORT, "TCP"); (RPC_PORT, "TCP"); (QUERY_PORT, "TCP"); (EDIT_LOG_PORT, "TCP")].
Definition getBeContainerPorts (cfg : config) : option (list ContainerPort) :=
  container_ports_with_arrow cfg
    [(BE_PORT, ""); (WEBSERVER_PORT, "TCP"); (HEARTBEAT_SERVICE_PORT, "TCP"); (BRPC_PORT, "TCP")].
Definition getBrokerContainerPorts (cfg : config) : option (list ContainerPort) :=
  p ← container_port "" cfg BROKER_IPC_PORT; Some [p].
(** The port of the broker, not the one that the meta service listens on. *)
Definition getMetaServiceContainerPorts (cfg : config) : option (list ContainerPort) :=
  p ← container_port "" cfg BROKER_IPC_PORT; Some [p].

(** The compute node is not among the cases. *)
Definition GetContainerPorts (cfg : config) (c : ComponentType) : option (list ContainerPort) :=
  match c with
  | Component_FE => getFeContainerPorts cfg
  | Component_BE => getBeContainerPorts cfg
  | Component_Broker => getBrokerContainerPorts cfg
  | _ => Some []
  end.
Definition GetDisaggregatedContainerPorts (cfg : config) (c : DisaggregatedComponentType) : option (list ContainerPort) :=
  match c with
  | DisaggregatedFE => getFeContainerPorts cfg
  | DisaggregatedBE => getBeContainerPorts cfg
  | DisaggregatedMS => getMetaServiceContainerPorts cfg
  | DisaggregatedOther _ => Some []
  end.

(** ** Volumes and mounts *)

Definition secret_volume (name : string) : Volume := mkVolume name (VolSecret name).

Definition podinfo_volume : Volume :=
  mkVolume POD_INFO_VOLUME_NAME
    (VolDownwardAPI [("labels", "metadata.labels"); ("annotations", "metadata.annotations")]).
Definition appendPodInfoVolumesVolumeMounts (volumes : list Volume) (mounts : list VolumeMount)
  : list Volume * list VolumeMount :=
  (app volumes [podinfo_volume], app mounts [mkVolumeMount POD_INFO_VOLUME_NAME POD_INFO_PATH]).

Definition getDefaultVolumesVolumeMounts (c : ComponentType) : list Volume * list VolumeMount :=
  match c with
  | Component_FE => ([mkVolume "fe-meta" VolEmptyDir], [mkVolumeMount "fe-meta" "/opt/apache-doris/fe/doris-meta"])
  | Component_BE | Component_CN =>
      ([mkVolume "be-storage" VolEmptyDir], [mkVolumeMount "be-storage" "/opt/apache-doris/be/storage"])
  | _ => ([], [])
  end.

(** The place a mount without a path of its own gets. *)
Definition mount_at (path : string) : string := if decide (path = "") then config_env_path else path.

(** Every supported component mounts at the configuration directory by default. *)
Definition default_mount (c : ComponentType) (path : string) : string :=
  if decide (path = "") then match c with ComponentOther _ => "" | _ => config_env_path end else path.

Definition getMultiConfigVolumeAndVolumeMount (cmInfo : ConfigMapInfo) (c : ComponentType)
  : list Volume * list VolumeMount :=
  let cms := GetMountConfigMapInfo cmInfo in
  (map (fun cm => mkVolume (cmm_Name cm) (VolConfigMap (cmm_Name cm))) cms,
   map (fun cm => mkVolumeMount (cmm_Name cm) (default_mount c (cmm_MountPath cm))) cms).

Definition getMultiSecretVolumeAndVolumeMount (bSpec : BaseSpec) (c : ComponentType) : list Volume * list VolumeMount :=
  (map (fun s => secret_volume (sm_SecretName s)) (bs_Secrets bSpec),
   map (fun s => mkVolumeMount (sm_SecretName s) (default_mount c (sm_MountPath s))) (bs_Secrets bSpec)).

Definition GetMultiSecretVolumeAndVolumeMountWithCommonSpec (cSpec : CommonSpec) : list Volume * list VolumeMount :=
  (map (fun s => secret_volume (sm_SecretName s)) (Secrets cSpec),
   map (fun s => mkVolumeMount (sm_SecretName s) (mount_at (sm_MountPath s))) (Secrets cSpec)).

Definition krb5_volume_name : string := "krb5".
Definition krb5_default_mount_path : string := "/etc/krb5".
Definition keytab_volume_name : string := "keytab".
Definition keytab_default_mount_path : string := "/etc/keytab".

Definition getKerberosConfigAndSecretVolumeAndVolumeMount (configMapName secretName : string)
  : list Volume * list VolumeMount :=
  ([mkVolume krb5_volume_name (VolConfigMap configMapName); mkVolume keytab_volume_name (VolSecret secretName)],
   [mkVolumeMount krb5_volume_name krb5_default_mount_path;
    mkVolumeMount keytab_volume_name keytab_default_mount_path]).
(** For both kinds of clusters. *)
Definition getKerberosVolumeAndVolumeMount (info : option KerberosInfo) : list Volume * list VolumeMount :=
  match info with
  | None => ([], [])
  | Some i => getKerberosConfigAndSecretVolumeAndVolumeMount (Krb5ConfigMap i) (KeytabSecretName i)
  end.

Definition newVolumesFromBaseSpec (spec : BaseSpec) (sharedPaths : list string) (cfg : config) (c : ComponentType)
  : option (list Volume) :=
  volumes ← GenerateEveryoneMountPathDorisPersistentVolume spec sharedPaths cfg c;
  Some (map (fun v => mkVolume (dv_Name v) (VolPVC (dv_Name v))) volumes).

Definition buildVolumeMounts (spec : BaseSpec) (sharedPaths : list string) (cfg : config) (c : ComponentType)
  : option (list VolumeMount) :=
  let mounts := (appendPodInfoVolumesVolumeMounts [] []).2 in
  match bs_PersistentVolumes spec with
  | [] => Some (app mounts (getDefaultVolumesVolumeMounts c).2)
  | _ =>
      volumes ← GenerateEveryoneMountPathDorisPersistentVolume spec sharedPaths cfg c;
      Some (app mounts (map (fun v => mkVolumeMount (dv_Name v) (dv_MountPath v)) volumes))
  end.

(** ** Environment *)

(** The variables of [dst] win over those of [src] with the same name. *)
Definition mergeEnvs (src dst : list EnvVar) : list EnvVar :=
  match dst, src with
  | [], _ => src
  | _, [] => dst
  | _, _ => app dst (List.filter (fun e => negb (ArrayContains (map ev_Name dst) (ev_Name e))) src)
  end.

Definition field_env (name path : string) : EnvVar := mkEnvVar name "" (Some (FieldRef path)).

Definition buildEnvFromPod : list EnvVar :=
  [field_env "POD_NAME" "metadata.name"; field_env "POD_IP" "status.podIP"; field_env "HOST_IP" "status.hostIP";
   field_env "POD_NAMESPACE" "metadata.namespace"; config_env;
   env_var "DNS_READY_TIMEOUT" "120"; env_var "DNS_READY_INTERVAL" "2"].

Definition buildBaseEnvs (dcr : Dcr) : list EnvVar :=
  match AdminUser_ (dcr_Spec dcr) with
  | Some user =>
      app buildEnvFromPod (env_var "USER" (au_Name user) ::
        if decide (au_Password user <> "") then [env_var "PASSWD" (au_Password user)] else [])
  | None => app buildEnvFromPod [env_var "USER" "root"; env_var "DORIS_ROOT" DEFAULT_ROOT_PATH]
  end.

(** [strings.Contains] of a non-empty piece. *)
Definition Contains (s piece : string) : bool := bool_decide (1 < length (Split s piece))%nat.

Definition KRB5_DEFAULT_CONFIG : string := "/etc/krb5.conf".
Definition krb5Property : string := "-Djava.security.krb5.conf=".

(** What follows the last equal sign of the first option that names the property. *)
Definition krb5_option (opts : string) : option string :=
  match List.find (fun opt => Contains opt krb5Property) (Split (ReplaceAll opts dquote "") " ") with
  | Some opt => Some (List.last (Split opt "=") "")
  | None => None
  end.

Definition krb5_of_key (javaOpts : config) (key : string) : option (option string) :=
  match javaOpts !! key with
  | Some v => s ← as_string v; Some (krb5_option s)
  | None => Some None
  end.

Definition GetKrb5ConfFromJavaOpts (javaOpts : config) : option string :=
  jdk17 ← krb5_of_key javaOpts "java_opts_for_jdk_17";
  match jdk17 with
  | Some p => Some p
  | None => common ← krb5_of_key javaOpts "java_opts"; Some (default KRB5_DEFAULT_CONFIG common)
  end.

Definition buildKerberosEnvUseSecretMountPath (keytabPath : string) (cfg : config) (componentType : string)
  : option (list EnvVar) :=
  krb5ConfPath ←
    (if decide (componentType ∈ ["fe"; "FE"]) then GetKrb5ConfFromJavaOpts cfg
     else if decide (componentType ∈ ["be"; "cn"; "BE"]) then
       match cfg !! "kerberos_krb5_conf_path" with
       | Some v => as_string v
       | None => Some KRB5_DEFAULT_CONFIG
       end
     else Some "");
  Some [env_var "KRB5_MOUNT_PATH" krb5_default_mount_path; env_var "KRB5_CONFIG" krb5ConfPath;
        env_var "KEYTAB_MOUNT_PATH" keytab_default_mount_path;
        env_var "KEYTAB_FINAL_USED_PATH" (if decide (keytabPath <> "") then keytabPath else keytab_default_mount_path)].

Definition buildKerberosEnv (info : option KerberosInfo) (cfg : config) (componentType : string) : option (list EnvVar) :=
  match info with
  | None => Some []
  | Some i => buildKerberosEnvUseSecretMountPath (KeytabPath i) cfg componentType
  end.

(** [Limits.Cpu().String()]: the client library returns the zero quantity for
    an absent limit, never nil. *)
Definition cpu_limit (r : ResourceRequirements) : string := default "0" (rr_Limits r !! "cpu").

(** ** Containers *)

Definition privileged : option SecurityContext := Some (mkSecurityContext (Some true) "").

Definition newBaseInitContainer (name : string) (si : SystemInitialization) : Container :=
  emptyContainer <| c_Image := if decide (InitImage si = "") then DEFAULT_INIT_IMAGE else InitImage si |>
                 <| c_Name := name |>
                 <| c_Command := si_Command si |>
                 <| c_ImagePullPolicy := PullIfNotPresent |>
                 <| c_Args := si_Args si |>
                 <| c_Resources := si_Resources si |>
                 <| c_SecurityContext := privileged |>.

Definition constructBeDefaultInitContainer (defaultImage : string) : Container :=
  newBaseInitContainer "default-init"
    (mkSystemInitialization defaultImage ["/bin/sh"] ["-c"; "sysctl -w vm.max_map_count=2000000 && swapoff -a"]
       noResources).

Definition constructInitContainers (skipInit : bool) (c : ComponentType) (si : option SystemInitialization)
  : list Container :=
  let defaultImage := match si with Some s => InitImage s | None => "" end in
  app (if negb skipInit && bool_decide (c ∈ [Component_BE; Component_CN])
       then [constructBeDefaultInitContainer defaultImage] else [])
      (match si with Some s => [newBaseInitContainer "init" s] | None => [] end).

(** The image of the initialisation is written back into the spec. *)
Definition constructDisaggregatedInitContainers (skipDefaultInit : bool) (c : DisaggregatedComponentType)
    (si : option SystemInitialization) : list Container * option SystemInitialization :=
  let initImage := match si with
                   | Some s => if decide (InitImage s <> "") then InitImage s else DEFAULT_INIT_IMAGE
                   | None => DEFAULT_INIT_IMAGE
                   end in
  let si := (fun s => s <| InitImage := initImage |>) <$> si in
  (app (if negb skipDefaultInit && bool_decide (c = DisaggregatedBE)
        then [constructBeDefaultInitContainer initImage] else [])
       (match si with Some s => [newBaseInitContainer "init" s] | None => [] end), si).

(** Containers that have a security context keep it. *)
Definition ApplySecurityContext (containers : list Container) (sc : option SecurityContext) : list Container :=
  match sc with
  | None => containers
  | Some _ => map (fun c => match c_SecurityContext c with
                            | None => c <| c_SecurityContext := sc |>
                            | Some _ => c
                            end) containers
  end.

Definition getCommand (c : ComponentType) : list string * list string :=
  match c with
  | Component_FE => (["/opt/apache-doris/fe_entrypoint.sh"], ["$(ENV_FE_ADDR)"])
  | Component_BE | Component_CN => (["/opt/apache-doris/be_entrypoint.sh"], ["$(ENV_FE_ADDR)"])
  | Component_Broker => (["/opt/apache-doris/broker_entrypoint.sh"], ["$(ENV_FE_ADDR)"])
  | ComponentOther _ => ([], [])
  end.

Definition GetDisaggregatedCommand (c : DisaggregatedComponentType) : list string * list string :=
  match c with
  | DisaggregatedFE => (["/opt/apache-doris/fe_disaggregated_entrypoint.sh"], ["$(ENV_FE_ADDR)"])
  | DisaggregatedBE => (["/opt/apache-doris/be_disaggregated_entrypoint.sh"], ["$(ENV_FE_ADDR)"])
  | DisaggregatedMS => (["/opt/apache-doris/ms_disaggregated_entrypoint.sh"], [])
  | DisaggregatedOther _ => ([], [])
  end.
Definition GetDisaggregatedPreStopScript (c : DisaggregatedComponentType) : string :=
  match c with
  | DisaggregatedFE => "/opt/apache-doris/fe_disaggregated_prestop.sh"
  | DisaggregatedBE => "/opt/apache-doris/be_disaggregated_prestop.sh"
  | DisaggregatedMS => "/opt/apache-doris/ms_disaggregated_prestop.sh"
  | DisaggregatedOther _ => ""
  end.

Definition AddTerminationGracePeriodSeconds (tpl : PodTemplateSpec) (cfg : config) (defaultSeconds : Z)
  : option PodTemplateSpec :=
  seconds ← GetTerminationGracePeriodSeconds cfg;
  let seconds := if seconds <=? 0 then defaultSeconds else seconds in
  Some (if 0 <? seconds then tpl <| pt_TerminationGracePeriodSeconds := Some seconds |> else tpl).

(** ** Affinity *)

Definition in_label (key value : string) : LabelSelector := mkLabelSelector ∅ [(key, "In", [value])].
Definition host_term (weight : Z) (selector : LabelSelector) : WeightedPodAffinityTerm :=
  mkWeightedTerm weight (mkPodAffinityTerm (Some selector) NODE_TOPOLOGYKEY).

(** Pods with the label prefer different hosts. *)
Definition spread_affinity (key value : string) : PodAffinity := mkPodAffinity [] [host_term 20 (in_label key value)].

Definition getDefaultAffinity (c : ComponentType) : PodAffinity := spread_affinity ComponentLabelKey (component_string c).

(** The user's anti-affinity is added to the default one, the rest is the user's. *)
Definition merge_affinity (default_anti : PodAffinity) (user : Affinity) : Affinity :=
  mkAffinity (af_NodeAffinity user) (af_PodAffinity user)
    (Some match af_PodAntiAffinity user with
          | Some anti => mkPodAffinity (pa_Required anti) (app (pa_Preferred default_anti) (pa_Preferred anti))
          | None => default_anti
          end).
Definition constructAffinity (dcrAffinity : option Affinity) (c : ComponentType) : Affinity :=
  match dcrAffinity with
  | None => mkAffinity None None (Some (getDefaultAffinity c))
  | Some user => merge_affinity (getDefaultAffinity c) user
  end.

(** ** The template and main container of a DorisCluster's component *)

(** What a component skips of the default initialisation. *)
Definition skip_init (dcr : Dcr) (c : ComponentType) : bool :=
  match c with
  | Component_BE => match BeSpec_ (dcr_Spec dcr) with Some be => be_SkipDefaultSystemInit be | None => false end
  | Component_CN => match CnSpec_ (dcr_Spec dcr) with Some cn => cn_SkipDefaultSystemInit cn | None => false end
  | _ => false
  end.

(** The volumes of FE and BE are those of the spec, for the others the default ones. *)
Definition template_storage (spec : BaseSpec) (sharedPaths : list string) (cfg : config) (c : ComponentType)
  : option (list Volume) :=
  volumes ← match c with
            | Component_FE | Component_BE => newVolumesFromBaseSpec spec sharedPaths cfg c
            | _ => Some []
            end;
  Some (match volumes with [] => (getDefaultVolumesVolumeMounts c).1 | _ => volumes end).

Definition auth_volumes (authSecret : string) : list Volume :=
  if decide (authSecret <> "") then [mkVolume auth_volume_name (VolSecret authSecret)] else [].
Definition auth_mounts (authSecret : string) : list VolumeMount :=
  if decide (authSecret <> "") then [mkVolumeMount auth_volume_name basic_auth_path] else [].

Definition NewPodTemplateSpec (dcr : Dcr) (cfg : config) (c : ComponentType) : option PodTemplateSpec :=
  spec ← base_of dcr c;
  let '(sharedVolumes, _, sharedPaths) := BuildSharedVolumesAndVolumeMounts (SharedPersistentVolumeClaims (dcr_Spec dcr)) c in
  storage ← template_storage spec sharedPaths cfg c;
  let volumes := (appendPodInfoVolumesVolumeMounts storage []).1 in
  let volumes := app volumes (auth_volumes (AuthSecret (dcr_Spec dcr))) in
  let volumes := app volumes (getMultiConfigVolumeAndVolumeMount (bs_ConfigMapInfo spec) c).1 in
  let volumes := app volumes (getMultiSecretVolumeAndVolumeMount spec c).1 in
  let volumes := app volumes (getKerberosVolumeAndVolumeMount (KerberosInfo_ (dcr_Spec dcr))).1 in
  let volumes := app volumes sharedVolumes in
  Some (emptyTemplate
    <| pt_Name := GeneratePodTemplateName dcr c |>
    <| pt_Annotations := bs_Annotations spec |>
    <| pt_Labels := default ∅ (GetPodLabels dcr c) |>
    <| pt_ImagePullSecrets := bs_ImagePullSecrets spec |>
    <| pt_NodeSelector := bs_NodeSelector spec |>
    <| pt_Volumes := volumes |>
    <| pt_ServiceAccountName := bs_ServiceAccount spec |>
    <| pt_Tolerations := bs_Tolerations spec |>
    <| pt_HostAliases := bs_HostAliases spec |>
    <| pt_SecurityContext := bs_SecurityContext spec |>
    <| pt_InitContainers := constructInitContainers (skip_init dcr c) c (bs_SystemInitialization spec) |>
    <| pt_Affinity := Some (constructAffinity (bs_Affinity spec) c) |>).

(** The variable with the CPU limit, for BE and compute nodes that ask for it. *)
Definition resolves_cpu (dcr : Dcr) (c : ComponentType) : bool :=
  match c with
  | Component_BE => match BeSpec_ (dcr_Spec dcr) with Some be => be_AutoResolveLimitCPU be | None => false end
  | Component_CN => match CnSpec_ (dcr_Spec dcr) with Some cn => cn_AutoResolveLimitCPU cn | None => false end
  | _ => false
  end.

Definition main_container_envs (dcr : Dcr) (spec : BaseSpec) (cfg : config) (c : ComponentType) : option (list EnvVar) :=
  kerberos ← buildKerberosEnv (KerberosInfo_ (dcr_Spec dcr)) cfg (component_string c);
  let envs := mergeEnvs (app (buildBaseEnvs dcr) kerberos) (bs_EnvVars spec) in
  let envs := if skip_init dcr c then app envs [env_var "SKIP_CHECK_ULIMIT" "true"] else envs in
  Some (if resolves_cpu dcr c then app envs [env_var "BE_CPU_LIMIT" (cpu_limit (bs_Resources spec))] else envs).

Definition main_container_mounts (dcr : Dcr) (spec : BaseSpec) (cfg : config) (c : ComponentType)
  : option (list VolumeMount) :=
  let '(_, sharedVolumeMounts, sharedPaths) :=
    BuildSharedVolumesAndVolumeMounts (SharedPersistentVolumeClaims (dcr_Spec dcr)) c in
  mounts ← buildVolumeMounts spec sharedPaths cfg c;
  let mounts := app mounts (getMultiConfigVolumeAndVolumeMount (bs_ConfigMapInfo spec) c).2 in
  let mounts := app mounts (getMultiSecretVolumeAndVolumeMount spec c).2 in
  let mounts := app mounts (getKerberosVolumeAndVolumeMount (KerberosInfo_ (dcr_Spec dcr))).2 in
  let mounts := app mounts (auth_mounts (AuthSecret (dcr_Spec dcr))) in
  Some (app mounts sharedVolumeMounts).

(** Ports and types of the probes, the script before the stop, and the command of the probes. *)
Record probe_params := mkProbeParams {
  pp_liveness : Z; pp_readness : Z; pp_live : ProbeType; pp_ready : ProbeType;
  pp_path : string; pp_prestop : string; pp_commands : list string
}.
Definition component_probes (cfg : config) (c : ComponentType) : option probe_params :=
  match c with
  | Component_FE =>
      r ← GetPort cfg HTTP_PORT; l ← GetPort cfg QUERY_PORT;
      Some (mkProbeParams l r TcpSocket HttpGet HEALTH_API_PATH "/opt/apache-doris/fe_prestop.sh" [])
  | Component_BE | Component_CN =>
      r ← GetPort cfg WEBSERVER_PORT; l ← GetPort cfg HEARTBEAT_SERVICE_PORT;
      Some (mkProbeParams l r TcpSocket HttpGet HEALTH_API_PATH "/opt/apache-doris/be_prestop.sh" [])
  | Component_Broker =>
      p ← GetPort cfg BROKER_IPC_PORT;
      Some (mkProbeParams p p Exec Exec "" "/opt/apache-doris/broker_prestop.sh"
              ["/opt/apache-doris/broker_is_alive.sh"; Itoa p])
  | ComponentOther _ => Some (mkProbeParams 0 0 NoProbeType NoProbeType "" "" [])
  end.

Definition NewBaseMainContainer (dcr : Dcr) (cfg : config) (c : ComponentType) : option Container :=
  spec ← match c with ComponentOther _ => Some emptyBase | _ => base_of dcr c end;
  let '(command, args) := getCommand c in
  envs ← main_container_envs dcr spec cfg c;
  mounts ← main_container_mounts dcr spec cfg c;
  pp ← component_probes cfg c;
  readiness ← readiness_of c cfg (pp_readness pp) (pp_path pp) (pp_commands pp) (pp_ready pp)
                (bs_ReadinessProbePolicy spec);
  Some (emptyContainer
    <| c_Image := bs_Image spec |>
    <| c_Name := component_string c |>
    <| c_Command := command |>
    <| c_Args := args |>
    <| c_Env := envs |>
    <| c_VolumeMounts := mounts |>
    <| c_ImagePullPolicy := PullIfNotPresent |>
    <| c_Resources := bs_Resources spec |>
    <| c_LivenessProbe := Some (livenessProbe (pp_liveness pp) (bs_LiveTimeout spec) (pp_path pp) (pp_commands pp) (pp_live pp)) |>
    <| c_StartupProbe := Some (startupProbe (pp_liveness pp) (bs_StartTimeout spec) (pp_path pp) (pp_commands pp) (pp_live pp)) |>
    <| c_ReadinessProbe := Some readiness |>
    <| c_PreStop := Some [pp_prestop pp] |>).

(** ** The StatefulSet of a component ([statefulset.go]) *)

(** The StatefulSet of a component, with the template that its controller replaces. *)
Definition NewStatefulSet `{External} (dcr : Dcr) (cfg : config) (c : ComponentType) : option StatefulSet :=
  bSpec ← base_of dcr c;
  let '(_, _, sharedPaths) := BuildSharedVolumesAndVolumeMounts (SharedPersistentVolumeClaims (dcr_Spec dcr)) c in
  volumes ← GenerateEveryoneMountPathDorisPersistentVolume bSpec sharedPaths cfg c;
  template ← NewPodTemplateSpec dcr cfg c;
  Some (mkStatefulSet
    (emptyMeta <| m_Namespace := dcr_Namespace dcr |>
               <| m_Name := GenerateComponentStatefulSetName dcr c |>
               <| m_Labels := GenerateStatefulSetLabels dcr c |>
               <| m_OwnerReferences := [GetDcrOwnerReference dcr] |>)
    (bs_Replicas bSpec)
    (Some (mkLabelSelector (GenerateStatefulSetSelector dcr c) []))
    template
    (map (fun v => mkPVC "" "" (emptyMeta <| m_Name := dv_Name v |>
                                          <| m_Annotations := buildPVCAnnotations v |>) (dv_Spec v) "") volumes)
    (GenerateInternalCommunicateServiceName dcr c)
    (mkUpdateStrategy RollingUpdate (Some (Some 0))) (Some 5) ParallelPodManagement "" "").

(** ** The template and container of a disaggregated component *)

Definition set_common_init (si : option SystemInitialization) (cs : CommonSpec) : CommonSpec :=
  cs <| SystemInit := si |>.

(** [strings.ToLower(string(componentType))] *)
Definition lower_component (c : DisaggregatedComponentType) : string :=
  match c with
  | DisaggregatedFE => "fe"
  | DisaggregatedBE => "be"
  | DisaggregatedMS => "ms"
  | DisaggregatedOther s => ToLower s
  end.
Definition component_text (c : DisaggregatedComponentType) : string :=
  match c with
  | DisaggregatedFE => "FE"
  | DisaggregatedBE => "BE"
  | DisaggregatedMS => "MS"
  | DisaggregatedOther s => s
  end.

(** The template, and the spec with the image of its initialisation. *)
Definition NewPodTemplateSpecWithCommonSpec (skipDefaultInit : bool) (cs : CommonSpec) (c : DisaggregatedComponentType)
  : PodTemplateSpec * CommonSpec :=
  let '(init, si) := constructDisaggregatedInitContainers skipDefaultInit c (SystemInit cs) in
  (emptyTemplate
    <| pt_Name := lower_component c |>
    <| pt_Annotations := CommonAnnotations cs |>
    <| pt_Labels := CommonLabels cs |>
    <| pt_ImagePullSecrets := ImagePullSecrets cs |>
    <| pt_NodeSelector := NodeSelector cs |>
    <| pt_ServiceAccountName := ServiceAccount cs |>
    <| pt_Affinity := CommonAffinity cs |>
    <| pt_Tolerations := Tolerations cs |>
    <| pt_HostAliases := HostAliases cs |>
    <| pt_SecurityContext := PodSecurity cs |>
    <| pt_Volumes := (appendPodInfoVolumesVolumeMounts [] []).1 |>
    <| pt_InitContainers := init |>, set_common_init si cs).

Definition NewContainerWithCommonSpec (cs : CommonSpec) : Container :=
  emptyContainer <| c_Image := Image cs |>
                 <| c_SecurityContext := ContainerSecurityContext cs |>
                 <| c_Resources := Resources cs |>
                 <| c_VolumeMounts := (appendPodInfoVolumesVolumeMounts [] []).2 |>.
