(* ===== verification/DcrPods.v ===== *)
(** The pods of a DorisCluster's components
    ([src/pkg/controller/sub_controller/fe/pod.go], [be/pod.go], [cn/pod.go]
    and [broker/pod.go]): the builders that the controllers are given.

    A builder of BE or broker also returns the cluster: it writes through
    pointers into its spec. *)

From Stdlib Require Import ZArith Lia Ascii.
From stdpp Require Import base list gmap strings.
From S2P Require Import Prelude GoStr KubeTypes DdcApi Client Mysql Resource External SubDefault.
From S2P Require Import DcrApi DcrResource DcrSub PodTemplate.

Local Open Scope string_scope.
Local Open Scope Z_scope.
Local Open Scope dop_scope.

Definition add_container (c : Container) (pts : PodTemplateSpec) : PodTemplateSpec :=
  pts <| pt_Containers := app (pt_Containers pts) [c] |>.

(** The port for queries: that of the configured address, if it has one. *)
Definition query_port (port : Z) (feConfig : config) : option string :=
  p ← GetPort feConfig QUERY_PORT; Some (Itoa (if decide (port <> -1) then port else p)).

(** The end of every main container: name, ports and further variables. *)
Definition finish_container (c : Container) (name : string) (ports : list ContainerPort) (envs : list EnvVar) : Container :=
  c <| c_Name := name |> <| c_Ports := app (c_Ports c) ports |> <| c_Env := app (c_Env c) envs |>.

(** ** fe/pod.go *)

Definition feContainer (dcr : Dcr) (cfg : config) : option Container :=
  c ← NewBaseMainContainer dcr cfg Component_FE;
  fe ← FeSpec_ (dcr_Spec dcr);
  let '(feAddr, port) := GetConfigFEAddrForAccess dcr Component_FE in
  queryPort ← query_port port cfg;
  ports ← GetContainerPorts cfg Component_FE;
  Some (finish_container c "fe" ports
    [env_var ENV_FE_ADDR (if decide (feAddr = "") then GenerateExternalServiceName dcr Component_FE else feAddr);
     env_var ENV_FE_PORT queryPort; env_var "ELECT_NUMBER" (Itoa (GetElectionNumber fe))]).

(** The containers of the template, of which there are none, are left out. *)
Definition fe_template (dcr : Dcr) (cfg : config) : option PodTemplateSpec :=
  pts ← NewPodTemplateSpec dcr cfg Component_FE;
  pts ← AddTerminationGracePeriodSeconds pts cfg DEFAULT_FE_TERMINATION_GRACE_PERIOD_SECONDS;
  fe ← FeSpec_ (dcr_Spec dcr);
  c ← feContainer dcr cfg;
  Some (pts <| pt_Containers := ApplySecurityContext [c] (bs_ContainerSecurityContext (fe_Base fe)) |>).

Definition buildFEPodTemplateSpec (dcr : Dcr) (cfg : config) : op PodTemplateSpec :=
  assert_ok (fe_template dcr cfg) Ret.

Section pods.
Context `{External}.

(** ** The FE address of the other components *)

(** Without a configured address: the external service of FE, and the port of
    FE's configuration, empty when FE is absent; its error is dropped. *)
Definition fe_access (dcr : Dcr) (c : ComponentType) : op (string * Z * config) :=
  let '(addr, port) := GetConfigFEAddrForAccess dcr c in
  if decide (addr = "") then
    let! feConfig :=
      match FeSpec_ (dcr_Spec dcr) with
      | Some fe =>
          let! '(cfg, _) := k8s_GetConfig (bs_ConfigMapInfo (fe_Base fe)) (dcr_Namespace dcr) Component_FE in Ret cfg
      | None => Ret ∅
      end in
    Ret (GenerateExternalServiceName dcr Component_FE, port, feConfig)
  else Ret (addr, port, ∅).

(** The main container of a component that finds FE by its address; [last]: the
    variables after the address. *)
Definition member_container (dcr : Dcr) (cfg : config) (c : ComponentType) (name : string) (last : list EnvVar)
  : op Container :=
  assert_ok (NewBaseMainContainer dcr cfg c) (fun container =>
  let! '(addr, port, feConfig) := fe_access dcr c in
  assert_ok (query_port port feConfig) (fun feQueryPort =>
  assert_ok (GetContainerPorts cfg c) (fun ports =>
  Ret (finish_container container name ports
         (env_var ENV_FE_ADDR addr :: env_var ENV_FE_PORT feQueryPort :: last))))).

(** The configuration, without its error. *)
Definition component_config (dcr : Dcr) (base : BaseSpec) (c : ComponentType) : op config :=
  let! '(cfg, _) := k8s_GetConfig (bs_ConfigMapInfo base) (dcr_Namespace dcr) c in Ret cfg.

(** ** be/pod.go *)

(** The label asked for is one of hosts, not of pods. *)
Definition fe_anti_term : WeightedPodAffinityTerm :=
  host_term 80 (mkLabelSelector {[NODE_TOPOLOGYKEY := component_string Component_FE]} []).
Definition fe_term : WeightedPodAffinityTerm :=
  host_term 15 (in_label ComponentLabelKey (component_string Component_FE)).

Definition prefer (term : WeightedPodAffinityTerm) (a : option PodAffinity) : option PodAffinity :=
  let a := default (mkPodAffinity [] []) a in
  Some (a <| pa_Preferred := app (pa_Preferred a) [term] |>).

Definition noAffinity : Affinity := mkAffinity None None None.

Definition addFeAntiAffinity (pts : PodTemplateSpec) : PodTemplateSpec :=
  let a := default noAffinity (pt_Affinity pts) in
  pts <| pt_Affinity := Some (a <| af_PodAntiAffinity := prefer fe_anti_term (af_PodAntiAffinity a) |>) |>.
Definition prefer_pods (term : WeightedPodAffinityTerm) (pts : PodTemplateSpec) : PodTemplateSpec :=
  let a := default noAffinity (pt_Affinity pts) in
  pts <| pt_Affinity := Some (a <| af_PodAffinity := prefer term (af_PodAffinity a) |>) |>.
Definition addFeAffinity (pts : PodTemplateSpec) : PodTemplateSpec := prefer_pods fe_term pts.

(** The template shares the pod affinity of the spec: a term that is added to
    it is also added to the spec. *)
Definition prefer_in_spec (term : WeightedPodAffinityTerm) (base : BaseSpec) : BaseSpec :=
  match bs_Affinity base with
  | Some a => match af_PodAffinity a with
              | Some p => base <| bs_Affinity := Some (a <| af_PodAffinity := prefer term (Some p) |>) |>
              | None => base
              end
  | None => base
  end.

(** [EnableWorkloadGroup] makes the security context of the spec privileged. *)
Definition make_privileged (sc : option SecurityContext) : option SecurityContext :=
  Some ((default (mkSecurityContext None "") sc) <| sc_Privileged := Some true |>).

Definition beContainer (dcr : Dcr) (be : BeSpec) : op Container :=
  let! cfg := component_config dcr (be_Base be) Component_BE in
  member_container dcr cfg Component_BE "be"
    (if be_EnableWorkloadGroup be then [env_var "ENABLE_WORKLOAD_GROUP" (fmt_bool true)] else []).

(** The affinity of BE with or against FE, in the template and in the spec. *)
Definition be_affinity (be : BeSpec) (pts : PodTemplateSpec) : PodTemplateSpec * BaseSpec :=
  if be_EnableFeAffinity be then (addFeAffinity pts, prefer_in_spec fe_term (be_Base be))
  else (addFeAntiAffinity pts, be_Base be).

Definition buildBEPodTemplateSpec (dcr : Dcr) (cfg : config) : op (Dcr * PodTemplateSpec) :=
  assert_ok (NewPodTemplateSpec dcr cfg Component_BE) (fun pts =>
  deref (BeSpec_ (dcr_Spec dcr)) (fun be =>
  let '(pts, base) := be_affinity be pts in
  let! termination := component_config dcr base Component_BE in
  assert_ok (AddTerminationGracePeriodSeconds pts termination DEFAULT_BE_TERMINATION_GRACE_PERIOD_SECONDS) (fun pts =>
  let! container := beContainer dcr be in
  let base := if be_EnableWorkloadGroup be
              then base <| bs_ContainerSecurityContext := make_privileged (bs_ContainerSecurityContext base) |>
              else base in
  let containers := app (pt_Containers pts) [container] in
  Ret (set_be_base base dcr,
       pts <| pt_Containers := ApplySecurityContext containers (bs_ContainerSecurityContext base) |>)))).

(** ** cn/pod.go *)

Definition cnContainer (dcr : Dcr) (cn : CnSpec) : op Container :=
  let! cfg := component_config dcr (cn_Base cn) Component_CN in
  member_container dcr cfg Component_CN "cn" [env_var "COMPONENT_TYPE" "COMPUTE"].

Definition buildCnPodTemplateSpec (dcr : Dcr) (cfg : config) : op PodTemplateSpec :=
  assert_ok (NewPodTemplateSpec dcr cfg Component_CN) (fun pts =>
  assert_ok (AddTerminationGracePeriodSeconds pts cfg DEFAULT_BE_TERMINATION_GRACE_PERIOD_SECONDS) (fun pts =>
  deref (CnSpec_ (dcr_Spec dcr)) (fun cn =>
  let! container := cnContainer dcr cn in
  Ret (pts <| pt_Containers := ApplySecurityContext (app (pt_Containers pts) [container])
                                 (bs_ContainerSecurityContext (cn_Base cn)) |>)))).

(** ** broker/pod.go *)

Definition be_term : WeightedPodAffinityTerm :=
  host_term 20 (in_label ComponentLabelKey (component_string Component_BE)).

(** The pod affinity of the template is that of the spec, as for BE. *)
Definition addDefaultBorkerPodAffinity (broker : BrokerSpec) (pts : PodTemplateSpec) : PodTemplateSpec * BaseSpec :=
  if bk_KickOffAffinityBe broker then (prefer_pods be_term pts, prefer_in_spec be_term (bk_Base broker))
  else (pts, bk_Base broker).

Definition brokerContainer (dcr : Dcr) (broker : BrokerSpec) : op Container :=
  let! cfg := component_config dcr (bk_Base broker) Component_Broker in
  member_container dcr cfg Component_Broker "broker" [].

Definition buildBrokerPodTemplateSpec (dcr : Dcr) (cfg : config) : op (Dcr * PodTemplateSpec) :=
  assert_ok (NewPodTemplateSpec dcr cfg Component_Broker) (fun pts =>
  deref (BrokerSpec_ (dcr_Spec dcr)) (fun broker =>
  let '(pts, base) := addDefaultBorkerPodAffinity broker pts in
  let! container := brokerContainer dcr broker in
  Ret (set_broker_base base dcr,
       pts <| pt_Containers := ApplySecurityContext (app (pt_Containers pts) [container])
                                 (bs_ContainerSecurityContext base) |>))).
End pods.
