(* ===== verification/Claims.v ===== *)
(** Removal of the claims that a scaled-down StatefulSet no longer uses: the
    part that the compute group controller ([ClearStatefulsetUnusedPVCs]) and
    the FE controller ([listAndDeletePersistentVolumeClaim] of [pvc.go]) share. *)

From Stdlib Require Import ZArith Lia Ascii.
From stdpp Require Import base list gmap strings.
From S2P Require Import Prelude GoStr KubeTypes DdcApi Client Resource External SubDefault.

Local Open Scope string_scope.
Local Open Scope Z_scope.
Local Open Scope dop_scope.

(** The names of the claims of ordinals that a StatefulSet of [replicas] does not use. *)
Definition claim_unused (stsName : string) (replicas : Z) (pvcName : string) : bool :=
  match Split pvcName (stsName +:+ "-") with
  | [_; ordinal] =>
      match ParseInt ordinal 32 with
      | (index, None) => replicas <=? int32 index
      | (_, Some _) => false
      end
  | _ => false
  end.

Fixpoint delete_claims (ns : string) (labels : strmap) (names : list string) (mergeError : option goerr)
  : op (option goerr) :=
  match names with
  | [] => Ret mergeError
  | pvcName :: rest =>
      let! err := DeletePVC ns pvcName labels in
      match err with
      | Some e =>
          call (REvent EventWarning "PVCDeleteFailed" (err_msg e)) ;;;
          delete_claims ns labels rest (MergeError mergeError (Some e))
      | None => delete_claims ns labels rest mergeError
      end
  end.

