(* ===== verification/PrepareModify.v ===== *)
(** [prepare_modify.go] of the compute group controller: the SQL statements
    that take backends out of a compute group before its StatefulSet is
    scaled down, by decommission or by drop. *)

From Stdlib Require Import ZArith Lia Ascii.
From stdpp Require Import base list gmap strings.
From S2P Require Import Prelude GoStr Json KubeTypes DdcApi Client Mysql Resource External SubDefault.

Local Open Scope string_scope.
Local Open Scope Z_scope.
Local Open Scope dop_scope.

Inductive OperationType := OpScaleDown | OpNone.
#[export] Instance OperationType_eq_dec : EqDecision OperationType.
Proof. solve_decision. Defined.

(** The index and the value of the first status of a unique id. *)
Fixpoint find_cg_status (uniqueId : string) (l : list ComputeGroupStatus)
  : option (nat * ComputeGroupStatus) :=
  match l with
  | [] => None
  | c :: l' =>
      if decide (cgs_UniqueId c = uniqueId) then Some (O, c)
      else match find_cg_status uniqueId l' with
           | Some (i, c') => Some (S i, c')
           | None => None
           end
  end.

(** Writing through the pointer to the status at an index. *)
Definition set_cg_status (i : nat) (c : ComputeGroupStatus) (ddc : Ddc) : Ddc :=
  ddc <| ddc_Status := (ddc_Status ddc) <| ComputeGroupStatuses :=
    <[i := c]> (ComputeGroupStatuses (ddc_Status ddc)) |> |>.

Definition getOperationType (st est : StatefulSet) (phase : Phase) : op OperationType :=
  deref (st_Replicas st) (fun r =>
  deref (st_Replicas est) (fun er =>
    Ret (if (r <? er) || bool_decide (phase = Decommissioning) || bool_decide (phase = ScaleDownFailed)
         then OpScaleDown else OpNone))).

(** The ordinal in the host of a backend: what follows the last dash of the
    part before the first dot. *)
Definition host_ordinal (host : string) : res Z :=
  Atoi (List.last (Split (List.hd "" (Split host ".")) "-") "").

Fixpoint scaled_out (keep : Z) (l : list Backend) (dropNodes : list Backend) : res (list Backend) :=
  match l with
  | [] => Ok dropNodes
  | node :: l' =>
      match host_ordinal (be_Host node) with
      | Er err => Er err
      | Ok podNum => scaled_out keep l' (if keep <=? podNum then app dropNodes [node] else dropNodes)
      end
  end.

Section PrepareModify.
Context `{External}.

Definition getMasterSqlClient (cluster : Ddc) : op (res DB) :=
  let! '(adminUserName, password) := GetManagementAdminUserAndPWD cluster in
  let host := GetFEVIPAddresss cluster in
  let! confMap := GetConfigValuesFromConfigMaps (ddc_Namespace cluster) FE_RESOLVEKEY
                    (ConfigMaps (fe_Common (Fe (ddc_Spec cluster)))) in
  assert_ok (GetPort confMap QUERY_PORT) (fun queryPort =>
  let dbConf := mkDBConfig adminUserName password host (Itoa queryPort) "mysql" in
  assert_ok (FindSecretTLSConfig confMap cluster) (fun '(tlsConfig, secretName) =>
  let! s := GetSecret (ddc_Namespace cluster) secretName in
  let secret := match s with Ok sec => Some sec | Er _ => None end in
  NewDorisMasterSqlDB dbConf tlsConfig secret)).

Definition decommissionProgressCheck (masterDBClient : DB) (cgid : string) (cgKeepAmount : Z)
  : op (res DecommissionPhase) :=
  let! r := GetBackendsByComputeGroupId fmt_float json_err masterDBClient cgid in
  match r with
  | Er err => Ret (Er err)
  | Ok allBackends =>
      Ret (Ok (GetDecommissionPhase (ConstructDecommissionTaskStatus allBackends cgKeepAmount)))
  end.

Definition getScaledOutBENode (masterDBClient : DB) (cgid : string) (cgKeepAmount : Z)
  : op (res (list Backend)) :=
  let! r := GetBackendsByComputeGroupId fmt_float json_err masterDBClient cgid in
  match r with
  | Er err => Ret (Er err)
  | Ok allBackends => Ret (scaled_out cgKeepAmount allBackends [])
  end.

Definition scaledOutBENodesByDrop (masterDBClient : DB) (cgid : string) (cgKeepAmount : Z)
  : op (option goerr) :=
  let! r := getScaledOutBENode masterDBClient cgid cgKeepAmount in
  match r with
  | Er err => Ret (Some err)
  | Ok [] => Ret None
  | Ok dropNodes => DropBE masterDBClient dropNodes
  end.

Definition decommissionBENodes (masterDBClient : DB) (cgName : string) (cgKeepAmount : Z)
  : op (option goerr) :=
  let! r := getScaledOutBENode masterDBClient cgName cgKeepAmount in
  match r with
  | Er err => Ret (Some err)
  | Ok [] => Ret None
  | Ok dropNodes => DecommissionBE masterDBClient dropNodes
  end.

(** The result of dropping the decommissioned nodes is ignored. *)
Definition scaledOutBENodesByDecommission (cgStatus : ComputeGroupStatus) (sqlClient : DB)
    (cgid : string) (cgKeepAmount : Z) : op (ComputeGroupStatus * option goerr) :=
  let! p := decommissionProgressCheck sqlClient cgid cgKeepAmount in
  match p with
  | Er err => Ret (cgStatus, Some err)
  | Ok DecommissionAcceptable =>
      let! err := decommissionBENodes sqlClient cgid cgKeepAmount in
      match err with
      | Some e => Ret (cgStatus <| cgs_Phase := ScaleDownFailed |>, Some e)
      | None => Ret (cgStatus <| cgs_Phase := Decommissioning |>, None)
      end
  | Ok PhaseDecommissioning | Ok DecommissionPhaseUnknown =>
      Ret (cgStatus <| cgs_Phase := Decommissioning |>, None)
  | Ok PhaseDecommissioned =>
      let! _ := scaledOutBENodesByDrop sqlClient cgid cgKeepAmount in
      Ret (cgStatus <| cgs_Phase := Scaling |>, None)
  end.

Definition scaleOut (cgStatus : ComputeGroupStatus) (cluster : Ddc) (cg : ComputeGroup)
  : op (ComputeGroupStatus * option goerr) :=
  let! c := getMasterSqlClient cluster in
  match c with
  | Er err => Ret (cgStatus, Some err)
  | Ok sqlClient =>
      with_close sqlClient (
        deref (cg_Replicas cg) (fun cgKeepAmount =>
        let cgid := cgs_ComputeGroupId cgStatus in
        if EnableDecommission (ddc_Spec cluster) then
          scaledOutBENodesByDecommission cgStatus sqlClient cgid cgKeepAmount
        else
          let! err := scaledOutBENodesByDrop sqlClient cgid cgKeepAmount in
          match err with
          | Some e => Ret (cgStatus <| cgs_Phase := ScaleDownFailed |>, Some e)
          | None => Ret (cgStatus <| cgs_Phase := Scaling |>, None)
          end))
  end.

Definition preApplyStatefulSet (st est : StatefulSet) (cluster : Ddc) (cg : ComputeGroup)
  : op (Ddc * option goerr) :=
  deref (find_cg_status (UniqueId cg) (ComputeGroupStatuses (ddc_Status cluster)))
    (fun '(i, cgStatus) =>
    let! optType := getOperationType st est (cgs_Phase cgStatus) in
    match optType with
    | OpScaleDown =>
        let! '(cgStatus', err) := scaleOut cgStatus cluster cg in
        Ret (set_cg_status i cgStatus' cluster, err)
    | OpNone => Ret (cluster, None)
    end).

Definition skipApplyStatefulset (ddc : Ddc) (cg : ComputeGroup) : op bool :=
  deref (find_cg_status (UniqueId cg) (ComputeGroupStatuses (ddc_Status ddc)))
    (fun '(_, cgStatus) => Ret (bool_decide (cgs_Phase cgStatus = Decommissioning))).
End PrepareModify.
