(* ===== verification/Quiet.v ===== *)
(** The calls of the shared steps: reading configuration and credentials and
    connecting to Doris change nothing. *)

From Stdlib Require Import ZArith Lia.
From stdpp Require Import base list gmap strings.
From S2P Require Import Prelude GoStr KubeTypes DdcApi Client Traces Mysql Resource External SubDefault.
From S2P Require Import PrepareModify.

Local Open Scope dop_scope.

Lemma GetConfigValuesFromConfigMaps_quiet `{External} ns key cms :
  only quiet (GetConfigValuesFromConfigMaps ns key cms).
Proof. induction cms as [|cm cms IH]; cbn; [by apply spec_ret|]. spec_go. Qed.
#[export] Hint Resolve GetConfigValuesFromConfigMaps_quiet : spec.

Lemma GetManagementAdminUserAndPWD_quiet ddc : only quiet (GetManagementAdminUserAndPWD ddc).
Proof. unfold GetManagementAdminUserAndPWD, GetSecret. spec_go. Qed.
#[export] Hint Resolve GetManagementAdminUserAndPWD_quiet : spec.

Lemma open_and_ping_quiet dsn : only quiet (open_and_ping dsn).
Proof. unfold open_and_ping. spec_go. Qed.
#[export] Hint Resolve open_and_ping_quiet : spec.

Lemma NewDorisSqlDB_quiet cfg tls sec : only quiet (NewDorisSqlDB cfg tls sec).
Proof. unfold NewDorisSqlDB. spec_go. Qed.
#[export] Hint Resolve NewDorisSqlDB_quiet : spec.

Lemma NewDorisMasterSqlDB_quiet cfg tls sec : only quiet (NewDorisMasterSqlDB cfg tls sec).
Proof. unfold NewDorisMasterSqlDB, GetFollowers, ShowFrontends, Close. spec_go. Qed.
#[export] Hint Resolve NewDorisMasterSqlDB_quiet : spec.

Section quiet.
Context `{External}.

Lemma getMasterSqlClient_quiet ddc : only quiet (getMasterSqlClient ddc).
Proof. unfold getMasterSqlClient, assert_ok, GetSecret. spec_go. Qed.

Lemma GetBackendsByComputeGroupId_quiet db cgid :
  only quiet (GetBackendsByComputeGroupId fmt_float json_err db cgid).
Proof. unfold GetBackendsByComputeGroupId, ShowBackends. spec_go. Qed.

Lemma ExecInPod_no_pod_delete ns pod c cmd t : only no_pod_delete (ExecInPod ns pod c cmd t).
Proof. unfold ExecInPod. spec_go. Qed.
End quiet.
#[export] Hint Resolve getMasterSqlClient_quiet GetBackendsByComputeGroupId_quiet ExecInPod_no_pod_delete : spec.

(** A quiet program deletes no pod and runs no statement. *)
Lemma quiet_only_no_pod_delete {A} (p : op A) : only quiet p -> only no_pod_delete p.
Proof. intros Hp; eapply spec_weaken; [exact Hp | apply quiet_no_pod_delete | done]. Qed.
Lemma quiet_only_no_sts_write {A} (p : op A) : only quiet p -> only no_sts_write p.
Proof. intros Hp; eapply spec_weaken; [exact Hp | apply quiet_no_sts_write | done]. Qed.
Lemma quiet_only_no_sql {A} (p : op A) : only quiet p -> only no_sql p.
Proof. intros Hp; eapply spec_weaken; [exact Hp | apply quiet_no_sql | done]. Qed.
#[export] Hint Resolve quiet_only_no_pod_delete quiet_only_no_sql : spec.

Lemma with_close_wp {A} db (body : op A) (Q : trace -> outcome A -> Prop) :
  wp body (fun tr o => Q (app tr [Ev (SqlxClose (db_sqlx db)) tt]) o) -> wp (with_close db body) Q.
Proof.
  revert Q; induction body as [a|why|X e k IH]; intros Q Hb; cbn in *; [by intros []..|].
  intros x. apply IH, Hb.
Qed.

Lemma with_close_spec {A} (P : event OpE -> Prop) (R : A -> Prop) db (body : op A) :
  (forall d r, P (Ev (SqlxClose d) r)) -> spec P R body -> spec P R (with_close db body).
Proof.
  intros Hc Hb. apply with_close_wp. eapply wp_mono; [exact Hb|]. intros tr o [Htr Ho].
  split; [apply Forall_app; by repeat constructor | done].
Qed.

(** ** Waiting for a service *)

(** The endpoints of the service were read, and they have an address. *)
Definition service_ready (tr : trace) (ns name : string) : Prop :=
  exists ep, Ev (CGet KEndpoints ns name) (Ok ep) ∈ tr /\
    Exists (fun addresses : list string => addresses <> []) (ep_Subsets ep).

Definition changes (tr : trace) : Prop := Exists (fun e => is_write e = true) tr.

Lemma quiet_no_changes tr : Forall quiet tr -> ~ changes tr.
Proof.
  intros Hq Hc. apply Exists_exists in Hc as (e & He & Hw). rewrite Forall_forall in Hq.
  specialize (Hq e He). unfold quiet in Hq. congruence.
Qed.

Lemma quiet_event_no_changes e : quiet e -> ~ changes [e].
Proof. intros He. apply quiet_no_changes. by constructor. Qed.

Lemma wait_for_endpoints {A} ns name (body idle : op A) (R : Prop) :
  only quiet idle -> wp body (fun tr _ => changes tr -> R) ->
  wp (let! available := endpoints_available ns name in if available : bool then body else idle) (fun tr _ =>
    changes tr -> R /\ service_ready tr ns name).
Proof.
  intros Hidle Hbody. unfold endpoints_available. cbn [bind call].
  assert (Hi : forall r, quiet (Ev (CGet KEndpoints ns name) r) -> wp idle (fun tr _ =>
    changes (Ev (CGet KEndpoints ns name) r :: tr) -> R /\ service_ready (Ev (CGet KEndpoints ns name) r :: tr) ns name)).
  { intros r Hr. eapply wp_mono; [exact Hidle|]. intros tr o [Hq _] Hc. exfalso.
    by apply (quiet_no_changes _ (Forall_cons_2 _ _ _ Hr Hq)). }
  intros [ep|err]; [|by apply Hi]. cbn [wp]. destruct (existsb _ (ep_Subsets ep)) eqn:Hep; [|by apply Hi].
  eapply wp_mono; [exact Hbody|]. intros tr o Hb Hc. inversion Hc as [? ? Hw|? ? Hc']; subst; [discriminate Hw|].
  split; [by apply Hb|]. exists ep. split; [left|].
  apply existsb_exists in Hep as (sub & Hin & Hs). apply Exists_exists. exists sub.
  rewrite list_elem_of_In. by destruct sub.
Qed.
