(* ===== verification/GracefulCodec.v ===== *)
(** The graceful action stored on the StatefulSet: the JSON text of
    [dv1.GracefulAction] as [encoding/json] writes it (the [omitempty] tags,
    [metav1.Time] as [null] or RFC 3339 text) and reads it (keys up to case,
    [null] leaves a field, unknown keys skipped), and the accessors of
    [graceful_rollout.go] for the annotation. *)

From Stdlib Require Import ZArith Lia Ascii.
From stdpp Require Import base list gmap strings.
From S2P Require Import Prelude GoStr Json KubeTypes DdcApi Client Resource External.

Local Open Scope string_scope.
Local Open Scope Z_scope.

(** ** Encoder *)

Definition omit_str (k s : string) : list (string * json) :=
  if decide (s = "") then [] else [(k, JStr s)].
Definition omit_int (k : string) (n : Z) : list (string * json) :=
  if decide (n = 0) then [] else [(k, JNum (Itoa n))].
Definition omit_bool (k : string) (b : bool) : list (string * json) :=
  if b then [(k, JBool true)] else [].
Definition omit_ptr (k : string) (o : option Z) : list (string * json) :=
  match o with Some n => [(k, JNum (Itoa n))] | None => [] end.

Section Codec.
Context `{External}.

Definition time_member (k : string) (t : Z) : list (string * json) :=
  [(k, if decide (t = 0) then JNull else JStr (time_marshal t))].

Definition GracefulAction_members (ga : GracefulAction) : list (string * json) :=
  concat [
    omit_str "type" (action_type_string (ga_Type ga));
    omit_str "phase" (action_phase_string (ga_Phase ga));
    omit_str "currentPod" (ga_CurrentPod ga);
    omit_int "currentOrdinal" (ga_CurrentOrdinal ga);
    omit_str "targetRevision" (ga_TargetRevision ga);
    omit_ptr "desiredReplicas" (ga_DesiredReplicas ga);
    time_member "startedAt" (ga_StartedAt ga);
    time_member "deadlineAt" (ga_DeadlineAt ga);
    omit_str "lastMessage" (ga_LastMessage ga);
    omit_bool "drainTriggered" (ga_DrainTriggered ga);
    omit_int "initialRestartCount" (ga_InitialRestartCount ga);
    omit_bool "sentinelWritten" (ga_SentinelWritten ga);
    omit_bool "restartAnomalyDetected" (ga_RestartAnomalyDetected ga);
    omit_str "initialPodUID" (ga_InitialPodUID ga);
    omit_str "initialContainerID" (ga_InitialContainerID ga);
    omit_str "initialBackendStartTime" (ga_InitialBackendStartTime ga);
    omit_str "initialBackendEpoch" (ga_InitialBackendEpoch ga);
    omit_str "replacementPodUID" (ga_ReplacementPodUID ga);
    omit_str "replacementContainerID" (ga_ReplacementContainerID ga);
    omit_str "replacementBackendStartTime" (ga_ReplacementBackendStartTime ga);
    omit_str "replacementBackendEpoch" (ga_ReplacementBackendEpoch ga);
    omit_int "stableBackendObservations" (ga_StableBackendObservations ga)
  ].

Definition Marshal_GracefulAction (ga : GracefulAction) : string :=
  print_json (JObj (GracefulAction_members ga)).

(** ** Decoder *)

Definition dec_str (j : json) (cur : string) : option string :=
  match j with JStr s => Some s | JNull => Some cur | _ => None end.
Definition dec_int32 (j : json) (cur : Z) : option Z :=
  match j with
  | JNum lit => match ParseInt lit 32 with (n, None) => Some n | _ => None end
  | JNull => Some cur
  | _ => None
  end.
Definition dec_ptr32 (j : json) : option (option Z) :=
  match j with
  | JNum lit => match ParseInt lit 32 with (n, None) => Some (Some n) | _ => None end
  | JNull => Some None
  | _ => None
  end.
Definition dec_bool (j : json) (cur : bool) : option bool :=
  match j with JBool b => Some b | JNull => Some cur | _ => None end.
Definition dec_time (j : json) : option Z :=
  match j with JNull => Some 0 | JStr s => time_unmarshal s | _ => None end.

Definition decode_member (ga : GracefulAction) (k : string) (j : json) : option GracefulAction :=
  if EqualFold k "type" then s ← dec_str j (action_type_string (ga_Type ga)); Some (ga <| ga_Type := action_type_of s |>)
  else if EqualFold k "phase" then s ← dec_str j (action_phase_string (ga_Phase ga)); Some (ga <| ga_Phase := action_phase_of s |>)
  else if EqualFold k "currentPod" then s ← dec_str j (ga_CurrentPod ga); Some (ga <| ga_CurrentPod := s |>)
  else if EqualFold k "currentOrdinal" then n ← dec_int32 j (ga_CurrentOrdinal ga); Some (ga <| ga_CurrentOrdinal := n |>)
  else if EqualFold k "targetRevision" then s ← dec_str j (ga_TargetRevision ga); Some (ga <| ga_TargetRevision := s |>)
  else if EqualFold k "desiredReplicas" then o ← dec_ptr32 j; Some (ga <| ga_DesiredReplicas := o |>)
  else if EqualFold k "startedAt" then t ← dec_time j; Some (ga <| ga_StartedAt := t |>)
  else if EqualFold k "deadlineAt" then t ← dec_time j; Some (ga <| ga_DeadlineAt := t |>)
  else if EqualFold k "lastMessage" then s ← dec_str j (ga_LastMessage ga); Some (ga <| ga_LastMessage := s |>)
  else if EqualFold k "drainTriggered" then b ← dec_bool j (ga_DrainTriggered ga); Some (ga <| ga_DrainTriggered := b |>)
  else if EqualFold k "initialRestartCount" then n ← dec_int32 j (ga_InitialRestartCount ga); Some (ga <| ga_InitialRestartCount := n |>)
  else if EqualFold k "sentinelWritten" then b ← dec_bool j (ga_SentinelWritten ga); Some (ga <| ga_SentinelWritten := b |>)
  else if EqualFold k "restartAnomalyDetected" then b ← dec_bool j (ga_RestartAnomalyDetected ga); Some (ga <| ga_RestartAnomalyDetected := b |>)
  else if EqualFold k "initialPodUID" then s ← dec_str j (ga_InitialPodUID ga); Some (ga <| ga_InitialPodUID := s |>)
  else if EqualFold k "initialContainerID" then s ← dec_str j (ga_InitialContainerID ga); Some (ga <| ga_InitialContainerID := s |>)
  else if EqualFold k "initialBackendStartTime" then s ← dec_str j (ga_InitialBackendStartTime ga); Some (ga <| ga_InitialBackendStartTime := s |>)
  else if EqualFold k "initialBackendEpoch" then s ← dec_str j (ga_InitialBackendEpoch ga); Some (ga <| ga_InitialBackendEpoch := s |>)
  else if EqualFold k "replacementPodUID" then s ← dec_str j (ga_ReplacementPodUID ga); Some (ga <| ga_ReplacementPodUID := s |>)
  else if EqualFold k "replacementContainerID" then s ← dec_str j (ga_ReplacementContainerID ga); Some (ga <| ga_ReplacementContainerID := s |>)
  else if EqualFold k "replacementBackendStartTime" then s ← dec_str j (ga_ReplacementBackendStartTime ga); Some (ga <| ga_ReplacementBackendStartTime := s |>)
  else if EqualFold k "replacementBackendEpoch" then s ← dec_str j (ga_ReplacementBackendEpoch ga); Some (ga <| ga_ReplacementBackendEpoch := s |>)
  else if EqualFold k "stableBackendObservations" then n ← dec_int32 j (ga_StableBackendObservations ga); Some (ga <| ga_StableBackendObservations := n |>)
  else Some ga.

(** Members are applied in the order of the text; a member that does not fit
    makes the decoder report an error. *)
Fixpoint decode_members (ga : GracefulAction) (l : list (string * json)) : option GracefulAction :=
  match l with
  | [] => Some ga
  | (k, j) :: l' => ga' ← decode_member ga k j; decode_members ga' l'
  end.

Definition Unmarshal_GracefulAction (s : string) : option GracefulAction :=
  match parse_json s with
  | Some (JObj l) => decode_members zeroGA l
  | Some JNull => Some zeroGA
  | _ => None
  end.

(** ** The annotation *)

Definition gracefulActionAnnotation : string := "doris.disaggregated.cluster/graceful-action".

Definition getGracefulAction (st : StatefulSet) : res (option GracefulAction) :=
  let raw := match st_Annotations st !! gracefulActionAnnotation with Some r => r | None => "" end in
  if decide (raw = "") then Ok None
  else match Unmarshal_GracefulAction raw with
       | Some ga => Ok (Some ga)
       | None => Er (wrapErr ("failed to decode graceful action annotation on statefulset " +:+
                   st_Namespace st +:+ "/" +:+ st_Name st +:+ ": ") (json_err raw))
       end.

Definition setGracefulAction (st : StatefulSet) (ga : GracefulAction) : StatefulSet :=
  set_sts_Annotations (<[gracefulActionAnnotation := Marshal_GracefulAction ga]> (st_Annotations st)) st.

Definition clearGracefulAction (st : StatefulSet) : StatefulSet :=
  set_sts_Annotations (delete gracefulActionAnnotation (st_Annotations st)) st.

Definition gracefulAnnotationValue (st : StatefulSet) : string :=
  match st_Annotations st !! gracefulActionAnnotation with Some r => r | None => "" end.
End Codec.

(** ** Lemmas: reading back what was written *)

Definition truncated (t : Z) : Z := t / 1000000000 * 1000000000.

(** The action as the annotation keeps it: times in whole seconds. *)
Definition persisted (ga : GracefulAction) : GracefulAction :=
  ga <| ga_StartedAt := truncated (ga_StartedAt ga) |>
     <| ga_DeadlineAt := truncated (ga_DeadlineAt ga) |>.

(** Times that RFC 3339 can print: years 1 to 9999. *)
Definition printable_time (t : Z) : Prop := 0 <= t < 315537897600 * 1000000000.

(** The texts of the action. *)
Definition ga_texts (ga : GracefulAction) : list string :=
  [action_type_string (ga_Type ga); action_phase_string (ga_Phase ga); ga_CurrentPod ga; ga_TargetRevision ga;
   ga_LastMessage ga; ga_InitialPodUID ga; ga_InitialContainerID ga; ga_InitialBackendStartTime ga;
   ga_InitialBackendEpoch ga; ga_ReplacementPodUID ga; ga_ReplacementContainerID ga;
   ga_ReplacementBackendStartTime ga; ga_ReplacementBackendEpoch ga].

(** The widths of the struct's fields, its enumerations hold the declared
    constants by their constructors, and its texts are UTF-8. *)
Definition storable (ga : GracefulAction) : Prop :=
  canonical_type (ga_Type ga) /\ canonical_phase (ga_Phase ga) /\
  in_int 32 (ga_CurrentOrdinal ga) = true /\ in_int 32 (ga_InitialRestartCount ga) = true /\
  in_int 32 (ga_StableBackendObservations ga) = true /\
  match ga_DesiredReplicas ga with Some n => in_int 32 n = true | None => True end /\
  printable_time (ga_StartedAt ga) /\ printable_time (ga_DeadlineAt ga) /\
  forallb valid_utf8 (ga_texts ga) = true.

Section roundtrip.
Context `{External}.

(** Documented behaviour of package time: RFC 3339 text is UTF-8, and keeps
    whole seconds. *)
Definition rfc3339_law : Prop :=
  forall t, printable_time t -> valid_utf8 (time_marshal t) = true /\ time_unmarshal (time_marshal t) = Some (truncated t).

Lemma decode_omit_str k s rest acc acc' :
  (s = "" -> acc = acc') -> decode_member acc k (JStr s) = Some acc' ->
  decode_members acc (app (omit_str k s) rest) = decode_members acc' rest.
Proof.
  intros Hz Hs. unfold omit_str. case_decide; cbn; [by rewrite (Hz ltac:(done))|]. by rewrite Hs.
Qed.

Lemma decode_omit_int k n rest acc acc' :
  (n = 0 -> acc = acc') -> decode_member acc k (JNum (Itoa n)) = Some acc' ->
  decode_members acc (app (omit_int k n) rest) = decode_members acc' rest.
Proof.
  intros Hz Hs. unfold omit_int. case_decide; cbn; [by rewrite (Hz ltac:(done))|]. by rewrite Hs.
Qed.

Lemma decode_omit_bool k (b : bool) rest acc acc' :
  (b = false -> acc = acc') -> decode_member acc k (JBool b) = Some acc' ->
  decode_members acc (app (omit_bool k b) rest) = decode_members acc' rest.
Proof.
  intros Hz Hs. destruct b; cbn; [by rewrite Hs | by rewrite (Hz eq_refl)].
Qed.

Lemma decode_omit_ptr k (o : option Z) rest acc acc' :
  (o = None -> acc = acc') -> (forall n, o = Some n -> decode_member acc k (JNum (Itoa n)) = Some acc') ->
  decode_members acc (app (omit_ptr k o) rest) = decode_members acc' rest.
Proof.
  intros Hz Hs. destruct o; cbn; [by rewrite (Hs _ eq_refl) | by rewrite (Hz eq_refl)].
Qed.

Lemma decode_time k t rest acc acc' :
  (t = 0 -> decode_member acc k JNull = Some acc') ->
  (t <> 0 -> decode_member acc k (JStr (time_marshal t)) = Some acc') ->
  decode_members acc (app (time_member k t) rest) = decode_members acc' rest.
Proof.
  intros Hz Hs. unfold time_member. case_decide; cbn; [by rewrite Hz | by rewrite Hs].
Qed.

Lemma decode_members_nil acc : decode_members acc [] = Some acc. Proof. done. Qed.

Lemma dec_int32_Itoa n cur : in_int 32 n = true -> dec_int32 (JNum (Itoa n)) cur = Some n.
Proof. intros Hn. cbn. by rewrite ParseInt_Itoa. Qed.
Lemma dec_ptr32_Itoa n : in_int 32 n = true -> dec_ptr32 (JNum (Itoa n)) = Some (Some n).
Proof. intros Hn. cbn. by rewrite ParseInt_Itoa. Qed.

Lemma wf_members ga : wf_json (JObj (GracefulAction_members ga)).
Proof.
  assert (Hall : Forall (fun kv => wf_json kv.2) (GracefulAction_members ga)).
  { apply Forall_concat.
    assert (forall k s, Forall (fun kv => wf_json kv.2) (omit_str k s)).
    { intros; unfold omit_str; case_decide; repeat constructor. }
    assert (forall k n, Forall (fun kv => wf_json kv.2) (omit_int k n)).
    { intros; unfold omit_int; case_decide; repeat constructor; apply wf_Itoa. }
    assert (forall k b, Forall (fun kv => wf_json kv.2) (omit_bool k b)).
    { intros ? []; repeat constructor. }
    assert (forall k o, Forall (fun kv => wf_json kv.2) (omit_ptr k o)).
    { intros ? [n|]; repeat constructor; apply wf_Itoa. }
    assert (forall k t, Forall (fun kv => wf_json kv.2) (time_member k t)).
    { intros; unfold time_member; case_decide; repeat constructor. }
    repeat (constructor; [done|]). constructor. }
  revert Hall. generalize (GracefulAction_members ga).
  induction l as [|[k v] l IH]; [done|]. intros [Hx Hl]%Forall_cons. split; [exact Hx | apply IH, Hl].
Qed.

(** The text of a storable action is UTF-8. *)
Lemma valid_members ga : rfc3339_law -> storable ga -> valid_json (JObj (GracefulAction_members ga)) = true.
Proof.
  intros Hlaw (_ & _ & _ & _ & _ & _ & Hst & Hdl & Htexts).
  set (ok := fun l : list (string * json) => forallb (fun '(k, x) => valid_utf8 k && valid_json x) l = true).
  assert (Hs : forall k s, valid_utf8 k = true -> valid_utf8 s = true -> ok (omit_str k s)).
  { intros k s Hk Hs. unfold ok, omit_str. case_decide; cbn; [done|]. by rewrite Hk, Hs. }
  assert (Hi : forall k n, valid_utf8 k = true -> ok (omit_int k n)).
  { intros k n Hk. unfold ok, omit_int. case_decide; cbn; [done|]. by rewrite Hk. }
  assert (Hb : forall k b, valid_utf8 k = true -> ok (omit_bool k b)).
  { intros k [] Hk; unfold ok; cbn; [by rewrite Hk | done]. }
  assert (Hp : forall k o, valid_utf8 k = true -> ok (omit_ptr k o)).
  { intros k [n|] Hk; unfold ok; cbn; [by rewrite Hk | done]. }
  assert (Ht : forall k t, valid_utf8 k = true -> printable_time t -> ok (time_member k t)).
  { intros k t Hk Hr. unfold ok, time_member. cbn. case_decide; cbn; rewrite Hk; [done|]. by rewrite (proj1 (Hlaw t Hr)). }
  assert (Happ : forall ls, Forall ok ls -> ok (concat ls)).
  { unfold ok. induction 1 as [|l ls Hl _ IH]; [done|]. cbn. by rewrite forallb_app, Hl, IH. }
  change (ok (GracefulAction_members ga)). unfold GracefulAction_members. apply Happ. unfold ga_texts in Htexts. cbn [forallb] in Htexts.
  rewrite !andb_true_iff in Htexts. destruct Htexts as (? & ? & ? & ? & ? & ? & ? & ? & ? & ? & ? & ? & ? & _).
  repeat (apply Forall_cons; split);
    lazymatch goal with
    | |- ok (omit_str _ _) => apply Hs; [vm_compute; reflexivity | assumption]
    | |- ok (omit_int _ _) => apply Hi; vm_compute; reflexivity
    | |- ok (omit_bool _ _) => apply Hb; vm_compute; reflexivity
    | |- ok (omit_ptr _ _) => apply Hp; vm_compute; reflexivity
    | |- ok (time_member _ _) => apply Ht; [vm_compute; reflexivity | assumption]
    | |- Forall _ _ => apply Forall_nil_2
    end.
Qed.

(** Computes the fields of an updated action. *)
Ltac ga_cbn :=
  unfold update_field;
  cbn [ga_Type ga_Phase ga_CurrentPod ga_CurrentOrdinal ga_TargetRevision ga_DesiredReplicas
       ga_StartedAt ga_DeadlineAt ga_LastMessage ga_DrainTriggered ga_InitialRestartCount
       ga_SentinelWritten ga_RestartAnomalyDetected ga_InitialPodUID ga_InitialContainerID
       ga_InitialBackendStartTime ga_InitialBackendEpoch ga_ReplacementPodUID
       ga_ReplacementContainerID ga_ReplacementBackendStartTime ga_ReplacementBackendEpoch
       ga_StableBackendObservations].

(** Decides which field the key of the member names. *)
Ltac pick_field :=
  unfold decode_member;
  repeat match goal with
  | |- context [EqualFold ?k ?k'] =>
      let b := eval vm_compute in (EqualFold k k') in
      let H := fresh in
      assert (H : EqualFold k k' = b) by (vm_compute; reflexivity); rewrite H; clear H; cbv iota
  end;
  cbn [dec_str dec_bool dec_time mbind option_bind]; ga_cbn.

Ltac read_field :=
  pick_field; first [reflexivity | rewrite dec_int32_Itoa by assumption; cbn [mbind option_bind]; ga_cbn; reflexivity].

(** An omitted member leaves the zero value the field already has. *)
Ltac zero_field :=
  let E := fresh "E" in intros E; first
    [ subst; reflexivity | rewrite E; reflexivity | subst; pick_field; reflexivity ].

(** Consumes the first member of the text. *)
Ltac field_step :=
  first
    [ erewrite decode_omit_str; [|shelve|read_field]
    | erewrite decode_omit_int; [|shelve|read_field]
    | erewrite decode_omit_bool; [|shelve|read_field] ].

Lemma Unmarshal_Marshal ga : rfc3339_law -> storable ga ->
  Unmarshal_GracefulAction (Marshal_GracefulAction ga) = Some (persisted ga).
Proof.
  intros Hlaw Hstore. unfold Unmarshal_GracefulAction, Marshal_GracefulAction.
  rewrite parse_json_print, coerce_json_valid by (apply wf_members || by apply valid_members).
  destruct Hstore as (Ht & Hp & Ho & Hr & Hs & Hd & Hst & Hdl & _). apply Hlaw in Hst as [_ Hst], Hdl as [_ Hdl].
  destruct ga as [t p pod o rev d st dl msg dt rc sw ra u1 c1 s1 e1 u2 c2 s2 e2 ob].
  cbn [ga_Type ga_Phase ga_CurrentOrdinal ga_InitialRestartCount ga_StableBackendObservations
       ga_DesiredReplicas ga_StartedAt ga_DeadlineAt] in *.
  unfold GracefulAction_members.
  cbn [ga_Type ga_Phase ga_CurrentPod ga_CurrentOrdinal ga_TargetRevision ga_DesiredReplicas
       ga_StartedAt ga_DeadlineAt ga_LastMessage ga_DrainTriggered ga_InitialRestartCount
       ga_SentinelWritten ga_RestartAnomalyDetected ga_InitialPodUID ga_InitialContainerID
       ga_InitialBackendStartTime ga_InitialBackendEpoch ga_ReplacementPodUID
       ga_ReplacementContainerID ga_ReplacementBackendStartTime ga_ReplacementBackendEpoch
       ga_StableBackendObservations concat].
  unfold canonical_type in Ht; unfold canonical_phase in Hp. unfold zeroGA.
  do 2 field_step. rewrite Ht, Hp. do 3 field_step.
  erewrite decode_omit_ptr; [|shelve|intros n ->; pick_field; rewrite dec_ptr32_Itoa by assumption; cbn [mbind option_bind]; ga_cbn; reflexivity].
  do 2 (erewrite decode_time;
    [|shelve|intros _; pick_field; rewrite ?Hst, ?Hdl; cbn [mbind option_bind]; ga_cbn; reflexivity]).
  do 14 field_step. rewrite decode_members_nil. reflexivity.
  Unshelve. all: zero_field.
Qed.
End roundtrip.
