(* ===== verification/Graceful.v ===== *)
(** [graceful_rollout.go] of the compute group controller: the state machine
    that drains, deletes and replaces one backend pod at a time before a
    rolling update, and from the highest ordinal down before a scale-down.

    The action under way is the argument and the result of each handler; its
    stored form is the annotation of [GracefulCodec].  A handler returns the
    updated action and an error.  Log output is not modelled. *)

From Stdlib Require Import ZArith Lia Ascii.
From stdpp Require Import base list gmap strings.
From S2P Require Import Prelude GoStr Json KubeTypes DdcApi Client Mysql Resource External SubDefault.
From S2P Require Import PrepareModify GracefulCodec.

Local Open Scope string_scope.
Local Open Scope Z_scope.
Local Open Scope dop_scope.

(** ** Constants *)

Definition Second : Z := 1000000000.
Definition stopBEGraceCommand : string := "/opt/apache-doris/be/bin/stop_be.sh".
Definition stopBEGraceArg : string := "--grace".
Definition execTimeout : Z := 30 * Second.
Definition beMainContainerName : string := "compute".
Definition waitPodReadyTimeoutFactor : Z := 2.
Definition waitBEAliveTimeoutFactor : Z := 2.
Definition gracefulRuntimeMountPath : string := "/var/run/doris-operator".
Definition beTerminatingSentinelPath : string := gracefulRuntimeMountPath +:+ "/terminating".
Definition requiredStableBackendObservations : Z := 2.

(** ** Pods and containers *)

Definition find_container (pod : Pod) (containerName : string) : option ContainerStatus :=
  List.find (fun cs => bool_decide (cs_Name cs = containerName)) (container_statuses pod).

Definition isContainerTerminated (pod : Pod) (containerName : string) : bool :=
  match find_container pod containerName with
  | Some cs => match cs_Terminated cs with Some _ => true | None => false end
  | None => false
  end.

Definition getContainerRestartCount (pod : Pod) (containerName : string) : Z :=
  match find_container pod containerName with Some cs => cs_RestartCount cs | None => 0 end.

Definition getContainerID (pod : Pod) (containerName : string) : string :=
  match find_container pod containerName with Some cs => cs_ContainerID cs | None => "" end.

Definition getPod (namespace name : string) : op (res Pod) := call (CGet KPod namespace name).

(** ** Ordinals *)

Fixpoint after_last_dash (s : string) : option string :=
  match s with
  | "" => None
  | String c s' =>
      match after_last_dash s' with
      | Some t => Some t
      | None => if ascii_dec c "-" then Some s' else None
      end
  end.

(** [ordinal*10 + int(podName[j]-'0')]: the byte difference wraps at 256, the
    accumulator at 64 bits. *)
Fixpoint fold_digits (s : string) (ordinal : Z) : Z :=
  match s with
  | "" => ordinal
  | String c s' => fold_digits s' (int64 (int64 (ordinal * 10) + (ch_code c - 48) mod 256))
  end.

Definition extractOrdinal (podName : string) : Z :=
  match after_last_dash podName with
  | Some t => fold_digits t 0
  | None => 0
  end.

(** [sort.Slice] by ordinal, descending, as the insertion sort that it is on
    up to twelve elements; which of several pods with one ordinal comes first
    on longer slices is unspecified. *)
Fixpoint insert_desc (p : Pod) (l : list Pod) : list Pod :=
  match l with
  | [] => [p]
  | q :: l' => if extractOrdinal (p_Name q) <? extractOrdinal (p_Name p) then p :: l else q :: insert_desc p l'
  end.
Definition sort_desc (l : list Pod) : list Pod := foldl (fun acc p => insert_desc p acc) [] l.

(** ** The action *)

Definition gracefulActionPriority (t : GracefulActionType) : Z :=
  match t with
  | GracefulActionDelete => 3
  | GracefulActionScaleDown => 2
  | GracefulActionRollingUpdate => 1
  | GracefulActionOther _ => 0
  end.

Definition resetGracefulPhaseTimer (ga : GracefulAction) : GracefulAction :=
  ga <| ga_StartedAt := 0 |> <| ga_DeadlineAt := 0 |>.

Definition advanceToNextPod (ga : GracefulAction) : GracefulAction :=
  let ga := ga <| ga_CurrentPod := "" |> <| ga_CurrentOrdinal := 0 |> <| ga_DrainTriggered := false |>
               <| ga_InitialRestartCount := 0 |> <| ga_SentinelWritten := false |>
               <| ga_RestartAnomalyDetected := false |> <| ga_InitialPodUID := "" |>
               <| ga_InitialContainerID := "" |> <| ga_InitialBackendStartTime := "" |>
               <| ga_InitialBackendEpoch := "" |> <| ga_ReplacementPodUID := "" |>
               <| ga_ReplacementContainerID := "" |> <| ga_ReplacementBackendStartTime := "" |>
               <| ga_ReplacementBackendEpoch := "" |> <| ga_StableBackendObservations := 0 |> in
  let ga := resetGracefulPhaseTimer ga in
  ga <| ga_LastMessage := "" |> <| ga_Phase := GracefulPhaseTriggerDrain |>.

Definition refreshRollingUpdateTargetRevision (est : StatefulSet) (ga : GracefulAction) : GracefulAction :=
  if decide (ga_Type ga <> GracefulActionRollingUpdate) then ga
  else if decide (st_UpdateRevision est = "") then ga
  else ga <| ga_TargetRevision := st_UpdateRevision est |>.

(** ** Backends *)

Definition backendMatchesPod (backend : Backend) (podName : string) : bool :=
  HasPrefix (be_Host backend) (podName +:+ ".") || bool_decide (be_Host backend = podName).

Definition backendLastStartTime (backend : Backend) : string :=
  match be_LastStartTime backend with Some s => TrimSpace s | None => "" end.

(** The status of a backend may be printed, and the accepted keys tried, in this order. *)
Definition epoch_keys : list string := ["processEpoch"; "process_epoch"; "beStartTime"; "be_start_time"].

Fixpoint first_key (m : gmap string json) (keys : list string) : option json :=
  match keys with
  | [] => None
  | k :: ks => match m !! k with Some v => Some v | None => first_key m ks end
  end.

(** The type of a decoded value, as [%T] prints it. *)
Definition json_type (j : json) : string :=
  match j with
  | JNull => "<nil>"
  | JBool _ => "bool"
  | JNum _ => "float64"
  | JStr _ => "string"
  | JArr _ => "[]interface {}"
  | JObj _ => "map[string]interface {}"
  end.

(** ** StatefulSets *)

Definition ensureOnDeleteStrategy (st : StatefulSet) : StatefulSet :=
  st <| st_UpdateStrategy := mkUpdateStrategy OnDelete None |>.

Definition prepareGracefulStatefulSet (st est : StatefulSet) (ga : GracefulAction) : StatefulSet :=
  let st := ensureOnDeleteStrategy st in
  match ga_Type ga with
  | GracefulActionScaleDown | GracefulActionDelete => st <| st_Replicas := st_Replicas est |>
  | _ => st
  end.

Definition normalizeGracefulStatefulSetForCompare (st : StatefulSet) : StatefulSet :=
  clearGracefulAction (st <| st_UpdateStrategy := emptyStrategy |>).

Definition gracefulStatefulSetControlEqual (new old : StatefulSet) : bool :=
  bool_decide (us_Type (st_UpdateStrategy new) = us_Type (st_UpdateStrategy old)) &&
  bool_decide (gracefulAnnotationValue new = gracefulAnnotationValue old).

Definition graceful_phase (t : GracefulActionType) (cur : Phase) : Phase :=
  match t with
  | GracefulActionRollingUpdate => GracefulRolling
  | GracefulActionScaleDown => GracefulScaling
  | GracefulActionDelete => GracefulDeleting
  | GracefulActionOther _ => cur
  end.

Section Graceful.
Context `{External}.

Definition backendIsShutdown (backend : Backend) : res bool :=
  if decide (be_Status backend = "") then Ok false
  else match Unmarshal_map (be_Status backend) with
       | None => Er (json_err (be_Status backend))
       | Some status =>
           match status !! "isShutdown" with
           | None => Ok false
           | Some (JBool shutdown) => Ok shutdown
           | Some raw => Er (errorsNew ("backend status isShutdown has unexpected type " +:+ json_type raw))
           end
       end.

(** The epoch and whether it is known; an unknown epoch is the empty text. *)
Definition backendProcessEpoch (backend : Backend) : string * bool :=
  if decide (be_Status backend = "") then ("", false)
  else match Unmarshal_map (be_Status backend) with
       | None => ("", false)
       | Some status =>
           match first_key status epoch_keys with
           | Some raw => (fmt_v fmt_float raw, true)
           | None => ("", false)
           end
       end.

Definition statefulSetSpecChanged (st est : StatefulSet) : bool :=
  let nst := RestrictConditionsEqual st est in
  negb (StatefulsetDeepEqualWithKey (normalizeGracefulStatefulSetForCompare nst)
          (normalizeGracefulStatefulSetForCompare est) DisaggregatedSpecHashValueAnnotation false).2.

Definition getBackendByPodName (cluster : Ddc) (cgStatus : ComputeGroupStatus) (podName : string)
  : op (res Backend) :=
  let! c := getMasterSqlClient cluster in
  match c with
  | Er err => Ret (Er err)
  | Ok sqlClient =>
      with_close sqlClient (
        let! r := GetBackendsByComputeGroupId fmt_float json_err sqlClient (cgs_ComputeGroupId cgStatus) in
        match r with
        | Er err => Ret (Er err)
        | Ok backends =>
            match List.find (fun b => backendMatchesPod b podName) backends with
            | Some backend => Ret (Ok backend)
            | None => Ret (Er (errorsNew ("backend for pod " +:+ podName +:+ " not found")))
            end
        end)
  end.

(** *** Selection of the next pod *)

Definition outdated (targetRevision : string) (pod : Pod) : bool :=
  negb (bool_decide (map_get (m_Labels (p_Meta pod)) POD_CONTROLLER_REVISION_HASH_KEY = targetRevision)).

(** A selector or a list call that fails is reported as no pod found. *)
Definition selectNextRollingUpdatePod (est : StatefulSet) (ga : GracefulAction) : op (option (string * Z)) :=
  let targetRevision :=
    if decide (ga_TargetRevision ga = "") then st_UpdateRevision est else ga_TargetRevision ga in
  match LabelSelectorAsSelector (st_Selector est) with
  | Some _ => Ret None
  | None =>
      let! r := call (CList KPod (st_Namespace est) (MatchingSelector (st_Selector est))) in
      match r with
      | Er _ => Ret None
      | Ok items =>
          match sort_desc (List.filter (outdated targetRevision) items) with
          | [] => Ret None
          | pod :: _ => Ret (Some (p_Name pod, int32 (extractOrdinal (p_Name pod))))
          end
      end
  end.

Definition selectNextPod (cgStatus : ComputeGroupStatus) (est : StatefulSet) (ga : GracefulAction)
  : op (option (string * Z)) :=
  let stsName := cgs_StatefulsetName cgStatus in
  match ga_Type ga with
  | GracefulActionRollingUpdate => selectNextRollingUpdatePod est ga
  | GracefulActionScaleDown =>
      match ga_DesiredReplicas ga with
      | None => Ret None
      | Some desiredReplicas =>
          deref (st_Replicas est) (fun currentReplicas =>
          if currentReplicas <=? desiredReplicas then Ret None
          else let ordinal := currentReplicas - 1 in
               Ret (Some (stsName +:+ "-" +:+ Itoa ordinal, ordinal)))
      end
  | GracefulActionDelete =>
      deref (st_Replicas est) (fun currentReplicas =>
      if currentReplicas <=? 0 then Ret None
      else let ordinal := currentReplicas - 1 in
           Ret (Some (stsName +:+ "-" +:+ Itoa ordinal, ordinal)))
  | GracefulActionOther _ => Ret None
  end.

Definition detectGracefulAction (st est : StatefulSet) (cgStatus : ComputeGroupStatus)
  : op (option GracefulAction) :=
  deref (st_Replicas st) (fun replicas =>
  deref (st_Replicas est) (fun existing =>
  if replicas <? existing then
    Ret (Some (zeroGA <| ga_Type := GracefulActionScaleDown |>
                      <| ga_Phase := GracefulPhaseTriggerDrain |>
                      <| ga_DesiredReplicas := Some replicas |>))
  else if statefulSetSpecChanged st est then
    Ret (Some (zeroGA <| ga_Type := GracefulActionRollingUpdate |>
                      <| ga_Phase := GracefulPhaseTriggerDrain |>))
  else if decide (st_UpdateRevision est <> "" /\ st_UpdateRevision est <> st_CurrentRevision est) then
    let recoverAction := zeroGA <| ga_Type := GracefulActionRollingUpdate |>
                                <| ga_Phase := GracefulPhaseTriggerDrain |>
                                <| ga_TargetRevision := st_UpdateRevision est |> in
    let! found := selectNextRollingUpdatePod est recoverAction in
    match found with
    | Some _ => Ret (Some recoverAction)
    | None => Ret None
    end
  else Ret None)).

(** *** The terminating sentinel *)

Definition nl : string := String (ascii_of_nat 10) "".
Definition sentinel_entrypoint : string := "/opt/apache-doris/be_disaggregated_entrypoint.sh".
Definition sentinel_probe : list string :=
  ["sh"; "-c";
   nl +:+ "test -f " +:+ sentinel_entrypoint +:+ " &&" +:+
   nl +:+ "grep -q " +:+ dquote +:+ "TERMINATING_SENTINEL_PATH" +:+ dquote +:+ " " +:+ sentinel_entrypoint +:+ " &&" +:+
   nl +:+ "grep -q " +:+ dquote +:+ "exit_if_terminating_sentinel_exists" +:+ dquote +:+ " " +:+ sentinel_entrypoint +:+ nl].

Definition supportsTerminatingSentinel (cluster : Ddc) (cgStatus : ComputeGroupStatus)
    (est : StatefulSet) (ga : GracefulAction) : op (bool * string) :=
  let! next := selectNextPod cgStatus est ga in
  match next with
  | None => Ret (true, "no pod needs graceful action")
  | Some (podName, _) =>
      let! '(stdout, stderr, err) :=
        ExecInPod (ddc_Namespace cluster) podName beMainContainerName sentinel_probe execTimeout in
      match err with
      | Some e =>
          Ret (false, "pod " +:+ podName +:+ " image does not support terminating sentinel, stdout=" +:+
                      Quote stdout +:+ " stderr=" +:+ Quote stderr +:+ " err=" +:+ err_msg e)
      | None => Ret (true, "")
      end
  end.

(** *** TriggerDrain *)

(** What is recorded of the pod and of its backend before the drain. *)
Definition record_generation (cluster : Ddc) (cgStatus : ComputeGroupStatus) (pod : Pod)
    (ga : GracefulAction) : op GracefulAction :=
  let ga := ga <| ga_InitialRestartCount := getContainerRestartCount pod beMainContainerName |>
               <| ga_InitialPodUID := p_UID pod |>
               <| ga_InitialContainerID := getContainerID pod beMainContainerName |>
               <| ga_RestartAnomalyDetected := false |> <| ga_SentinelWritten := false |>
               <| ga_ReplacementPodUID := "" |> <| ga_ReplacementContainerID := "" |>
               <| ga_ReplacementBackendStartTime := "" |> <| ga_ReplacementBackendEpoch := "" |>
               <| ga_StableBackendObservations := 0 |> in
  let! r := getBackendByPodName cluster cgStatus (ga_CurrentPod ga) in
  match r with
  | Ok backend =>
      let ga := ga <| ga_InitialBackendStartTime := backendLastStartTime backend |> in
      let '(epoch, ok) := backendProcessEpoch backend in
      Ret (if ok then ga <| ga_InitialBackendEpoch := epoch |> else ga)
  | Er _ => Ret (ga <| ga_InitialBackendStartTime := "" |> <| ga_InitialBackendEpoch := "" |>)
  end.

(** Writes the sentinel, then stops the backend; both may fail. *)
Definition drain_pod (cluster : Ddc) (ga : GracefulAction) : op GracefulAction :=
  let! '(_, _, sentinelErr) :=
    ExecInPod (ddc_Namespace cluster) (ga_CurrentPod ga) beMainContainerName
      ["sh"; "-c"; "mkdir -p " +:+ gracefulRuntimeMountPath +:+ " && touch " +:+ beTerminatingSentinelPath]
      execTimeout in
  let ga := match sentinelErr with Some _ => ga | None => ga <| ga_SentinelWritten := true |> end in
  let! '(_, _, execErr) :=
    ExecInPod (ddc_Namespace cluster) (ga_CurrentPod ga) beMainContainerName
      [stopBEGraceCommand; stopBEGraceArg] execTimeout in
  (match execErr with
   | Some e => call (REvent EventWarning "GracefulDrainExecFailed"
                 ("Failed to exec stop_be.sh --grace on pod " +:+ ga_CurrentPod ga +:+ ": " +:+ err_msg e))
   | None => Ret tt
   end) ;;;
  let ga := ga <| ga_DrainTriggered := true |>
               <| ga_LastMessage := "Drain triggered on pod " +:+ ga_CurrentPod ga |> in
  call (REvent EventNormal "GracefulDrainStarted" ("Triggered graceful drain on pod " +:+ ga_CurrentPod ga)) ;;;
  Ret ga.

(** The pod to drain: the current one, or the next one selected. *)
Inductive selection := SelWait (ga : GracefulAction) | SelNone (ga : GracefulAction) | SelPod (ga : GracefulAction).

Definition select_current (cgStatus : ComputeGroupStatus) (est : StatefulSet) (ga : GracefulAction)
  : op selection :=
  if decide (ga_CurrentPod ga = "") then
    let pick (ga : GracefulAction) :=
      let! next := selectNextPod cgStatus est ga in
      match next with
      | None => Ret (SelNone ga)
      | Some (podName, ordinal) =>
          Ret (SelPod (ga <| ga_CurrentPod := podName |> <| ga_CurrentOrdinal := ordinal |>
                          <| ga_DrainTriggered := false |>))
      end in
    if decide (ga_Type ga = GracefulActionRollingUpdate /\ ga_TargetRevision ga = "") then
      if decide (st_UpdateRevision est = "" \/ st_UpdateRevision est = st_CurrentRevision est) then
        Ret (SelWait (ga <| ga_LastMessage := "Waiting for StatefulSet " +:+ st_Namespace est +:+ "/" +:+
                              st_Name est +:+ " update revision to be ready" |>))
      else pick (ga <| ga_TargetRevision := st_UpdateRevision est |>)
    else pick ga
  else Ret (SelPod ga).

Definition handleTriggerDrain (cluster : Ddc) (cgStatus : ComputeGroupStatus) (est : StatefulSet)
    (ga : GracefulAction) : op (GracefulAction * option goerr) :=
  let ga := refreshRollingUpdateTargetRevision est ga in
  let! sel := select_current cgStatus est ga in
  match sel with
  | SelWait ga => Ret (ga, None)
  | SelNone ga => Ret (ga <| ga_Phase := GracefulPhaseDone |>, None)
  | SelPod ga =>
      let! got := getPod (ddc_Namespace cluster) (ga_CurrentPod ga) in
      match got with
      | Er err =>
          if IsNotFound err then
            Ret (if decide (ga_Type ga = GracefulActionRollingUpdate)
                 then ga <| ga_Phase := GracefulPhaseWaitPodReady |>
                 else advanceToNextPod ga, None)
          else Ret (ga, Some (wrapErr ("failed to get pod " +:+ ga_CurrentPod ga +:+ ": ") err))
      | Ok pod =>
          let! ga := record_generation cluster cgStatus pod ga in
          let drainTimeout := match p_TerminationGracePeriodSeconds pod with
                              | Some t => t
                              | None => DEFAULT_BE_TERMINATION_GRACE_PERIOD_SECONDS
                              end in
          let! now := call TimeNow in
          let ga := ga <| ga_StartedAt := now |>
                       <| ga_DeadlineAt := now + int64 (drainTimeout * Second) |> in
          let! ga := (if ga_DrainTriggered ga then Ret ga else drain_pod cluster ga) in
          Ret (ga <| ga_Phase := GracefulPhaseWaitDrain |>, None)
      end
  end.

(** *** WaitDrain *)

Definition handleWaitDrain (cluster : Ddc) (ga : GracefulAction) : op (GracefulAction * option goerr) :=
  let! got := getPod (ddc_Namespace cluster) (ga_CurrentPod ga) in
  match got with
  | Er err =>
      if IsNotFound err then
        Ret (if decide (ga_Type ga = GracefulActionRollingUpdate)
             then (resetGracefulPhaseTimer ga) <| ga_Phase := GracefulPhaseWaitPodReady |>
             else advanceToNextPod ga, None)
      else Ret (ga, Some err)
  | Ok pod =>
      let currentRestartCount := getContainerRestartCount pod beMainContainerName in
      if isContainerTerminated pod beMainContainerName then
        call (REvent EventNormal "GracefulDrainCompleted"
          ("Graceful drain completed on pod " +:+ ga_CurrentPod ga +:+ " (container exited)")) ;;;
        Ret (ga <| ga_Phase := GracefulPhaseDeletePod |>, None)
      else if ga_InitialRestartCount ga <? currentRestartCount then
        call (REvent EventNormal "GracefulDrainCompleted"
          ("Graceful drain completed on pod " +:+ ga_CurrentPod ga +:+
           " (container restarted by kubelet, restartCount " +:+ Itoa (ga_InitialRestartCount ga) +:+
           " -> " +:+ Itoa currentRestartCount +:+ ")")) ;;;
        Ret (ga <| ga_RestartAnomalyDetected := true |> <| ga_Phase := GracefulPhaseDeletePod |>, None)
      else
        let! now := call TimeNow in
        if ga_DeadlineAt ga <? now then
          call (REvent EventWarning "GracefulDrainTimeout"
            ("Graceful drain timeout on pod " +:+ ga_CurrentPod ga +:+ ", continuing with deletion")) ;;;
          Ret (ga <| ga_Phase := GracefulPhaseDeletePod |>
                  <| ga_LastMessage := "Drain timeout reached for pod " +:+ ga_CurrentPod ga |>, None)
        else
          Ret (ga <| ga_LastMessage := "Waiting for BE container to exit on pod " +:+ ga_CurrentPod ga +:+
                       " (deadline: " +:+ local_rfc3339 (ga_DeadlineAt ga) +:+ ")" |>, None)
  end.

(** *** DeletePod *)

Definition updateStatefulSetReplicas (est : StatefulSet) (replicas : Z) : op unit :=
  let! got := call (CGet KSts (st_Namespace est) (st_Name est)) in
  match got with
  | Er _ => Ret tt
  | Ok current =>
      deref (st_Replicas current) (fun r =>
      if r =? replicas then Ret tt
      else let! _ := call (CUpdate KSts (current <| st_Replicas := Some replicas |>)) in Ret tt)
  end.

Definition afterPodDeleted (est : StatefulSet) (ga : GracefulAction) : op GracefulAction :=
  match ga_Type ga with
  | GracefulActionRollingUpdate =>
      Ret ((resetGracefulPhaseTimer ga) <| ga_Phase := GracefulPhaseWaitPodReady |>)
  | GracefulActionScaleDown | GracefulActionDelete =>
      updateStatefulSetReplicas est (ga_CurrentOrdinal ga) ;;;
      Ret (advanceToNextPod ga)
  | GracefulActionOther _ => Ret ga
  end.

Definition handleDeletePod (cluster : Ddc) (est : StatefulSet) (ga : GracefulAction)
  : op (GracefulAction * option goerr) :=
  let! got := getPod (ddc_Namespace cluster) (ga_CurrentPod ga) in
  match got with
  | Er err =>
      if IsNotFound err then let! ga := afterPodDeleted est ga in Ret (ga, None)
      else Ret (ga, Some err)
  | Ok pod =>
      let! derr := call (CDelete KPod pod) in
      match derr with
      | Some err =>
          if IsNotFound err then let! ga := afterPodDeleted est ga in Ret (ga, None)
          else Ret (ga, Some (wrapErr ("failed to delete pod " +:+ ga_CurrentPod ga +:+ ": ") err))
      | None =>
          call (REvent EventNormal "GracefulPodDeleted"
            ("Deleted pod " +:+ ga_CurrentPod ga +:+ " during graceful " +:+ action_type_string (ga_Type ga))) ;;;
          let! ga := afterPodDeleted est ga in
          Ret (ga, None)
      end
  end.

(** *** WaitPodReady *)

Definition replacementTimeout : Z := waitPodReadyTimeoutFactor * DEFAULT_BE_TERMINATION_GRACE_PERIOD_SECONDS * Second.
Definition aliveTimeout : Z := waitBEAliveTimeoutFactor * DEFAULT_BE_TERMINATION_GRACE_PERIOD_SECONDS * Second.

(** Starts the timer of a phase, [timeout] from now. *)
Definition start_timer (timeout : Z) (ga : GracefulAction) : op GracefulAction :=
  let! now := call TimeNow in
  Ret (ga <| ga_StartedAt := now |> <| ga_DeadlineAt := now + timeout |>).

Definition ensure_timer (timeout : Z) (ga : GracefulAction) : op GracefulAction :=
  if decide (ga_DeadlineAt ga = 0) then start_timer timeout ga else Ret ga.

(** Past the deadline the wait is announced and extended, else it goes on. *)
Definition wait_replacement (what : string) (ga : GracefulAction) : op (GracefulAction * option goerr) :=
  let! now := call TimeNow in
  if ga_DeadlineAt ga <? now then
    let msg := "Timed out waiting for replacement pod " +:+ ga_CurrentPod ga +:+ " to " +:+ what +:+
               ", continuing to wait" in
    call (REvent EventWarning "GracefulReplacementReady" msg) ;;;
    let! ga := start_timer replacementTimeout ga in
    Ret (ga <| ga_LastMessage := msg |>, None)
  else
    Ret (ga <| ga_LastMessage := "Waiting for replacement pod " +:+ ga_CurrentPod ga +:+ " to " +:+ what |>, None).

Definition handleWaitPodReady (cluster : Ddc) (ga : GracefulAction) : op (GracefulAction * option goerr) :=
  let! ga := ensure_timer replacementTimeout ga in
  let! got := getPod (ddc_Namespace cluster) (ga_CurrentPod ga) in
  match got with
  | Er err => if IsNotFound err then wait_replacement "be created" ga else Ret (ga, Some err)
  | Ok pod =>
      if PodIsReady (p_Status pod) then
        let ga := ga <| ga_ReplacementPodUID := p_UID pod |>
                     <| ga_ReplacementContainerID := getContainerID pod beMainContainerName |> in
        call (REvent EventNormal "GracefulReplacementReady"
          ("Replacement pod " +:+ ga_CurrentPod ga +:+ " is ready")) ;;;
        Ret ((resetGracefulPhaseTimer ga) <| ga_Phase := GracefulPhaseWaitBEAlive |>, None)
      else wait_replacement "become ready" ga
  end.

(** *** WaitBEAlive *)

(** Past the deadline the rollout goes on; [advanceToNextPod] also clears the
    message that announced it. *)
Definition force_or_wait (timeout_msg wait_msg : string) (ga : GracefulAction)
  : op (GracefulAction * option goerr) :=
  let! now := (if decide (ga_DeadlineAt ga = 0) then Ret 0 else call TimeNow) in
  if negb (bool_decide (ga_DeadlineAt ga = 0)) && (ga_DeadlineAt ga <? now) then
    Ret (advanceToNextPod (ga <| ga_LastMessage := timeout_msg |>), None)
  else Ret (ga <| ga_LastMessage := wait_msg |>, None).

Definition acceptStartTime (ga : GracefulAction) (backend : Backend) : bool :=
  let currentStartTime := backendLastStartTime backend in
  negb (bool_decide (currentStartTime = "")) &&
  negb (bool_decide (currentStartTime = ga_InitialBackendStartTime ga)).

Definition acceptEpoch (ga : GracefulAction) (backend : Backend) : bool :=
  let '(currentEpoch, currentEpochKnown) := backendProcessEpoch backend in
  if negb (bool_decide (ga_InitialBackendEpoch ga = "")) && currentEpochKnown
  then negb (bool_decide (currentEpoch = ga_InitialBackendEpoch ga)) else true.

(** The reason that is logged for a generation that was not accepted. *)
Definition rejectReason (ga : GracefulAction) (backend : Backend) (shutdown : bool) : string :=
  let currentStartTime := backendLastStartTime backend in
  let '(currentEpoch, currentEpochKnown) := backendProcessEpoch backend in
  if negb (be_Alive backend) then "alive=false"
  else if shutdown then "shutdown=true"
  else if bool_decide (currentStartTime = "") then "startTime empty"
  else if bool_decide (currentStartTime = ga_InitialBackendStartTime ga) then "startTime unchanged"
  else if negb (bool_decide (ga_InitialBackendEpoch ga = "")) && currentEpochKnown &&
          bool_decide (currentEpoch = ga_InitialBackendEpoch ga) then "epoch unchanged"
  else if negb (bool_decide (ga_InitialBackendEpoch ga = "")) && negb currentEpochKnown then "epoch unknown"
  else "unknown".

(** Counts consecutive observations of one candidate generation. *)
Definition observe (ga : GracefulAction) (currentStartTime currentEpoch : string) : GracefulAction :=
  if decide (ga_ReplacementBackendStartTime ga <> currentStartTime \/
             ga_ReplacementBackendEpoch ga <> currentEpoch)
  then ga <| ga_ReplacementBackendStartTime := currentStartTime |>
          <| ga_ReplacementBackendEpoch := currentEpoch |>
          <| ga_StableBackendObservations := 1 |>
  else ga <| ga_StableBackendObservations := int32 (ga_StableBackendObservations ga + 1) |>.

Definition handleWaitBEAlive (cluster : Ddc) (cgStatus : ComputeGroupStatus) (ga : GracefulAction)
  : op (GracefulAction * option goerr) :=
  let! ga := ensure_timer aliveTimeout ga in
  let! found := getBackendByPodName cluster cgStatus (ga_CurrentPod ga) in
  match found with
  | Er err =>
      force_or_wait ("Timed out waiting for backend " +:+ ga_CurrentPod ga +:+ " to appear in FE, forcing advance")
        ("Waiting for backend " +:+ ga_CurrentPod ga +:+ " to appear in FE: " +:+ err_msg err) ga
  | Ok backend =>
      match backendIsShutdown backend with
      | Er err =>
          force_or_wait ("Timed out waiting for backend " +:+ ga_CurrentPod ga +:+ " status to become parseable, forcing advance")
            ("Waiting for backend " +:+ ga_CurrentPod ga +:+ " status to be parseable: " +:+ err_msg err) ga
      | Ok shutdown =>
          let currentStartTime := backendLastStartTime backend in
          let currentEpoch := (backendProcessEpoch backend).1 in
          let generation :=
            " oldStartTime=" +:+ ga_InitialBackendStartTime ga +:+ " newStartTime=" +:+ currentStartTime +:+
            " oldEpoch=" +:+ ga_InitialBackendEpoch ga +:+ " newEpoch=" +:+ currentEpoch in
          if be_Alive backend && negb shutdown && acceptStartTime ga backend && acceptEpoch ga backend then
            let ga := observe ga currentStartTime currentEpoch in
            if requiredStableBackendObservations <=? ga_StableBackendObservations ga then
              call (REvent EventNormal "GracefulReplacementReady"
                ("Backend " +:+ ga_CurrentPod ga +:+ " is alive in FE with new generation")) ;;;
              Ret (advanceToNextPod ga, None)
            else
              Ret (ga <| ga_LastMessage :=
                "Waiting for backend " +:+ ga_CurrentPod ga +:+ " new generation to stabilize in FE (alive=" +:+
                fmt_bool (be_Alive backend) +:+ " shutdown=" +:+ fmt_bool shutdown +:+ generation +:+
                " stableObservations=" +:+ Itoa (ga_StableBackendObservations ga) +:+ "/" +:+
                Itoa requiredStableBackendObservations +:+ ")" |>, None)
          else
            let failures := " heartbeatFailures=" +:+ Itoa (be_HeartbeatFailureCounter backend) +:+
                            " err=" +:+ be_ErrMsg backend in
            let alive := "(alive=" +:+ fmt_bool (be_Alive backend) +:+ " shutdown=" +:+ fmt_bool shutdown in
            force_or_wait
              ("Timed out waiting for backend " +:+ ga_CurrentPod ga +:+ " to become alive in FE " +:+ alive +:+
               failures +:+ "), forcing advance")
              ("Waiting for backend " +:+ ga_CurrentPod ga +:+ " to become alive in FE with new generation " +:+ alive +:+
               " oldStartTime=" +:+ ga_InitialBackendStartTime ga +:+ " currentStartTime=" +:+ currentStartTime +:+
               " oldEpoch=" +:+ ga_InitialBackendEpoch ga +:+ " currentEpoch=" +:+ currentEpoch +:+ failures +:+ ")") ga
      end
  end.

(** ** The state machine and the reconcile entry point *)

Definition runGracefulStateMachine (cluster : Ddc) (cgStatus : ComputeGroupStatus) (est : StatefulSet)
    (ga : GracefulAction) : op (GracefulAction * option goerr) :=
  match ga_Phase ga with
  | GracefulPhaseTriggerDrain => handleTriggerDrain cluster cgStatus est ga
  | GracefulPhaseWaitDrain => handleWaitDrain cluster ga
  | GracefulPhaseDeletePod => handleDeletePod cluster est ga
  | GracefulPhaseWaitPodReady => handleWaitPodReady cluster ga
  | GracefulPhaseWaitBEAlive => handleWaitBEAlive cluster cgStatus ga
  | GracefulPhaseDone | GracefulPhaseFailed => Ret (ga, None)
  | GracefulPhaseOther s => Ret (ga, Some (errorsNew ("unknown graceful action phase: " +:+ s)))
  end.

Definition shouldFinalizeGracefulAction (est : StatefulSet) (ga : GracefulAction) : op bool :=
  match ga_Type ga with
  | GracefulActionRollingUpdate =>
      let! found := selectNextRollingUpdatePod est ga in
      Ret (match found with Some _ => false | None => true end)
  | _ => Ret true
  end.

Definition finalize_patch : string :=
  "{" +:+ dquote +:+ "metadata" +:+ dquote +:+ ":{" +:+ dquote +:+ "annotations" +:+ dquote +:+ ":{" +:+
  dquote +:+ gracefulActionAnnotation +:+ dquote +:+ ":null}}}".

Definition finalizeGracefulAction (st : StatefulSet) : op (StatefulSet * option goerr) :=
  let! err := call (CPatchRaw KSts (st_Namespace st) (st_Name st) finalize_patch) in
  match err with
  | Some e => Ret (st, Some (wrapErr ("failed to finalize graceful action for statefulset " +:+
                   st_Namespace st +:+ "/" +:+ st_Name st +:+ ": ") e))
  | None => Ret (clearGracefulAction (ensureOnDeleteStrategy st), None)
  end.

(** The StatefulSet and the status as the reconcile leaves them, whether the
    caller is told that an action is under way, and the error. *)
Definition rollout_result : Type := StatefulSet * ComputeGroupStatus * bool * option goerr.

(** Stores the action on the StatefulSet that is going to be applied. *)
Definition hold (st est : StatefulSet) (ga : GracefulAction) : StatefulSet :=
  setGracefulAction (prepareGracefulStatefulSet st est ga) ga.

Definition start_graceful (st est : StatefulSet) (cluster : Ddc) (cg : ComputeGroup)
    (cgStatus : ComputeGroupStatus) (action : GracefulAction) : op rollout_result :=
  let ty := action_type_string (ga_Type action) in
  let! '(supported, reason) := supportsTerminatingSentinel cluster cgStatus est action in
  if supported : bool then
    call (REvent EventNormal "GracefulDrainStarted"
      ("Starting graceful " +:+ ty +:+ " for compute group " +:+ UniqueId cg)) ;;;
    Ret (hold st est action, cgStatus <| cgs_Phase := graceful_phase (ga_Type action) (cgs_Phase cgStatus) |>,
         true, None)
  else
    call (REvent EventWarning "GracefulActionDisabled"
      ("Graceful " +:+ ty +:+ " disabled for compute group " +:+ UniqueId cg +:+ ": " +:+ reason)) ;;;
    Ret (st, cgStatus, false, None).

(** The stored action, unless a detected one of higher priority replaces it. *)
Definition preferred (detected : option GracefulAction) (stored : GracefulAction) : GracefulAction :=
  match detected with
  | Some action =>
      if decide (ga_Type action <> ga_Type stored) then
        if gracefulActionPriority (ga_Type stored) <? gracefulActionPriority (ga_Type action)
        then action else stored
      else stored
  | None => stored
  end.

Definition finish_graceful (st est : StatefulSet) (cluster : Ddc) (cg : ComputeGroup)
    (cgStatus : ComputeGroupStatus) (ga : GracefulAction) : op rollout_result :=
  let! finished := shouldFinalizeGracefulAction est ga in
  if finished : bool then
    call (REvent EventNormal "GracefulActionCompleted"
      ("Graceful " +:+ action_type_string (ga_Type ga) +:+ " completed for compute group " +:+ UniqueId cg)) ;;;
    let cgStatus := cgStatus <| cgs_Phase := Reconciling |> in
    let! '(st, err) := finalizeGracefulAction st in
    Ret (st, cgStatus, match err with Some _ => true | None => false end, err)
  else
    let ga := ga <| ga_LastMessage :=
      "Waiting for StatefulSet " +:+ st_Namespace est +:+ "/" +:+ st_Name est +:+
      " outdated pods to be fully drained before finalizing graceful action (currentRevision=" +:+
      st_CurrentRevision est +:+ " updateRevision=" +:+ st_UpdateRevision est +:+ ")" |> in
    Ret (hold st est ga, cgStatus, true, None).

Definition gracefulRolloutReconcile (st est : StatefulSet) (cluster : Ddc) (cg : ComputeGroup)
    (cgStatus : ComputeGroupStatus) : op rollout_result :=
  let cgStatus := cgStatus <| cgs_GracefulAction := None |> in
  let! action := detectGracefulAction st est cgStatus in
  match getGracefulAction est with
  | Er err => Ret (st, cgStatus, true, Some err)
  | Ok None =>
      match action with
      | None => Ret (st, cgStatus, false, None)
      | Some action => start_graceful st est cluster cg cgStatus action
      end
  | Ok (Some storedAction) =>
      let ga := preferred action storedAction in
      let cgStatus := cgStatus <| cgs_Phase := graceful_phase (ga_Type ga) (cgs_Phase cgStatus) |> in
      let ga := refreshRollingUpdateTargetRevision est ga in
      let! '(ga, err) := runGracefulStateMachine cluster cgStatus est ga in
      match err with
      | Some e => Ret (st, cgStatus, true, Some e)
      | None =>
          if decide (ga_Phase ga = GracefulPhaseDone)
          then finish_graceful st est cluster cg cgStatus ga
          else Ret (hold st est ga, cgStatus, true, None)
      end
  end.
End Graceful.
