(* ===== verification/ComputeGroups.v ===== *)
(** The compute group controller ([computegroups/controller.go], [util.go],
    [service.go] and the StatefulSet head of [statefulset.go]): validation of
    the groups, their services and StatefulSets, the removal of what a deleted
    or shrunk group leaves behind, and the status of the groups.

    The pod template builder ([NewPodTemplateSpec] of [statefulset.go]) is an
    argument of the definitions that use it; [DdcPods] has the code's.  A controller that updates the
    cluster object it is given returns the updated object. *)

From Stdlib Require Import ZArith Lia Ascii.
From stdpp Require Import base list gmap strings.
From S2P Require Import Prelude GoStr Regex Json KubeTypes DdcApi Client Mysql Resource External SubDefault.
From S2P Require Import PrepareModify GracefulCodec Graceful.

Local Open Scope string_scope.
Local Open Scope Z_scope.
Local Open Scope dop_scope.

(** ** util.go *)

Definition compute_group_name_regex : string := "[a-zA-Z](_?[0-9a-zA-Z])*".

(** The expression that text denotes. *)
Definition letters : list (Z * Z) := [(97, 122); (65, 90)].
Definition compute_group_name_re : regex :=
  RSeq (RClass letters) (RStar (RSeq (ROpt (RClass [(95, 95)])) (RClass ((48, 57) :: letters)))).

Definition ownerReference2ddc (ors : list OwnerReference) (cluster : Ddc) : bool :=
  existsb (fun r => bool_decide (or_Name r = ddc_Name cluster /\ or_UID r = m_UID (ddc_Meta cluster))) ors.

Definition getUniqueIdFromClientObject (meta : ObjectMeta) : string :=
  map_get (m_Labels meta) DorisDisaggregatedComputeGroupUniqueId.

(** ** Labels and selectors *)

Definition GetCG2LayerCommonSchedulerLabels (ddcName : string) : strmap :=
  <[DorisDisaggregatedClusterName := ddcName]> {[DorisDisaggregatedOwnerReference := ddcName]}.

Definition newCG2LayerSchedulerLabels (ddcName uniqueId : string) : strmap :=
  <[DorisDisaggregatedComputeGroupUniqueId := uniqueId]> (GetCG2LayerCommonSchedulerLabels ddcName).

Definition newCGPodsSelector (ddcName uniqueId : string) : strmap :=
  <[DorisDisaggregatedClusterName := ddcName]>
  (<[DorisDisaggregatedComputeGroupUniqueId := uniqueId]> {[DorisDisaggregatedPodType := "compute"]}).

(** ** service.go *)

Definition newInternalService (ddc : Ddc) (cg : ComputeGroup) (cvs : config) : option Service :=
  let uniqueId := UniqueId cg in
  heartbeatPort ← GetPort cvs HEARTBEAT_SERVICE_PORT;
  Some (emptySvc
    <| svc_Meta := emptyMeta
         <| m_Name := GetCGServiceName ddc cg |>
         <| m_Namespace := ddc_Namespace ddc |>
         <| m_Labels := <[ServiceRoleForCluster := "internal"]> (newCG2LayerSchedulerLabels (ddc_Name ddc) uniqueId) |>
         <| m_OwnerReferences := [GetDdcOwnerReference ddc] |> |>
    <| svc_ClusterIP := "None" |>
    <| svc_Ports := [port_of HEARTBEAT_SERVICE_PORT heartbeatPort] |>
    <| svc_Selector := newCGPodsSelector (ddc_Name ddc) uniqueId |>
    <| svc_PublishNotReadyAddresses := true |>).

Definition newComputeServicePorts (cvs : config) (svcConf : option ExportService) : option (list ServicePort) :=
  bePort ← GetPort cvs BE_PORT;
  webserverPort ← GetPort cvs WEBSERVER_PORT;
  heartbeatPort ← GetPort cvs HEARTBEAT_SERVICE_PORT;
  brpcPort ← GetPort cvs BRPC_PORT;
  arrowFlightPort ← GetPort cvs ARROW_FLIGHT_SQL_PORT;
  let sps := [port_of BE_PORT bePort; port_of WEBSERVER_PORT webserverPort;
              port_of HEARTBEAT_SERVICE_PORT heartbeatPort; port_of BRPC_PORT brpcPort] in
  let sps := if decide (arrowFlightPort <> -1) then app sps [port_of ARROW_FLIGHT_SQL_PORT arrowFlightPort] else sps in
  Some match svcConf with
       | Some conf => if decide (es_Type conf = "NodePort") then map (set_node_port (es_PortMaps conf)) sps else sps
       | None => sps
       end.

Section ComputeGroups.
Context `{External}.
(** [NewPodTemplateSpec] of [statefulset.go]; it writes into the group. *)
Context (NewPodTemplateSpec : Ddc -> strmap -> config -> ComputeGroup -> op (ComputeGroup * PodTemplateSpec)).

Definition newExternalService (ddc : Ddc) (cg : ComputeGroup) (cvs : config) : option Service :=
  let uniqueId := UniqueId cg in
  let svcConf := ServiceSpec (cg_Common cg) in
  sps ← newComputeServicePorts cvs svcConf;
  let svc := NewDefaultService ddc in
  let svc := svc <| svc_Meta := (svc_Meta svc)
                      <| m_Name := GetCGExternalServiceName ddc cg |>
                      <| m_Labels := newCG2LayerSchedulerLabels (ddc_Name ddc) uniqueId |> |>
                 <| svc_Selector := newCGPodsSelector (ddc_Name ddc) uniqueId |>
                 <| svc_Ports := sps |> in
  let svc := match svcConf with
             | Some conf =>
                 let svc := if decide (es_Type conf <> "") then svc <| svc_Type := es_Type conf |> else svc in
                 set_svc_Annotations (es_Annotations conf) svc
             | None => svc
             end in
  Some (if decide (svc_Type svc = "LoadBalancer") then svc <| svc_SessionAffinity := "None" |> else svc).

(** ** statefulset.go *)

(** The labels map is shared: adding the user's labels to the template also
    adds them to the selector. *)
Definition NewStatefulset (ddc : Ddc) (cg : ComputeGroup) (cvs : config) : op (ComputeGroup * StatefulSet) :=
  let matchLabels := newCGPodsSelector (ddc_Name ddc) (UniqueId cg) in
  assert_ok (BuildVolumesVolumeMountsAndPVCs cvs DisaggregatedBE (cg_Common cg)) (fun '(_, _, vcts) =>
  let! '(cg, pts) := NewPodTemplateSpec ddc matchLabels cvs cg in
  let st := NewDefaultStatefulset ddc in
  Ret (cg, st <| st_Meta := (st_Meta st)
               <| m_Name := GetCGStatefulsetName ddc cg |>
               <| m_Labels := newCG2LayerSchedulerLabels (ddc_Name ddc) (UniqueId cg) |> |>
          <| st_Selector := Some (mkLabelSelector (AddLabel matchLabels (CommonLabels (cg_Common cg))) []) |>
          <| st_Replicas := cg_Replicas cg |>
          <| st_VolumeClaimTemplates := vcts |>
          <| st_ServiceName := GetCGServiceName ddc cg |>
          <| st_Template := pts |>)).

Definition useNewDefaultValuesInStatefulset (st : StatefulSet) : StatefulSet :=
  st <| st_Template := UseNewDefaultInitContainerImage (st_Template st) |>.

(** ** Validation *)

Definition validateDuplicated (cgs : list ComputeGroup) : string :=
  (foldl (fun '(dupl, uniqueIds) cg =>
     (if set_Find uniqueIds (UniqueId cg) then dupl +:+ UniqueId cg +:+ ";" else dupl,
      set_Add uniqueIds (UniqueId cg))) ("", NewSetString []) cgs).1.

Definition validateRegex (cgs : list ComputeGroup) : string * bool :=
  let regStr := foldl (fun regStr cg =>
    if search compute_group_name_re (UniqueId cg) then regStr
    else regStr +:+ UniqueId cg +:+ " not match " +:+ compute_group_name_regex) "" cgs in
  if decide (regStr <> "") then (regStr, false) else ("", true).

Definition validateComputeGroup (cgs : list ComputeGroup) : option SubEvent * bool :=
  let dupl := validateDuplicated cgs in
  if decide (dupl <> "") then
    (Some (mkSubEvent EventWarning "CGUniqueIdentifierDuplicate"
       ("unique identifier " +:+ dupl +:+ " duplicate in compute groups.")), false)
  else
    let '(reg, res) := validateRegex cgs in
    if res then (None, true)
    else (Some (mkSubEvent EventWarning "CGUniqueIdentifierNotMatchRegex" reg), false).

Definition feAvailable (ddc : Ddc) : op bool :=
  endpoints_available (ddc_Namespace ddc) (GetFEServiceName ddc).

(** ** Services and StatefulSets *)

Definition error_of (r : option step_error) : option goerr :=
  match r with Some (_, e) => Some e | None => None end.

Definition reconcileInternalService (svc : Service) : op (option goerr) :=
  let! got := call (CGet KSvc (svc_Namespace svc) (svc_Name svc)) in
  match got with
  | Er err => if IsNotFound err then CreateClientObject KSvc svc else Ret (Some err)
  | Ok existingSvc =>
      if decide (svc_ClusterIP existingSvc = "None") then
        let! r := DefaultReconcileService svc in Ret (error_of r)
      else
        let! derr := DeleteService (svc_Namespace svc) (svc_Name svc) in
        match derr with
        | Some e => Ret (Some e)
        | None => CreateClientObject KSvc svc
        end
  end.

Definition normalizeVolumeClaimTemplate (pvc : PersistentVolumeClaim) : PersistentVolumeClaim :=
  let spec := pvc_Spec pvc in
  mkPVC "" ""
    (emptyMeta <| m_Name := pvc_Name pvc |>
               <| m_Labels := m_Labels (pvc_Meta pvc) |>
               <| m_Annotations := m_Annotations (pvc_Meta pvc) |>)
    (match pvs_VolumeMode spec with
     | None => spec <| pvs_VolumeMode := Some "Filesystem" |>
     | Some _ => spec
     end) "".

Definition volumeClaimTemplatesEqual (new old : list PersistentVolumeClaim) : bool :=
  bool_decide (length new = length old) &&
  bool_decide (map normalizeVolumeClaimTemplate new = map normalizeVolumeClaimTemplate old).

(** The new StatefulSet with its hash recorded, and the verdict. *)
Definition businessStatefulSetEqual (new est : StatefulSet) : StatefulSet * bool :=
  let '(nst, equal) := StatefulsetDeepEqualWithKey (normalizeGracefulStatefulSetForCompare new)
    (normalizeGracefulStatefulSetForCompare est) DisaggregatedSpecHashValueAnnotation false in
  let hashValue := map_get (st_Annotations nst) DisaggregatedSpecHashValueAnnotation in
  (if decide (hashValue <> "")
   then set_sts_Annotations (<[DisaggregatedSpecHashValueAnnotation := hashValue]> (st_Annotations new)) new
   else new, equal).

Definition rolling_update_patch : string :=
  "{" +:+ dquote +:+ "spec" +:+ dquote +:+ ":{" +:+ dquote +:+ "updateStrategy" +:+ dquote +:+ ":{" +:+
  dquote +:+ "rollingUpdate" +:+ dquote +:+ ":null}}}".

Definition clearStatefulSetRollingUpdate (namespace name : string) : op unit :=
  let! _ := call (CPatchRaw KSts namespace name rolling_update_patch) in Ret tt.

(** The comparison of the update path: it records the generation on the
    StatefulSet and the update on the cluster. *)
Definition apply_equal (cg : ComputeGroup) (new est : StatefulSet) (cluster : Ddc)
  : StatefulSet * Ddc * bool :=
  let new := RestrictConditionsEqual new est in
  let '(new, businessEqual) := businessStatefulSetEqual new est in
  let '(new, cluster) :=
    if businessEqual then (new, cluster)
    else record_update (GetCGStatefulsetName cluster cg) new cluster in
  (new, cluster, businessEqual && gracefulStatefulSetControlEqual new est).

Definition ndf (st : StatefulSet) (_ : option StatefulSet) : StatefulSet := useNewDefaultValuesInStatefulset st.

(** The end of [reconcileStatefulset]: apply what the graceful step left. *)
Definition apply_statefulset (st : StatefulSet) (cluster : Ddc) (cg : ComputeGroup)
  : op (Ddc * option step_error) :=
  (if decide (us_Type (st_UpdateStrategy st) = OnDelete)
   then clearStatefulSetRollingUpdate (st_Namespace st) (st_Name st) else Ret tt) ;;;
  let! '(cluster, err) := ApplyStatefulSet st cluster (apply_equal cg) [ndf] in
  Ret (cluster, match err with
                | Some e => Some (Some (mkSubEvent EventWarning "CGApplyResourceFailed" (err_msg e)), e)
                | None => None
                end).

(** [restConfig]: the controller was given a REST configuration. *)
Definition graceful_step (restConfig : bool) (st est : StatefulSet) (cluster : Ddc) (cg : ComputeGroup)
  : op (StatefulSet * Ddc) :=
  match (if restConfig then find_cg_status (UniqueId cg) (ComputeGroupStatuses (ddc_Status cluster)) else None) with
  | None => Ret (st, cluster)
  | Some (i, cgStatus) =>
      let! '(st, cgStatus, skipApply, _) := gracefulRolloutReconcile st est cluster cg cgStatus in
      Ret (if skipApply : bool then ensureOnDeleteStrategy st else st, set_cg_status i cgStatus cluster)
  end.

Definition immutable_storage_msg (cg : ComputeGroup) : string :=
  "compute group " +:+ UniqueId cg +:+ " storage template is immutable after creation; modifying BE file_cache_path or persistent volume settings requires recreating the compute group".

Definition reconcileStatefulset (restConfig : bool) (st : StatefulSet) (cluster : Ddc) (cg : ComputeGroup)
  : op (Ddc * option step_error) :=
  let! got := call (CGet KSts (st_Namespace st) (st_Name st)) in
  match got with
  | Er err =>
      if IsNotFound err then
        let! '(_, aerr) := ApplyStatefulSet st tt (fun new est _ =>
          let '(new, eq) := StatefulsetDeepEqualWithKey (RestrictConditionsEqual new est) est
                              DisaggregatedSpecHashValueAnnotation false in
          (new, tt, eq)) [ndf] in
        Ret (cluster, match aerr with
                      | Some e => Some (Some (mkSubEvent EventWarning "CGCreateResourceFailed" (err_msg e)), e)
                      | None => None
                      end)
      else Ret (cluster, Some (None, err))
  | Ok est =>
      if volumeClaimTemplatesEqual (st_VolumeClaimTemplates st) (st_VolumeClaimTemplates est) then
        let! '(cluster, perr) := preApplyStatefulSet st est cluster cg in
        match perr with
        | Some e => Ret (cluster, Some (Some (mkSubEvent EventWarning "CGSqlExecFailed" (err_msg e)), e))
        | None =>
            let! skip := skipApplyStatefulset cluster cg in
            if skip : bool then Ret (cluster, None)
            else
              let! '(st, cluster) := graceful_step restConfig st est cluster cg in
              apply_statefulset st cluster cg
        end
      else
        Ret (cluster, Some (Some (mkSubEvent EventWarning "CGStorageTemplateImmutable" (immutable_storage_msg cg)),
                            errorsNew (immutable_storage_msg cg)))
  end.

(** ** Sync *)

Definition initialCGStatus (ddc : Ddc) (cg : ComputeGroup) : op Ddc :=
  deref (cg_Replicas cg) (fun replicas =>
  match find_cg_status (UniqueId cg) (ComputeGroupStatuses (ddc_Status ddc)) with
  | Some (i, c) => Ret (set_cg_status i (c <| cgs_Replicas := replicas |>) ddc)
  | None =>
      let defaultStatus := mkCGStatus Reconciling (GetCGStatefulsetName ddc cg) (GetCGServiceName ddc cg)
                             (UniqueId cg) "" replicas 0 None in
      Ret (ddc <| ddc_Status := (ddc_Status ddc) <| ComputeGroupStatuses :=
             app (ComputeGroupStatuses (ddc_Status ddc)) [defaultStatus] |> |>)
  end).

(** [ddc.Spec.ComputeGroups[i] = cg] *)
Definition set_cg (i : nat) (cg : ComputeGroup) (ddc : Ddc) : Ddc :=
  ddc <| ddc_Spec := (ddc_Spec ddc) <| ComputeGroups := <[i := cg]> (ComputeGroups (ddc_Spec ddc)) |> |>.

Definition default_replicas (cg : ComputeGroup) : ComputeGroup :=
  match cg_Replicas cg with
  | Some _ => cg
  | None => cg <| cg_Common := (cg_Common cg) <| Replicas := Some 1 |> |>
  end.

Definition computeGroupSync (restConfig : bool) (ddc : Ddc) (i : nat) (cg : ComputeGroup)
  : op (Ddc * option step_error) :=
  let cg := default_replicas cg in
  let ddc := set_cg i cg ddc in
  let! cvs := GetConfigValuesFromConfigMaps (ddc_Namespace ddc) BE_RESOLVEKEY (ConfigMaps (cg_Common cg)) in
  let! '(cg, st) := NewStatefulset ddc cg cvs in
  let ddc := set_cg i cg ddc in
  assert_ok (newInternalService ddc cg cvs) (fun internalSvc =>
  assert_ok (newExternalService ddc cg cvs) (fun externalSvc =>
  let! ddc := initialCGStatus ddc cg in
  CheckSecretMountPath ddc (Secrets (cg_Common cg)) ;;;
  CheckSecretExist ddc (Secrets (cg_Common cg)) ;;;
  let! ierr := reconcileInternalService internalSvc in
  match ierr with
  | Some e => Ret (ddc, Some (Some (mkSubEvent EventWarning "ServiceApplyedFailed" (err_msg e)), e))
  | None =>
      let! xerr := DefaultReconcileService externalSvc in
      match xerr with
      | Some se => Ret (ddc, Some se)
      | None =>
          let! '(ddc, serr) := reconcileStatefulset restConfig st ddc cg in
          match serr with
          | Some se => Ret (ddc, Some se)
          | None =>
              let! perr := ReconcilePVC ddc cvs DisaggregatedBE st (Some cg) in
              Ret (ddc, perr)
          end
      end
  end)).

(** The groups in order; an error of one does not stop the others. *)
Fixpoint sync_groups (restConfig : bool) (ddc : Ddc) (i : nat) (cgs : list ComputeGroup) (errs : list goerr)
  : op (Ddc * list goerr) :=
  match cgs with
  | [] => Ret (ddc, errs)
  | cg :: rest =>
      let! '(ddc, r) := computeGroupSync restConfig ddc i cg in
      match r with
      | None => sync_groups restConfig ddc (S i) rest errs
      | Some (event, err) =>
      emit event ;;;
      sync_groups restConfig ddc (S i) rest (app errs [err])
      end
  end.

Definition Sync (restConfig : bool) (ddc : Ddc) : op (Ddc * option goerr) :=
  match ComputeGroups (ddc_Spec ddc) with
  | [] =>
      call (REvent EventWarning "CGsEmpty" "compute group empty, the cluster will not work normal.") ;;;
      Ret (ddc, None)
  | cgs =>
      let! available := feAvailable ddc in
      if available : bool then
        match validateComputeGroup cgs with
        | (Some event, false) =>
            call (REvent (sev_Type event) (sev_Reason event) (sev_Message event)) ;;;
            Ret (ddc, Some (errorsNew "validating compute group failed"))
        | (None, false) => Panic "nil pointer dereference"
        | (_, true) =>
            let! '(ddc, errs) := sync_groups restConfig ddc 0 cgs [] in
            match errs with
            | [] => Ret (ddc, None)
            | _ =>
                Ret (ddc, Some (errorsNew (foldl (fun msg e => msg +:+ err_msg e)
                  ("disaggregatedComputeGroupsController sync namespace: " +:+ ddc_Namespace ddc +:+ " ,ddc name: " +:+
                   ddc_Name ddc +:+ ", compute group has the following error: ") errs)))
            end
        end
      else
        call (REvent EventNormal "WaitFEAvailable" "fe have not ready.") ;;;
        Ret (ddc, None)
  end.
End ComputeGroups.
