(* ===== verification/CgLifecycle.v ===== *)
(** The rest of the compute group controller ([computegroups/controller.go]):
    [ClearResources], which removes the services, StatefulSets, backends and
    claims that no configured group uses, and [UpdateComponentStatus]. *)

From Stdlib Require Import ZArith Lia Ascii.
From stdpp Require Import base list gmap strings.
From S2P Require Import Prelude GoStr Regex Json KubeTypes DdcApi Client Mysql Resource External SubDefault.
From S2P Require Import Claims PrepareModify GracefulCodec Graceful ComputeGroups.

Local Open Scope string_scope.
Local Open Scope Z_scope.
Local Open Scope dop_scope.

(** ** ClearResources *)

Definition cg_exists (ddc : Ddc) (uniqueId : string) : bool :=
  existsb (fun cg => bool_decide (UniqueId cg = uniqueId)) (ComputeGroups (ddc_Spec ddc)).

Definition unused (ddc : Ddc) (meta : ObjectMeta) : bool :=
  ownerReference2ddc (m_OwnerReferences meta) ddc && negb (cg_exists ddc (getUniqueIdFromClientObject meta)).

Definition findUnusedSvcs (svcs : list Service) (ddc : Ddc) : list string :=
  map svc_Name (List.filter (fun s => unused ddc (svc_Meta s)) svcs).

Definition findUnusedStssAndUniqueIds (stss : list StatefulSet) (ddc : Ddc) : list string * list string :=
  let l := List.filter (fun s => unused ddc (st_Meta s)) stss in
  (map st_Name l, map (fun s => getUniqueIdFromClientObject (st_Meta s)) l).

(** Runs a fallible deletion on each name, stopping at the first error. *)
Fixpoint each_name (f : string -> op (option goerr)) (names : list string) : op (option goerr) :=
  match names with
  | [] => Ret None
  | name :: rest =>
      let! err := f name in
      match err with
      | Some e => Ret (Some e)
      | None => each_name f rest
      end
  end.

Definition clearStatefulsets (stsNames : list string) (ddc : Ddc) : op (option goerr) :=
  each_name (fun name => DeleteStatefulset (ddc_Namespace ddc) name) stsNames.
Definition clearSvcs (svcNames : list string) (ddc : Ddc) : op (option goerr) :=
  each_name (fun name => DeleteService (ddc_Namespace ddc) name) svcNames.

(** A group of [cgs]'s unique id in the spec; several have the same name. *)
Definition spec_group (ddc : Ddc) (uniqueId : string) : option ComputeGroup :=
  foldl (fun r cg => if decide (UniqueId cg = uniqueId) then Some cg else r) None (ComputeGroups (ddc_Spec ddc)).

Definition ClearStatefulsetUnusedPVCs (ddc : Ddc) (uniqueId : string) : op (option goerr) :=
  let pvcLabels := newCGPodsSelector (ddc_Name ddc) uniqueId in
  let! listed := call (CList KPvc (ddc_Namespace ddc) (MatchingLabels pvcLabels)) in
  match listed with
  | Er err =>
      call (REvent EventWarning "PVCListFailed"
        ("DisaggregatedComputeGroupsController ClearStatefulsetUnusedPVCs list pvc failed:" +:+ err_msg err +:+ "!")) ;;;
      Ret (Some err)
  | Ok currentPVCs =>
      match spec_group ddc uniqueId with
      | None => Ret None
      | Some cg =>
          let stsName := GetCGStatefulsetName ddc cg in
          let! got := GetStatefulSet (ddc_Namespace ddc) stsName in
          match got with
          | Er _ => Ret None
          | Ok sts =>
              deref (st_Replicas sts) (fun replicas =>
              let clearPVC := List.filter (claim_unused stsName replicas) (map pvc_Name currentPVCs) in
              delete_claims (ddc_Namespace ddc) pvcLabels clearPVC None)
          end
      end
  end.

(** Errors of the claim removal are only logged. *)
Fixpoint clear_pvcs (ddc : Ddc) (uniqueIds : list string) : op unit :=
  match uniqueIds with
  | [] => Ret tt
  | u :: rest => let! _ := ClearStatefulsetUnusedPVCs ddc u in clear_pvcs ddc rest
  end.

Section Lifecycle.
Context `{External}.

Definition dropCG_failed (err : goerr) : op (option goerr) :=
  call (REvent EventWarning "CGSqlExecFailed" ("computeGroupSync dropCGBySQLClient failed: " +:+ err_msg err)) ;;;
  Ret (Some err).

Definition clearCGInDorisMeta (cgids : list string) (ddc : Ddc) : op (option goerr) :=
  match cgids with
  | [] => Ret None
  | _ =>
      let! c := getMasterSqlClient ddc in
      match c with
      | Er err => dropCG_failed err
      | Ok sqlClient =>
          with_close sqlClient (
            each_name (fun cgid =>
              let! err := scaledOutBENodesByDrop sqlClient cgid 0 in
              match err with
              | Some e => dropCG_failed e
              | None => Ret None
              end) cgids)
      end
  end.

(** The remaining cluster, whether the removal went through, and the error. *)
Definition ClearResources (ddc : Ddc) : op (Ddc * bool * option goerr) :=
  let statuses := ComputeGroupStatuses (ddc_Status ddc) in
  let eCGs := List.filter (fun c => cg_exists ddc (cgs_UniqueId c)) statuses in
  let delComputeGroupIds :=
    map cgs_ComputeGroupId (List.filter (fun c => negb (cg_exists ddc (cgs_UniqueId c))) statuses) in
  let cls := GetCG2LayerCommonSchedulerLabels (ddc_Name ddc) in
  let! rsvcs := ListServicesInNamespace (ddc_Namespace ddc) cls in
  match rsvcs with
  | Er err => Ret (ddc, false, Some err)
  | Ok svcs =>
      let! rstss := ListStatefulsetInNamespace (ddc_Namespace ddc) cls in
      match rstss with
      | Er err => Ret (ddc, false, Some err)
      | Ok stss =>
          let delSvcNames := findUnusedSvcs svcs ddc in
          let '(delStsNames, delUniqueIds) := findUnusedStssAndUniqueIds stss ddc in
          let! e1 := clearCGInDorisMeta delComputeGroupIds ddc in
          match e1 with Some err => Ret (ddc, false, Some err) | None =>
          let! e2 := clearSvcs delSvcNames ddc in
          match e2 with Some err => Ret (ddc, false, Some err) | None =>
          let! e3 := clearStatefulsets delStsNames ddc in
          match e3 with Some err => Ret (ddc, false, Some err) | None =>
            clear_pvcs ddc (map cgs_UniqueId eCGs) ;;;
            clear_pvcs ddc delUniqueIds ;;;
            Ret (ddc <| ddc_Status := (ddc_Status ddc) <| ComputeGroupStatuses := eCGs |> |>, true, None)
          end end end
      end
  end.

(** ** UpdateComponentStatus *)

Definition hasGracefulAction (sts : StatefulSet) : bool :=
  negb (bool_decide (map_get (st_Annotations sts) gracefulActionAnnotation = "")).

Definition updateCGStatus (ddc : Ddc) (cgs : ComputeGroupStatus) : op (ComputeGroupStatus * option goerr) :=
  let stfName := cgs_StatefulsetName cgs in
  let! got := GetStatefulSet (ddc_Namespace ddc) stfName in
  match got with
  | Er err => Ret (cgs, Some err)
  | Ok sts =>
      if waiting_update ddc sts stfName then Ret (cgs, Some (errorsNew "waiting statefulset updated"))
      else
        let! listed := call (CList KPod (ddc_Namespace ddc)
                          (MatchingLabels (newCGPodsSelector (ddc_Name ddc) (cgs_UniqueId cgs)))) in
        match listed with
        | Er err => Ret (cgs, Some err)
        | Ok pods =>
            let allUpdated := StatefulsetControlledPodsAllUseNewUpdateRevision (st_UpdateRevision sts) pods in
            let '(availableReplicas, _, _) := classify_pods pods in
            let cgs := cgs <| cgs_AvailableReplicas := availableReplicas |> in
            if hasGracefulAction sts then
              Ret (if decide (cgs_Phase cgs = Ready) then cgs <| cgs_Phase := GracefulRolling |> else cgs, None)
            else if allUpdated && (availableReplicas =? cgs_Replicas cgs) then
              Ret (cgs <| cgs_Phase := Ready |>, None)
            else Ret (cgs, None)
        end
  end.

(** The goroutines work on disjoint statuses; here they run in index order. *)
Fixpoint update_statuses (ddc : Ddc) (l : list ComputeGroupStatus) (errMs : string)
  : op (list ComputeGroupStatus * string) :=
  match l with
  | [] => Ret ([], errMs)
  | c :: rest =>
      let! '(c', err) := updateCGStatus ddc c in
      let errMs := match err with Some e => errMs +:+ err_msg e | None => errMs end in
      let! '(rest', errMs) := update_statuses ddc rest errMs in
      Ret (c' :: rest', errMs)
  end.

(** The last group of [FindStringSubmatch] for any text, a dash and digits up
    to the end: the dot of the expression does not match a line break. *)
Fixpoint after_newline (s : string) (cur : string) : string :=
  match s with
  | "" => cur
  | String c s' => if ch_code c =? 10 then after_newline s' "" else after_newline s' (cur +:+ String c "")
  end.
Definition statefulset_of_pod (podName : string) : option string :=
  match after_last_dash podName with
  | Some digits =>
      if digits1 digits
      then Some (after_newline (str_take (String.length podName - String.length digits - 1) podName) "")
      else None
  | None => None
  end.

Fixpoint group_ids (backends : list Backend) (m : strmap) : op (res strmap) :=
  match backends with
  | [] => Ret (Ok m)
  | backend :: rest =>
      match Unmarshal_strmap (be_Tag backend) with
      | None => Ret (Er (json_err (be_Tag backend)))
      | Some tags =>
          match tags !! COMPUTE_GROUP_ID with
          | None =>
              Ret (Er (errorsNew ("DisaggregatedComputeGroupsController recordComputeGroupIds backend tag get compute_group_name failed, tag: " +:+
                be_Tag backend +:+ ", err: no compute_group_id field found ")))
          | Some cgid =>
              match statefulset_of_pod (List.hd "" (Split (be_Host backend) ".")) with
              | None => Panic "index out of range [-1]"
              | Some stsName => group_ids rest (<[stsName := cgid]> m)
              end
          end
      end
  end.

Definition set_group_ids (m : strmap) (ddc : Ddc) : Ddc :=
  ddc <| ddc_Status := (ddc_Status ddc) <| ComputeGroupStatuses :=
    map (fun c => c <| cgs_ComputeGroupId := map_get m (cgs_StatefulsetName c) |>)
      (ComputeGroupStatuses (ddc_Status ddc)) |> |>.

Definition recordComputeGroupIds (ddc : Ddc) : op (Ddc * option goerr) :=
  let! '(adminUserName, password) := GetManagementAdminUserAndPWD ddc in
  let! confMap := GetConfigValuesFromConfigMaps (ddc_Namespace ddc) FE_RESOLVEKEY
                    (ConfigMaps (fe_Common (Fe (ddc_Spec ddc)))) in
  assert_ok (GetPort confMap QUERY_PORT) (fun queryPort =>
  let cfg := NewDBConfig <| db_User := adminUserName |> <| db_Password := password |>
                         <| db_Host := GetFEVIPAddresss ddc |> <| db_Port := Itoa queryPort |> in
  assert_ok (FindSecretTLSConfig confMap ddc) (fun '(tlsConfig, secretName) =>
  let! s := GetSecret (ddc_Namespace ddc) secretName in
  let secret := match s with Ok sec => Some sec | Er _ => None end in
  let! c := NewDorisSqlDB cfg tlsConfig secret in
  match c with
  | Er err => Ret (ddc, Some err)
  | Ok db =>
      with_close db (
        let! r := ShowBackends db in
        match r with
        | Er err => Ret (ddc, Some err)
        | Ok backends =>
            let! g := group_ids backends ∅ in
            match g with
            | Er err => Ret (ddc, Some err)
            | Ok m => Ret (set_group_ids m ddc, None)
            end
        end)
  end)).

Definition count_status (f : ComputeGroupStatus -> bool) (l : list ComputeGroupStatus) : Z :=
  Z.of_nat (length (List.filter f l)).

Definition set_cg_health (ddc : Ddc) : Ddc :=
  let l := ComputeGroupStatuses (ddc_Status ddc) in
  ddc <| ddc_Status := (ddc_Status ddc) <| ClusterHealth_ := (ClusterHealth_ (ddc_Status ddc))
    <| ch_CGCount := Z.of_nat (length l) |>
    <| ch_CGFullAvailableCount := count_status (fun c => bool_decide (cgs_Phase c = Ready)) l |>
    <| ch_CGAvailableCount := count_status (fun c => 0 <? cgs_AvailableReplicas c) l |> |> |>.

Definition UpdateComponentStatus (ddc : Ddc) : op (Ddc * option goerr) :=
  match ComputeGroupStatuses (ddc_Status ddc) with
  | [] => Ret (ddc, None)
  | cgss =>
      let! '(cgss', errMs) := update_statuses ddc cgss "" in
      let ddc := ddc <| ddc_Status := (ddc_Status ddc) <| ComputeGroupStatuses := cgss' |> |> in
      let! ddc := (if existsb (fun c => bool_decide (cgs_ComputeGroupId c = "")) cgss'
                   then let! '(ddc, _) := recordComputeGroupIds ddc in Ret ddc
                   else Ret ddc) in
      Ret (set_cg_health ddc, if decide (errMs = "") then None else Some (errorsNew errMs))
  end.
End Lifecycle.
