(* ===== verification/Observers.v ===== *)
(** Dropping the observers that a scale-down of the FE takes away, as the FE
    controllers of both kinds of clusters do it: the observers that Doris shows
    are placed at the ordinals of the StatefulSet's pods, by host name or by pod
    address, and those of the highest ordinals are dropped. *)

From Stdlib Require Import ZArith Lia Ascii.
From stdpp Require Import base list gmap strings.
From S2P Require Import Prelude GoStr KubeTypes DdcApi Client Traces Mysql Resource External.

Local Open Scope string_scope.
Local Open Scope Z_scope.
Local Open Scope dop_scope.

(** ** Operations *)

(** Pod names by pod address, for the pods of the StatefulSet. *)
Definition pod_ip_map (stsName : string) (pods : list Pod) : strmap :=
  foldl (fun m pod => if HasPrefix (p_Name pod) stsName then <[ps_PodIP (p_Status pod) := p_Name pod]> m else m)
    ∅ pods.

(** The ordinals of the observers, by host name or by pod address. *)
Definition place_observers (stsName ns : string) (podLabels : strmap) (confMap : config)
    (allObserves : list Frontend) : op (res (gmap Z Frontend)) :=
  assert_ok (GetStartMode confMap) (fun mode =>
  if decide (mode = START_MODEL_FQDN) then BuildSeqNumberToFrontendMap allObserves ∅ stsName
  else
    let! r := GetPods ns podLabels in
    match r with
    | Er err => Ret (Er err)
    | Ok pods => BuildSeqNumberToFrontendMap allObserves (pod_ip_map stsName pods) stsName
    end).

(** With the connection to the master: a failure to place the observers is not reported. *)
Definition drop_surplus (stsName ns : string) (podLabels : strmap) (wanted : option Z) (electionNumber : Z)
    (confMap : config) (masterDBClient : DB) : op (option goerr) :=
  let! r := GetObservers masterDBClient in
  match r with
  | Er err => Ret (Some err)
  | Ok allObserves =>
      deref wanted (fun replicas =>
      let needRemovedAmount := int32 (int32 (int32 (Z.of_nat (length allObserves)) - replicas) + electionNumber) in
      if needRemovedAmount <=? 0 then Ret None
      else
        let! m := place_observers stsName ns podLabels confMap allObserves in
        match m with
        | Er _ => Ret None
        | Ok frontendMap => DropObserver masterDBClient (FindNeedDeletedObservers frontendMap needRemovedAmount)
        end)
  end.

(** ** Placing frontends *)

(** The name that a frontend goes by: its host, or the pod of its address. *)
Definition sign_name (ipMap : strmap) (name : string) (fe : Frontend) : string :=
  if HasPrefix (fe_Host fe) name then fe_Host fe else map_get ipMap (fe_Host fe).

(** The frontend is placed at the ordinal [n] of the StatefulSet [name]. *)
Definition placed (ipMap : strmap) (name : string) (fe : Frontend) (n : Z) : Prop :=
  exists p1 p2, Split (sign_name ipMap name fe) name !! 1%nat = Some p1 /\ Split p1 "." !! 0%nat = Some p2 /\
    Atoi (List.last (Split p2 "-") "") = Ok n.

Lemma nth_piece_wp (l : list string) i k Q :
  (forall s, l !! i = Some s -> wp (k s) Q) -> (forall w, Q [] (Crashed w)) -> wp (nth_piece l i k) Q.
Proof. intros Hk Hc. unfold nth_piece. destruct (l !! i) eqn:Hl; [by apply Hk | apply Hc]. Qed.

(** All frontends are placed, and the map has one of those of each ordinal. *)
Lemma BuildSeq_go_wp ipMap name fes m :
  wp (BuildSeqNumberToFrontendMap_go ipMap name fes m) (fun tr o => tr = [] /\
    forall m', o = Done (Ok m') -> exists ks, Forall2 (placed ipMap name) fes ks /\
      (forall k fe, m' !! k = Some fe -> m !! k = Some fe \/ (fe, k) ∈ zip fes ks) /\
      (forall k, is_Some (m' !! k) <-> k ∈ ks \/ is_Some (m !! k))).
Proof.
  revert m; induction fes as [|fe fes IH]; intros m; cbn [BuildSeqNumberToFrontendMap_go].
  { split; [done|]. intros m' [= <-]. exists []. split; [done|]. split; [auto|].
    intros k. split; [auto | by intros [?%elem_of_nil|?]]. }
  apply nth_piece_wp; [|by split]. intros p1 H1. apply nth_piece_wp; [|by split]. intros p2 H2.
  destruct (Atoi _) as [num|err] eqn:Hn; [|by split].
  eapply wp_mono; [apply IH|]. intros tr o [-> Ho]. split; [done|]. intros m' Hm'.
  destruct (Ho m' Hm') as (ks & Hks & Hin & Hdom). exists (num :: ks).
  split; [constructor; [by exists p1, p2 | done]|]. split.
  - intros k f Hk. cbn [zip zip_with]. destruct (Hin k f Hk) as [Hins|?]; [|right; by right].
    destruct (decide (num = k)) as [->|Hne]; [|rewrite lookup_insert_ne in Hins by done; by left].
    rewrite lookup_insert_eq in Hins. injection Hins as <-. right. left.
  - intros k. rewrite Hdom, elem_of_cons. destruct (decide (num = k)) as [->|Hne].
    + rewrite lookup_insert_eq. split; [auto | by intros _; right; eexists].
    + rewrite lookup_insert_ne by done. split; [intros [?|?]; auto | intros [[->|?]|?]; auto; done].
Qed.

(** ** Dropped observers *)

(** The statement that drops the frontends. *)
Definition observer_statement (nodes : list Frontend) : string :=
  foldl (fun s node => s +:+ "ALTER SYSTEM DROP OBSERVER " +:+ quoted_addr (fe_Host node) (fe_EditLogPort node) +:+ ";")
    "" nodes.

(** Of the observers [shown], each placed at the ordinal of the same position
    of [ordinals], the [nodes] are those of the [amount] highest ordinals. *)
Definition highest_placed (shown : list Frontend) (ordinals : list Z) (amount : Z) (nodes : list Frontend) : Prop :=
  exists removed, NoDup removed /\ Z.of_nat (length removed) = amount /\
    Forall2 (fun fe k => (fe, k) ∈ zip shown ordinals) nodes removed /\
    forall i k, i ∈ removed -> k ∈ ordinals -> k ∉ removed -> k < i.

Lemma chosen_highest shown ordinals m amount :
  (forall k fe, m !! k = Some fe -> (fe, k) ∈ zip shown ordinals) -> (forall k, is_Some (m !! k) <-> k ∈ ordinals) ->
  0 < amount -> FindNeedDeletedObservers m amount <> [] ->
  highest_placed shown ordinals amount (FindNeedDeletedObservers m amount).
Proof.
  intros Hin Hdom Ha Hne. destruct (Z.leb_spec amount (Z.of_nat (size m))) as [Hle|Hlt].
  2: { exfalso. apply Hne. unfold FindNeedDeletedObservers. by rewrite (proj2 (Z.leb_gt _ _)). }
  destruct (FindNeedDeletedObservers_top m amount) as (removed & kept & Hk & Hlen & Hlt & Hmap); [lia|].
  exists removed. pose proof (keys_desc_NoDup m) as Hnd. rewrite Hk in Hnd. apply NoDup_app in Hnd as (Hnd & _ & _).
  split; [done|]. split; [done|]. split.
  - clear -Hin Hmap. revert Hmap. generalize (FindNeedDeletedObservers m amount). induction removed as [|k removed IH]; intros [|fe nodes]; try done.
    cbn. intros [= Hfe Hrest]. constructor; [by apply Hin | by apply IH].
  - intros i k Hi Hko Hnk. apply Hdom, keys_desc_elem in Hko. rewrite Hk in Hko.
    apply elem_of_app in Hko as [?|?]; [done|]. by apply Hlt.
Qed.

(** The pod names by pod address, when they are used, are those of the pods
    that the API server listed. *)
Definition addresses (stsName : string) (tr : trace) (ipMap : strmap) : Prop :=
  ipMap = ∅ \/ exists ns sel pods, Ev (CList KPod ns sel) (Ok pods) ∈ tr /\ ipMap = pod_ip_map stsName pods.

Lemma place_observers_wp stsName ns podLabels confMap fes :
  wp (place_observers stsName ns podLabels confMap fes) (fun tr o => Forall quiet tr /\
    forall m, o = Done (Ok m) -> exists ipMap ordinals, addresses stsName tr ipMap /\
      Forall2 (placed ipMap stsName) fes ordinals /\
      (forall k fe, m !! k = Some fe -> (fe, k) ∈ zip fes ordinals) /\ (forall k, is_Some (m !! k) <-> k ∈ ordinals)).
Proof.
  assert (Hgo : forall ipMap tr0, Forall quiet tr0 -> addresses stsName tr0 ipMap ->
    wp (BuildSeqNumberToFrontendMap fes ipMap stsName) (fun tr o =>
      Forall quiet (app tr0 tr) /\ forall m, o = Done (Ok m) -> exists ipMap ordinals, addresses stsName (app tr0 tr) ipMap /\
        Forall2 (placed ipMap stsName) fes ordinals /\
        (forall k fe, m !! k = Some fe -> (fe, k) ∈ zip fes ordinals) /\ (forall k, is_Some (m !! k) <-> k ∈ ordinals))).
  { intros ipMap tr0 Hq Ha. eapply wp_mono; [apply BuildSeq_go_wp|]. intros tr o [-> Ho].
    rewrite app_nil_r. split; [done|]. intros m Hm. destruct (Ho m Hm) as (ks & H1 & H2 & H3).
    exists ipMap, ks. split; [done|]. split; [done|]. split.
    - intros k fe Hk. destruct (H2 k fe Hk) as [Hemp|?]; [by rewrite lookup_empty in Hemp | done].
    - intros k. rewrite H3, lookup_empty. split; [intros [?|[? [=]]]; done | auto]. }
  unfold place_observers. destruct (GetStartMode confMap) as [mode|]; [|by split].
  cbn [assert_ok]. case_decide.
  - eapply wp_mono; [apply (Hgo ∅ []); [done | by left]|]. intros tr o Ho. exact Ho.
  - unfold GetPods. cbn [bind call]. intros [pods|err].
    + eapply wp_mono; [apply (Hgo (pod_ip_map stsName pods) [Ev (CList KPod ns (MatchingLabels podLabels)) (Ok pods)])|].
      * by repeat constructor.
      * right. eexists _, _, pods. split; [left | done].
      * intros tr o Ho. exact Ho.
    + split; [by repeat constructor | done].
Qed.

(** The statement [q] was run on Doris for a good reason: it drops frontends
    that Doris showed as observers, as many as there are beyond the wanted ones
    that do not elect: of all of them, placed by host name or by the address of
    a listed pod, those of the highest ordinals. *)
Definition surplus_dropped (stsName : string) (wanted : option Z) (electionNumber : Z) (db : DB)
    (tr : trace) (q : string) : Prop :=
  exists fes ipMap replicas ordinals nodes,
    let shown := filter (fun fe => fe_Role fe = FE_OBSERVE_ROLE) fes in
    let amount := int32 (int32 (int32 (Z.of_nat (length shown)) - replicas) + electionNumber) in
    Ev (SqlxShowFrontends (db_sqlx db)) (Ok fes) ∈ tr /\ wanted = Some replicas /\ 0 < amount /\
    q = observer_statement nodes /\ addresses stsName tr ipMap /\
    Forall2 (placed ipMap stsName) shown ordinals /\ highest_placed shown ordinals amount nodes.

Lemma drop_surplus_wp stsName ns podLabels wanted electionNumber confMap db :
  wp (drop_surplus stsName ns podLabels wanted electionNumber confMap db) (fun tr _ =>
    forall q, q ∈ omap sql_exec tr -> surplus_dropped stsName wanted electionNumber db tr q).
Proof.
  unfold drop_surplus, GetObservers, ShowFrontends. cbn [bind call].
  intros [fes|err]; [|cbn; by intros q ?%elem_of_nil]. cbn [bind wp].
  destruct wanted as [replicas|]; cbn [deref]; [|cbn; by intros q ?%elem_of_nil].
  destruct (Z.leb_spec (int32 (int32 (int32 (Z.of_nat (length (filter (fun fe => fe_Role fe = FE_OBSERVE_ROLE) fes))) - replicas)
    + electionNumber)) 0) as [Hle|Hpos]; [cbn; by intros q ?%elem_of_nil|].
  apply wp_bind. eapply wp_mono; [apply place_observers_wp|].
  intros tr o [Hq Hm].
  assert (Hs : forall r tr', omap sql_exec (Ev (SqlxShowFrontends (db_sqlx db)) r :: app tr tr') = omap sql_exec tr').
  { intros r tr'. cbn [omap list_omap sql_exec]. rewrite omap_app, (omap_none sql_exec tr); [done|].
    eapply Forall_impl; [exact Hq | apply quiet_no_sql]. }
  destruct o as [[m|err]|w].
  2: { intros q Hin. rewrite Hs in Hin. by apply elem_of_nil in Hin. }
  2: { intros q Hin. rewrite <- (app_nil_r tr), Hs in Hin. by apply elem_of_nil in Hin. }
  destruct (Hm m eq_refl) as (ipMap & ordinals & Ha & Hp & Hin & Hdom).
  destruct (FindNeedDeletedObservers m _) as [|n0 rest] eqn:Hnodes.
  { intros q Hq'. rewrite Hs in Hq'. by apply elem_of_nil in Hq'. }
  intros r q Hq'. rewrite Hs in Hq'. apply list_elem_of_singleton in Hq' as ->.
  exists fes, ipMap, replicas, ordinals, (n0 :: rest). split; [left|]. split; [done|]. split; [exact Hpos|].
  split; [done|]. split.
  { destruct Ha as [->|(ns' & sel & pods & Hl & ->)]; [by left|right]. exists ns', sel, pods. split; [|done].
    right. apply elem_of_app. by left. }
  split; [done|]. rewrite <- Hnodes. apply chosen_highest; [done | done | exact Hpos|]. by rewrite Hnodes.
Qed.
