(* ===== verification/DisFe.v ===== *)
(** The FE controller of a disaggregated cluster
    ([disaggregated_fe/controller.go], [pvc.go], [service.go] and the
    StatefulSet head of [statefulset.go]).  The pod template builder
    ([NewPodTemplateSpec]) is an argument; [DdcPods] has the code's. *)

From Stdlib Require Import ZArith Lia Ascii.
From stdpp Require Import base list gmap strings.
From S2P Require Import Prelude GoStr Json KubeTypes DdcApi Client Mysql Resource External SubDefault Claims.
From S2P Require Import PrepareModify Observers.

Local Open Scope string_scope.
Local Open Scope Z_scope.
Local Open Scope dop_scope.

(** ** Labels, selectors and ports *)

Definition newFEPodsSelector (ddcName : string) : strmap :=
  <[DorisDisaggregatedClusterName := ddcName]>
  (<[DorisDisaggregatedPodType := "fe"]> {[DorisDisaggregatedOwnerReference := ddcName]}).

Definition newFESchedulerLabels (ddcName : string) : strmap :=
  <[DorisDisaggregatedClusterName := ddcName]> {[DorisDisaggregatedPodType := "fe"]}.

Definition getFEPodLabels (ddc : Ddc) : strmap :=
  AddLabel (newFEPodsSelector (ddc_Name ddc)) (CommonLabels (fe_Common (Fe (ddc_Spec ddc)))).

Definition generateInternalServiceLabels (ddc : Ddc) : strmap :=
  <[ServiceRoleForCluster := "internal"]> (newFESchedulerLabels (ddc_Name ddc)).

Definition newFEServicePorts (cfg : config) (svcConf : option ExportService) : option (list ServicePort) :=
  httpPort ← GetPort cfg HTTP_PORT;
  rpcPort ← GetPort cfg RPC_PORT;
  queryPort ← GetPort cfg QUERY_PORT;
  editPort ← GetPort cfg EDIT_LOG_PORT;
  arrowFlightPort ← GetPort cfg ARROW_FLIGHT_SQL_PORT;
  let ports := [port_of HTTP_PORT httpPort; port_of RPC_PORT rpcPort; port_of QUERY_PORT queryPort;
                port_of EDIT_LOG_PORT editPort] in
  let ports := if decide (arrowFlightPort <> -1) then app ports [port_of ARROW_FLIGHT_SQL_PORT arrowFlightPort] else ports in
  Some match svcConf with
       | Some conf => if decide (es_Type conf = "NodePort") then map (set_node_port (es_PortMaps conf)) ports else ports
       | None => ports
       end.

Definition getInternalServicePort (cfg : config) : option ServicePort :=
  httpPort ← GetPort cfg QUERY_PORT;
  Some (port_of QUERY_PORT httpPort).

(** ** Follower pods *)

Definition podIsFollower (podName stfName : string) (electionNumber : Z) : bool :=
  if HasPrefix podName (stfName +:+ "-") then
    match Atoi (str_drop (String.length stfName + 1) podName) with
    | Ok num => num <? electionNumber
    | Er _ => false
    end
  else false.

(** ** pvc.go *)

Definition listAndDeletePersistentVolumeClaim (ddc : Ddc) : op (option goerr) :=
  deref (Replicas (fe_Common (Fe (ddc_Spec ddc)))) (fun replicas =>
  let pvcLabels := newFEPodsSelector (ddc_Name ddc) in
  let stsName := GetFEStatefulsetName ddc in
  let! listed := call (CList KPvc (ddc_Namespace ddc) (MatchingLabels pvcLabels)) in
  match listed with
  | Er err =>
      call (REvent EventWarning "PVCListFailed"
        ("DisaggregatedFEController listAndDeletePersistentVolumeClaim list pvc failed:" +:+ err_msg err +:+ "!")) ;;;
      Ret (Some err)
  | Ok currentPVCs =>
      let clearPVC := List.filter (claim_unused stsName replicas) (map pvc_Name currentPVCs) in
      delete_claims (ddc_Namespace ddc) pvcLabels clearPVC None
  end).

Definition recycleResources (ddc : Ddc) : op (option goerr) :=
  let common := fe_Common (Fe (ddc_Spec ddc)) in
  match PersistentVolume_ common, PersistentVolumes common with
  | None, [] => Ret None
  | _, _ => listAndDeletePersistentVolumeClaim ddc
  end.

(** A fallible deletion whose failure is announced. *)
Definition delete_or_event (reason : string) (p : op (option goerr)) : op (option goerr) :=
  let! err := p in
  match err with
  | Some e => call (REvent EventWarning reason (err_msg e)) ;;; Ret (Some e)
  | None => Ret None
  end.

Definition ClearResources (ddc : Ddc) : op (bool * option goerr) :=
  let! rerr := recycleResources ddc in
  match rerr with
  | Some e => Ret (false, Some e)
  | None =>
      match m_DeletionTimestamp (ddc_Meta ddc) with
      | None => Ret (true, None)
      | Some _ =>
          let ns := ddc_Namespace ddc in
          let! e1 := delete_or_event "FEServiceDeleteFailed" (DeleteService ns (GetFEServiceName ddc)) in
          match e1 with Some e => Ret (false, Some e) | None =>
          let! e2 := delete_or_event "FEServiceDeleteFailed" (DeleteService ns (GetFEInternalServiceName ddc)) in
          match e2 with Some e => Ret (false, Some e) | None =>
          let! e3 := delete_or_event "FEStatefulsetDeleteFailed" (DeleteStatefulset ns (GetFEStatefulsetName ddc)) in
          match e3 with Some e => Ret (false, Some e) | None => Ret (true, None) end
          end end
      end
  end.

Section DisFe.
Context `{External}.
(** The pod template of the FE StatefulSet; its builder writes into the spec. *)
Context (NewPodTemplateSpec : Ddc -> config -> op (Ddc * PodTemplateSpec)).

Definition newService (ddc : Ddc) (cvs : config) : option Service :=
  let ddcService := ServiceSpec (fe_Common (Fe (ddc_Spec ddc))) in
  ports ← newFEServicePorts cvs ddcService;
  let svc := NewDefaultService ddc in
  let svc := svc <| svc_Meta := (svc_Meta svc) <| m_Name := GetFEServiceName ddc |>
                                               <| m_Labels := newFESchedulerLabels (ddc_Name ddc) |> |>
                 <| svc_Selector := newFEPodsSelector (ddc_Name ddc) |>
                 <| svc_Ports := ports |> in
  let svc := match ddcService with
             | Some conf =>
                 let svc := if decide (es_Type conf <> "") then svc <| svc_Type := es_Type conf |> else svc in
                 set_svc_Annotations (es_Annotations conf) svc
             | None => svc
             end in
  Some (if decide (svc_Type svc = "LoadBalancer") then svc <| svc_SessionAffinity := "None" |> else svc).

Definition newInternalService (ddc : Ddc) (cvs : config) : option Service :=
  port ← getInternalServicePort cvs;
  Some (emptySvc
    <| svc_Meta := emptyMeta <| m_Name := GetFEInternalServiceName ddc |>
                             <| m_Namespace := ddc_Namespace ddc |>
                             <| m_Labels := generateInternalServiceLabels ddc |>
                             <| m_OwnerReferences := [GetDdcOwnerReference ddc] |> |>
    <| svc_ClusterIP := "None" |>
    <| svc_Ports := [port] |>
    <| svc_Selector := newFEPodsSelector (ddc_Name ddc) |>
    <| svc_PublishNotReadyAddresses := true |>).

Definition NewStatefulset (ddc : Ddc) (confMap : config) : op (Ddc * StatefulSet) :=
  let spec := fe_Common (Fe (ddc_Spec ddc)) in
  assert_ok (BuildVolumesVolumeMountsAndPVCs confMap DisaggregatedFE spec) (fun '(_, _, vcts) =>
  let! '(ddc, pts) := NewPodTemplateSpec ddc confMap in
  let st := NewDefaultStatefulset ddc in
  Ret (ddc, st <| st_Meta := (st_Meta st) <| m_Name := GetFEStatefulsetName ddc |>
                                     <| m_Labels := newFESchedulerLabels (ddc_Name ddc) |> |>
          <| st_Replicas := Replicas spec |>
          <| st_Selector := Some (mkLabelSelector (newFEPodsSelector (ddc_Name ddc)) []) |>
          <| st_VolumeClaimTemplates := vcts |>
          <| st_ServiceName := GetFEInternalServiceName ddc |>
          <| st_Template := pts |>)).

(** ** Dropping observers before a scale-down *)

(** The ordinals of the observers of the FE StatefulSet. *)
Definition observers_by_ordinal (cluster : Ddc) (confMap : config) (allObserves : list Frontend)
  : op (res (gmap Z Frontend)) :=
  place_observers (GetFEStatefulsetName cluster) (ddc_Namespace cluster) (getFEPodLabels cluster) confMap allObserves.

(** With the connection to the master: a failure to place the observers is not reported. *)
Definition drop_observers (cluster : Ddc) (confMap : config) (masterDBClient : DB) : op (option goerr) :=
  drop_surplus (GetFEStatefulsetName cluster) (ddc_Namespace cluster) (getFEPodLabels cluster)
    (Replicas (fe_Common (Fe (ddc_Spec cluster)))) (GetElectionNumber cluster) confMap masterDBClient.

Definition dropFEBySQLClient (cluster : Ddc) : op (option goerr) :=
  let! '(adminUserName, password) := GetManagementAdminUserAndPWD cluster in
  let! confMap := GetConfigValuesFromConfigMaps (ddc_Namespace cluster) FE_RESOLVEKEY
                    (ConfigMaps (fe_Common (Fe (ddc_Spec cluster)))) in
  assert_ok (GetPort confMap QUERY_PORT) (fun queryPort =>
  assert_ok (FindSecretTLSConfig confMap cluster) (fun '(tlsConfig, secretName) =>
  let! s := GetSecret (ddc_Namespace cluster) secretName in
  let secret := match s with Ok sec => Some sec | Er _ => None end in
  let dbConf := mkDBConfig adminUserName password (GetFEVIPAddresss cluster) (Itoa queryPort) "mysql" in
  let! c := NewDorisMasterSqlDB dbConf tlsConfig secret in
  match c with
  | Er err => Ret (Some err)
  | Ok masterDBClient => with_close masterDBClient (drop_observers cluster confMap masterDBClient)
  end)).

(** ** StatefulSet *)

Definition set_fe_replicas (n : Z) (ddc : Ddc) : Ddc :=
  ddc <| ddc_Spec := (ddc_Spec ddc) <| Fe := (Fe (ddc_Spec ddc))
    <| fe_Common := (fe_Common (Fe (ddc_Spec ddc))) <| Replicas := Some n |> |> |> |>.

Definition set_fe_status (f : FEStatus) (ddc : Ddc) : Ddc :=
  ddc <| ddc_Status := (ddc_Status ddc) <| FEStatus_ := f |> |>.
Definition set_fe_phase (p : Phase) (ddc : Ddc) : Ddc :=
  set_fe_status ((FEStatus_ (ddc_Status ddc)) <| fes_Phase := p |>) ddc.

Definition election_msg : string :=
  "The number of disaggregated fe ElectionNumber is large than Replicas, Replicas has been corrected to the correct minimum value".

Definition apply_fe (st : StatefulSet) (cluster : Ddc) : op (Ddc * option step_error) :=
  let! '(cluster', err) := ApplyStatefulSet st cluster (generation_equal (GetFEStatefulsetName cluster)) [] in
  Ret (cluster', match err with
                 | Some e => Some (Some (mkSubEvent EventWarning "FEApplyResourceFailed" (err_msg e)), e)
                 | None => None
                 end).

Definition reconcileStatefulset (st : StatefulSet) (cluster : Ddc) : op (Ddc * option step_error) :=
  let! got := call (CGet KSts (st_Namespace st) (st_Name st)) in
  match got with
  | Er err =>
      if IsNotFound err then
        let! cerr := CreateClientObject KSts st in
        Ret (cluster, match cerr with
                      | Some e => Some (Some (mkSubEvent EventWarning "FECreateResourceFailed" (err_msg e)), e)
                      | None => None
                      end)
      else Ret (cluster, Some (None, err))
  | Ok est =>
      let replicas := match Replicas (fe_Common (Fe (ddc_Spec cluster))) with Some r => r | None => 0 end in
      let electionNumber := GetElectionNumber cluster in
      let! '(st, cluster) :=
        (if replicas <? electionNumber then
           call (REvent EventWarning "FESpecSetError" election_msg) ;;;
           deref (Replicas (fe_Common (Fe (ddc_Spec cluster)))) (fun _ =>
           Ret (st <| st_Replicas := Some electionNumber |>, set_fe_replicas electionNumber cluster))
         else Ret (st, cluster)) in
      deref (st_Replicas est) (fun existing =>
      if (int32 (replicas - existing) <? 0) ||
         bool_decide (fes_Phase (FEStatus_ (ddc_Status cluster)) = ScaleDownFailed) then
        let! derr := dropFEBySQLClient cluster in
        match derr with
        | Some e =>
            Ret (set_fe_phase ScaleDownFailed cluster,
                 Some (Some (mkSubEvent EventWarning "FEHTTPResponseFailed" (err_msg e)), e))
        | None => apply_fe st (set_fe_phase Scaling cluster)
        end
      else apply_fe st cluster)
  end.

(** ** Sync *)

Definition msAvailable (ddc : Ddc) : op bool :=
  endpoints_available (ddc_Namespace ddc) (GetMSServiceName ddc).

Definition initialFEStatus (ddc : Ddc) : Ddc :=
  if decide (fes_Phase (FEStatus_ (ddc_Status ddc)) ∈ [Reconciling; ScaleDownFailed; Scaling]) then ddc
  else set_fe_status (mkFEStatus Reconciling (AvailableOther "") (Itoa (GetInstanceHashId sha256_int ddc))) ddc.

(** The replica count the spec is corrected to: a default, and at least the election number. *)
Definition correct_replicas (ddc : Ddc) : op Ddc :=
  let! ddc :=
    match Replicas (fe_Common (Fe (ddc_Spec ddc))) with
    | Some _ => Ret ddc
    | None =>
        call (REvent EventNormal "FESpecSetError"
          "The number of disaggregated fe replicas is nil and has been corrected to the default value 2") ;;;
        Ret (set_fe_replicas DefaultFeReplicaNumber ddc)
    end in
  let electionNumber := GetElectionNumber ddc in
  deref (Replicas (fe_Common (Fe (ddc_Spec ddc)))) (fun replicas =>
  if replicas <? electionNumber then
    call (REvent EventWarning "FESpecSetError" election_msg) ;;;
    Ret (set_fe_replicas electionNumber ddc)
  else Ret ddc).

(** A step whose error is announced and ends the synchronisation. *)
Definition or_fail (r : option step_error) (ddc : Ddc) (k : op (Ddc * option goerr)) : op (Ddc * option goerr) :=
  match r with
  | Some (event, err) => emit event ;;; Ret (ddc, Some err)
  | None => k
  end.

Definition Sync (ddc : Ddc) : op (Ddc * option goerr) :=
  let! available := msAvailable ddc in
  if available : bool then
    let common := fe_Common (Fe (ddc_Spec ddc)) in
    CheckSecretMountPath ddc (Secrets common) ;;;
    CheckSecretExist ddc (Secrets common) ;;;
    let! ddc := correct_replicas ddc in
    let! confMap := GetConfigValuesFromConfigMaps (ddc_Namespace ddc) FE_RESOLVEKEY (ConfigMaps common) in
    assert_ok (newInternalService ddc confMap) (fun svcInternal =>
    assert_ok (newService ddc confMap) (fun svc =>
    let! '(ddc, st) := NewStatefulset ddc confMap in
    let ddc := initialFEStatus ddc in
    let! r1 := DefaultReconcileService svcInternal in
    or_fail r1 ddc (
    let! r2 := DefaultReconcileService svc in
    or_fail r2 ddc (
    let! '(ddc, r3) := reconcileStatefulset st ddc in
    or_fail r3 ddc (
    let! _ := ReconcilePVC ddc confMap DisaggregatedFE st None in
    Ret (ddc, None))))))
  else
    call (REvent EventNormal "WaitMetaServiceAvailable" "meta service have not ready.") ;;;
    Ret (ddc, None).

(** ** Status *)

Definition count_pods (f : Pod -> bool) (pods : list Pod) : Z := Z.of_nat (length (List.filter f pods)).

(** The status after the pods of the StatefulSet were listed. *)
Definition fe_status_of_pods (ddc : Ddc) (sts : StatefulSet) (pods : list Pod) : op Ddc :=
  let stfName := GetFEStatefulsetName ddc in
  let electionNumber := GetElectionNumber ddc in
  let allUpdated := StatefulsetControlledPodsAllUseNewUpdateRevision (st_UpdateRevision sts) pods in
  let masterAliveReplicas := count_pods (fun pod =>
    PodIsReady (p_Status pod) && podIsFollower (p_Name pod) stfName electionNumber) pods in
  let '(availableReplicas, _, _) := classify_pods pods in
  let ddc :=
    if 0 <? masterAliveReplicas then
      let ddc := set_fe_status ((FEStatus_ (ddc_Status ddc)) <| fes_AvailableStatus := Available |>) ddc in
      ddc <| ddc_Status := (ddc_Status ddc) <| ClusterHealth_ :=
        (ClusterHealth_ (ddc_Status ddc)) <| ch_FeAvailable := true |> |> |>
    else ddc in
  if allUpdated && (masterAliveReplicas =? electionNumber) then
    deref (Replicas (fe_Common (Fe (ddc_Spec ddc)))) (fun replicas =>
    Ret (if availableReplicas =? replicas then set_fe_phase Ready ddc else ddc))
  else Ret ddc.

Definition UpdateComponentStatus (ddc : Ddc) : op (Ddc * option goerr) :=
  let stfName := GetFEStatefulsetName ddc in
  let! got := GetStatefulSet (ddc_Namespace ddc) stfName in
  match got with
  | Er err => Ret (ddc, Some err)
  | Ok sts =>
      if waiting_update ddc sts stfName then Ret (ddc, Some (errorsNew "waiting statefulset upd ated"))
      else
        let! listed := call (CList KPod (ddc_Namespace ddc) (MatchingLabels (newFEPodsSelector (ddc_Name ddc)))) in
        match listed with
        | Er err => Ret (ddc, Some err)
        | Ok pods => let! ddc := fe_status_of_pods ddc sts pods in Ret (ddc, None)
        end
  end.
End DisFe.
