(* ===== verification/MetaService.v ===== *)
(** The meta service controller of a disaggregated cluster
    ([metaservice/controller.go], [service.go] and the StatefulSet head of
    [statefulset.go]).  The pod template builder is an argument;
    [DdcPods] has the code's. *)

From Stdlib Require Import ZArith Lia Ascii.
From stdpp Require Import base list gmap strings.
From S2P Require Import Prelude GoStr Json KubeTypes DdcApi Client Mysql Resource External SubDefault.
From S2P Require Import PrepareModify DisFe.

Local Open Scope string_scope.
Local Open Scope Z_scope.
Local Open Scope dop_scope.

Definition DefaultMsToken : string := "greedisgood9999".
Definition DefaultMsTokenKey : string := "http_token".

Definition newMSPodsSelector (ddcName : string) : strmap :=
  <[DorisDisaggregatedClusterName := ddcName]>
  (<[DorisDisaggregatedPodType := "ms"]> {[DorisDisaggregatedOwnerReference := ddcName]}).

Definition newMSSchedulerLabels (ddcName : string) : strmap :=
  <[DorisDisaggregatedClusterName := ddcName]> {[DorisDisaggregatedPodType := "ms"]}.

Definition newMSServicePorts (cfg : config) (svcConf : option ExportService) : option (list ServicePort) :=
  brpcPort ← GetPort cfg BRPC_LISTEN_PORT;
  let ports := [port_of BRPC_LISTEN_PORT brpcPort] in
  Some match svcConf with
       | Some conf => if decide (es_Type conf = "NodePort") then map (set_node_port (es_PortMaps conf)) ports else ports
       | None => ports
       end.

(** Assigning the whole spec drops the session affinity of the default service. *)
Definition newMSService (ddc : Ddc) (confMap : config) : option Service :=
  let exportService := ServiceSpec (MetaServiceSpec (ddc_Spec ddc)) in
  ports ← newMSServicePorts confMap exportService;
  let svc := emptySvc
    <| svc_Meta := emptyMeta <| m_Name := GetMSServiceName ddc |>
                             <| m_Namespace := ddc_Namespace ddc |>
                             <| m_Labels := newMSSchedulerLabels (ddc_Name ddc) |>
                             <| m_OwnerReferences := [GetDdcOwnerReference ddc] |> |>
    <| svc_Selector := newMSPodsSelector (ddc_Name ddc) |>
    <| svc_Ports := ports |> in
  Some match exportService with
       | Some conf =>
           let svc := if decide (es_Type conf = "LoadBalancer") then svc <| svc_SessionAffinity := "None" |> else svc in
           let svc := if decide (es_Type conf <> "") then svc <| svc_Type := es_Type conf |> else svc in
           set_svc_Annotations (es_Annotations conf) svc
       | None => svc
       end.

Definition set_ms_status (m : MetaServiceStatus) (ddc : Ddc) : Ddc :=
  ddc <| ddc_Status := (ddc_Status ddc) <| MSStatus := m |> |>.

Definition initMSStatus (ddc : Ddc) : Ddc :=
  let m := MSStatus (ddc_Status ddc) in
  let initPhase := if decide (ms_Phase m = PhaseOther "") then Reconciling else ms_Phase m in
  set_ms_status (m <| ms_AvailableStatus := UnAvailable |> <| ms_Phase := initPhase |>) ddc.

Definition ClearResources (ddc : Ddc) : op (bool * option goerr) :=
  match m_DeletionTimestamp (ddc_Meta ddc) with
  | None => Ret (true, None)
  | Some _ =>
      let ns := ddc_Namespace ddc in
      let! e1 := delete_or_event "MSServiceDeletedFailed" (DeleteService ns (GetMSServiceName ddc)) in
      match e1 with Some e => Ret (false, Some e) | None =>
      let! e2 := delete_or_event "MSStatefulsetDeleteFailed" (DeleteStatefulset ns (GetMSStatefulsetName ddc)) in
      match e2 with Some e => Ret (false, Some e) | None => Ret (true, None) end
      end
  end.

Section MetaService.
Context `{External}.
(** [NewPodTemplateSpec] of the meta service's [statefulset.go]; it writes into the spec. *)
Context (NewPodTemplateSpec : Ddc -> strmap -> config -> op (Ddc * PodTemplateSpec)).

(** As for the compute groups, the labels map of the selector is shared with the template. *)
Definition newStatefulset (ddc : Ddc) (confMap : config) : op (Ddc * StatefulSet) :=
  let msSpec := MetaServiceSpec (ddc_Spec ddc) in
  let matchLabels := newMSPodsSelector (ddc_Name ddc) in
  assert_ok (BuildVolumesVolumeMountsAndPVCs confMap DisaggregatedMS msSpec) (fun '(_, _, vcts) =>
  let replicas := match Replicas msSpec with Some r => r | None => DefaultMetaserviceNumber end in
  let! '(ddc, pts) := NewPodTemplateSpec ddc matchLabels confMap in
  let st := NewDefaultStatefulset ddc in
  Ret (ddc, st <| st_Meta := (st_Meta st) <| m_Name := GetMSStatefulsetName ddc |>
                                     <| m_Labels := newMSSchedulerLabels (ddc_Name ddc) |> |>
          <| st_Replicas := Some replicas |>
          <| st_Selector := Some (mkLabelSelector (AddLabel matchLabels (CommonLabels msSpec)) []) |>
          <| st_Template := pts |>
          <| st_ServiceName := GetMSServiceName ddc |>
          <| st_VolumeClaimTemplates := vcts |>)).

Definition reconcileStatefulset (st : StatefulSet) (ddc : Ddc) : op (Ddc * option step_error) :=
  let! got := call (CGet KSts (st_Namespace st) (st_Name st)) in
  match got with
  | Er err =>
      if IsNotFound err then
        let! cerr := CreateClientObject KSts st in
        Ret (ddc, match cerr with
                  | Some e => Some (Some (mkSubEvent EventWarning "CGCreateResourceFailed" (err_msg e)), e)
                  | None => None
                  end)
      else Ret (ddc, Some (None, err))
  | Ok _ =>
      let! '(ddc, aerr) := ApplyStatefulSet st ddc (generation_equal (GetMSStatefulsetName ddc)) [] in
      Ret (ddc, match aerr with
                | Some e => Some (Some (mkSubEvent EventWarning "CGApplyResourceFailed" (err_msg e)), e)
                | None => None
                end)
  end.

Definition Sync (ddc : Ddc) : op (Ddc * option goerr) :=
  let msSpec := MetaServiceSpec (ddc_Spec ddc) in
  let! confMap := GetConfigValuesFromConfigMaps (ddc_Namespace ddc) MS_RESOLVEKEY (ConfigMaps msSpec) in
  assert_ok (newMSService ddc confMap) (fun svc =>
  let! '(ddc, st) := newStatefulset ddc confMap in
  let ddc := initMSStatus ddc in
  CheckSecretMountPath ddc (Secrets msSpec) ;;;
  CheckSecretExist ddc (Secrets msSpec) ;;;
  let! r1 := DefaultReconcileService svc in
  or_fail r1 ddc (
  let! '(ddc, r2) := reconcileStatefulset st ddc in
  or_fail r2 ddc (
  let! _ := ReconcilePVC ddc confMap DisaggregatedMS st None in
  Ret (ddc, None)))).

Definition ms_status_of_pods (ddc : Ddc) (sts : StatefulSet) (pods : list Pod) : Ddc :=
  let allUpdated := StatefulsetControlledPodsAllUseNewUpdateRevision (st_UpdateRevision sts) pods in
  let '(availableReplicas, _, _) := classify_pods pods in
  let m := MSStatus (ddc_Status ddc) in
  let m := if 0 <? availableReplicas then m <| ms_AvailableStatus := Available |> else m in
  let msReplicas := match Replicas (MetaServiceSpec (ddc_Spec ddc)) with Some r => r | None => 2 end in
  set_ms_status (m <| ms_Phase := if (availableReplicas =? msReplicas) && allUpdated then Ready else Reconciling |>) ddc.

Definition UpdateComponentStatus (ddc : Ddc) : op (Ddc * option goerr) :=
  let msSpec := MetaServiceSpec (ddc_Spec ddc) in
  let! confMap := GetConfigValuesFromConfigMaps (ddc_Namespace ddc) MS_RESOLVEKEY (ConfigMaps msSpec) in
  assert_ok (GetPort confMap BRPC_LISTEN_PORT) (fun port =>
  assert_ok (match confMap !! DefaultMsTokenKey with Some v => as_string v | None => Some DefaultMsToken end) (fun token =>
  let ddc := set_ms_status ((MSStatus (ddc_Status ddc))
    <| ms_Endpoint := GetMSServiceName ddc +:+ "." +:+ ddc_Namespace ddc +:+ ":" +:+ Itoa port |>
    <| ms_Token := token |>) ddc in
  let stsName := GetMSStatefulsetName ddc in
  let! got := GetStatefulSet (ddc_Namespace ddc) stsName in
  match got with
  | Er err => Ret (ddc, Some err)
  | Ok sts =>
      if waiting_update ddc sts stsName then Ret (ddc, Some (errorsNew "waiting statefulset updated"))
      else
        let! listed := call (CList KPod (ddc_Namespace ddc) (MatchingLabels (newMSPodsSelector (ddc_Name ddc)))) in
        match listed with
        | Er err => Ret (ddc, Some err)
        | Ok pods => Ret (ms_status_of_pods ddc sts pods, None)
        end
  end)).
End MetaService.
