(* ===== verification/DdcPods.v ===== *)
(** The pods of a disaggregated cluster: the pod templates and main containers
    of [computegroups/statefulset.go], [disaggregated_fe/statefulset.go] and
    [metaservice/statefulset.go], and what the shared sub-controller adds to
    them.  A builder returns the group or the cluster too: it writes the image
    of the initialisation, and the privileges of a workload group, into the spec. *)

From Stdlib Require Import ZArith Lia Ascii.
From stdpp Require Import base list gmap strings.
From S2P Require Import Prelude GoStr KubeTypes DcrApi DdcApi Client Mysql Resource External SubDefault.
From S2P Require Import PodTemplate DcrPods.
From S2P Require Graceful ComputeGroups DisFe MetaService.

Local Open Scope string_scope.
Local Open Scope Z_scope.
Local Open Scope dop_scope.

(** ** disaggregated_subcontroller.go *)

Definition newDefaultAffinity (matchKey value : string) : option PodAffinity :=
  if decide (matchKey = "" \/ value = "") then None else Some (spread_affinity matchKey value).

(** [None]: a nil pointer is dereferenced when there is no default affinity. *)
Definition ConstructDefaultAffinity (matchKey value : string) (ddcAffinity : option Affinity)
  : option (option Affinity) :=
  match ddcAffinity, newDefaultAffinity matchKey value with
  | None, d => Some ((fun anti => mkAffinity None None (Some anti)) <$> d)
  | Some user, Some d => Some (Some (merge_affinity d user))
  | Some _, None => None
  end.

(** The change of the first container with the name. *)
Fixpoint change_container (name : string) (f : Container -> Container) (cs : list Container) : option (list Container) :=
  match cs with
  | [] => None
  | c :: cs' =>
      if decide (c_Name c = name) then Some (f c :: cs')
      else rest ← change_container name f cs'; Some (c :: rest)
  end.

Definition FE_MAIN_CONTAINER_NAME : string := "fe".
Definition MS_MAIN_CONTAINER_NAME : string := "metaservice".

(** Without Kerberos nothing is added; with it, [None] is the panic of a value
    that is no text, or of a main container that is missing. *)
Definition AddClusterSpecForPodTemplate (c : DisaggregatedComponentType) (configMap : config) (spec : DdcSpec)
    (pts : PodTemplateSpec) : option PodTemplateSpec :=
  match c, Kerberos spec with
  | (DisaggregatedMS | DisaggregatedOther _), _ | _, None => Some pts
  | _, Some _ =>
      let name := match c with DisaggregatedFE => FE_MAIN_CONTAINER_NAME | _ => DISAGGREGATED_BE_MAIN_CONTAINER_NAME end in
      envs ← buildKerberosEnv (Kerberos spec) configMap (component_text c);
      let '(volumes, volumeMounts) := getKerberosVolumeAndVolumeMount (Kerberos spec) in
      containers ← change_container name (fun c => c <| c_Env := app (c_Env c) envs |>
                                                     <| c_VolumeMounts := app (c_VolumeMounts c) volumeMounts |>)
                     (pt_Containers pts);
      Some (pts <| pt_Containers := containers |> <| pt_Volumes := app (pt_Volumes pts) volumes |>)
  end.

(** User and password as the containers of FE and compute groups get them. *)
Definition admin_envs (ddc : Ddc) : list EnvVar :=
  match Admin (ddc_Spec ddc) with
  | Some user => [env_var "USER" (au_Name user); env_var "PASSWD" (au_Password user)]
  | None => []
  end.

(** The common part of the main containers: identity, command, environment and
    probes; [envs] are the variables of the component. *)
Definition disaggregated_container (cs : CommonSpec) (c : DisaggregatedComponentType) (name : string)
    (ports : list ContainerPort) (envs : list EnvVar) : Container :=
  let '(cmd, args) := GetDisaggregatedCommand c in
  BuildDisaggregatedProbe
    ((NewContainerWithCommonSpec cs)
      <| c_PreStop := Some [GetDisaggregatedPreStopScript c] |>
      <| c_Command := cmd |>
      <| c_Args := args |>
      <| c_Name := name |>
      <| c_Ports := ports |>
      <| c_Env := app (app (EnvVars cs) buildEnvFromPod) envs |>) cs c.

Definition add_mounts (mounts : list VolumeMount) (c : Container) : Container :=
  c <| c_VolumeMounts := app (c_VolumeMounts c) mounts |>.
Definition add_volumes (volumes : list Volume) (pts : PodTemplateSpec) : PodTemplateSpec :=
  pts <| pt_Volumes := app (pt_Volumes pts) volumes |>.

Section pods.
Context `{External}.

(** ** computegroups/statefulset.go *)

Definition gracefulRuntimeVolumeName : string := "doris-graceful-runtime".

Definition cg_newSpecificEnvs (ddc : Ddc) (cg : ComputeGroup) : op (list EnvVar) :=
  let! confMap := GetConfigValuesFromConfigMaps (ddc_Namespace ddc) FE_RESOLVEKEY
                    (ConfigMaps (fe_Common (Fe (ddc_Spec ddc)))) in
  assert_ok (GetPort confMap QUERY_PORT) (fun fqp =>
  Ret (app [env_var "STATEFULSET_NAME" (GetCGStatefulsetName ddc cg); env_var "COMPUTE_GROUP_NAME" (GetCGName cg);
            env_var "HOST_TYPE" START_MODEL_FQDN; env_var ENV_FE_ADDR (GetFEVIPAddresss ddc);
            env_var ENV_FE_PORT (Itoa fqp)]
      (app (admin_envs ddc)
           (if EnableWorkloadGroup cg then [env_var "ENABLE_WORKLOAD_GROUP" (fmt_bool true)] else [])))).

Definition privileged_group (cg : ComputeGroup) : ComputeGroup :=
  if EnableWorkloadGroup cg
  then cg <| cg_Common := (cg_Common cg)
               <| ContainerSecurityContext := make_privileged (ContainerSecurityContext (cg_Common cg)) |> |>
  else cg.

(** The group with its privileges, and the container. *)
Definition NewCGContainer (ddc : Ddc) (cvs : config) (cg : ComputeGroup) : op (ComputeGroup * Container) :=
  let cg := privileged_group cg in
  let cs := cg_Common cg in
  assert_ok (GetDisaggregatedContainerPorts cvs DisaggregatedBE) (fun ports =>
  let! specific := cg_newSpecificEnvs ddc cg in
  let envs := app specific
    (app (if SkipDefaultSystemInit cg then [env_var "SKIP_CHECK_ULIMIT" "true"] else [])
         (if AutoResolveLimitCPU cg then [env_var "BE_CPU_LIMIT" (cpu_limit (Resources cs))] else [])) in
  assert_ok (BuildVolumesVolumeMountsAndPVCs cvs DisaggregatedBE cs) (fun '(_, vms, _) =>
  let c := disaggregated_container cs DisaggregatedBE DISAGGREGATED_BE_MAIN_CONTAINER_NAME ports envs in
  let c := add_mounts vms c in
  let c := add_mounts (BuildDefaultConfigMapVolumesVolumeMounts (ConfigMaps cs)).2 c in
  let c := add_mounts [mkVolumeMount gracefulRuntimeVolumeName Graceful.gracefulRuntimeMountPath] c in
  let c := add_mounts (auth_mounts (AuthSecret (ddc_Spec ddc))) c in
  Ret (cg, add_mounts (GetMultiSecretVolumeAndVolumeMountWithCommonSpec cs).2 c))).

(** The labels map of the selector takes the user's labels too. *)
Definition cg_NewPodTemplateSpec (ddc : Ddc) (selector : strmap) (cvs : config) (cg : ComputeGroup)
  : op (ComputeGroup * PodTemplateSpec) :=
  let '(pts, cs) := NewPodTemplateSpecWithCommonSpec (SkipDefaultSystemInit cg) (cg_Common cg) DisaggregatedBE in
  let cg := cg <| cg_Common := cs |> in
  assert_ok (AddTerminationGracePeriodSeconds pts cvs DEFAULT_BE_TERMINATION_GRACE_PERIOD_SECONDS) (fun pts =>
  let labels := AddLabel selector (pt_Labels pts) in
  let! '(cg, c) := NewCGContainer ddc cvs cg in
  let pts := add_container c (pts <| pt_Labels := labels |>) in
  assert_ok (BuildVolumesVolumeMountsAndPVCs cvs DisaggregatedBE cs) (fun '(vs, _, _) =>
  let pts := add_volumes (BuildDefaultConfigMapVolumesVolumeMounts (ConfigMaps cs)).1 pts in
  let pts := add_volumes vs pts in
  let pts := add_volumes [mkVolume gracefulRuntimeVolumeName VolEmptyDir] pts in
  let pts := add_volumes (auth_volumes (AuthSecret (ddc_Spec ddc))) pts in
  let pts := add_volumes (GetMultiSecretVolumeAndVolumeMountWithCommonSpec cs).1 pts in
  assert_ok (AddClusterSpecForPodTemplate DisaggregatedBE cvs (ddc_Spec ddc) pts) (fun pts =>
  assert_ok (ConstructDefaultAffinity DorisDisaggregatedComputeGroupUniqueId
               (map_get labels DorisDisaggregatedComputeGroupUniqueId) (pt_Affinity pts)) (fun affinity =>
  Ret (cg, pts <| pt_Affinity := affinity |>))))).

(** ** disaggregated_fe/statefulset.go *)

Definition fe_newSpecificEnvs (ddc : Ddc) : op (list EnvVar) :=
  let! msConfMap := GetConfigValuesFromConfigMaps (ddc_Namespace ddc) MS_RESOLVEKEY
                      (ConfigMaps (MetaServiceSpec (ddc_Spec ddc))) in
  assert_ok (GetPort msConfMap BRPC_LISTEN_PORT) (fun msPort =>
  let msEndpoint := GetMSServiceName ddc +:+ "." +:+ ddc_Namespace ddc +:+ ":" +:+ Itoa msPort in
  Ret (app [env_var "MS_ENDPOINT" msEndpoint; env_var "CLUSTER_ID" (Itoa (GetInstanceHashId sha256_int ddc));
            env_var "STATEFULSET_NAME" (GetFEStatefulsetName ddc);
            env_var "DNS_READY_TIMEOUT" "120"; env_var "DNS_READY_INTERVAL" "2";
            env_var ENV_FE_ADDR (GetFEVIPAddresss ddc); env_var "ELECT_NUMBER" (Itoa (GetElectionNumber ddc))]
           (admin_envs ddc))).

Definition NewFEContainer (ddc : Ddc) (cvs : config) : op Container :=
  let cs := fe_Common (Fe (ddc_Spec ddc)) in
  assert_ok (GetDisaggregatedContainerPorts cvs DisaggregatedFE) (fun ports =>
  let! specific := fe_newSpecificEnvs ddc in
  assert_ok (BuildVolumesVolumeMountsAndPVCs cvs DisaggregatedFE cs) (fun '(_, vms, _) =>
  let c := disaggregated_container cs DisaggregatedFE FE_MAIN_CONTAINER_NAME ports specific in
  let c := add_mounts vms c in
  let c := add_mounts (BuildDefaultConfigMapVolumesVolumeMounts (ConfigMaps cs)).2 c in
  let c := add_mounts (auth_mounts (AuthSecret (ddc_Spec ddc))) c in
  Ret (add_mounts (GetMultiSecretVolumeAndVolumeMountWithCommonSpec cs).2 c))).

Definition set_fe_common (cs : CommonSpec) (ddc : Ddc) : Ddc :=
  ddc <| ddc_Spec := (ddc_Spec ddc) <| Fe := (Fe (ddc_Spec ddc)) <| fe_Common := cs |> |> |>.

(** With what [NewStatefulset] adds to the template. *)
Definition fe_NewPodTemplateSpec (ddc : Ddc) (confMap : config) : op (Ddc * PodTemplateSpec) :=
  let '(pts, cs) := NewPodTemplateSpecWithCommonSpec false (fe_Common (Fe (ddc_Spec ddc))) DisaggregatedFE in
  let ddc := set_fe_common cs ddc in
  assert_ok (AddTerminationGracePeriodSeconds pts confMap DEFAULT_FE_TERMINATION_GRACE_PERIOD_SECONDS) (fun pts =>
  let labels := DisFe.getFEPodLabels ddc in
  let! c := NewFEContainer ddc confMap in
  let pts := add_container c (pts <| pt_Labels := labels |>) in
  assert_ok (BuildVolumesVolumeMountsAndPVCs confMap DisaggregatedFE cs) (fun '(vs, _, _) =>
  let pts := add_volumes vs pts in
  let pts := add_volumes (BuildDefaultConfigMapVolumesVolumeMounts (ConfigMaps cs)).1 pts in
  let pts := add_volumes (auth_volumes (AuthSecret (ddc_Spec ddc))) pts in
  let pts := add_volumes (GetMultiSecretVolumeAndVolumeMountWithCommonSpec cs).1 pts in
  assert_ok (ConstructDefaultAffinity DorisDisaggregatedClusterName
               (map_get labels DorisDisaggregatedClusterName) (CommonAffinity cs)) (fun affinity =>
  assert_ok (AddClusterSpecForPodTemplate DisaggregatedFE confMap (ddc_Spec ddc) (pts <| pt_Affinity := affinity |>))
    (fun pts => Ret (ddc, pts))))).

(** ** metaservice/statefulset.go *)

Definition fdb_event (message : string) : op (list EnvVar) :=
  call (REvent EventWarning "FDBAddressNotConfiged" message) ;;; Ret [].

(** A config map without data has a nil map. *)
Definition ms_newSpecificEnvs (ddc : Ddc) : op (list EnvVar) :=
  let fdb := ms_FDB (MetaService_ (ddc_Spec ddc)) in
  let ns := fdb_Namespace fdb in
  let name := fdb_Name fdb in
  let place := "namespace" +:+ ns +:+ " name " +:+ name in
  if decide (ns = "" \/ name = "") then
    if decide (fdb_Address fdb = "") then fdb_event "fdb not configed in spec"
    else Ret [env_var "FDB_ENDPOINT" (fdb_Address fdb)]
  else
    let! got := GetConfigMap ns name in
    match got with
    | Er err => fdb_event ("configmap " +:+ place +:+ " find failed " +:+ err_msg err)
    | Ok cm =>
        if decide (cm_Data cm = ∅) then fdb_event ("configmap  " +:+ place +:+ " not have data.")
        else match cm_Data cm !! "cluster-file" with
             | None => fdb_event ("configmap  " +:+ place +:+ " not have cluster-file")
             | Some file =>
                 Ret [env_var "FDB_ENDPOINT" (if decide (fdb_Address fdb <> "") then fdb_Address fdb else file)]
             end
    end.

Definition NewMSContainer (ddc : Ddc) (cvs : config) : op Container :=
  let cs := MetaServiceSpec (ddc_Spec ddc) in
  assert_ok (GetDisaggregatedContainerPorts cvs DisaggregatedMS) (fun ports =>
  let! specific := ms_newSpecificEnvs ddc in
  assert_ok (BuildVolumesVolumeMountsAndPVCs cvs DisaggregatedMS cs) (fun '(_, vms, _) =>
  let c := disaggregated_container cs DisaggregatedMS MS_MAIN_CONTAINER_NAME ports specific in
  let c := add_mounts vms c in
  let c := add_mounts (BuildDefaultConfigMapVolumesVolumeMounts (ConfigMaps cs)).2 c in
  Ret (add_mounts (GetMultiSecretVolumeAndVolumeMountWithCommonSpec cs).2 c))).

Definition set_ms_common (cs : CommonSpec) (ddc : Ddc) : Ddc :=
  ddc <| ddc_Spec := (ddc_Spec ddc) <| MetaService_ := (MetaService_ (ddc_Spec ddc)) <| ms_Common := cs |> |> |>.

Definition ms_NewPodTemplateSpec (ddc : Ddc) (selector : strmap) (confMap : config) : op (Ddc * PodTemplateSpec) :=
  let '(pts, cs) := NewPodTemplateSpecWithCommonSpec false (MetaServiceSpec (ddc_Spec ddc)) DisaggregatedMS in
  let ddc := set_ms_common cs ddc in
  let labels := AddLabel selector (pt_Labels pts) in
  let! c := NewMSContainer ddc confMap in
  let pts := add_container c (pts <| pt_Labels := labels |>) in
  assert_ok (BuildVolumesVolumeMountsAndPVCs confMap DisaggregatedMS cs) (fun '(vs, _, _) =>
  let pts := add_volumes vs pts in
  let pts := add_volumes (BuildDefaultConfigMapVolumesVolumeMounts (ConfigMaps cs)).1 pts in
  assert_ok (ConstructDefaultAffinity DorisDisaggregatedClusterName
               (map_get labels DorisDisaggregatedClusterName) (CommonAffinity cs)) (fun affinity =>
  let pts := pts <| pt_Affinity := affinity |> in
  Ret (ddc, add_volumes (GetMultiSecretVolumeAndVolumeMountWithCommonSpec cs).1 pts))).
End pods.
