(* ===== verification/DdcReconciler.v ===== *)
(** The reconciler of a disaggregated cluster
    ([pkg/controller/disaggregated_cluster_controller.go]): the order of a
    pass, the health of the cluster, and what is written back.

    The three sub-controllers are an interface, a record of their operations;
    the code ranges over a map of them, so each loop takes its own order. *)

From Stdlib Require Import ZArith Lia Ascii.
From stdpp Require Import base list gmap strings.
From S2P Require Import Prelude GoStr KubeTypes DdcApi Client Mysql Resource External SubDefault.

Local Open Scope string_scope.
Local Open Scope Z_scope.
Local Open Scope dop_scope.

(** ** The interface of a sub-controller *)

Record SubController := mkSubController {
  sc_Sync : Ddc -> op (Ddc * option goerr);
  sc_ClearResources : Ddc -> op (Ddc * option goerr);
  sc_UpdateComponentStatus : Ddc -> op (Ddc * option goerr)
}.

(** ** Results *)

Record Result := mkResult { Requeue : bool; RequeueAfter : Z }.
#[export] Instance Result_eq_dec : EqDecision Result.
Proof. solve_decision. Defined.
Definition noResult : Result := mkResult false 0.
Definition IsZero (r : Result) : bool := bool_decide (r = noResult).
Definition after (seconds : Z) : Result := mkResult false (seconds * 1000000000).

(** ** Watches *)

Definition map_pod (meta : ObjectMeta) : list (string * string) :=
  let dorisName := map_get (m_Labels meta) DorisDisaggregatedClusterName in
  if decide (dorisName <> "") then [(m_Namespace meta, dorisName)] else [].

Inductive pod_event :=
| PodCreate (m : ObjectMeta)
| PodUpdate (old new : ObjectMeta) (same_object : bool)
| PodDelete (m : ObjectMeta).

Definition has_cluster_label (m : ObjectMeta) : bool :=
  bool_decide (is_Some (m_Labels m !! DorisDisaggregatedClusterName)).

Definition pod_predicate (e : pod_event) : bool :=
  match e with
  | PodCreate m | PodDelete m => has_cluster_label m
  | PodUpdate old _ same => has_cluster_label old && negb same
  end.

(** ** Loops over the sub-controllers *)

Fixpoint each_sub (f : SubController -> Ddc -> op (Ddc * option goerr)) (subs : list SubController)
    (ddc : Ddc) (errs : list goerr) : op (Ddc * list goerr) :=
  match subs with
  | [] => Ret (ddc, errs)
  | s :: rest =>
      let! '(ddc, err) := f s ddc in
      each_sub f rest ddc (match err with Some e => app errs [e] | None => errs end)
  end.

Definition reconcileSub (subs : list SubController) (ddc : Ddc) : op (Ddc * option goerr) :=
  let! '(ddc, errs) := each_sub sc_Sync subs ddc [] in
  match errs with
  | [] => Ret (ddc, None)
  | _ => Ret (ddc, Some (errorsNew (foldl (fun msg e => msg +:+ err_msg e) "" errs)))
  end.

Definition clearUnusedResources (subs : list SubController) (ddc : Ddc) : op Ddc :=
  let! '(ddc, _) := each_sub sc_ClearResources subs ddc [] in
  Ret ddc.

(** ** Health *)

Definition health_of (s : DdcStatus) : Health :=
  let h := ClusterHealth_ s in
  if bool_decide (ms_AvailableStatus (MSStatus s) <> Available) ||
     bool_decide (fes_AvailableStatus (FEStatus_ s) <> Available) ||
     (ch_CGAvailableCount h <=? Z.quot (ch_CGCount h) 2) then Red
  else if bool_decide (ms_Phase (MSStatus s) <> Ready) || bool_decide (fes_Phase (FEStatus_ s) <> Ready) ||
          (ch_CGAvailableCount h <? ch_CGCount h) then Yellow
  else Green.

Definition set_health (ddc : Ddc) : Ddc :=
  let s := (ddc_Status ddc) <| ObservedGeneration := m_Generation (ddc_Meta ddc) |> in
  ddc <| ddc_Status := s <| ClusterHealth_ := (ClusterHealth_ s) <| ch_Health := health_of s |> |> |>.

Definition not_ready (s : DdcStatus) : bool :=
  bool_decide (ms_Phase (MSStatus s) <> Ready) || bool_decide (fes_Phase (FEStatus_ s) <> Ready) ||
  negb (ch_CGAvailableCount (ClusterHealth_ s) =? ch_CGCount (ClusterHealth_ s)).

(** The cluster with its health and the result; errors of the components are only logged. *)
Definition reorganizeStatus (subs : list SubController) (ddc : Ddc) : op (Ddc * Result) :=
  let! '(ddc, _) := each_sub sc_UpdateComponentStatus subs ddc [] in
  let ddc := set_health ddc in
  Ret (ddc, if not_ready (ddc_Status ddc) then mkResult true 0 else noResult).

(** ** Writing back *)

Definition disAggregatedInconsistentStatus (ests : DdcStatus) (ddc : Ddc) : bool :=
  bool_decide (ests = ddc_Status ddc).

(** [retry.RetryOnConflict] with the default backoff: at most four attempts.
    The fetched cluster is kept between them. *)
Fixpoint status_attempts (steps : nat) (ddc eddc : Ddc) : op Ddc :=
  match steps with
  | O => Ret eddc
  | S n =>
      let! got := call (CGet KDdc (ddc_Namespace ddc) (ddc_Name ddc)) in
      match got with
      | Er e => if IsConflict e then status_attempts n ddc eddc else Ret eddc
      | Ok fetched =>
          let eddc := fetched <| ddc_Status := ddc_Status ddc |> in
          let! u := call (CStatusUpdate eddc) in
          match u with
          | Ok stored => Ret stored
          | Er e => if IsConflict e then status_attempts n ddc eddc else Ret eddc
          end
      end
  end.

Definition updateDorisDisaggregatedClusterStatus (ddc : Ddc) : op Result :=
  let! eddc := status_attempts 4 ddc emptyDdc in
  Ret (if disAggregatedInconsistentStatus (ddc_Status ddc) eddc then noResult else after 5).

Definition shouldRequeueComputeGroupPhase (phase : Phase) : bool :=
  match phase with
  | Reconciling | Scaling | ScaleDownFailed | ResumeFailed | SuspendFailed
  | GracefulRolling | GracefulScaling | GracefulDeleting => true
  | _ => false
  end.

(** The keys are not put in lower case here, unlike where they are added. *)
Definition clearReconcileAnnotations (ddc : Ddc) : Ddc :=
  let delAnnos := map UpdateStatefulsetName
    (GetFEStatefulsetName ddc :: GetMSStatefulsetName ddc ::
     map (GetCGStatefulsetName ddc) (ComputeGroups (ddc_Spec ddc))) in
  set_ddc_Annotations (foldl (fun m k => delete k m) (ddc_Annotations ddc) delAnnos) ddc.

(** The phases that ask for another pass, then the health, then the status update. *)
Definition write_back_result (ddc : Ddc) (res : Result) : Result :=
  let s := ddc_Status ddc in
  if existsb (fun c => bool_decide (cgs_Phase c = Decommissioning) || shouldRequeueComputeGroupPhase (cgs_Phase c))
       (ComputeGroupStatuses s) then after 10
  else if decide (ch_Health (ClusterHealth_ s) <> Green) then after 10
  else res.

Section Reconciler.
Context `{External}.

Definition update_cluster (ddc : Ddc) : op Ddc :=
  let! got := call (CGet KDdc (ddc_Namespace ddc) (ddc_Name ddc)) in
  let ddc :=
    match got with
    | Ok eddc =>
        let rv := m_ResourceVersion (ddc_Meta eddc) in
        if decide (rv <> "") then ddc <| ddc_Meta := (ddc_Meta ddc) <| m_ResourceVersion := rv |> |> else ddc
    | Er _ => ddc
    end in
  let! u := call (CUpdateDdc ddc) in
  Ret (match u with Ok stored => stored | Er _ => ddc end).

Definition updateObjectORStatus (ddc : Ddc) (preHv : string) : op Result :=
  let postHv := HashObject (ddc_Spec ddc) in
  let ddc := clearReconcileAnnotations ddc in
  let deepCopyDDC := ddc in
  let! ddc := (if decide (preHv <> postHv) then update_cluster ddc else Ret ddc) in
  let! res := updateDorisDisaggregatedClusterStatus deepCopyDDC in
  Ret (write_back_result ddc res).

(** [Reconcile]: an error of the first fetch other than not-found leaves the
    zero cluster, and the pass goes on with it. *)
Definition Reconcile (order1 order2 order3 : list SubController) (ns name : string)
  : op (Result * option goerr) :=
  let! got := call (CGet KDdc ns name) in
  let pass (ddc : Ddc) :=
    let hv := HashObject (ddc_Spec ddc) in
    let! '(ddc, reconErr) := reconcileSub order1 ddc in
    let! ddc := clearUnusedResources order2 ddc in
    let! '(ddc, _) := reorganizeStatus order3 ddc in
    let! res := updateObjectORStatus ddc hv in
    Ret (res, match reconErr with
              | Some e => if decide (err_msg e = "") then None else Some (errorsNew (err_msg e))
              | None => None
              end) in
  match got with
  | Ok ddc => pass ddc
  | Er err => if IsNotFound err then Ret (noResult, None) else pass emptyDdc
  end.
End Reconciler.
