(* ===== verification/DcrFe.v ===== *)
(** The FE controller of a DorisCluster
    ([src/pkg/controller/sub_controller/fe]): the pass, the guard against
    scaling the electing followers away, and the observers dropped before a
    scale-down.  The builder of the pod template is an argument;
    [DcrPods] has the code's. *)

From Stdlib Require Import ZArith Lia Ascii.
From stdpp Require Import base list gmap strings.
From S2P Require Import Prelude GoStr KubeTypes DdcApi Client Mysql Resource External SubDefault Observers.
From S2P Require Import DcrApi DcrResource DcrSub PodTemplate.

Local Open Scope string_scope.
Local Open Scope Z_scope.
Local Open Scope dop_scope.

(** ** Shared by the components *)

(** A step of a pass: an error ends it with the cluster as it is. *)
Definition or_fail {S} (dcr : S) (err : option goerr) (k : op (S * option goerr)) : op (S * option goerr) :=
  match err with Some e => Ret (dcr, Some e) | None => k end.

Section shared.
Context `{External}.

(** Applies the internal and then the external service. *)
Definition apply_services (dcr : Dcr) (c : ComponentType) (cfg : config) (k : op (Dcr * option goerr))
  : op (Dcr * option goerr) :=
  assert_ok (BuildExternalService dcr c cfg) (fun svc =>
  assert_ok (BuildInternalService dcr c cfg) (fun internalService =>
  let! err := ApplyService internalService ServiceDeepEqual in
  or_fail dcr err (
  let! err := ApplyService svc ServiceDeepEqual in
  or_fail dcr err k))).

(** [RestrictConditionsEqual] and the comparison by hash; a panic of the comparison is one of the pass. *)
Definition restricted_equal (new old : StatefulSet) (u : unit) : op (StatefulSet * unit * bool) :=
  deref (StatefulSetDeepEqual (RestrictConditionsEqual new old) old false) (fun '(new, equal) =>
    Ret (new, u, equal)).

Definition check_component (dcr : Dcr) (c : ComponentType) : op unit :=
  CheckConfigMountPath dcr c ;;;
  DcrCheckSecretMountPath dcr c ;;;
  DcrCheckSecretExist dcr c.
End shared.

(** ** prepare_modify.go *)

Definition set_fe_replicas (n : Z) (dcr : Dcr) : Dcr :=
  match base_of dcr Component_FE with
  | Some base => set_fe_base (base <| bs_Replicas := Some n |>) dcr
  | None => dcr
  end.

Definition mixed_scale_message : string :=
  "Replicas is not allowed less than ElectionNumber, because of the bdbje (like raft) consistency protocol, if want do that please set ElectionNumber less than replicas. like that " +:+ Quote "spec:{feSpec:{electionNumber}}".
Definition follower_scale_message : string :=
  "Replicas less than electionNumber, so not allowed scale down. This is because the bdbje(like raft) consistency protocol, if want do that please set ElectionNumber less than replicas. like that " +:+ Quote "spec:{feSpec:{electionNumber}}".

(** [nr], [or]: the wanted and the existing replicas. *)
Definition safeScaleDown (cluster : Dcr) (fe : FeSpec) (nr or : Z) : op Dcr :=
  let ele := GetElectionNumber fe in
  if (or <=? nr) || (ele <=? nr) then Ret cluster
  else if ele <=? or then
    warn "FollowerScaleDownFailed" mixed_scale_message ;;;
    Ret (set_fe_replicas ele cluster)
  else
    warn "FollowerScaleDownFailed" follower_scale_message ;;;
    Ret (set_fe_replicas or cluster).

Section DcrFe.
Context `{External}.
Context (buildFEPodTemplateSpec : Dcr -> config -> op PodTemplateSpec).

Definition dropObserverBySqlClient (targetDCR : Dcr) : op (option goerr) :=
  let! secret := GetSecret (dcr_Namespace targetDCR) (AuthSecret (dcr_Spec targetDCR)) in
  let '(adminUserName, password) :=
    GetClusterSecret targetDCR (match secret with Ok s => Some s | Er _ => None end) in
  let host := GenerateExternalServiceName targetDCR Component_FE +:+ "." +:+ dcr_Namespace targetDCR in
  deref (FeSpec_ (dcr_Spec targetDCR)) (fun fe =>
  let! '(maps, _) := k8s_GetConfig (bs_ConfigMapInfo (fe_Base fe)) (dcr_Namespace targetDCR) Component_FE in
  assert_ok (GetPort maps QUERY_PORT) (fun queryPort =>
  let dbConf := mkDBConfig adminUserName password host (Itoa queryPort) "mysql" in
  assert_ok (DcrFindSecretTLSConfig maps targetDCR) (fun '(tlsConfig, secretName) =>
  let! tlsSecret :=
    match tlsConfig with
    | Some _ =>
        if decide (secretName <> "") then
          let! s := GetSecret (dcr_Namespace targetDCR) secretName in
          Ret (match s with Ok sec => Some sec | Er _ => None end)
        else Ret None
    | None => Ret None
    end in
  let! c := NewDorisMasterSqlDB dbConf tlsConfig tlsSecret in
  match c with
  | Er err => Ret (Some err)
  | Ok masterDBClient =>
      with_close masterDBClient
        (drop_surplus (GeneratePodTemplateName targetDCR Component_FE) (dcr_Namespace targetDCR)
           (default ∅ (GetPodLabels targetDCR Component_FE))
           (bs_Replicas (fe_Base fe)) (GetElectionNumber fe) maps masterDBClient)
  end))).

(** A failed get of the StatefulSet, not found or not, is no error. *)
Definition prepareStatefulsetApply (cluster : Dcr) (oldStatus : ComponentStatus) : op (Dcr * option goerr) :=
  let! got := call (CGet KSts (dcr_Namespace cluster) (GenerateComponentStatefulSetName cluster Component_FE)) in
  match got with
  | Er _ => Ret (cluster, None)
  | Ok oldSt =>
      deref (FeSpec_ (dcr_Spec cluster)) (fun fe =>
      let '(cluster, nr) :=
        match bs_Replicas (fe_Base fe) with
        | Some n => (cluster, n)
        | None => (set_fe_replicas 0 cluster, 0)
        end in
      deref (st_Replicas oldSt) (fun or =>
      let! cluster := safeScaleDown cluster fe nr or in
      deref (base_of cluster Component_FE ≫= bs_Replicas) (fun nr =>
      if int32 (nr - or) <? 0 then
        let! err := dropObserverBySqlClient cluster in
        Ret (cluster, err)
      else if decide (cst_Phase oldStatus = Available) then
        let! '(cluster, inject) := CheckRestartTimeAndInject cluster Component_FE in
        if inject then
          deref (FEStatus (dcr_Status cluster)) (fun status =>
            Ret (set_fe_status (Some (set_phase Restarting status)) cluster, None))
        else Ret (cluster, None)
      else Ret (cluster, None))))
  end.

(** ** controller.go *)

Definition buildFEStatefulSet (dcr : Dcr) (cfg : config) : op StatefulSet :=
  assert_ok (NewStatefulSet dcr cfg Component_FE) (fun st =>
  let! template := buildFEPodTemplateSpec dcr cfg in
  Ret (st <| st_Template := template |>)).

(** The end of the pass: the scale-down guard, and the StatefulSet. *)
Definition sync_statefulset (cluster : Dcr) (oldStatus : ComponentStatus) (cfg : config)
  : op (Dcr * option goerr) :=
  let! '(cluster, err) := prepareStatefulsetApply cluster oldStatus in
  or_fail cluster err (
  let! st := buildFEStatefulSet cluster cfg in
  let! '(_, err) := apply_stateful_set st tt restricted_equal [] in
  Ret (cluster, err)).

Definition Sync (cluster : Dcr) : op (Dcr * option goerr) :=
  match FeSpec_ (dcr_Spec cluster) with
  | None => Ret (cluster, None)
  | Some feSpec =>
      let oldStatus := default zeroComponentStatus (FEStatus (dcr_Status cluster)) in
      let! cluster := InitStatus cluster Component_FE in
      let! cluster :=
        if EnableRestartWhenConfigChange (dcr_Spec cluster)
        then CompareConfigmapAndTriggerRestart cluster oldStatus Component_FE
        else Ret cluster in
      let! '(cfg, err) := GetConfig (bs_ConfigMapInfo (fe_Base feSpec)) (dcr_Namespace cluster) Component_FE in
      or_fail cluster err (
      check_component cluster Component_FE ;;;
      CheckSharedPVC cluster ;;;
      apply_services cluster Component_FE cfg (
      let! ready := PrepareReconcileResources cluster Component_FE in
      if ready then sync_statefulset cluster oldStatus cfg else Ret (cluster, None)))
  end.

Definition UpdateComponentStatus (cluster : Dcr) : op (Dcr * option goerr) :=
  match FeSpec_ (dcr_Spec cluster) with
  | None => Ret (set_fe_status None cluster, None)
  | Some fe =>
      let! newCmHash := BuildCoreConfigmapStatusHash cluster Component_FE in
      deref (FEStatus (dcr_Status cluster)) (fun status =>
      deref (bs_Replicas (fe_Base fe)) (fun replicas =>
      let! '(status, err) := ClassifyPodsByStatus (dcr_Namespace cluster)
        (status <| cst_CoreConfigMapHashValue := newCmHash |>)
        (GenerateStatefulSetSelector cluster Component_FE) replicas Component_FE in
      Ret (set_fe_status (Some status) cluster, err)))
  end.

Definition ClearResources (cluster : Dcr) : op (Dcr * (bool * option goerr)) :=
  match FEStatus (dcr_Status cluster) with
  | None => Ret (cluster, (true, None))
  | Some _ =>
      let! err := RecycleResources cluster Component_FE in
      match err with
      | Some e => Ret (cluster, (false, Some e))
      | None =>
          match m_DeletionTimestamp (dcr_Meta cluster) with
          | None => Ret (cluster, (true, None))
          | Some _ => let! r := ClearCommonResources cluster Component_FE in Ret (cluster, r)
          end
      end
  end.
End DcrFe.
