(* ===== verification/DcrBe.v ===== *)
(** The BE and broker controllers of a DorisCluster
    ([src/pkg/controller/sub_controller/be] and [broker]).  The builders of the
    pod templates are arguments; they return the cluster too, into whose spec
    those of the code, in [DcrPods], write. *)

From Stdlib Require Import ZArith Lia Ascii.
From stdpp Require Import base list gmap strings.
From S2P Require Import Prelude GoStr KubeTypes DdcApi Client Mysql Resource External SubDefault.
From S2P Require Import DcrApi DcrResource DcrSub PodTemplate DcrFe.

Local Open Scope string_scope.
Local Open Scope Z_scope.
Local Open Scope dop_scope.

(** Clears a component that has a status and no spec any more. *)
Definition clear_when_removed {A} (dcr : Dcr) (status : option A) (c : ComponentType)
  : op (Dcr * (bool * option goerr)) :=
  match status with
  | None => Ret (dcr, (true, None))
  | Some _ =>
      match base_of dcr c with
      | None => let! r := ClearCommonResources dcr c in Ret (dcr, r)
      | Some _ => Ret (dcr, (true, None))
      end
  end.

Module Be.
Section Be.
Context `{External}.
Context (buildBEPodTemplateSpec : Dcr -> config -> op (Dcr * PodTemplateSpec)).

Definition prepareStatefulsetApply (dcr : Dcr) (oldStatus : ComponentStatus) : op (Dcr * option goerr) :=
  if decide (cst_Phase oldStatus = Available) then
    let! '(dcr, inject) := CheckRestartTimeAndInject dcr Component_BE in
    if inject then
      deref (BEStatus (dcr_Status dcr)) (fun status =>
        Ret (set_be_status (Some (set_phase Restarting status)) dcr, None))
    else Ret (dcr, None)
  else Ret (dcr, None).

Definition buildBEStatefulSet (dcr : Dcr) (cfg : config) : op (Dcr * StatefulSet) :=
  assert_ok (NewStatefulSet dcr cfg Component_BE) (fun st =>
  let! '(dcr, template) := buildBEPodTemplateSpec dcr cfg in
  Ret (dcr, st <| st_Template := template |>)).

Definition useNewDefaultValuesInStatefulset (st : StatefulSet) (est : option StatefulSet) : StatefulSet :=
  st <| st_Template := UseNewDefaultInitContainerImage (st_Template st) |>.

Definition Sync (dcr : Dcr) : op (Dcr * option goerr) :=
  match BeSpec_ (dcr_Spec dcr) with
  | None => Ret (dcr, None)
  | Some beSpec =>
      let oldStatus := default zeroComponentStatus (BEStatus (dcr_Status dcr)) in
      let! dcr := InitStatus dcr Component_BE in
      let! available := FeAvailable dcr in
      if negb available then Ret (dcr, None)
      else
        let! dcr :=
          if EnableRestartWhenConfigChange (dcr_Spec dcr)
          then CompareConfigmapAndTriggerRestart dcr oldStatus Component_BE
          else Ret dcr in
        let! '(cfg, err) := GetConfig (bs_ConfigMapInfo (be_Base beSpec)) (dcr_Namespace dcr) Component_BE in
        or_fail dcr err (
        check_component dcr Component_BE ;;;
        apply_services dcr Component_BE cfg (
        let! '(dcr, err) := prepareStatefulsetApply dcr oldStatus in
        or_fail dcr err (
        let! '(dcr, st) := buildBEStatefulSet dcr cfg in
        let! ready := PrepareReconcileResources dcr Component_BE in
        if ready then
          let! '(_, err) := apply_stateful_set st tt restricted_equal [useNewDefaultValuesInStatefulset] in
          Ret (dcr, err)
        else Ret (dcr, None))))
  end.

Definition UpdateComponentStatus (cluster : Dcr) : op (Dcr * option goerr) :=
  match BeSpec_ (dcr_Spec cluster) with
  | None => Ret (set_be_status None cluster, None)
  | Some be =>
      let! newCmHash := BuildCoreConfigmapStatusHash cluster Component_BE in
      deref (BEStatus (dcr_Status cluster)) (fun status =>
      deref (bs_Replicas (be_Base be)) (fun replicas =>
      let! '(status, err) := ClassifyPodsByStatus (dcr_Namespace cluster)
        (status <| cst_CoreConfigMapHashValue := newCmHash |>)
        (GenerateStatefulSetSelector cluster Component_BE) replicas Component_BE in
      Ret (set_be_status (Some status) cluster, err)))
  end.

Definition ClearResources (dcr : Dcr) : op (Dcr * (bool * option goerr)) :=
  clear_when_removed dcr (BEStatus (dcr_Status dcr)) Component_BE.
End Be.
End Be.

Module Broker.
Section Broker.
Context `{External}.
Context (buildBrokerPodTemplateSpec : Dcr -> config -> op (Dcr * PodTemplateSpec)).

Definition buildBKStatefulSet (dcr : Dcr) (cfg : config) : op (Dcr * StatefulSet) :=
  assert_ok (NewStatefulSet dcr cfg Component_Broker) (fun st =>
  let! '(dcr, template) := buildBrokerPodTemplateSpec dcr cfg in
  Ret (dcr, st <| st_Template := template |>)).

(** The comparison keeps the claim templates of the new StatefulSet. *)
Definition plain_equal (new old : StatefulSet) (u : unit) : op (StatefulSet * unit * bool) :=
  deref (StatefulSetDeepEqual new old false) (fun '(new, equal) => Ret (new, u, equal)).

Definition Sync (dcr : Dcr) : op (Dcr * option goerr) :=
  match BrokerSpec_ (dcr_Spec dcr) with
  | None => Ret (dcr, None)
  | Some brokerSpec =>
      let! available := FeAvailable dcr in
      if negb available then Ret (dcr, None)
      else
        let! '(cfg, err) := GetConfig (bs_ConfigMapInfo (bk_Base brokerSpec)) (dcr_Namespace dcr) Component_Broker in
        or_fail dcr err (
        check_component dcr Component_Broker ;;;
        assert_ok (BuildInternalService dcr Component_Broker cfg) (fun internalService =>
        let! err := ApplyService internalService ServiceDeepEqual in
        or_fail dcr err (
        let! '(dcr, st) := buildBKStatefulSet dcr cfg in
        let! '(_, err) := apply_stateful_set st tt plain_equal [] in
        Ret (dcr, err))))
  end.

(** The status of an earlier pass is kept, phase and time included. *)
Definition UpdateComponentStatus (cluster : Dcr) : op (Dcr * option goerr) :=
  match BrokerSpec_ (dcr_Spec cluster) with
  | None => Ret (set_broker_status None cluster, None)
  | Some broker =>
      let! now := call TimeNow in
      let bs := default
        (zeroComponentStatus <| cst_ComponentCondition :=
           mkCondition (GenerateComponentStatefulSetName cluster Component_Broker) Reconciling (mkTime now true) "" "" |>)
        (BrokerStatus (dcr_Status cluster)) in
      let bs := bs <| cst_AccessService := GenerateExternalServiceName cluster Component_Broker |> in
      deref (bs_Replicas (bk_Base broker)) (fun replicas =>
      let! '(bs, err) := ClassifyPodsByStatus (dcr_Namespace cluster) bs
        (GenerateStatefulSetSelector cluster Component_Broker) replicas Component_Broker in
      Ret (set_broker_status (Some bs) cluster, err))
  end.

Definition ClearResources (dcr : Dcr) : op (Dcr * (bool * option goerr)) :=
  clear_when_removed dcr (BrokerStatus (dcr_Status dcr)) Component_Broker.
End Broker.
End Broker.
