(* ===== verification/DcrCn.v ===== *)
(** The compute node controller of a DorisCluster
    ([src/pkg/controller/sub_controller/cn]) and its autoscaler.  The builder
    of the pod template is an argument; [DcrPods] has the code's. *)

From Stdlib Require Import ZArith Lia Ascii.
From stdpp Require Import base list gmap strings.
From S2P Require Import Prelude GoStr KubeTypes DdcApi Client Mysql Resource External SubDefault.
From S2P Require Import DcrApi DcrResource DcrSub PodTemplate DcrFe.

Local Open Scope string_scope.
Local Open Scope Z_scope.
Local Open Scope dop_scope.

(** ** autoscaler.go *)

Definition generateAutoScalerName (dcr : Dcr) : string :=
  GenerateComponentStatefulSetName dcr Component_CN +:+ "-autoscaler".

(** [version]: of the policy in the spec of the cluster. *)
Definition buildCnAutoscalerParams (scalerInfo : AutoScalingPolicy) (target : StatefulSet) (dcr : Dcr)
    (version : AutoScalerVersion) : PodAutoscalerParams :=
  mkAutoscalerParams version (st_Namespace target) (generateAutoScalerName dcr)
    (<[ComponentLabelKey := "autoscaler"]> (AddLabel ∅ (m_Labels (st_Meta target))))
    (st_Name target) (m_OwnerReferences (st_Meta target)) scalerInfo.

Section DcrCn.
Context `{External}.
Context (buildCnPodTemplateSpec : Dcr -> config -> op PodTemplateSpec).

(** ** controller.go *)

(** Unlike the other components', the error is returned. *)
Definition cn_GetConfig (configMapInfo : ConfigMapInfo) (namespace : string) : op (config * option goerr) :=
  k8s_GetConfig configMapInfo namespace Component_CN.
Definition getFeConfig (configMapInfo : ConfigMapInfo) (namespace : string) : op (config * option goerr) :=
  k8s_GetConfig configMapInfo namespace Component_FE.

Definition buildCnStatefulSet (dcr : Dcr) (cfg : config) : op StatefulSet :=
  assert_ok (NewStatefulSet dcr cfg Component_CN) (fun st =>
  let! template := buildCnPodTemplateSpec dcr cfg in
  Ret (st <| st_Template := template |>)).

Definition applyStatefulSet (st : StatefulSet) (autoscaler : bool) : op (option goerr) :=
  let! got := call (CGet KSts (st_Namespace st) (st_Name st)) in
  match got with
  | Er err => if IsNotFound err then CreateClientObject KSts st else Ret (Some err)
  | Ok est =>
      let excludeReplica := match st_Replicas st with None => negb autoscaler | Some _ => false end in
      deref (StatefulSetDeepEqual (RestrictConditionsEqual st est) est excludeReplica) (fun '(st, equal) =>
      if equal then Ret None
      else match st_Replicas st with
           | Some _ => UpdateClientObject KSts (MergeStatefulSets st est)
           | None => UpdateClientObject KSts (set_st_ResourceVersion (m_ResourceVersion (st_Meta est)) st)
           end)
  end.

(** An unknown version is a nil object: the update panics. *)
Definition deployAutoScaler (policy : AutoScalingPolicy) (target : StatefulSet) (dcr : Dcr)
    (version : AutoScalerVersion) : op (option goerr) :=
  let params := buildCnAutoscalerParams policy target dcr version in
  match pap_AutoscalerType params with
  | AutoScalerV1 => CreateOrUpdateClientObject KHpaV1 (buildAutoscalerV1 params)
  | AutoSclaerV2 => CreateOrUpdateClientObject KHpaV2 (buildAutoscalerV2 params)
  | AutoScalerOther _ => Panic "nil pointer dereference"
  end.

Definition set_scaler (cns : CnStatus) (h : option HorizontalScaler) (dcr : Dcr) : Dcr :=
  set_cn_status (Some (cns <| cns_HorizontalScaler := h |>)) dcr.

(** A not-found error of the deletion counts as done. *)
Definition DeleteAutoscaler_ (dcr : Dcr) : op (Dcr * option goerr) :=
  match CnStatus_ (dcr_Status dcr) with
  | None => Ret (dcr, None)
  | Some cns =>
      match cns_HorizontalScaler cns with
      | None => Ret (dcr, None)
      | Some h =>
          let! err := Client.DeleteAutoscaler (dcr_Namespace dcr) (hs_Name h) (hs_Version h) in
          let cleared := set_scaler cns (Some (mkHorizontalScaler "" (AutoScalerOther ""))) dcr in
          match err with
          | Some e => if IsNotFound e then Ret (cleared, None) else Ret (dcr, Some e)
          | None => Ret (cleared, None)
          end
      end
  end.

(** The older variant, without a caller. *)
Definition deleteAutoScaler (dcr : Dcr) : op (Dcr * option goerr) :=
  match CnStatus_ (dcr_Status dcr) with
  | None => Ret (dcr, None)
  | Some cns =>
      deref (cns_HorizontalScaler cns) (fun h =>
      if decide (hs_Name h = "") then Ret (dcr, None)
      else
        let! err := Client.DeleteAutoscaler (dcr_Namespace dcr) (hs_Name h) (hs_Version h) in
        match err with
        | Some e => if IsNotFound e then Ret (set_scaler cns None dcr, None) else Ret (dcr, Some e)
        | None => Ret (set_scaler cns None dcr, None)
        end)
  end.

(** The spec is read before it is found to be absent: a panic. *)
Definition ClearResources (dcr : Dcr) : op (Dcr * (bool * option goerr)) :=
  match CnStatus_ (dcr_Status dcr) with
  | None => Ret (dcr, (true, None))
  | Some _ =>
      deref (CnSpec_ (dcr_Spec dcr)) (fun spec =>
      let! dcr :=
        (if bool_decide (is_Some (cn_AutoScalingPolicy spec)) &&
            bool_decide (m_DeletionTimestamp (dcr_Meta dcr) = None)
         then Ret dcr
         else
           let! '(dcr, err) := DeleteAutoscaler_ dcr in
           match err with
           | Some e =>
               warn "AutoScalerDeleteFailed" ("cn autoscaler deleted failed." +:+ err_msg e) ;;;
               Ret dcr
           | None => Ret dcr
           end) in
      match CnSpec_ (dcr_Spec dcr) with
      | None => let! _ := ClearCommonResources dcr Component_CN in Ret (dcr, (true, None))
      | Some _ => Ret (dcr, (true, None))
      end)
  end.

Definition Sync (dcr : Dcr) : op (Dcr * option goerr) :=
  match CnSpec_ (dcr_Spec dcr) with
  | None => let! '(dcr, (_, err)) := ClearResources dcr in Ret (dcr, err)
  | Some cnSpec =>
      let! available := FeAvailable dcr in
      if negb available then Ret (dcr, None)
      else
        let! '(cfg, err) := cn_GetConfig (bs_ConfigMapInfo (cn_Base cnSpec)) (dcr_Namespace dcr) in
        or_fail dcr err (
        check_component dcr Component_CN ;;;
        apply_services dcr Component_CN cfg (
        let! st := buildCnStatefulSet dcr cfg in
        let! ready := PrepareReconcileResources dcr Component_CN in
        if negb ready then Ret (dcr, None)
        else
          let! err := applyStatefulSet st (bool_decide (is_Some (cn_AutoScalingPolicy cnSpec))) in
          or_fail dcr err (
          match cn_AutoScalingPolicy cnSpec with
          | Some policy =>
              let! _ := deployAutoScaler policy st dcr (asp_Version policy) in
              Ret (dcr, None)
          | None => Ret (dcr, None)
          end)))
  end.

Definition UpdateComponentStatus (cluster : Dcr) : op (Dcr * option goerr) :=
  match CnSpec_ (dcr_Spec cluster) with
  | None => Ret (set_cn_status None cluster, None)
  | Some spec =>
      let name := GenerateComponentStatefulSetName cluster Component_CN in
      let! now := call TimeNow in
      let cs := zeroComponentStatus <| cst_ComponentCondition :=
                  mkCondition name Reconciling (mkTime now true) "" "" |> in
      let scaler := (fun p => mkHorizontalScaler (generateAutoScalerName cluster) (asp_Version p)) <$>
                    cn_AutoScalingPolicy spec in
      let! got := call (CGet KSts (dcr_Namespace cluster) name) in
      match got with
      | Er _ =>
          warn "StatefulSetNotExist" ("the cn statefulset " +:+ name +:+ " not exist.") ;;;
          Ret (set_cn_status (Some (mkCnStatus cs scaler)) cluster, None)
      | Ok est =>
          deref (st_Replicas est) (fun replicas =>
          let! '(cs, err) := ClassifyPodsByStatus (dcr_Namespace cluster)
            (cs <| cst_AccessService := GenerateExternalServiceName cluster Component_CN |>)
            (GenerateStatefulSetSelector cluster Component_CN) replicas Component_CN in
          Ret (set_cn_status (Some (mkCnStatus cs scaler)) cluster, err))
      end
  end.
End DcrCn.
