(* ===== verification/DcrReconciler.v ===== *)
(** The reconciler of a DorisCluster
    ([src/pkg/controller/doriscluster_controller.go]) and the comparison of
    statuses ([controllers_utils.go]).

    The controllers of the components are an interface, a record of their
    operations; the code ranges over a map of them, so that every loop takes
    its own order of the same controllers. *)

From Stdlib Require Import ZArith Lia Ascii.
From stdpp Require Import base list gmap strings.
From S2P Require Import Prelude GoStr KubeTypes DdcApi Client Mysql Resource External SubDefault.
From S2P Require Import DcrApi DcrResource DcrSub DcrPods DcrFe.
From S2P Require DcrBe DcrCn DdcReconciler.

Local Open Scope string_scope.
Local Open Scope Z_scope.
Local Open Scope dop_scope.

Import DdcReconciler (Result, mkResult, noResult, after).

(** ** The interface of a sub-controller *)

Record SubController := mkSubController {
  sc_Sync : Dcr -> op (Dcr * option goerr);
  sc_ClearResources : Dcr -> op (Dcr * (bool * option goerr));
  sc_GetControllerName : string;
  sc_UpdateComponentStatus : Dcr -> op (Dcr * option goerr)
}.

(** ** Comparison of statuses *)

(** [sort.Strings] on both and an element-wise comparison. *)
Fixpoint str_leb (s t : string) : bool :=
  match s, t with
  | "", _ => true
  | String _ _, "" => false
  | String c s', String d t' =>
      if ch_code c <? ch_code d then true
      else if ch_code d <? ch_code c then false else str_leb s' t'
  end.
Fixpoint insert_string (s : string) (l : list string) : list string :=
  match l with
  | [] => [s]
  | t :: l' => if str_leb s t then s :: l else t :: insert_string s l'
  end.
Definition sort_Strings (l : list string) : list string := foldr insert_string [] l.

(** The comparison sorts the slices in place: the first list as it is left, and the verdict. *)
Definition equalSplice (e n : list string) : list string * bool :=
  if negb (length e =? length n)%nat then (e, false)
  else (sort_Strings e, bool_decide (sort_Strings e = sort_Strings n)).

(** The first status as the comparison leaves it, and whether the two differ. *)
Definition inconsistentComponentStatus (eStatus nStatus : option ComponentStatus)
  : option ComponentStatus * bool :=
  match eStatus, nStatus with
  | None, None => (None, false)
  | Some e, Some n =>
      if bool_decide (cst_ComponentCondition e <> cst_ComponentCondition n) ||
         bool_decide (cst_AccessService e <> cst_AccessService n)
      then (Some e, true)
      else
        let '(creating, same) := equalSplice (cst_CreatingMembers e) (cst_CreatingMembers n) in
        let e := e <| cst_CreatingMembers := creating |> in
        if negb same then (Some e, true) else
        let '(running, same) := equalSplice (cst_RunningMembers e) (cst_RunningMembers n) in
        let e := e <| cst_RunningMembers := running |> in
        if negb same then (Some e, true) else
        let '(failed, same) := equalSplice (cst_FailedMembers e) (cst_FailedMembers n) in
        (Some (e <| cst_FailedMembers := failed |>), negb same)
  | e, _ => (e, true)
  end.

Definition inconsistentHorizontalStatus (eh nh : option HorizontalScaler) : bool :=
  match eh, nh with
  | Some e, Some n => bool_decide (hs_Name e <> hs_Name n) || bool_decide (hs_Version e <> hs_Version n)
  | None, None => false
  | _, _ => true
  end.

(** An absent status is compared as a zero one when the other is present. *)
Definition inconsistentCnStatus (eStatus nStatus : option CnStatus) : option CnStatus * bool :=
  match eStatus, nStatus with
  | None, None => (None, false)
  | _, _ =>
      let status (s : option CnStatus) := match s with Some c => cns_Status c | None => zeroComponentStatus end in
      let '(e, differs) := inconsistentComponentStatus (Some (status eStatus)) (Some (status nStatus)) in
      (c ← eStatus; st ← e; Some (c <| cns_Status := st |>),
       differs || inconsistentHorizontalStatus (eStatus ≫= cns_HorizontalScaler) (nStatus ≫= cns_HorizontalScaler))
  end.

(** Stops at the first component that differs. *)
Definition inconsistentStatus (status : DcrStatus) (dcr : Dcr) : DcrStatus * bool :=
  let '(fe, differs) := inconsistentComponentStatus (FEStatus status) (FEStatus (dcr_Status dcr)) in
  let status := status <| FEStatus := fe |> in
  if differs then (status, true) else
  let '(be, differs) := inconsistentComponentStatus (BEStatus status) (BEStatus (dcr_Status dcr)) in
  let status := status <| BEStatus := be |> in
  if differs then (status, true) else
  let '(cn, differs) := inconsistentCnStatus (CnStatus_ status) (CnStatus_ (dcr_Status dcr)) in
  let status := status <| CnStatus_ := cn |> in
  if differs then (status, true) else
  let '(broker, differs) := inconsistentComponentStatus (BrokerStatus status) (BrokerStatus (dcr_Status dcr)) in
  (status <| BrokerStatus := broker |>, differs).

(** ** Watches *)

Definition map_pod (meta : ObjectMeta) : list (string * string) :=
  let dorisName := map_get (m_Labels meta) DorisClusterLabelKey in
  if decide (dorisName <> "") then [(m_Namespace meta, dorisName)] else [].

Definition has_doris_label (m : ObjectMeta) : bool := bool_decide (is_Some (m_Labels m !! DorisClusterLabelKey)).

Definition dcr_pod_predicate (e : DdcReconciler.pod_event) : bool :=
  match e with
  | DdcReconciler.PodCreate m | DdcReconciler.PodDelete m => has_doris_label m
  | DdcReconciler.PodUpdate old _ same => has_doris_label old && negb same
  end.

(** types.NamespacedName.String *)
Definition namespaced_name (ns name : string) : string := ns +:+ "/" +:+ name.

Definition map_config_map (watched : strmap) (meta : ObjectMeta) : list (string * string) :=
  match watched !! namespaced_name (m_Namespace meta) (m_Name meta) with
  | Some dcrNamespacedNameStr =>
      match Split dcrNamespacedNameStr "/" with
      | [ns; name] => [(ns, name)]
      | _ => []
      end
  | None => []
  end.

Definition config_map_predicate (watched : strmap) (meta : ObjectMeta) : bool :=
  bool_decide (is_Some (watched !! namespaced_name (m_Namespace meta) (m_Name meta))).

(** The core config maps of a cluster that restarts on their change. *)
Definition watch_config_maps (dcr : Dcr) (watched : strmap) : strmap :=
  if EnableRestartWhenConfigChange (dcr_Spec dcr) then
    map_fold (fun _ cm watched =>
      <[namespaced_name (dcr_Namespace dcr) cm := namespaced_name (dcr_Namespace dcr) (dcr_Name dcr)]> watched)
      watched (GetDorisCoreConfigMapNames dcr)
  else watched.

(** ** Loops over the controllers *)

(** Stops at the first error. *)
Fixpoint until_failure (f : SubController -> Dcr -> op (Dcr * option goerr)) (scs : list SubController) (dcr : Dcr)
  : op (Dcr * option goerr) :=
  match scs with
  | [] => Ret (dcr, None)
  | rc :: rest =>
      let! '(dcr, err) := f rc dcr in
      match err with
      | Some e => Ret (dcr, Some e)
      | None => until_failure f rest dcr
      end
  end.

(** The results are ignored. *)
Fixpoint clear_all (scs : list SubController) (dcr : Dcr) : op Dcr :=
  match scs with
  | [] => Ret dcr
  | rc :: rest => let! '(dcr, _) := sc_ClearResources rc dcr in clear_all rest dcr
  end.
Definition clearNoEffectResources (scs : list SubController) (cluster : Dcr) : op Dcr := clear_all scs cluster.
Definition resourceClean (scs : list SubController) (dcr : Dcr) : op Dcr := clear_all scs dcr.

(** ** Writing back *)

Definition updateDorisCluster (dcr : Dcr) : op (Dcr * option goerr) := ApplyDorisCluster dcr.

Definition fe_replicas (dcr : Dcr) : option Z := base_of dcr Component_FE ≫= bs_Replicas.

(** The updated cluster as it is left, and the error. *)
Definition revertDorisClusterSomeFields (getDcr updatedDcr : Dcr) : op (Dcr * option goerr) :=
  deref (fe_replicas getDcr) (fun old =>
  deref (fe_replicas updatedDcr) (fun new =>
    if negb (old =? new) then ApplyDorisCluster updatedDcr else Ret (updatedDcr, None))).

(** Whether a component with a spec has a status that is not available; [None]
    is the panic on an absent status. *)
Definition waits {A} (spec : option A) (status : option ComponentStatus) : option bool :=
  match spec with
  | None => Some false
  | Some _ => s ← status; Some (bool_decide (cst_Phase s <> Available))
  end.
Definition reconcile (dcr : Dcr) : option bool :=
  let spec := dcr_Spec dcr in
  let status := dcr_Status dcr in
  fe ← waits (FeSpec_ spec) (FEStatus status);
  if (fe : bool) then Some true else
  be ← waits (BeSpec_ spec) (BEStatus status);
  if (be : bool) then Some true else
  cn ← waits (CnSpec_ spec) (cns_Status <$> CnStatus_ status);
  if (cn : bool) then Some true else
  waits (BrokerSpec_ spec) (BrokerStatus status).

(** retry.DefaultBackoff: four attempts with the same object. *)
Fixpoint update_attempts (steps : nat) (edcr : Dcr) : op (option goerr) :=
  match steps with
  | O => Ret None
  | S n =>
      let! err := call (DcrStatusUpdate edcr) in
      match err with
      | Some e =>
          if IsConflict e then match n with O => Ret (Some e) | _ => update_attempts n edcr end
          else Ret (Some e)
      | None => Ret None
      end
  end.

Definition updateDorisClusterStatus (dcr : Dcr) : op (Result * option goerr) :=
  let! got := call (CGet KDcr (dcr_Namespace dcr) (dcr_Name dcr)) in
  match got with
  | Er err => Ret (noResult, Some err)
  | Ok edcr =>
      let '(status, differs) := inconsistentStatus (dcr_Status dcr) edcr in
      let dcr := dcr <| dcr_Status := status |> in
      let write :=
        let! err := update_attempts 4 (edcr <| dcr_Status := dcr_Status dcr |>) in
        Ret (noResult, err) in
      if differs then write
      else deref (reconcile dcr) (fun wait => if wait then Ret (after 5, None) else write)
  end.

(** ** Reconcile *)

(** [sync_order], [clear_order], [status_order]: the orders of the loops over
    the map.  The config maps watched are those of the reconciler. *)
Definition Reconcile (sync_order clear_order status_order : list SubController) (ns name : string)
    (watched : strmap) : op (strmap * (Result * option goerr)) :=
  let! got := call (CGet KDcr ns name) in
  match got with
  | Er err => if IsNotFound err then Ret (watched, (noResult, None)) else Ret (watched, (noResult, Some err))
  | Ok edcr =>
      match m_DeletionTimestamp (dcr_Meta edcr) with
      | Some _ => let! _ := resourceClean clear_order edcr in Ret (watched, (noResult, None))
      | None =>
          let watched := watch_config_maps edcr watched in
          let! '(dcr, err) := until_failure sc_Sync sync_order edcr in
          match err with
          | Some e => Ret (watched, (noResult, Some e))
          | None =>
              let! dcr := clearNoEffectResources clear_order dcr in
              let! '(dcr, err) := until_failure sc_UpdateComponentStatus status_order dcr in
              match err with
              | Some e => Ret (watched, (noResult, Some e))
              | None =>
                  let! '(dcr, err) := revertDorisClusterSomeFields edcr dcr in
                  match err with
                  | Some e => Ret (watched, (noResult, Some e))
                  | None => let! r := updateDorisClusterStatus dcr in Ret (watched, r)
                  end
              end
          end
      end
  end.

(** ** The controllers of the operator *)

Section controllers.
Context `{External}.

(** The builders of the pod templates are arguments of the controllers. *)
Definition feController (fe_template : Dcr -> config -> op PodTemplateSpec) : SubController :=
  mkSubController (DcrFe.Sync fe_template) DcrFe.ClearResources "feController" DcrFe.UpdateComponentStatus.
Definition beController (be_template : Dcr -> config -> op (Dcr * PodTemplateSpec)) : SubController :=
  mkSubController (DcrBe.Be.Sync be_template) DcrBe.Be.ClearResources "beController" DcrBe.Be.UpdateComponentStatus.
Definition cnController (cn_template : Dcr -> config -> op PodTemplateSpec) : SubController :=
  mkSubController (DcrCn.Sync cn_template) DcrCn.ClearResources "cnController" DcrCn.UpdateComponentStatus.
Definition brokerController (broker_template : Dcr -> config -> op (Dcr * PodTemplateSpec)) : SubController :=
  mkSubController (DcrBe.Broker.Sync broker_template) DcrBe.Broker.ClearResources "brokerController"
    DcrBe.Broker.UpdateComponentStatus.

Definition Scs : list SubController :=
  [feController buildFEPodTemplateSpec; beController buildBEPodTemplateSpec; cnController buildCnPodTemplateSpec;
   brokerController buildBrokerPodTemplateSpec].
End controllers.
