(* ===== verification/GracefulSpec.v ===== *)
(** The abstract machine of a graceful action, and the refinement theorem: one
    run of [runGracefulStateMachine], whatever the API server, the containers
    and Doris answer, is one step of it.  The invariants of an action follow
    by induction on the steps of the machine. *)

From Stdlib Require Import ZArith Lia.
From stdpp Require Import base list relations gmap strings.
From S2P Require Import Prelude GoStr Json KubeTypes DdcApi Client Traces Mysql Resource External SubDefault.
From S2P Require Import PrepareModify Quiet GracefulCodec Graceful.

Local Open Scope string_scope.
Local Open Scope Z_scope.
Local Open Scope dop_scope.

(** ** The abstract machine *)

(** What identifies the action: it never changes. *)
Definition same_action (ga ga' : GracefulAction) : Prop :=
  ga_Type ga' = ga_Type ga /\ ga_DesiredReplicas ga' = ga_DesiredReplicas ga.

(** The pod being processed and whether its drain was triggered. *)
Definition same_pod (ga ga' : GracefulAction) : Prop :=
  ga_CurrentPod ga' = ga_CurrentPod ga /\ ga_CurrentOrdinal ga' = ga_CurrentOrdinal ga /\
  ga_DrainTriggered ga' = ga_DrainTriggered ga.

(** No pod is being processed: the next pass selects one. *)
Definition idle (ga : GracefulAction) : Prop :=
  ga_Phase ga = GracefulPhaseTriggerDrain /\ ga_CurrentPod ga = "" /\ ga_CurrentOrdinal ga = 0 /\
  ga_DrainTriggered ga = false /\ ga_DeadlineAt ga = 0 /\ ga_StableBackendObservations ga = 0.

Inductive machine_step (ga ga' : GracefulAction) : Prop :=
| step_stay :
    ga_Phase ga' = ga_Phase ga -> same_pod ga ga' -> machine_step ga ga'
| step_drain :
    ga_Phase ga = GracefulPhaseTriggerDrain -> ga_Phase ga' = GracefulPhaseWaitDrain ->
    ga_DrainTriggered ga' = true -> machine_step ga ga'
| step_drained :
    ga_Phase ga = GracefulPhaseWaitDrain -> ga_Phase ga' = GracefulPhaseDeletePod ->
    same_pod ga ga' -> machine_step ga ga'
| step_replace :
    ga_Phase ga ∈ [GracefulPhaseTriggerDrain; GracefulPhaseWaitDrain; GracefulPhaseDeletePod] ->
    ga_Type ga = GracefulActionRollingUpdate -> ga_Phase ga' = GracefulPhaseWaitPodReady ->
    machine_step ga ga'
| step_ready :
    ga_Phase ga = GracefulPhaseWaitPodReady -> ga_Phase ga' = GracefulPhaseWaitBEAlive ->
    same_pod ga ga' -> machine_step ga ga'
| step_advance :
    ga_Phase ga = GracefulPhaseWaitBEAlive \/
    (ga_Phase ga ∈ [GracefulPhaseTriggerDrain; GracefulPhaseWaitDrain; GracefulPhaseDeletePod] /\
     ga_Type ga <> GracefulActionRollingUpdate) ->
    idle ga' -> machine_step ga ga'
| step_done :
    ga_Phase ga = GracefulPhaseTriggerDrain -> ga_CurrentPod ga = "" ->
    ga_Phase ga' = GracefulPhaseDone -> ga_CurrentPod ga' = "" -> machine_step ga ga'
| step_select :
    ga_Phase ga = GracefulPhaseTriggerDrain -> ga_CurrentPod ga = "" ->
    ga_Phase ga' = GracefulPhaseTriggerDrain -> ga_DrainTriggered ga' = false -> machine_step ga ga'.

(** A result refines the machine. *)
Definition refines (ga : GracefulAction) (r : GracefulAction * option goerr) : Prop :=
  same_action ga r.1 /\ machine_step ga r.1.

(** ** Lemmas *)

Lemma advance_idle ga : idle (advanceToNextPod ga).
Proof. done. Qed.
Lemma advance_same_action ga : same_action ga (advanceToNextPod ga).
Proof. done. Qed.

Lemma stay_same ga : refines ga (ga, None). Proof. by repeat constructor. Qed.
#[export] Hint Resolve advance_idle advance_same_action : dop.

Ltac in_list := rewrite !elem_of_cons; auto.

(** [refine_leaf] closes the goals of the branches of a handler. *)
Ltac refine_leaf :=
  match goal with |- refines _ _ => split; [by repeat split|] end;
  cbn [fst snd];
  first
  [ by (apply step_stay; repeat split)
  | by (apply step_drained; repeat split)
  | by (apply step_ready; repeat split)
  | by (apply step_drain)
  | by (apply step_done)
  | by (apply step_select)
  | by (apply step_replace; [in_list | done | done])
  | by (apply step_advance; [left | apply advance_idle])
  | by (apply step_advance; [right; split; [in_list | congruence] | apply advance_idle]) ].

Section refinement.
Context `{External}.

Lemma refresh_keeps est ga :
  let ga' := refreshRollingUpdateTargetRevision est ga in
  ga_Type ga' = ga_Type ga /\ ga_Phase ga' = ga_Phase ga /\ ga_CurrentPod ga' = ga_CurrentPod ga /\
  ga_CurrentOrdinal ga' = ga_CurrentOrdinal ga /\ ga_DrainTriggered ga' = ga_DrainTriggered ga /\
  ga_DesiredReplicas ga' = ga_DesiredReplicas ga /\ ga_DeadlineAt ga' = ga_DeadlineAt ga.
Proof. unfold refreshRollingUpdateTargetRevision. by repeat case_decide. Qed.

(** The fields that recording a generation and draining leave alone. *)
Definition recorded (ga ga' : GracefulAction) : Prop :=
  same_action ga ga' /\ ga_CurrentPod ga' = ga_CurrentPod ga /\
  ga_CurrentOrdinal ga' = ga_CurrentOrdinal ga /\ ga_Phase ga' = ga_Phase ga.

Lemma record_generation_spec cluster cgStatus pod ga :
  spec no_pod_delete (fun ga' => recorded ga ga' /\ ga_DrainTriggered ga' = ga_DrainTriggered ga)
    (record_generation cluster cgStatus pod ga).
Proof.
  unfold record_generation. eapply (spec_bind _ (fun _ => True)).
  - unfold getBackendByPodName. eapply spec_bind; [eauto with spec|]. intros [c|err] _; [|by apply spec_ret].
    apply with_close_spec; [done|]. eapply spec_bind; [eauto with spec|]. intros [l|err] _; spec_go.
  - intros [b|err] _; [|by apply spec_ret]. cbn -[backendProcessEpoch].
    destruct (backendProcessEpoch b) as [epoch []]; by apply spec_ret.
Qed.

Lemma drain_pod_spec cluster ga :
  spec no_pod_delete (fun ga' => recorded ga ga' /\ ga_DrainTriggered ga' = true) (drain_pod cluster ga).
Proof.
  unfold drain_pod. eapply spec_bind; [eauto with spec|]. intros [[out err] [e|]] _.
  - eapply spec_bind; [eauto with spec|]. intros [[out' err'] e'] _.
    eapply (spec_bind _ (fun _ => True)); [destruct e'; spec_go|]. intros _ _.
    apply spec_call; [done|]. intros _ _. by apply spec_ret.
  - eapply spec_bind; [eauto with spec|]. intros [[out' err'] e'] _.
    eapply (spec_bind _ (fun _ => True)); [destruct e'; spec_go|]. intros _ _.
    apply spec_call; [done|]. intros _ _. by apply spec_ret.
Qed.

(** What the selection returns: the pod is chosen only when there is none. *)
Definition selected (ga : GracefulAction) (s : selection) : Prop :=
  match s with
  | SelWait ga' => recorded ga ga' /\ ga_DrainTriggered ga' = ga_DrainTriggered ga /\ ga_CurrentPod ga = ""
  | SelNone ga' => recorded ga ga' /\ ga_CurrentPod ga = ""
  | SelPod ga' =>
      same_action ga ga' /\ ga_Phase ga' = ga_Phase ga /\
      (ga_CurrentPod ga <> "" /\ ga' = ga \/ ga_CurrentPod ga = "" /\ ga_DrainTriggered ga' = false)
  end.

Lemma selectNextRollingUpdatePod_quiet est ga : only quiet (selectNextRollingUpdatePod est ga).
Proof. unfold selectNextRollingUpdatePod. spec_go. Qed.
Lemma selectNextPod_quiet cgStatus est ga : only quiet (selectNextPod cgStatus est ga).
Proof.
  unfold selectNextPod. destruct (ga_Type ga); [apply selectNextRollingUpdatePod_quiet| | |]; spec_go.
Qed.
#[local] Hint Resolve selectNextPod_quiet selectNextRollingUpdatePod_quiet : spec.

Lemma select_current_spec cgStatus est ga : spec quiet (selected ga) (select_current cgStatus est ga).
Proof.
  unfold select_current. case_decide as Hpod.
  - repeat case_decide; first [by apply spec_ret | cbv zeta].
    + eapply spec_bind; [eauto with spec|]. intros [[n o]|] _; apply spec_ret; cbn; [|done].
      split; [done|]. split; [done|]. by right.
    + eapply spec_bind; [eauto with spec|]. intros [[n o]|] _; apply spec_ret; cbn; [|done].
      split; [done|]. split; [done|]. by right.
  - apply spec_ret. split; [done|]. split; [done|]. by left.
Qed.

Lemma handleTriggerDrain_refines cluster cgStatus est ga :
  ga_Phase ga = GracefulPhaseTriggerDrain ->
  spec no_pod_delete (refines ga) (handleTriggerDrain cluster cgStatus est ga).
Proof.
  intros Hp. unfold handleTriggerDrain.
  destruct (refresh_keeps est ga) as (Ht & Hph & Hpod & Hord & Hdr & Hdes & _).
  set (g0 := refreshRollingUpdateTargetRevision est ga) in *. clearbody g0.
  eapply spec_bind.
  { eapply spec_weaken; [apply select_current_spec | apply quiet_no_pod_delete | intros s Hs; exact Hs]. }
  intros [g1|g1|g1]; cbn [selected].
  - intros (([Ht1 Hd1] & Hp1 & Ho1 & Hph1) & Hdr1 & Hpe). apply spec_ret. split; [split; cbn; congruence|].
    apply step_stay; cbn; [congruence|]. repeat split; congruence.
  - intros (([Ht1 Hd1] & Hp1 & Ho1 & Hph1) & Hpe). apply spec_ret. split; [split; cbn; congruence|].
    apply step_done; cbn; congruence.
  - intros ([Ht1 Hd1] & Hph1 & Hsel). eapply (spec_bind _ (fun _ => True)); [unfold getPod; spec_go|].
    intros [pod|err] _.
    + eapply spec_bind; [apply record_generation_spec|]. intros g2 [([Ht2 Hd2] & Hp2 & Ho2 & Hph2) Hdr2].
      cbv zeta. apply spec_call; [done|]. intros now _. cbn [bind].
      set (g3 := g2 <| ga_StartedAt := now |> <| ga_DeadlineAt := _ |>).
      eapply (spec_bind _ (fun g => same_action ga g /\ ga_DrainTriggered g = true)).
      * destruct (ga_DrainTriggered g3) eqn:Edr.
        { apply spec_ret. split; [split; cbn; congruence | exact Edr]. }
        eapply spec_weaken; [apply drain_pod_spec | auto |].
        intros g (([Ht3 Hd3] & _) & Hg). split; [|done]. cbn in *. split; congruence.
      * intros g [[Hg1 Hg2] Hg3]. apply spec_ret. split; [by split|]. by apply step_drain.
    + destruct (IsNotFound err).
      * apply spec_ret. case_decide as Ety; (split; [split; cbn; congruence|]); cbn [fst].
        -- apply step_replace; [in_list | congruence | done].
        -- apply step_advance; [right; split; [in_list | congruence] | apply advance_idle].
      * apply spec_ret. split; [split; cbn; congruence|]. cbn [fst].
        destruct Hsel as [[Hne ->]|[He Hd]].
        -- apply step_stay; [congruence|]. repeat split; congruence.
        -- apply step_select; congruence.
Qed.

Lemma handleWaitDrain_refines cluster ga :
  ga_Phase ga = GracefulPhaseWaitDrain ->
  spec no_pod_delete (refines ga) (handleWaitDrain cluster ga).
Proof.
  intros Hp. unfold handleWaitDrain, getPod.
  repeat spec_step; try done; try case_decide; refine_leaf.
Qed.

(** Only the timer, the message and the observations change. *)
Definition kept (ga ga' : GracefulAction) : Prop :=
  same_action ga ga' /\ ga_Phase ga' = ga_Phase ga /\ same_pod ga ga'.

Lemma kept_trans g0 g1 g2 : kept g0 g1 -> kept g1 g2 -> kept g0 g2.
Proof.
  intros ([? ?] & ? & ? & ? & ?) ([? ?] & ? & ? & ? & ?). repeat split; congruence.
Qed.

Lemma kept_refines g0 g1 err : kept g0 g1 -> refines g0 (g1, err).
Proof. intros (Ha & Hp & Hs). split; [exact Ha|]. by apply step_stay. Qed.

Lemma refines_kept g0 g1 r : kept g0 g1 -> refines g1 r -> refines g0 r.
Proof.
  intros ([Ht Hd] & Hp & Hpod & Hord & Hdr) [[Ht' Hd'] Hstep].
  split; [split; congruence|].
  destruct Hstep as [? (? & ? & ?)| | ? ? (? & ? & ?)| ? ? ?| ? ? (? & ? & ?)|[?|[? ?]] ?| |].
  - apply step_stay; [congruence|]. repeat split; congruence.
  - apply step_drain; congruence.
  - apply step_drained; [congruence..|]. repeat split; congruence.
  - apply step_replace; [|congruence..]. by rewrite <- Hp.
  - apply step_ready; [congruence..|]. repeat split; congruence.
  - apply step_advance; [left; congruence | done].
  - apply step_advance; [right; split; [by rewrite <- Hp | congruence] | done].
  - apply step_done; congruence.
  - apply step_select; congruence.
Qed.

Lemma start_timer_spec timeout ga : spec no_pod_delete (kept ga) (start_timer timeout ga).
Proof. unfold start_timer. repeat spec_step; try done; by repeat split. Qed.
#[local] Hint Resolve start_timer_spec : spec.

Lemma ensure_timer_spec timeout ga : spec no_pod_delete (kept ga) (ensure_timer timeout ga).
Proof.
  unfold ensure_timer. case_decide; [apply start_timer_spec|]. apply spec_ret. by repeat split.
Qed.
#[local] Hint Resolve ensure_timer_spec : spec.

Lemma wait_replacement_spec what ga :
  spec no_pod_delete (fun r => kept ga r.1) (wait_replacement what ga).
Proof.
  unfold wait_replacement. repeat spec_step; done.
Qed.

Lemma handleWaitPodReady_refines cluster ga :
  ga_Phase ga = GracefulPhaseWaitPodReady ->
  spec no_pod_delete (refines ga) (handleWaitPodReady cluster ga).
Proof.
  intros Hp. unfold handleWaitPodReady, getPod.
  eapply spec_bind; [apply ensure_timer_spec|]. intros g1 Hk.
  assert (Hp1 : ga_Phase g1 = GracefulPhaseWaitPodReady) by (destruct Hk as (_ & -> & _); done).
  eapply (spec_bind _ (fun _ => True)); [spec_go|]. intros [pod|err] _.
  - destruct (PodIsReady _).
    + cbv zeta. apply spec_call; [done|]. intros _ _. apply spec_ret.
      eapply refines_kept; [exact Hk|]. refine_leaf.
    + eapply spec_weaken; [apply wait_replacement_spec | auto|].
      intros [g err] Hg. eapply refines_kept; [exact Hk | by apply kept_refines].
  - destruct (IsNotFound err).
    + eapply spec_weaken; [apply wait_replacement_spec | auto|].
      intros [g err'] Hg. eapply refines_kept; [exact Hk | by apply kept_refines].
    + apply spec_ret. by apply kept_refines.
Qed.

Lemma force_or_wait_refines m1 m2 ga :
  ga_Phase ga = GracefulPhaseWaitBEAlive ->
  spec no_pod_delete (refines ga) (force_or_wait m1 m2 ga).
Proof.
  intros Hp. unfold force_or_wait. apply (spec_bind _ (fun _ => True)).
  - case_decide; [by apply spec_ret | spec_go].
  - intros now _. destruct (_ && _); apply spec_ret; refine_leaf.
Qed.

Lemma getBackendByPodName_quiet cluster cgStatus podName :
  only quiet (getBackendByPodName cluster cgStatus podName).
Proof.
  unfold getBackendByPodName. eapply spec_bind; [eauto with spec|]. intros [c|err] _; [|by apply spec_ret].
  apply with_close_spec; [done|]. eapply spec_bind; [eauto with spec|]. intros [l|err] _; spec_go.
Qed.
#[local] Hint Resolve getBackendByPodName_quiet : spec.

Lemma observe_kept ga t e : kept ga (observe ga t e).
Proof. unfold observe. case_decide; by repeat split. Qed.

Lemma handleWaitBEAlive_refines cluster cgStatus ga :
  ga_Phase ga = GracefulPhaseWaitBEAlive ->
  spec no_pod_delete (refines ga) (handleWaitBEAlive cluster cgStatus ga).
Proof.
  intros Hp. unfold handleWaitBEAlive.
  eapply spec_bind; [apply ensure_timer_spec|]. intros g1 Hk.
  assert (Hp1 : ga_Phase g1 = GracefulPhaseWaitBEAlive) by (destruct Hk as (_ & -> & _); done).
  eapply spec_weaken with (P := no_pod_delete) (R := refines g1);
    [|done|intros r Hr; eapply refines_kept; [exact Hk | exact Hr]].
  eapply spec_bind; [eauto with spec|]. intros [backend|err] _; [|by apply force_or_wait_refines].
  destruct (backendIsShutdown backend) as [shutdown|err]; [|by apply force_or_wait_refines].
  cbv zeta. destruct (_ && _); [|by apply force_or_wait_refines].
  assert (Ho := observe_kept g1 (backendLastStartTime backend) (backendProcessEpoch backend).1).
  destruct (_ <=? _).
  - apply spec_call; [done|]. intros _ _. apply spec_ret. cbn [fst].
    eapply refines_kept; [exact Ho|]. split; [done|]. apply step_advance; [left | apply advance_idle].
    destruct Ho as (_ & -> & _). exact Hp1.
  - apply spec_ret. eapply refines_kept; [exact Ho|]. apply kept_refines. by repeat split.
Qed.
(** *** DeletePod *)

Definition after_delete (ga ga' : GracefulAction) : Prop :=
  match ga_Type ga with
  | GracefulActionRollingUpdate =>
      ga_Phase ga' = GracefulPhaseWaitPodReady /\ ga_CurrentPod ga' = ga_CurrentPod ga
  | GracefulActionScaleDown | GracefulActionDelete => idle ga'
  | GracefulActionOther _ => ga' = ga
  end /\ same_action ga ga'.

Lemma updateStatefulSetReplicas_spec est n : only no_pod_delete (updateStatefulSetReplicas est n).
Proof. unfold updateStatefulSetReplicas. spec_go. Qed.
#[local] Hint Resolve updateStatefulSetReplicas_spec : spec.

Lemma afterPodDeleted_spec est ga : spec no_pod_delete (after_delete ga) (afterPodDeleted est ga).
Proof.
  unfold afterPodDeleted, after_delete. destruct (ga_Type ga) eqn:Et; spec_go; by rewrite ?Et.
Qed.

Lemma after_delete_refines ga ga' err :
  ga_Phase ga = GracefulPhaseDeletePod -> after_delete ga ga' -> refines ga (ga', err).
Proof.
  intros Hp [Ha Hs]. split; [exact Hs|]. cbn [fst]. destruct (ga_Type ga) eqn:Et.
  - apply step_replace; [rewrite Hp; in_list | done | apply Ha].
  - apply step_advance; [right; split; [rewrite Hp; in_list | congruence] | done].
  - apply step_advance; [right; split; [rewrite Hp; in_list | congruence] | done].
  - subst ga'. by apply step_stay.
Qed.

(** The pod that was fetched under the recorded name, and no other, is deleted. *)
Definition deletes_current (ns : string) (ga : GracefulAction) (tr : trace) : Prop :=
  omap pod_delete tr = [] \/
  exists pod, omap pod_delete tr = [pod] /\ Ev (CGet KPod ns (ga_CurrentPod ga)) (Ok pod) ∈ tr.

Lemma wp_after_delete est ga (err : option goerr) Q :
  (forall tr ga', Forall no_pod_delete tr -> after_delete ga ga' -> Q tr (Done (ga', err))) ->
  (forall tr w, Forall no_pod_delete tr -> Q tr (Crashed w)) ->
  wp (bind (afterPodDeleted est ga) (fun ga' => Ret (ga', err))) Q.
Proof.
  intros Hd Hc. apply wp_bind. eapply wp_mono; [apply afterPodDeleted_spec|].
  intros tr [ga'|w] [Htr Ho]; cbn; [rewrite app_nil_r; auto | auto].
Qed.

Lemma handleDeletePod_wp cluster est ga :
  ga_Phase ga = GracefulPhaseDeletePod ->
  wp (handleDeletePod cluster est ga)
    (fun tr o => deletes_current (ddc_Namespace cluster) ga tr /\ returns (refines ga) o).
Proof.
  intros Hp. unfold handleDeletePod, getPod. intros [pod|err]; cbn [bind].
  - intros [err|]; cbn [bind].
    + destruct (IsNotFound err).
      * apply wp_after_delete; intros tr ? Htr; cbn -[elem_of]; (split; [|try done]).
        -- right; exists pod. cbn. rewrite omap_none by done. split; [done|]. by left.
        -- by apply after_delete_refines.
        -- right; exists pod. cbn. rewrite omap_none by done. split; [done|]. by left.
      * cbn. split; [right; exists pod; split; [done | by left]|]. by apply kept_refines.
    + intros []. cbn [bind].
      apply wp_after_delete; intros tr ? Htr; cbn -[elem_of]; (split; [|try done]).
      * right; exists pod. cbn. rewrite omap_none by done. split; [done|]. by left.
      * by apply after_delete_refines.
      * right; exists pod. cbn. rewrite omap_none by done. split; [done|]. by left.
  - destruct (IsNotFound err).
    + apply wp_after_delete; intros tr ? Htr; cbn -[elem_of]; (split; [|try done]).
      * left. cbn. by rewrite omap_none.
      * by apply after_delete_refines.
      * left. cbn. by rewrite omap_none.
    + cbn. split; [by left|]. by apply kept_refines.
Qed.

Lemma no_delete_current ns ga tr : Forall no_pod_delete tr -> deletes_current ns ga tr.
Proof. intros H'; left; by apply omap_none. Qed.

(** ** The state machine *)

(** One run refines one step of the machine; a pod is deleted only in the
    phase for it, and it is the recorded one. *)
Lemma runGracefulStateMachine_wp cluster cgStatus est ga :
  wp (runGracefulStateMachine cluster cgStatus est ga)
    (fun tr o => (deletes_current (ddc_Namespace cluster) ga tr /\
                  (omap pod_delete tr <> [] -> ga_Phase ga = GracefulPhaseDeletePod)) /\
                 returns (refines ga) o).
Proof.
  assert (Hspec : forall p : op (GracefulAction * option goerr), spec no_pod_delete (refines ga) p ->
    wp p (fun tr o => (deletes_current (ddc_Namespace cluster) ga tr /\
      (omap pod_delete tr <> [] -> ga_Phase ga = GracefulPhaseDeletePod)) /\ returns (refines ga) o)).
  { intros p Hp. eapply wp_mono; [exact Hp|]. intros tr o [Htr Ho]. split; [|done]. split.
    - by apply no_delete_current.
    - by rewrite omap_none. }
  unfold runGracefulStateMachine. destruct (ga_Phase ga) eqn:Ep.
  - by apply Hspec, handleTriggerDrain_refines.
  - by apply Hspec, handleWaitDrain_refines.
  - eapply wp_mono; [by apply handleDeletePod_wp|]. intros tr o [Hd Ho]. by repeat split.
  - by apply Hspec, handleWaitPodReady_refines.
  - by apply Hspec, handleWaitBEAlive_refines.
  - apply Hspec, spec_ret, stay_same.
  - apply Hspec, spec_ret, stay_same.
  - apply Hspec, spec_ret. by apply kept_refines.
Qed.

(** ** The target revision *)

(** The revision that an action goes for: while it selects pods, a rolling
    update follows the revision of the StatefulSet, once there is one. *)
Definition target_after (est : StatefulSet) (ga : GracefulAction) : string :=
  if decide (ga_Phase ga = GracefulPhaseTriggerDrain /\ ga_Type ga = GracefulActionRollingUpdate /\
             st_UpdateRevision est <> "")
  then st_UpdateRevision est else ga_TargetRevision ga.

Definition aims (target : string) (ga : GracefulAction) : Prop := ga_TargetRevision ga = target.

Lemma record_generation_aims cluster cgStatus pod ga t : aims t ga ->
  result (aims t) (record_generation cluster cgStatus pod ga).
Proof.
  intros Ht. unfold record_generation. eapply (spec_bind _ (fun _ => True)).
  - apply only_any.
  - intros [b|err] _; [|by apply spec_ret]. cbn -[backendProcessEpoch].
    destruct (backendProcessEpoch b) as [epoch []]; by apply spec_ret.
Qed.

Lemma drain_pod_aims cluster ga t : aims t ga -> result (aims t) (drain_pod cluster ga).
Proof.
  intros Ht. assert (Hany : forall A (p : op A), result (fun _ => True) p).
  { intros A p. apply wp_true. intros tr o. split; [by apply Forall_true | by destruct o]. }
  unfold drain_pod. eapply spec_bind; [apply Hany|]. intros [[out err] e] _.
  eapply spec_bind; [apply Hany|]. intros [[out' err'] e'] _. eapply spec_bind; [apply Hany|]. intros _ _.
  apply spec_call; [done|]. intros _ _. apply spec_ret. by destruct e.
Qed.

(** The revision that was waited for is the one of the StatefulSet: selecting
    a pod sets no other. *)
Lemma select_current_aims cgStatus est ga t : aims t ga ->
  (ga_Type ga = GracefulActionRollingUpdate -> t = "" -> st_UpdateRevision est = "") ->
  result (fun s => match s with SelWait g | SelNone g | SelPod g => aims t g end)
    (select_current cgStatus est ga).
Proof.
  intros Ht Hu. unfold select_current. case_decide; [|by apply spec_ret]. case_decide as Hr; [|cbv zeta].
  - destruct Hr as [Hty He]. rewrite decide_True; [by apply spec_ret|]. left. apply Hu; [done | congruence].
  - eapply (spec_bind _ (fun _ => True)); [apply only_any|].
    by intros [[n o]|] _; apply spec_ret.
Qed.

Lemma handleTriggerDrain_aims cluster cgStatus est ga : ga_Phase ga = GracefulPhaseTriggerDrain ->
  result (fun r => aims (target_after est ga) r.1) (handleTriggerDrain cluster cgStatus est ga).
Proof.
  intros Hp. unfold handleTriggerDrain.
  assert (Hg : aims (target_after est ga) (refreshRollingUpdateTargetRevision est ga) /\
    (ga_Type (refreshRollingUpdateTargetRevision est ga) = GracefulActionRollingUpdate ->
      target_after est ga = "" -> st_UpdateRevision est = "")).
  { unfold target_after, refreshRollingUpdateTargetRevision, aims. repeat case_decide; naive_solver. }
  destruct Hg as [Hg Hu]. set (g0 := refreshRollingUpdateTargetRevision est ga) in *. clearbody g0.
  eapply spec_bind; [by apply select_current_aims|]. intros [g1|g1|g1] H1; [by apply spec_ret..|].
  eapply (spec_bind _ (fun _ => True)); [apply only_any|]. intros [pod|err] _.
  - eapply spec_bind; [by apply record_generation_aims|]. intros g2 H2. cbv zeta.
    apply spec_call; [done|]. intros now _. cbn [bind].
    eapply (spec_bind _ (aims (target_after est ga))); [|intros g H3; by apply spec_ret].
    destruct (ga_DrainTriggered _); [by apply spec_ret | by apply drain_pod_aims].
  - destruct (IsNotFound err); apply spec_ret; [by case_decide | done].
Qed.

Lemma ensure_timer_aims timeout ga t : aims t ga -> result (aims t) (ensure_timer timeout ga).
Proof. intros Ht. unfold ensure_timer, start_timer. case_decide; repeat spec_step; done. Qed.

Lemma wait_replacement_aims what ga t : aims t ga ->
  result (fun r => aims t r.1) (wait_replacement what ga).
Proof.
  intros Ht. unfold wait_replacement, start_timer. apply spec_call; [done|]. intros now _.
  case_match; [|by apply spec_ret]. eapply spec_bind; [apply only_any|]. intros [] _.
  apply spec_call; [done|]. intros now' _. by apply spec_ret.
Qed.

Lemma force_or_wait_aims m1 m2 ga t : aims t ga ->
  result (fun r => aims t r.1) (force_or_wait m1 m2 ga).
Proof.
  intros Ht. unfold force_or_wait. apply (spec_bind _ (fun _ => True)); [apply only_any|].
  intros now _. destruct (_ && _); by apply spec_ret.
Qed.

Lemma handleWaitPodReady_aims cluster ga :
  result (fun r => aims (ga_TargetRevision ga) r.1) (handleWaitPodReady cluster ga).
Proof.
  unfold handleWaitPodReady, getPod. eapply spec_bind; [by apply ensure_timer_aims|]. intros g1 H1.
  eapply (spec_bind _ (fun _ => True)); [apply only_any|]. intros [pod|err] _.
  - destruct (PodIsReady _); [|by apply wait_replacement_aims]. cbv zeta. apply spec_call; [done|].
    intros _ _. by apply spec_ret.
  - destruct (IsNotFound err); [by apply wait_replacement_aims | by apply spec_ret].
Qed.

Lemma handleWaitBEAlive_aims cluster cgStatus ga :
  result (fun r => aims (ga_TargetRevision ga) r.1) (handleWaitBEAlive cluster cgStatus ga).
Proof.
  unfold handleWaitBEAlive. eapply spec_bind; [by apply ensure_timer_aims|]. intros g1 H1.
  eapply (spec_bind _ (fun _ => True)); [apply only_any|].
  intros [backend|err] _; [|by apply force_or_wait_aims].
  destruct (backendIsShutdown backend); [|by apply force_or_wait_aims].
  cbv zeta. destruct (_ && _); [|by apply force_or_wait_aims].
  assert (Ho : forall s e, aims (ga_TargetRevision ga) (observe g1 s e)) by (intros; unfold observe; by case_decide).
  destruct (_ <=? _); [apply spec_call; [done|]; intros _ _|]; apply spec_ret; apply Ho.
Qed.

Lemma afterPodDeleted_aims est ga (err : option goerr) :
  result (fun r => aims (ga_TargetRevision ga) r.1)
    (bind (afterPodDeleted est ga) (fun ga' => Ret (ga', err))).
Proof.
  eapply (spec_bind _ (aims (ga_TargetRevision ga))); [|intros g Hg; by apply spec_ret].
  unfold afterPodDeleted. destruct (ga_Type ga); [by apply spec_ret| | |by apply spec_ret];
    (eapply spec_bind; [apply only_any|]; intros [] _; by apply spec_ret).
Qed.

Lemma handleDeletePod_aims cluster est ga :
  result (fun r => aims (ga_TargetRevision ga) r.1) (handleDeletePod cluster est ga).
Proof.
  unfold handleDeletePod, getPod. apply spec_call; [done|]. intros [pod|err] _; cbn [bind].
  - apply spec_call; [done|]. intros [err|] _; cbn [bind].
    + destruct (IsNotFound err); [apply afterPodDeleted_aims | by apply spec_ret].
    + apply spec_call; [done|]. intros _ _. apply afterPodDeleted_aims.
  - destruct (IsNotFound err); [apply afterPodDeleted_aims | by apply spec_ret].
Qed.

(** One run sets the target that the phase and the StatefulSet call for. *)
Lemma runGracefulStateMachine_aims cluster cgStatus est ga :
  result (fun r => aims (target_after est ga) r.1) (runGracefulStateMachine cluster cgStatus est ga).
Proof.
  unfold runGracefulStateMachine. destruct (ga_Phase ga) eqn:Ep; [by apply handleTriggerDrain_aims|..];
    (assert (Ht : target_after est ga = ga_TargetRevision ga)
       by (unfold target_after; rewrite decide_False; [done | intros [? _]; congruence])); rewrite Ht.
  - unfold handleWaitDrain, getPod. repeat spec_step; try done; by case_decide.
  - apply handleDeletePod_aims.
  - apply handleWaitPodReady_aims.
  - apply handleWaitBEAlive_aims.
  - by apply spec_ret.
  - by apply spec_ret.
  - by apply spec_ret.
Qed.
End refinement.
