(* ===== verification/GracefulLemmas.v ===== *)
(** Lemmas on the steps of the graceful rollout that are not steps of the
    machine: detection, selection, the attempt to drain, the scale-down of the
    StatefulSet, the acceptance of a replacement, and the passes of the
    reconciler over one action. *)

From Stdlib Require Import ZArith Lia Ascii.
From stdpp Require Import base list relations gmap strings.
From S2P Require Import Prelude GoStr Json KubeTypes DdcApi Client Traces Mysql Resource External SubDefault.
From S2P Require Import PrepareModify Quiet GracefulCodec Graceful GracefulSpec.

Local Open Scope string_scope.
Local Open Scope Z_scope.
Local Open Scope dop_scope.

(** ** Ordinals *)

Lemma after_last_dash_app s t : has_char "-" t = false ->
  after_last_dash (s +:+ "-" +:+ t) = Some t.
Proof.
  intros Ht.
  assert (Hnone : after_last_dash t = None).
  { induction t as [|c t IH]; [done|]. cbn [has_char] in Ht.
    destruct (ascii_dec "-" c) as [|Hc]; [done|]. cbn [after_last_dash]. rewrite IH by done.
    destruct (ascii_dec c "-"); [congruence | done]. }
  induction s as [|c s IH]; [cbn [String.append after_last_dash]; by rewrite Hnone|].
  change (String c s +:+ "-" +:+ t) with (String c (s +:+ "-" +:+ t)). cbn [after_last_dash]. by rewrite IH.
Qed.

Lemma fold_digits_step_small a d : 0 <= a -> 0 <= d < 10 -> 10 * a + d < 2 ^ 63 ->
  int64 (int64 (a * 10) + (48 + d - 48) mod 256) = 10 * a + d.
Proof.
  intros Ha Hd Hb. rewrite Z.mod_small by lia.
  assert (Hin : forall n, 0 <= n < 2 ^ 63 -> int64 n = n).
  { intros n Hn. apply wrap_id; [lia|]. unfold in_int. apply andb_true_iff.
    split; [apply Z.leb_le | apply Z.ltb_lt]; cbn in *; lia. }
  rewrite (Hin (a * 10)) by lia. rewrite Hin by lia. lia.
Qed.

Lemma parse_digits_fold s a n : str_forallb is_digit s = true -> 0 <= a ->
  parse_digits s a = Some n -> n < 2 ^ 63 -> a <= n /\ fold_digits s a = n.
Proof.
  revert a; induction s as [|c s IH]; intros a Hs Ha Hp Hn; cbn in *; [simplify_eq; lia|].
  apply andb_true_iff in Hs as [Hc Hs]. rewrite Hc in Hp.
  assert (Hd : 0 <= ch_code c - 48 < 10).
  { unfold is_digit in Hc. apply andb_true_iff in Hc as [H1 H2].
    apply Z.leb_le in H1, H2. lia. }
  destruct (IH (10 * a + (ch_code c - 48)) Hs ltac:(lia) Hp Hn) as [Hle Hf]. split; [lia|].
  replace (ch_code c - 48) with (48 + (ch_code c - 48) - 48) by lia.
  rewrite fold_digits_step_small by lia. exact Hf.
Qed.

Lemma extractOrdinal_name name n : 0 <= n < 2 ^ 63 ->
  extractOrdinal (name +:+ "-" +:+ Itoa n) = n.
Proof.
  intros Hn. unfold extractOrdinal, Itoa. destruct (Z.ltb_spec n 0); [lia|].
  rewrite after_last_dash_app by (apply digits_no_char; [done | apply dec_digits; lia]).
  apply (parse_digits_fold _ 0 n); [apply dec_digits; lia | lia | by apply parse_dec | lia].
Qed.

(** ** Sorting by ordinal *)

Lemma insert_desc_perm p l : insert_desc p l ≡ₚ p :: l.
Proof.
  induction l as [|q l IH]; cbn; [done|]. case_match; [done|].
  rewrite IH. apply Permutation_swap.
Qed.

Lemma foldl_insert_perm l acc : foldl (fun acc p => insert_desc p acc) acc l ≡ₚ app l acc.
Proof.
  revert acc; induction l as [|p l IH]; intros acc; cbn; [done|].
  rewrite IH, insert_desc_perm. by rewrite <- Permutation_middle.
Qed.

Lemma sort_desc_perm l : sort_desc l ≡ₚ l.
Proof. unfold sort_desc. by rewrite foldl_insert_perm, app_nil_r. Qed.

Definition ord (p : Pod) : Z := extractOrdinal (p_Name p).
Definition desc_head (l : list Pod) : Prop :=
  match l with [] => True | p :: _ => Forall (fun q => ord q <= ord p) l end.

Lemma insert_desc_head p l : desc_head l -> desc_head (insert_desc p l).
Proof.
  destruct l as [|q l]; cbn; [intros _; constructor; [lia | constructor]|].
  intros Hl. fold (ord p) (ord q). destruct (Z.ltb_spec (ord q) (ord p)) as [Hlt|Hge]; cbn.
  - constructor; [lia|]. eapply Forall_impl; [exact Hl|]. cbn; lia.
  - rewrite insert_desc_perm. apply Forall_cons in Hl as [Hq Hl]. by repeat constructor.
Qed.

Lemma sort_desc_head l : desc_head (sort_desc l).
Proof.
  unfold sort_desc. assert (H : desc_head []) by done. revert H. generalize (@nil Pod).
  induction l as [|p l IH]; intros acc Hacc; cbn; [done|]. by apply IH, insert_desc_head.
Qed.

Section lemmas.
Context `{External}.

(** ** Selection *)

(** The pod selected for a rolling update among the listed ones: an outdated
    one of the highest ordinal, if there is any. *)
Definition selects (targetRevision : string) (items : list Pod) (r : option (string * Z)) : Prop :=
  match r with
  | None => Forall (fun p => outdated targetRevision p = false) items
  | Some (name, ordinal) =>
      exists pod, pod ∈ items /\ outdated targetRevision pod = true /\ name = p_Name pod /\
        ordinal = int32 (ord pod) /\
        forall q, q ∈ items -> outdated targetRevision q = true -> ord q <= ord pod
  end.

Definition target_revision (est : StatefulSet) (ga : GracefulAction) : string :=
  if decide (ga_TargetRevision ga = "") then st_UpdateRevision est else ga_TargetRevision ga.

Lemma select_listed target items :
  selects target items
    match sort_desc (List.filter (outdated target) items) with
    | [] => None
    | pod :: _ => Some (p_Name pod, int32 (extractOrdinal (p_Name pod)))
    end.
Proof.
  assert (Hin : forall q, q ∈ sort_desc (List.filter (outdated target) items) <->
                          outdated target q = true /\ q ∈ items).
  { intros q. rewrite sort_desc_perm. rewrite list_elem_of_In, filter_In, list_elem_of_In. tauto. }
  pose proof (sort_desc_head (List.filter (outdated target) items)) as Hhead.
  destruct (sort_desc _) as [|pod l] eqn:E; cbn.
  - apply Forall_forall. intros q Hq. destruct (outdated target q) eqn:Eo; [|done].
    exfalso. apply (not_elem_of_nil q). by apply Hin.
  - cbn in Hhead. exists pod. destruct (proj1 (Hin pod)) as [Ho Hi]; [by left|].
    repeat split; [done..|]. intros q Hq Hqo. rewrite Forall_forall in Hhead. by apply Hhead, Hin.
Qed.

Lemma selectNextRollingUpdatePod_wp est ga :
  wp (selectNextRollingUpdatePod est ga) (fun tr o => forall r, o = Done r ->
    (exists items, omap pod_list tr = [items] /\ selects (target_revision est ga) items r) \/
    (r = None /\ omap pod_list tr = [])).
Proof.
  unfold selectNextRollingUpdatePod. fold (target_revision est ga).
  destruct (LabelSelectorAsSelector _); [cbn; intros r [= <-]; by right|].
  intros [items|err]; cbn [bind]; [|cbn; intros r [= <-]; by right].
  pose proof (select_listed (target_revision est ga) items) as Hs.
  destruct (sort_desc _); cbn; intros r [= <-]; left; by exists items.
Qed.

(** ** Detection *)

(** A freshly detected action. *)
Definition fresh (ga : GracefulAction) : Prop :=
  ga_Phase ga = GracefulPhaseTriggerDrain /\ ga_CurrentPod ga = "" /\ ga_DrainTriggered ga = false.

Lemma detectGracefulAction_spec st est cgStatus :
  spec quiet (fun a => match a with
                       | Some ga => fresh ga /\
                           (ga_Type ga = GracefulActionScaleDown /\ ga_DesiredReplicas ga = st_Replicas st \/
                            ga_Type ga = GracefulActionRollingUpdate)
                       | None => True
                       end) (detectGracefulAction st est cgStatus).
Proof.
  unfold detectGracefulAction. destruct (st_Replicas st) as [r|]; cbn [deref]; [|apply spec_panic].
  destruct (st_Replicas est) as [er|]; cbn [deref]; [|apply spec_panic].
  destruct (r <? er); [apply spec_ret; split; [done | by left]|].
  destruct (statefulSetSpecChanged st est); [apply spec_ret; split; [done | by right]|].
  case_decide; [|by apply spec_ret].
  eapply spec_bind; [apply selectNextRollingUpdatePod_quiet|].
  intros [[n o]|] _; apply spec_ret; [|done]. split; [done | by right].
Qed.

Lemma preferred_cases detected stored :
  preferred detected stored = stored \/
  exists ga, detected = Some ga /\ preferred detected stored = ga /\
    gracefulActionPriority (ga_Type stored) < gracefulActionPriority (ga_Type ga).
Proof.
  unfold preferred. destruct detected as [ga|]; [|by left].
  case_decide; [|by left]. destruct (Z.ltb_spec (gracefulActionPriority (ga_Type stored)) (gracefulActionPriority (ga_Type ga)));
    [right; by exists ga | by left].
Qed.

Lemma start_graceful_no_delete st est cluster cg cgStatus action :
  only no_pod_delete (start_graceful st est cluster cg cgStatus action).
Proof.
  unfold start_graceful. apply (spec_bind _ (fun _ => True)).
  - unfold supportsTerminatingSentinel. eapply spec_bind; [apply quiet_only_no_pod_delete, selectNextPod_quiet|].
    intros [[n o]|] _; spec_go.
  - intros [[] reason] _; spec_go.
Qed.

Lemma finish_graceful_no_delete st est cluster cg cgStatus ga :
  only no_pod_delete (finish_graceful st est cluster cg cgStatus ga).
Proof.
  unfold finish_graceful, shouldFinalizeGracefulAction, finalizeGracefulAction.
  apply (spec_bind _ (fun _ => True)).
  - destruct (ga_Type ga); try (by apply spec_ret).
    eapply spec_bind; [apply quiet_only_no_pod_delete, selectNextRollingUpdatePod_quiet|].
    intros; by apply spec_ret.
  - intros [] _; spec_go.
Qed.

(** The deletions of a pass, surrounded by calls that delete no pod. *)
Definition pass_deletes (cluster : Ddc) (est : StatefulSet) (tr : trace) : Prop :=
  omap pod_delete tr = [] \/
  exists ga pod, getGracefulAction est = Ok (Some ga) /\ ga_Phase ga = GracefulPhaseDeletePod /\
    omap pod_delete tr = [pod] /\
    Ev (CGet KPod (ddc_Namespace cluster) (ga_CurrentPod ga)) (Ok pod) ∈ tr.

Lemma pass_deletes_around cluster est tr0 tr tr1 :
  Forall no_pod_delete tr0 -> Forall no_pod_delete tr1 -> pass_deletes cluster est tr ->
  pass_deletes cluster est (app tr0 (app tr tr1)).
Proof.
  intros H0 H1. unfold pass_deletes. rewrite !omap_app, (omap_none _ tr0), (omap_none _ tr1) by done.
  cbn [app]. rewrite app_nil_r. intros [Hn|(ga & pod & Hg & Hp & Hd & Hin)]; [by left|].
  right; exists ga, pod. repeat split; try done. rewrite !elem_of_app. auto.
Qed.

Lemma pass_deletes_quiet cluster est tr : Forall no_pod_delete tr -> pass_deletes cluster est tr.
Proof. intros Htr; left; by apply omap_none. Qed.

Lemma preferred_phase detected stored :
  (forall ga, detected = Some ga -> fresh ga) ->
  ga_Phase (preferred detected stored) = GracefulPhaseDeletePod -> preferred detected stored = stored.
Proof.
  intros Hf Hp. destruct (preferred_cases detected stored) as [H'|(ga & Hd & E & _)]; [done|].
  destruct (Hf ga Hd) as (Hph & _). congruence.
Qed.

Lemma machine_pass_deletes cluster cgStatus est detected stored :
  getGracefulAction est = Ok (Some stored) -> (forall ga, detected = Some ga -> fresh ga) ->
  wp (runGracefulStateMachine cluster cgStatus est
        (refreshRollingUpdateTargetRevision est (preferred detected stored)))
     (fun tr _ => pass_deletes cluster est tr).
Proof.
  intros Hg Hf. eapply wp_mono; [apply runGracefulStateMachine_wp|].
  intros tr o [[[Hd|(pod & Hd & Hin)] Hp] _]; [by left|].
  destruct (refresh_keeps est (preferred detected stored)) as (_ & Hph & Hpod & _).
  specialize (Hp ltac:(by rewrite Hd)). rewrite Hph in Hp. rewrite Hpod in Hin.
  pose proof (preferred_phase _ _ Hf Hp) as E. rewrite E in *.
  right; exists stored, pod. by repeat split.
Qed.

Lemma gracefulRolloutReconcile_deletes st est cluster cg cgStatus :
  wp (gracefulRolloutReconcile st est cluster cg cgStatus) (fun tr _ => pass_deletes cluster est tr).
Proof.
  unfold gracefulRolloutReconcile. apply wp_bind.
  eapply wp_mono; [apply detectGracefulAction_spec|]. intros tr0 [action|w] [Htr0 Hact]; cbn [returns] in Hact;
    (assert (Hq0 : Forall no_pod_delete tr0) by (eapply Forall_impl; [exact Htr0 | apply quiet_no_pod_delete]));
    [|by apply pass_deletes_quiet].
  assert (Hnone : forall p : op rollout_result, only no_pod_delete p ->
            wp p (fun tr _ => pass_deletes cluster est (app tr0 tr))).
  { intros p Hp. eapply wp_mono; [exact Hp|]. intros tr o [Htr _]. by apply pass_deletes_quiet, Forall_app. }
  destruct (getGracefulAction est) as [[stored|]|err] eqn:Eget; cbv zeta.
  - apply wp_bind. eapply wp_mono.
    { apply (machine_pass_deletes _ _ _ action); [exact Eget|]. intros ga ->. apply Hact. }
    intros tr1 [[ga' [e|]]|w] Hd.
    + cbn. rewrite app_nil_r. rewrite <- (app_nil_r tr1). by apply pass_deletes_around.
    + case_decide.
      * eapply wp_mono; [apply finish_graceful_no_delete|]. intros tr o [Htr _]. by apply pass_deletes_around.
      * cbn. by apply pass_deletes_around.
    + rewrite <- (app_nil_r tr1). by apply pass_deletes_around.
  - destruct action as [a|]; apply Hnone; [apply start_graceful_no_delete | by apply spec_ret].
  - apply Hnone. by apply spec_ret.
Qed.
End lemmas.
