(* ===== verification/GracefulHistory.v ===== *)
(** The passes of the reconciler over one graceful action: what must have
    happened in the pod before it is deleted, which ordinals a scale-down may
    touch, and when a replacement backend is accepted. *)

From Stdlib Require Import ZArith Lia Ascii.
From stdpp Require Import base list relations gmap strings.
From S2P Require Import Prelude GoStr Json KubeTypes DdcApi Client Traces Mysql Resource External SubDefault.
From S2P Require Import PrepareModify Quiet GracefulCodec Graceful GracefulSpec GracefulLemmas.

Local Open Scope string_scope.
Local Open Scope Z_scope.
Local Open Scope dop_scope.

(** ** The attempt to drain *)

(** The graceful stop was run in the pod, or the failure to run it announced. *)
Definition drain_attempted (h : trace) (ns pod : string) : Prop :=
  (exists r, Ev (StreamExec ns pod beMainContainerName [stopBEGraceCommand; stopBEGraceArg] execTimeout) r ∈ h) \/
  (exists msg, Ev (REvent EventWarning "GracefulDrainExecFailed"
                ("Failed to exec stop_be.sh --grace on pod " +:+ pod +:+ ": " +:+ msg)) tt ∈ h).

Lemma attempted_app_l h h' ns pod : drain_attempted h ns pod -> drain_attempted (app h h') ns pod.
Proof. intros [[r Hr]|[m Hm]]; [left; exists r | right; exists m]; apply elem_of_app; by left. Qed.
Lemma attempted_app_r h h' ns pod : drain_attempted h' ns pod -> drain_attempted (app h h') ns pod.
Proof. intros [[r Hr]|[m Hm]]; [left; exists r | right; exists m]; apply elem_of_app; by right. Qed.
#[export] Hint Resolve attempted_app_l attempted_app_r : dop.

Section history.
Context `{External}.

(** An exec that reports no error ran the command. *)
Lemma ExecInPod_wp ns pod c cmd t :
  wp (ExecInPod ns pod c cmd t) (fun tr o => forall r, o = Done r -> r.2 = None ->
    exists x, Ev (StreamExec ns pod c cmd t) x ∈ tr).
Proof.
  unfold ExecInPod. intros [e|]; cbn [bind]; [cbn; intros r [= <-]; done|].
  intros [e|]; cbn [bind]; [cbn; intros r [= <-]; done|].
  intros x r _ _. exists x. right; right; left.
Qed.

Lemma drain_pod_attempts cluster ga :
  wp (drain_pod cluster ga) (fun tr o => forall ga', o = Done ga' ->
    ga_CurrentPod ga' = ga_CurrentPod ga /\
    drain_attempted tr (ddc_Namespace cluster) (ga_CurrentPod ga)).
Proof.
  unfold drain_pod. apply wp_bind. apply wp_true. intros tr0 [[[out err] serr]|w]; [|done].
  set (g := match serr with Some _ => ga | None => _ end).
  assert (Hg : ga_CurrentPod g = ga_CurrentPod ga) by (by destruct serr).
  cbv beta zeta. fold g. apply wp_bind. eapply wp_mono; [apply ExecInPod_wp|].
  intros tr1 [[[out' err'] [e|]]|w] Hex; [| |done]; rewrite Hg in *.
  - intros []. cbn. intros [] ga' [= <-]. split; [exact Hg|]. right. exists (err_msg e).
    rewrite !elem_of_app. right; right. rewrite Hg. left.
  - cbn. intros [] ga' [= <-]. split; [exact Hg|]. left. destruct (Hex _ eq_refl eq_refl) as [x Hx].
    exists x. rewrite !elem_of_app. right; by left.
Qed.

(** Entering [WaitDrain] from an undrained state took an attempt. *)
Lemma handleTriggerDrain_attempts cluster cgStatus est ga :
  ga_DrainTriggered ga = false ->
  wp (handleTriggerDrain cluster cgStatus est ga) (fun tr o => forall r, o = Done r ->
    ga_Phase r.1 = GracefulPhaseWaitDrain -> ga_Phase ga = GracefulPhaseTriggerDrain ->
    drain_attempted tr (ddc_Namespace cluster) (ga_CurrentPod r.1)).
Proof.
  intros Hdr. unfold handleTriggerDrain.
  destruct (refresh_keeps est ga) as (_ & Hph & _ & _ & Hdr0 & _).
  set (g0 := refreshRollingUpdateTargetRevision est ga) in *. clearbody g0.
  apply wp_bind. eapply wp_mono; [apply select_current_spec|].
  intros tr0 [s|w] [_ Hs]; [|done]. cbn [returns] in Hs. destruct s as [g1|g1|g1]; cbn [selected] in Hs.
  - destruct Hs as ((_ & _ & _ & Hp1) & _). cbn. intros r [= <-]. cbn. congruence.
  - cbn. intros r [= <-]. done.
  - destruct Hs as (_ & Hp1 & Hsel).
    assert (Hd1 : ga_DrainTriggered g1 = false) by (destruct Hsel as [[_ ->]|[_ ?]]; congruence).
    cbv beta. intros [pod|err]; cbn [bind].
    + apply wp_bind. eapply wp_mono; [apply record_generation_spec|].
      intros tr1 [g2|w] [_ Hg2]; [|done]. cbn [returns] in Hg2. destruct Hg2 as [_ Hd2]. cbv zeta.
      intros now. cbn [bind]. cbn [ga_DrainTriggered update_field].
      rewrite Hd2, Hd1. apply wp_bind. eapply wp_mono; [apply drain_pod_attempts|].
      intros tr2 [g4|w] Hg4; [|done]. destruct (Hg4 _ eq_refl) as [Hpod Hatt]. cbn.
      intros r [= <-] _ _. cbn. rewrite app_nil_r. rewrite Hpod.
      apply attempted_app_r. apply (attempted_app_r [_]), attempted_app_r, (attempted_app_r [_]). exact Hatt.
    + destruct (IsNotFound err); cbn; intros r [= <-]; cbn; [|congruence].
      by case_decide.
Qed.

(** ** Passes *)

Section passes.
Context (cluster : Ddc) (cgStatus : ComputeGroupStatus).

(** The calls of the passes so far and the stored action: a freshly detected
    action, after any history, or the stored result of a pass without error. *)
Inductive passes : trace -> GracefulAction -> Prop :=
| passes_start h ga : fresh ga -> passes h ga
| passes_step h ga est tr ga' :
    passes h ga ->
    exec (runGracefulStateMachine cluster cgStatus est (refreshRollingUpdateTargetRevision est ga)) tr (Done (ga', None)) ->
    passes (app h tr) (persisted ga').

Lemma persisted_keeps ga :
  ga_Type (persisted ga) = ga_Type ga /\ ga_Phase (persisted ga) = ga_Phase ga /\
  ga_CurrentPod (persisted ga) = ga_CurrentPod ga /\ ga_CurrentOrdinal (persisted ga) = ga_CurrentOrdinal ga /\
  ga_DrainTriggered (persisted ga) = ga_DrainTriggered ga /\
  ga_DesiredReplicas (persisted ga) = ga_DesiredReplicas ga.
Proof. done. Qed.

Lemma run_refines est ga tr ga' err :
  exec (runGracefulStateMachine cluster cgStatus est ga) tr (Done (ga', err)) -> refines ga (ga', err).
Proof. intros Hex. by apply (wp_exec _ _ (runGracefulStateMachine_wp cluster cgStatus est ga)) in Hex as [_ Hr]. Qed.

Definition drained_before (h : trace) (ga : GracefulAction) : Prop :=
  (ga_Phase ga ∈ [GracefulPhaseWaitDrain; GracefulPhaseDeletePod] ->
   drain_attempted h (ddc_Namespace cluster) (ga_CurrentPod ga)) /\
  (ga_Phase ga = GracefulPhaseTriggerDrain -> ga_DrainTriggered ga = false).

Lemma step_drained_before h est ga tr ga' :
  drained_before h ga ->
  exec (runGracefulStateMachine cluster cgStatus est ga) tr (Done (ga', None)) ->
  drained_before (app h tr) ga'.
Proof.
  intros [Ha Hd] Hex. destruct (run_refines _ _ _ _ _ Hex) as [_ Hstep]. cbn [fst] in Hstep.
  split.
  - intros Hin.
    destruct Hstep as [Hp (Hpod & _)|Hp Hp' _|Hp Hp' (Hpod & _)|_ _ Hp'|_ Hp' _|_ (Hp' & _)|_ _ Hp' _|_ _ Hp' _];
      try (rewrite Hp' in Hin; exfalso; clear -Hin; rewrite !elem_of_cons in Hin;
           by destruct Hin as [?|[?|?%elem_of_nil]]).
    + rewrite Hpod. apply attempted_app_l, Ha. by rewrite <- Hp.
    + apply attempted_app_r.
      unfold runGracefulStateMachine in Hex. rewrite Hp in Hex.
      exact (wp_exec _ _ (handleTriggerDrain_attempts cluster cgStatus est ga (Hd Hp)) _ _ Hex _ eq_refl Hp' Hp).
    + rewrite Hpod. apply attempted_app_l, Ha. rewrite Hp. in_list.
  - intros Hp'. destruct Hstep as [Hp (_ & _ & Hdr)|? Hq|? Hq|? ? Hq|? Hq|? (? & ? & ? & ? & _)|? ? Hq|]; try congruence.
    rewrite Hdr. apply Hd. congruence.
Qed.

Lemma refresh_drained_before h est ga :
  drained_before h ga -> drained_before h (refreshRollingUpdateTargetRevision est ga).
Proof.
  intros [Ha Hd]. destruct (refresh_keeps est ga) as (_ & Hph & Hpod & _ & Hdr & _).
  split; rewrite Hph; [rewrite Hpod | rewrite Hdr]; done.
Qed.

Lemma passes_drained_before h ga : passes h ga -> drained_before h ga.
Proof.
  induction 1 as [h ga (Hp & Hpod & Hdr)|h ga est tr ga' Hpass IH Hex].
  - split; [|done]. rewrite Hp, !elem_of_cons. by intros [?|[?|?%elem_of_nil]].
  - pose proof (step_drained_before _ _ _ _ _ (refresh_drained_before _ est _ IH) Hex) as [Ha Hd]. by split.
Qed.
End passes.

(** ** Scale-down *)

(** Every write of the replica count writes [n]. *)
Definition writes_replicas (n : Z) (e : event OpE) : Prop :=
  forall s, sts_write e = Some s -> st_Replicas s = Some n.

Lemma updateStatefulSetReplicas_writes est n : only (writes_replicas n) (updateStatefulSetReplicas est n).
Proof.
  unfold updateStatefulSetReplicas. apply spec_call; [done|]. intros [cur|err] _; [|by apply spec_ret].
  cbv zeta. destruct (st_Replicas cur); cbn [deref]; [|apply spec_panic].
  case_match; [by apply spec_ret|]. apply spec_call; [by intros r s [= <-]|]. intros r _. by apply spec_ret.
Qed.

Section scaling.
Context (stsName : string) (d : Z).

(** A scale-down to [d] is at an ordinal from [d] up, of the pod of that name. *)
Definition scaling (ga : GracefulAction) : Prop :=
  ga_Type ga = GracefulActionScaleDown /\ ga_DesiredReplicas ga = Some d /\
  (ga_CurrentPod ga <> "" ->
   ga_CurrentPod ga = stsName +:+ "-" +:+ Itoa (ga_CurrentOrdinal ga) /\ d <= ga_CurrentOrdinal ga) /\
  (ga_Phase ga ∈ [GracefulPhaseWaitDrain; GracefulPhaseDeletePod] -> ga_CurrentPod ga <> "").

Lemma fresh_scaling ga : fresh ga -> ga_Type ga = GracefulActionScaleDown ->
  ga_DesiredReplicas ga = Some d -> scaling ga.
Proof.
  intros (Hp & Hpod & _) Ht Hd. split; [done|]. split; [done|]. split; [by rewrite Hpod|].
  rewrite Hp, !elem_of_cons. by intros [?|[?|?%elem_of_nil]].
Qed.

Lemma pod_name_nonempty n : stsName +:+ "-" +:+ n <> "".
Proof. by destruct stsName. Qed.

Lemma select_current_scaling cgStatus est ga :
  cgs_StatefulsetName cgStatus = stsName -> scaling ga ->
  result (fun s => match s with
                   | SelPod ga' => ga_CurrentPod ga' <> "" /\ scaling ga'
                   | _ => True
                   end) (select_current cgStatus est ga).
Proof.
  intros Hsts (Ht & Hd & Hpod & Hph). unfold select_current. case_decide as Hnone.
  - rewrite decide_False by (intros [E _]; congruence). cbv zeta.
    unfold selectNextPod. rewrite Ht, Hd, Hsts.
    destruct (st_Replicas est) as [cr|]; cbn [deref]; [|apply spec_panic].
    destruct (Z.leb_spec cr d); [by apply spec_ret|]. apply spec_ret.
    split; [apply pod_name_nonempty|]. split; [done|]. split; [done|]. split.
    + intros _. split; [done|]. cbn. lia.
    + intros _. apply pod_name_nonempty.
  - apply spec_ret. split; [done|]. exact (conj Ht (conj Hd (conj Hpod Hph))).
Qed.

Lemma scaling_same_pod ga ga' :
  scaling ga -> same_action ga ga' -> same_pod ga ga' ->
  (ga_Phase ga' ∈ [GracefulPhaseWaitDrain; GracefulPhaseDeletePod] ->
   ga_Phase ga ∈ [GracefulPhaseWaitDrain; GracefulPhaseDeletePod]) -> scaling ga'.
Proof.
  intros (Ht & Hd & Hpod & Hph) [Ht' Hd'] (Hp' & Ho' & _) Hin.
  unfold scaling. rewrite Ht', Hd', Hp', Ho'. repeat split; try done; try (by apply Hpod). auto.
Qed.

Lemma scaling_idle ga ga' : scaling ga -> same_action ga ga' -> ga_CurrentPod ga' = "" ->
  ga_Phase ga' ∉ [GracefulPhaseWaitDrain; GracefulPhaseDeletePod] -> scaling ga'.
Proof.
  intros (Ht & Hd & _) [Ht' Hd'] Hp' Hph. split; [congruence|]. split; [congruence|].
  rewrite Hp'. split; [done|]. by intros ?%Hph.
Qed.

Lemma not_draining p : p <> GracefulPhaseWaitDrain -> p <> GracefulPhaseDeletePod ->
  p ∉ [GracefulPhaseWaitDrain; GracefulPhaseDeletePod].
Proof. intros H1 H2. rewrite !elem_of_cons. by intros [?|[?|?%elem_of_nil]]. Qed.

Lemma handleTriggerDrain_scaling cluster cgStatus est ga :
  cgs_StatefulsetName cgStatus = stsName -> scaling ga -> ga_Phase ga = GracefulPhaseTriggerDrain ->
  result (fun r => r.2 = None -> scaling r.1) (handleTriggerDrain cluster cgStatus est ga).
Proof.
  intros Hsts Hs Hp.
  assert (Href : refreshRollingUpdateTargetRevision est ga = ga).
  { unfold refreshRollingUpdateTargetRevision. destruct Hs as [-> _]. by rewrite decide_True. }
  unfold handleTriggerDrain. rewrite Href. cbv zeta.
  assert (Hsel := select_current_spec cgStatus est ga).
  assert (Hsc := select_current_scaling cgStatus est ga Hsts Hs).
  apply (spec_bind any_event (fun s => selected ga s /\
    match s with SelPod ga' => ga_CurrentPod ga' <> "" /\ scaling ga' | _ => True end)).
  { eapply wp_mono; [exact (wp_and _ _ _ Hsel Hsc)|]. intros tr [s|w] [[_ H1] [_ H2]]; cbn in *.
    - split; [by apply Forall_true | done].
    - split; [by apply Forall_true | done]. }
  intros [g1|g1|g1] [Hg Hg']; cbn [selected] in Hg.
  - apply spec_ret. intros _. destruct Hg as ((Ha & Hpod & Hord & Hph) & Hdr & _). cbn [fst].
    eapply scaling_same_pod; [exact Hs | exact Ha | by repeat split |]. by rewrite Hph.
  - apply spec_ret. intros _. destruct Hg as ((Ha & Hpod & Hord & Hph) & Hpe). cbn [fst].
    eapply scaling_idle; [exact Hs | exact Ha | cbn; congruence | by apply not_draining].
  - destruct Hg' as [Hne Hg1]. destruct Hg as (Ha & Hph & _).
    apply (spec_bind _ (fun _ => True)); [unfold getPod; spec_go|]. intros [pod|err] _.
    + eapply spec_bind; [eapply spec_weaken; [apply record_generation_spec | done | intros x Hx; exact Hx]|].
      intros g2 [(Ha2 & Hp2 & Ho2 & Hph2) Hdr2]. cbv zeta. apply spec_call; [done|]. intros now _. cbn [bind].
      apply (spec_bind _ (fun g => same_action g1 g /\ ga_CurrentPod g = ga_CurrentPod g1 /\
                                   ga_CurrentOrdinal g = ga_CurrentOrdinal g1)).
      * destruct (ga_DrainTriggered _).
        { apply spec_ret. exact (conj Ha2 (conj Hp2 Ho2)). }
        eapply spec_weaken; [apply drain_pod_spec | done|].
        intros g (([Ht3 Hd3] & Hp3 & Ho3 & _) & _). cbn in *. destruct Ha2. repeat split; cbn in *; congruence.
      * intros g ([Ht3 Hd3] & Hp3 & Ho3). apply spec_ret. intros _. cbn [fst].
        destruct Hg1 as (Ht1 & Hd1 & Hpod1 & _). split; [cbn; congruence|]. split; [cbn; congruence|].
        cbn. rewrite Hp3, Ho3. split; [exact Hpod1|]. done.
    + destruct (IsNotFound err).
      * apply spec_ret. intros _. rewrite decide_False by (destruct Hg1 as [-> _]; done). cbn [fst].
        eapply scaling_idle; [exact Hg1 | done | done | by apply not_draining].
      * apply spec_ret. cbn. done.
Qed.

(** A pass keeps the bound, and writes no replica count below it. *)
Lemma run_scaling cluster cgStatus est ga :
  cgs_StatefulsetName cgStatus = stsName -> scaling ga ->
  result (fun r => r.2 = None -> scaling r.1) (runGracefulStateMachine cluster cgStatus est ga).
Proof.
  intros Hsts Hs. destruct (decide (ga_Phase ga = GracefulPhaseTriggerDrain)) as [Hp|Hp].
  { unfold runGracefulStateMachine. rewrite Hp. by apply handleTriggerDrain_scaling. }
  eapply wp_mono; [apply runGracefulStateMachine_wp|].
  intros tr [[ga' err]|w] [_ Ho]; (split; [by apply Forall_true|]); [|done]. cbn in Ho |- *. intros _.
  destruct Ho as [Ha Hstep]. cbn [fst] in *.
  destruct Hstep as [Hq Hsame|?|Hq Hq' Hsame|_ Ht _|Hq Hq' Hsame|_ Hidle|?|?]; try done.
  - eapply scaling_same_pod; [exact Hs | done | done|]. by rewrite Hq.
  - eapply scaling_same_pod; [exact Hs | done | done|]. intros _. rewrite Hq. in_list.
  - destruct Hs as [Ht' _]. congruence.
  - eapply scaling_same_pod; [exact Hs | done | done|]. rewrite Hq'. intros Hin.
    by apply not_draining in Hin.
  - destruct Hidle as (Hph & Hpod & _). eapply scaling_idle; [exact Hs | done | done|].
    rewrite Hph. by apply not_draining.
Qed.
End scaling.

(** ** Acceptance of a replacement backend *)

Lemma backends_of_group_in cgid l acc r b :
  backends_of_group fmt_float json_err cgid l acc = Ok r -> b ∈ r -> b ∈ acc \/ b ∈ l.
Proof.
  revert acc; induction l as [|x l IH]; intros acc; cbn [backends_of_group].
  { intros [= <-]; by left. }
  destruct (Unmarshal_map _) as [m|]; [|done]. destruct (m !! _) as [v|]; [|done].
  intros Hr Hb. destruct (IH _ Hr Hb) as [Hin|Hin]; [|right; by right].
  case_decide; [|by left]. apply elem_of_app in Hin as [Hin|Hin]; [by left|].
  apply list_elem_of_singleton in Hin as ->. right; left.
Qed.

(** Doris reported the backend for the pod. *)
Definition reported (tr : trace) (podName : string) (b : Backend) : Prop :=
  exists l, l ∈ omap backends_shown tr /\ b ∈ l /\ backendMatchesPod b podName = true.

Lemma reported_app_l tr tr' pod b : reported tr pod b -> reported (app tr tr') pod b.
Proof. intros (l & Hl & ? & ?). exists l. rewrite omap_app, elem_of_app. auto. Qed.
Lemma reported_app_r tr tr' pod b : reported tr' pod b -> reported (app tr tr') pod b.
Proof. intros (l & Hl & ? & ?). exists l. rewrite omap_app, elem_of_app. auto. Qed.

Lemma find_spec {A} (f : A -> bool) l x : List.find f l = Some x -> x ∈ l /\ f x = true.
Proof. intros Hf. apply List.find_some in Hf as [Hin Hx]. by rewrite list_elem_of_In. Qed.

Lemma getBackendByPodName_wp cluster cgStatus podName :
  wp (getBackendByPodName cluster cgStatus podName) (fun tr o => forall b, o = Done (Ok b) -> reported tr podName b).
Proof.
  unfold getBackendByPodName. apply wp_bind, wp_true. intros tr0 [[c|err]|w]; [|done|done].
  apply with_close_wp, wp_bind. unfold GetBackendsByComputeGroupId, ShowBackends. intros [l|err]; cbn [bind call].
  - destruct (backends_of_group _ _ _ l []) as [bs|err] eqn:Eb; cbn.
    + destruct (List.find _ bs) as [b|] eqn:Ef; cbn; [|done].
      intros b' [= <-]. apply find_spec in Ef as [Hin Hm].
      destruct (backends_of_group_in _ _ _ _ _ Eb Hin) as [?%elem_of_nil|Hl]; [done|].
      exists l. split; [|done]. rewrite omap_app, elem_of_app. right. left.
    + done.
  - done.
Qed.

(** The deadline of the phase and a reading of the clock after it. *)
Definition deadline_passed (tr : trace) (ga : GracefulAction) : Prop :=
  exists deadline now, now ∈ omap time_read tr /\ deadline < now /\
    (deadline = ga_DeadlineAt ga /\ deadline <> 0 \/
     ga_DeadlineAt ga = 0 /\ exists t0, t0 ∈ omap time_read tr /\ deadline = t0 + aliveTimeout).

(** A backend of the pod that is alive with a new start time and, as far as it
    is known, a new epoch, and that the previous observation also saw. *)
Definition accepted (tr : trace) (ga : GracefulAction) : Prop :=
  exists b, reported tr (ga_CurrentPod ga) b /\ be_Alive b = true /\ backendIsShutdown b = Ok false /\
    acceptStartTime ga b = true /\ acceptEpoch ga b = true /\
    ga_ReplacementBackendStartTime ga = backendLastStartTime b /\
    ga_ReplacementBackendEpoch ga = (backendProcessEpoch b).1 /\
    1 <= ga_StableBackendObservations ga.

Lemma observe_enough ga t e :
  in_int 32 (ga_StableBackendObservations ga) = true ->
  requiredStableBackendObservations <= ga_StableBackendObservations (observe ga t e) ->
  ga_ReplacementBackendStartTime ga = t /\ ga_ReplacementBackendEpoch ga = e /\
  1 <= ga_StableBackendObservations ga.
Proof.
  unfold observe, requiredStableBackendObservations. intros Hin.
  case_decide as Hne; cbn; [lia|]. intros Hle.
  split; [destruct (decide (ga_ReplacementBackendStartTime ga = t)); [done | destruct Hne; by left]|].
  split; [destruct (decide (ga_ReplacementBackendEpoch ga = e)); [done | destruct Hne; by right]|].
  unfold in_int in Hin. apply andb_true_iff in Hin as [Hlo Hhi]. apply Z.leb_le in Hlo; apply Z.ltb_lt in Hhi.
  destruct (Z.le_gt_cases 1 (ga_StableBackendObservations ga)); [done|exfalso].
  unfold int32 in Hle. rewrite wrap_id in Hle; [lia | lia |].
  unfold in_int. apply andb_true_iff; split; [apply Z.leb_le | apply Z.ltb_lt]; cbn in *; lia.
Qed.

(** The clock of the phase: running, or started now. *)
Definition timer_of (tr : trace) (ga g1 : GracefulAction) : Prop :=
  g1 = ga /\ ga_DeadlineAt ga <> 0 \/
  ga_DeadlineAt ga = 0 /\ exists t0, t0 ∈ omap time_read tr /\
    g1 = ga <| ga_StartedAt := t0 |> <| ga_DeadlineAt := t0 + aliveTimeout |>.

Lemma ensure_timer_wp ga :
  wp (ensure_timer aliveTimeout ga) (fun tr o => forall g1, o = Done g1 -> timer_of tr ga g1).
Proof.
  unfold ensure_timer, start_timer. case_decide; cbn.
  - intros now g1 [= <-]. right. split; [done|]. exists now. split; [left | done].
  - intros g1 [= <-]. by left.
Qed.

Lemma timer_deadline tr tr' ga g1 now :
  timer_of tr ga g1 -> ga_DeadlineAt g1 < now -> now ∈ omap time_read tr' -> deadline_passed (app tr tr') ga.
Proof.
  intros Ht Hlt Hnow. exists (ga_DeadlineAt g1), now. rewrite omap_app, elem_of_app.
  split; [by right|]. split; [done|]. destruct Ht as [[-> Hd]|(Hd & t0 & Ht0 & ->)]; [by left|].
  right. split; [done|]. exists t0. split; [apply elem_of_app; by left | done].
Qed.

Definition advances (ga : GracefulAction) (r : GracefulAction * option goerr) : Prop :=
  ga_Phase r.1 = GracefulPhaseTriggerDrain.

Lemma force_or_wait_advances tr0 m1 m2 ga g1 :
  timer_of tr0 ga g1 -> ga_Phase g1 = GracefulPhaseWaitBEAlive ->
  wp (force_or_wait m1 m2 g1) (fun tr o => forall r, o = Done r -> advances ga r -> deadline_passed (app tr0 tr) ga).
Proof.
  intros Ht Hp. unfold force_or_wait, advances. case_decide as Hd.
  - cbn [bind]. rewrite bool_decide_true by done. cbn. intros r [= <-]. cbn. congruence.
  - cbn [bind call wp]. intros now. rewrite bool_decide_false by done. cbn [negb andb].
    destruct (Z.ltb_spec (ga_DeadlineAt g1) now) as [Hlt|]; cbn; intros r [= <-].
    + intros _. eapply timer_deadline; [done|done|]. left.
    + cbn. congruence.
Qed.

Lemma handleWaitBEAlive_accepts cluster cgStatus ga :
  ga_Phase ga = GracefulPhaseWaitBEAlive -> in_int 32 (ga_StableBackendObservations ga) = true ->
  wp (handleWaitBEAlive cluster cgStatus ga) (fun tr o => forall r, o = Done r -> advances ga r ->
    deadline_passed tr ga \/ accepted tr ga).
Proof.
  intros Hp Hin. unfold handleWaitBEAlive. apply wp_bind. eapply wp_mono; [apply ensure_timer_wp|].
  intros tr0 [g1|w] Ht; [|done]. specialize (Ht _ eq_refl).
  assert (Hkeep : ga_Phase g1 = GracefulPhaseWaitBEAlive /\ ga_CurrentPod g1 = ga_CurrentPod ga /\
    ga_InitialBackendStartTime g1 = ga_InitialBackendStartTime ga /\
    ga_InitialBackendEpoch g1 = ga_InitialBackendEpoch ga /\
    ga_ReplacementBackendStartTime g1 = ga_ReplacementBackendStartTime ga /\
    ga_ReplacementBackendEpoch g1 = ga_ReplacementBackendEpoch ga /\
    ga_StableBackendObservations g1 = ga_StableBackendObservations ga)
    by (destruct Ht as [[-> _]|(_ & t0 & _ & ->)]; done).
  destruct Hkeep as (Hp1 & Hpod & His & Hie & Hrs & Hre & Hob).
  assert (Hforce : forall m1 m2 tr1, wp (force_or_wait m1 m2 g1) (fun tr o => forall r, o = Done r -> advances ga r ->
            deadline_passed (app tr0 (app tr1 tr)) ga \/ accepted (app tr0 (app tr1 tr)) ga)).
  { intros m1 m2 tr1. eapply wp_mono; [by apply (force_or_wait_advances tr0)|].
    intros tr o Hd r Hr Ha. left. destruct (Hd r Hr Ha) as (dl & now & Hnow & Hlt & Hdl).
    assert (Hsub : forall t, t ∈ omap time_read (app tr0 tr) -> t ∈ omap time_read (app tr0 (app tr1 tr))).
    { intros t. rewrite !omap_app, !elem_of_app. tauto. }
    exists dl, now. split; [by apply Hsub|]. split; [done|].
    destruct Hdl as [Hdl|(Hz & t0 & Ht0 & ->)]; [by left | right; split; [done|]; exists t0; auto]. }
  apply wp_bind. eapply wp_mono; [apply getBackendByPodName_wp|]. intros tr1 [[b|err]|w] Hb; [|apply Hforce|done].
  specialize (Hb b eq_refl). destruct (backendIsShutdown b) as [shutdown|err] eqn:Eshut; [|apply Hforce].
  cbv zeta. destruct (be_Alive b && negb shutdown && acceptStartTime g1 b && acceptEpoch g1 b) eqn:Eacc; [|apply Hforce].
  apply andb_true_iff in Eacc as [Eacc Eep]. apply andb_true_iff in Eacc as [Eacc Est].
  apply andb_true_iff in Eacc as [Ealive Esh]. destruct shutdown; [done|].
  destruct (Z.leb_spec requiredStableBackendObservations (ga_StableBackendObservations
    (observe g1 (backendLastStartTime b) (backendProcessEpoch b).1))) as [Hle|Hgt].
  - intros []. cbn [wp bind]. intros r [= <-] _. right. rewrite Hpod in Hb.
    destruct (observe_enough g1 _ _ ltac:(by rewrite Hob) Hle) as (H1 & H2 & H3).
    exists b. split; [by apply reported_app_r, reported_app_l|]. split; [done|]. split; [done|].
    unfold acceptStartTime in *. unfold acceptEpoch in *. rewrite His, Hie in *.
    rewrite Hrs, Hre, Hob in *. by repeat split.
  - cbn. intros r [= <-]. unfold advances. cbn. unfold observe. case_decide; cbn; congruence.
Qed.
End history.
