(* ===== verification/Demo.v ===== *)
(** A small executable cluster, to run the controllers on inputs: pods,
    StatefulSets, claims, and the rows that Doris shows, with switches for the
    failures of the API server.  It is used only by witnesses and examples. *)

From Stdlib Require Import ZArith Lia.
From stdpp Require Import base list gmap strings.
From S2P Require Import Prelude GoStr KubeTypes DdcApi Client Traces.

Local Open Scope string_scope.
Local Open Scope Z_scope.

Record world := mkWorld {
  w_pods : list Pod;
  w_sts : list StatefulSet;
  w_pvcs : list PersistentVolumeClaim;
  w_frontends : list Frontend;
  w_backends : list Backend;
  w_now : Z;
  w_get_pod_error : bool
}.
#[export] Instance world_etas : Etas world := fun w =>
  mkWorld (w_pods w) (w_sts w) (w_pvcs w) (w_frontends w) (w_backends w) (w_now w) (w_get_pod_error w).

Definition not_found : goerr := mkErr ReasonNotFound "not found".
Definition timeout_err : goerr := errorsNew "timeout".

Definition find_res {A} (f : A -> string) (name : string) (l : list A) : res A :=
  match List.find (fun a => bool_decide (f a = name)) l with
  | Some a => Ok a
  | None => Er not_found
  end.

Definition get_obj (k : kind) (name : string) (w : world) : res (obj k) :=
  match k return res (obj k) with
  | KPod => if w_get_pod_error w then Er timeout_err else find_res p_Name name (w_pods w)
  | KSts => find_res st_Name name (w_sts w)
  | KPvc => find_res pvc_Name name (w_pvcs w)
  | _ => Er not_found
  end.

Definition list_obj (k : kind) (w : world) : res (list (obj k)) :=
  match k return res (list (obj k)) with
  | KPod => Ok (w_pods w)
  | KSts => Ok (w_sts w)
  | KPvc => Ok (w_pvcs w)
  | _ => Ok []
  end.

Definition without {A} (f : A -> string) (name : string) (l : list A) : list A :=
  List.filter (fun a => negb (bool_decide (f a = name))) l.

Definition put_obj (k : kind) : obj k -> world -> world :=
  match k return obj k -> world -> world with
  | KSts => fun s w => w <| w_sts := s :: without st_Name (st_Name s) (w_sts w) |>
  | KPvc => fun p w => w <| w_pvcs := p :: without pvc_Name (pvc_Name p) (w_pvcs w) |>
  | _ => fun _ w => w
  end.

Definition delete_obj (k : kind) : obj k -> world -> world :=
  match k return obj k -> world -> world with
  | KPod => fun p w => w <| w_pods := without p_Name (p_Name p) (w_pods w) |>
  | KSts => fun s w => w <| w_sts := without st_Name (st_Name s) (w_sts w) |>
  | KPvc => fun p w => w <| w_pvcs := without pvc_Name (pvc_Name p) (w_pvcs w) |>
  | _ => fun _ w => w
  end.

Definition demo_env (X : Type) (e : OpE X) (w : world) : X * world :=
  match e in OpE X return X * world with
  | CGet k _ name => (get_obj k name w, w)
  | CList k _ _ => (list_obj k w, w)
  | CCreate k o | CUpdate k o | CPatchMerge k o => (None, put_obj k o w)
  | CPatchRaw _ _ _ _ => (None, w)
  | CDelete k o => (None, delete_obj k o w)
  | CUpdateDdc d | CStatusUpdate d => (Ok d, w)
  | DcrPatch d => (Ok d, w)
  | DcrStatusUpdate _ => (None, w)
  | REvent _ _ _ => (tt, w)
  | TimeNow => (w_now w, w <| w_now := w_now w + 1000000000 |>)
  | KubeNewForConfig => (None, w)
  | NewSPDYExecutor _ _ _ _ => (None, w)
  | StreamExec _ _ _ _ _ => (("", "", None), w)
  | X509AppendCertsFromPEM _ => (true, w)
  | X509KeyPair _ _ | RegisterTLSConfig _ => (None, w)
  | SqlxOpen dsn => (Ok dsn, w)
  | SqlxPing _ => (None, w)
  | SqlxClose _ => (tt, w)
  | SqlxShowFrontends _ => (Ok (w_frontends w), w)
  | SqlxShowBackends _ => (Ok (w_backends w), w)
  | SqlxExec _ _ => (None, w)
  end.

(** ** A compute group of three backends *)

Definition demo_row (name : string) : Backend :=
  mkBackend (name +:+ ".svc") 9050 (Some "2024-01-01 00:00:00") true false 0
    ("{" +:+ dquote +:+ "compute_group_id" +:+ dquote +:+ ":" +:+ dquote +:+ "cg1" +:+ dquote +:+ "}") "" "" 0.

Definition demo_frontend : Frontend := mkFrontend "fe0" "c-fe-0.svc" 9010 "FOLLOWER" true "Yes".

Definition demo_pod (name : string) (terminated : bool) : Pod :=
  mkPod (emptyMeta <| m_Name := name |> <| m_Namespace := "ns" |> <| m_UID := "uid-" +:+ name |>)
    None (mkPodStatus "Running" "10.0.0.1"
      (Some [mkContainerStatus "compute" true 0 "c0" (if terminated then Some (mkTerminated "Completed" 0) else None)]) "" "").

Definition demo_sts (replicas : Z) : StatefulSet :=
  emptySts <| st_Meta := emptyMeta <| m_Name := "c-g" |> <| m_Namespace := "ns" |> |>
           <| st_Replicas := Some replicas |>
           <| st_Selector := Some (mkLabelSelector ∅ []) |>.

Definition demo_cg : ComputeGroup := mkComputeGroup "g" false (emptyCommon <| Replicas := Some 1 |>) false false.
Definition demo_status : ComputeGroupStatus := mkCGStatus Ready "c-g" "c-g" "g" "cg1" 1 3 None.

(** With [EnableDecommission], so that only the graceful rollout takes nodes out. *)
Definition demo_ddc : Ddc :=
  emptyDdc <| ddc_Meta := emptyMeta <| m_Name := "c" |> <| m_Namespace := "ns" |> <| m_Generation := 1 |> |>
           <| ddc_Spec := emptyDdcSpec <| ComputeGroups := [demo_cg] |> |>
           <| ddc_Status := emptyDdcStatus <| ComputeGroupStatuses := [demo_status] |> |>.

Definition demo_world (terminated : bool) : world :=
  mkWorld [demo_pod "c-g-0" terminated; demo_pod "c-g-1" terminated; demo_pod "c-g-2" terminated]
    [demo_sts 3] [] [demo_frontend] [demo_row "c-g-0"; demo_row "c-g-1"; demo_row "c-g-2"] 1000000000 false.
