(* ===== verification/GracefulProps.v ===== *)
(** What the graceful rollout guarantees: the properties of the state machine
    of [graceful_rollout.go], with the inputs that show that their hypotheses
    can hold. *)

From Stdlib Require Import ZArith Lia Ascii.
From stdpp Require Import base list relations gmap strings.
From S2P Require Import Prelude GoStr Json KubeTypes DdcApi Client Traces Mysql Resource External SubDefault.
From S2P Require Import PrepareModify Quiet GracefulCodec Graceful GracefulSpec GracefulLemmas.
From S2P Require Import GracefulHistory Demo.

Local Open Scope string_scope.
Local Open Scope Z_scope.
Local Open Scope dop_scope.

Section more.
Context `{External}.

(** ** Writes of the StatefulSet *)

#[local] Hint Resolve quiet_only_no_sts_write getBackendByPodName_quiet selectNextPod_quiet : spec.

Lemma run_no_sts_write cluster cgStatus est ga : ga_Phase ga <> GracefulPhaseDeletePod ->
  only no_sts_write (runGracefulStateMachine cluster cgStatus est ga).
Proof.
  intros Hp. unfold runGracefulStateMachine. destruct (ga_Phase ga); try done.
  - unfold handleTriggerDrain, select_current, getPod, record_generation, drain_pod, ExecInPod. spec_go.
  - unfold handleWaitDrain, getPod. spec_go.
  - unfold handleWaitPodReady, getPod, ensure_timer, wait_replacement, start_timer. spec_go.
  - unfold handleWaitBEAlive, ensure_timer, start_timer, force_or_wait. spec_go.
Qed.

Lemma delete_writes cluster est ga :
  only (writes_replicas (ga_CurrentOrdinal ga)) (handleDeletePod cluster est ga).
Proof.
  assert (Hafter : only (writes_replicas (ga_CurrentOrdinal ga)) (afterPodDeleted est ga)).
  { unfold afterPodDeleted. destruct (ga_Type ga); try (by apply spec_ret);
      (eapply spec_bind; [apply updateStatefulSetReplicas_writes | intros; by apply spec_ret]). }
  unfold handleDeletePod, getPod. spec_go; done.
Qed.

Lemma run_writes cluster cgStatus est ga :
  only (writes_replicas (ga_CurrentOrdinal ga)) (runGracefulStateMachine cluster cgStatus est ga).
Proof.
  destruct (decide (ga_Phase ga = GracefulPhaseDeletePod)) as [Hp|Hp].
  - unfold runGracefulStateMachine. rewrite Hp. apply delete_writes.
  - eapply spec_weaken; [by apply run_no_sts_write | | done].
    intros e He s Hs. unfold no_sts_write in He. congruence.
Qed.

Lemma run_writes_phase cluster cgStatus est ga :
  wp (runGracefulStateMachine cluster cgStatus est ga)
    (fun tr _ => omap sts_write tr <> [] -> ga_Phase ga = GracefulPhaseDeletePod).
Proof.
  destruct (decide (ga_Phase ga = GracefulPhaseDeletePod)) as [Hp|Hp]; [by apply wp_true|].
  eapply wp_mono; [by apply run_no_sts_write|]. intros tr o [Htr _]. by rewrite omap_none.
Qed.
End more.

(** ** Histories: a scale-down from three pods to one, and a rolling update *)

Module History.

#[local] Existing Instance demo_external.

Definition pass (est : StatefulSet) (w : world) (ga : GracefulAction) :
    trace * outcome (GracefulAction * option goerr) * world :=
  run demo_env (runGracefulStateMachine demo_ddc demo_status est (refreshRollingUpdateTargetRevision est ga)) w.

Definition result_of (r : trace * outcome (GracefulAction * option goerr) * world) : GracefulAction :=
  match r.1.2 with Done (ga, _) => ga | Crashed _ => zeroGA end.

Definition clean (o : outcome (GracefulAction * option goerr)) : bool :=
  match o with Done (_, None) => true | _ => false end.

(** A clean pass is a step of the history. *)
Lemma passes_clean h est w ga : passes demo_ddc demo_status h ga -> clean (pass est w ga).1.2 = true ->
  passes demo_ddc demo_status (app h (pass est w ga).1.1) (persisted (result_of (pass est w ga))).
Proof.
  intros Hp Hc. apply (passes_step _ _ h ga est); [done|].
  unfold result_of. pose proof (run_exec demo_env (runGracefulStateMachine demo_ddc demo_status est
    (refreshRollingUpdateTargetRevision est ga)) w) as Hex. unfold pass in *.
  destruct (run _ _ _) as [[tr [[g [e|]]|x]] w']; cbn in *; done.
Qed.

(** The scale-down: the pod is drained, then seen terminated. *)
Definition ga0 : GracefulAction :=
  zeroGA <| ga_Type := GracefulActionScaleDown |> <| ga_Phase := GracefulPhaseTriggerDrain |>
         <| ga_DesiredReplicas := Some 1 |>.
Definition ga1 : GracefulAction :=
  Eval vm_compute in persisted (result_of (pass (demo_sts 3) (demo_world false) ga0)).
Definition ga2 : GracefulAction :=
  Eval vm_compute in persisted (result_of (pass (demo_sts 3) (demo_world true) ga1)).
Definition h1 : trace := app [] (pass (demo_sts 3) (demo_world false) ga0).1.1.
Definition h2 : trace := app h1 (pass (demo_sts 3) (demo_world true) ga1).1.1.

Lemma ga1_eq : persisted (result_of (pass (demo_sts 3) (demo_world false) ga0)) = ga1.
Proof. vm_compute. reflexivity. Qed.
Lemma ga2_eq : persisted (result_of (pass (demo_sts 3) (demo_world true) ga1)) = ga2.
Proof. vm_compute. reflexivity. Qed.

Lemma passes1 : passes demo_ddc demo_status h1 ga1.
Proof. rewrite <- ga1_eq. unfold h1. apply passes_clean; [by apply passes_start | vm_compute; reflexivity]. Qed.
Lemma passes2 : passes demo_ddc demo_status h2 ga2.
Proof. rewrite <- ga2_eq. unfold h2. apply passes_clean; [exact passes1 | vm_compute; reflexivity]. Qed.

(** The rolling update to the revision [r2]: the pod with the highest ordinal
    is drained, and found already replaced. *)
Definition roll_sts : StatefulSet := (demo_sts 3) <| st_UpdateRevision := "r2" |>.
Definition roll0 : GracefulAction :=
  zeroGA <| ga_Type := GracefulActionRollingUpdate |> <| ga_Phase := GracefulPhaseTriggerDrain |>
         <| ga_TargetRevision := "r2" |>.
Definition gone : world := (demo_world false) <| w_pods := [demo_pod "c-g-0" false; demo_pod "c-g-1" false] |>.
Definition roll1 : GracefulAction :=
  Eval vm_compute in persisted (result_of (pass roll_sts (demo_world false) roll0)).
Definition roll2 : GracefulAction := Eval vm_compute in persisted (result_of (pass roll_sts gone roll1)).
Definition hr1 : trace := app [] (pass roll_sts (demo_world false) roll0).1.1.
Definition hr2 : trace := app hr1 (pass roll_sts gone roll1).1.1.

Lemma roll1_eq : persisted (result_of (pass roll_sts (demo_world false) roll0)) = roll1.
Proof. vm_compute. reflexivity. Qed.
Lemma roll2_eq : persisted (result_of (pass roll_sts gone roll1)) = roll2.
Proof. vm_compute. reflexivity. Qed.

Lemma passes_r1 : passes demo_ddc demo_status hr1 roll1.
Proof. rewrite <- roll1_eq. unfold hr1. apply passes_clean; [by apply passes_start | vm_compute; reflexivity]. Qed.
Lemma passes_r2 : passes demo_ddc demo_status hr2 roll2.
Proof. rewrite <- roll2_eq. unfold hr2. apply passes_clean; [exact passes_r1 | vm_compute; reflexivity]. Qed.

End History.

(** ** Safety *)

Section claims.
Context `{External}.

(** C4: A pass of the graceful rollout deletes at most one pod.  It deletes a
    pod only when the action stored on the StatefulSet is in the phase
    DeletePod, and the deleted pod is the one that the API server returned
    under the name recorded in that action. *)
Theorem graceful_pass_deletes_current_pod st est cluster cg cgStatus :
  wp (gracefulRolloutReconcile st est cluster cg cgStatus) (fun tr _ =>
    omap pod_delete tr = [] \/
    exists ga pod, getGracefulAction est = Ok (Some ga) /\ ga_Phase ga = GracefulPhaseDeletePod /\
      omap pod_delete tr = [pod] /\
      Ev (CGet KPod (ddc_Namespace cluster) (ga_CurrentPod ga)) (Ok pod) ∈ tr).
Proof. apply gracefulRolloutReconcile_deletes. Qed.

(** C1: Over any number of passes, whatever the environment answers, a pod is
    deleted only after the graceful stop command was run in that pod since the
    action was stored, or its failure to run was announced as an event. *)
Theorem drain_before_delete cluster cgStatus h ga est :
  passes cluster cgStatus h ga ->
  wp (runGracefulStateMachine cluster cgStatus est (refreshRollingUpdateTargetRevision est ga))
    (fun tr _ => omap pod_delete tr <> [] ->
       drain_attempted h (ddc_Namespace cluster) (ga_CurrentPod ga)).
Proof.
  intros Hpass. eapply wp_mono; [apply runGracefulStateMachine_wp|]. intros tr o [[_ Hp] _] Hne.
  destruct (refresh_keeps est ga) as (_ & Hph & _). specialize (Hp Hne). rewrite Hph in Hp.
  apply (passes_drained_before _ _ _ _ Hpass). rewrite Hp. in_list.
Qed.

(** C3: The state machine refines its abstract machine: whatever the
    environment answers, the action keeps its type and its wanted replicas, its
    phase, its pod and its drain flag move by one of the listed steps, and its
    target revision is kept, but for a rolling update that selects pods: that one
    goes for the update revision of the StatefulSet, unless it is empty. *)
Theorem state_machine_refines cluster cgStatus est ga :
  wp (runGracefulStateMachine cluster cgStatus est ga) (fun _ o => forall ga' err, o = Done (ga', err) ->
    same_action ga ga' /\ machine_step ga ga' /\
    ga_TargetRevision ga' =
      (if decide (ga_Phase ga = GracefulPhaseTriggerDrain /\ ga_Type ga = GracefulActionRollingUpdate /\
                  st_UpdateRevision est <> "")
       then st_UpdateRevision est else ga_TargetRevision ga)).
Proof.
  eapply wp_mono; [exact (wp_and _ _ _ (runGracefulStateMachine_wp _ _ _ _) (runGracefulStateMachine_aims _ _ _ _))|].
  intros tr o [[_ Ho] [_ Ht]] ga' err ->. destruct Ho as [Ha Hs]. by split; [|split].
Qed.

Lemma passes_rolling cluster cgStatus h ga : passes cluster cgStatus h ga ->
  ga_Phase ga ∈ [GracefulPhaseWaitPodReady; GracefulPhaseWaitBEAlive] -> ga_Type ga = GracefulActionRollingUpdate.
Proof.
  induction 1 as [h ga (Hp & _)|h ga est tr ga' Hpass IH Hex]; intros Hin.
  - rewrite Hp, !elem_of_cons in Hin. by destruct Hin as [?|[?|?%elem_of_nil]].
  - destruct (refresh_keeps est ga) as (Hty & Hph & _).
    set (g0 := refreshRollingUpdateTargetRevision est ga) in *. clearbody g0.
    destruct (run_refines _ _ _ _ _ _ _ Hex) as [[Ht _] Hstep]. cbn [fst] in *.
    destruct (persisted_keeps ga') as (Hpt & Hpp & _). rewrite Hpt, Ht, Hty. rewrite Hpp in Hin.
    assert (Hnot : forall p, ga_Phase ga' = p -> p ∉ [GracefulPhaseWaitPodReady; GracefulPhaseWaitBEAlive] -> False).
    { intros p <- Hn. by apply Hn. }
    assert (Hl : forall p, p <> GracefulPhaseWaitPodReady -> p <> GracefulPhaseWaitBEAlive ->
              p ∉ [GracefulPhaseWaitPodReady; GracefulPhaseWaitBEAlive]).
    { intros p H1 H2. rewrite !elem_of_cons. by intros [?|[?|?%elem_of_nil]]. }
    destruct Hstep as [Hq _|? Hq|? Hq|? Hroll _|Hq _ _|_ (Hq & _)|? ? Hq|? ? Hq];
      try (exfalso; eapply Hnot; [exact Hq | by apply Hl]).
    + apply IH. by rewrite <- Hph, <- Hq.
    + congruence.
    + apply IH. rewrite <- Hph, Hq. in_list.
Qed.

(** A scale-down never waits for a replacement: over any passes, the phases
    WaitPodReady and WaitBEAlive occur only in a rolling update. *)
Theorem replacement_phases_only_rolling cluster cgStatus h ga :
  passes cluster cgStatus h ga ->
  ga_Phase ga = GracefulPhaseWaitPodReady \/ ga_Phase ga = GracefulPhaseWaitBEAlive ->
  ga_Type ga = GracefulActionRollingUpdate.
Proof.
  intros Hpass Hp. eapply passes_rolling; [exact Hpass|]. destruct Hp as [-> | ->]; in_list.
Qed.

Lemma passes_scaling cluster cgStatus d h ga : passes cluster cgStatus h ga ->
  ga_Type ga = GracefulActionScaleDown -> ga_DesiredReplicas ga = Some d ->
  scaling (cgs_StatefulsetName cgStatus) d ga.
Proof.
  induction 1 as [h ga Hf|h ga est tr ga' Hpass IH Hex]; intros Ht Hd; [by apply fresh_scaling|].
  destruct (run_refines _ _ _ _ _ _ _ Hex) as [[Ht' Hd'] _]. cbn [fst] in *.
  destruct (refresh_keeps est ga) as (Hrt & _ & _ & _ & _ & Hrd & _).
  destruct (persisted_keeps ga') as (Hpt & _ & _ & _ & _ & Hpd).
  assert (Hga : ga_Type ga = GracefulActionScaleDown) by congruence.
  assert (Href : refreshRollingUpdateTargetRevision est ga = ga).
  { unfold refreshRollingUpdateTargetRevision. rewrite Hga. by rewrite decide_True. }
  rewrite Href in *.
  assert (Hs : scaling (cgs_StatefulsetName cgStatus) d ga) by (apply IH; congruence).
  exact (proj2 (wp_exec _ _ (run_scaling _ _ cluster cgStatus est ga eq_refl Hs) _ _ Hex) eq_refl).
Qed.

(** C8: A scale-down to [d] replicas only touches ordinals from [d] up: when a
    pass deletes a pod or writes the StatefulSet, the current pod is the one of
    an ordinal [n >= d], and the replica count written is [n]. *)
Theorem scale_down_keeps_desired_pods cluster cgStatus h ga est d :
  passes cluster cgStatus h ga -> ga_Type ga = GracefulActionScaleDown -> ga_DesiredReplicas ga = Some d ->
  wp (runGracefulStateMachine cluster cgStatus est ga) (fun tr _ =>
    omap pod_delete tr <> [] \/ omap sts_write tr <> [] ->
    exists n, d <= n /\ ga_CurrentPod ga = cgs_StatefulsetName cgStatus +:+ "-" +:+ Itoa n /\
      forall s, s ∈ omap sts_write tr -> st_Replicas s = Some n).
Proof.
  intros Hpass Ht Hd. pose proof (passes_scaling _ _ _ _ _ Hpass Ht Hd) as (_ & _ & Hpod & Hph).
  eapply wp_mono; [exact (wp_and _ _ _ (runGracefulStateMachine_wp cluster cgStatus est ga)
    (wp_and _ _ _ (run_writes cluster cgStatus est ga) (run_writes_phase cluster cgStatus est ga)))|].
  intros tr o [[[_ Hdel] _] [[Hw _] Hwp]] Hor.
  assert (Hp : ga_Phase ga = GracefulPhaseDeletePod) by (destruct Hor; auto).
  exists (ga_CurrentOrdinal ga). rewrite Hp in Hph. destruct (Hpod (Hph ltac:(in_list))) as [Hn Hle].
  split; [done|]. split; [done|]. intros s (e & He & Hs)%list_elem_of_omap.
  rewrite Forall_forall in Hw. by apply (Hw e).
Qed.

(** C9: The rollout goes on from a replaced backend only when the deadline of
    the wait has passed, or when Doris reports the backend of the pod alive, not
    shut down, with a start time other than before the drain, with another epoch
    where both epochs are known, and an earlier observation saw the same one. *)
Theorem replacement_accepted cluster cgStatus ga :
  ga_Phase ga = GracefulPhaseWaitBEAlive -> in_int 32 (ga_StableBackendObservations ga) = true ->
  wp (handleWaitBEAlive cluster cgStatus ga) (fun tr o => forall ga' err,
    o = Done (ga', err) -> ga_Phase ga' = GracefulPhaseTriggerDrain ->
    deadline_passed tr ga \/ accepted tr ga).
Proof.
  intros Hp Hin. eapply wp_mono; [by apply handleWaitBEAlive_accepts|].
  intros tr o Ho ga' err -> Hph. by apply (Ho (ga', err)).
Qed.

(** C29: The pod selected for a rolling update is one that does not carry the
    target revision and has the highest ordinal among those; none is selected
    exactly when every listed pod carries it, or when no pods could be listed. *)
Theorem rolling_update_selects_highest est ga :
  wp (selectNextRollingUpdatePod est ga) (fun tr o => forall r, o = Done r ->
    (exists items, omap pod_list tr = [items] /\ selects (target_revision est ga) items r) \/
    (r = None /\ omap pod_list tr = [])).
Proof. apply selectNextRollingUpdatePod_wp. Qed.
End claims.

(** The ordinal is read back from the name of a pod of a StatefulSet, for
    every name and every ordinal that fits the machine integer. *)
Theorem extractOrdinal_pod_name name n : 0 <= n < 2 ^ 63 ->
  extractOrdinal (name +:+ "-" +:+ Itoa n) = n.
Proof. apply extractOrdinal_name. Qed.

(** C20: An action read back from the annotation it was stored in is the action
    itself, with its times cut to whole seconds, when its times are in the years
    1 to 9999, its type and its phase are not an unknown text that reads like a
    known one, its numbers fit 32 bits and its texts are UTF-8; what is asked of
    the clock is that the text of such a time is UTF-8 and keeps the seconds. *)
Theorem graceful_annotation_roundtrip `{External} st ga :
  rfc3339_law -> storable ga ->
  getGracefulAction (setGracefulAction st ga) = Ok (Some (persisted ga)).
Proof.
  intros Hlaw Hs. unfold getGracefulAction, setGracefulAction, set_sts_Annotations, st_Annotations.
  cbn [st_Meta update_field m_Annotations]. rewrite lookup_insert_eq.
  rewrite decide_False.
  - by rewrite Unmarshal_Marshal.
  - unfold Marshal_GracefulAction. rewrite print_obj. done.
Qed.

(** ** Witnesses *)

#[local] Existing Instance demo_external.

Lemma demo_rfc3339 : rfc3339_law.
Proof.
  intros t Ht. unfold printable_time in Ht. cbn [time_unmarshal time_marshal demo_external].
  split; [apply valid_Itoa|]. rewrite ParseInt_Itoa; [done|]. unfold in_int. apply andb_true_iff; split;
    [apply Z.leb_le | apply Z.ltb_lt]; cbn [Z.sub Z.pos_sub]; Z.to_euclidean_division_equations; lia.
Qed.

(** The history of the scale-down, before the pass that deletes the pod. *)
Lemma drain_before_delete_witness :
  wp (runGracefulStateMachine demo_ddc demo_status (demo_sts 3)
        (refreshRollingUpdateTargetRevision (demo_sts 3) History.ga2))
     (fun tr _ => omap pod_delete tr <> [] -> drain_attempted History.h2 "ns" "c-g-2").
Proof. exact (drain_before_delete _ _ _ _ _ History.passes2). Defined.

Lemma replacement_phases_only_rolling_witness : ga_Type History.roll2 = GracefulActionRollingUpdate.
Proof. exact (replacement_phases_only_rolling _ _ _ _ History.passes_r2 (or_introl eq_refl)). Defined.

(** The pass that deletes the pod does delete it, and writes two replicas. *)
Lemma scale_down_keeps_desired_pods_witness :
  wp (runGracefulStateMachine demo_ddc demo_status (demo_sts 3) History.ga2) (fun tr _ =>
    omap pod_delete tr <> [] \/ omap sts_write tr <> [] ->
    exists n, 1 <= n /\ "c-g-2" = "c-g-" +:+ Itoa n /\ forall s, s ∈ omap sts_write tr -> st_Replicas s = Some n).
Proof. exact (scale_down_keeps_desired_pods _ _ _ _ _ 1 History.passes2 eq_refl eq_refl). Defined.

Example scale_down_pass_deletes :
  map p_Name (omap pod_delete (History.pass (demo_sts 3) (demo_world true) History.ga2).1.1) = ["c-g-2"] /\
  map st_Replicas (omap sts_write (History.pass (demo_sts 3) (demo_world true) History.ga2).1.1) = [Some 2].
Proof. vm_compute. auto. Qed.

(** A replacement observed for the second time. *)
Definition alive_ga : GracefulAction :=
  History.roll2 <| ga_Phase := GracefulPhaseWaitBEAlive |> <| ga_InitialBackendStartTime := "2023-12-31 00:00:00" |>
    <| ga_ReplacementBackendStartTime := "2024-01-01 00:00:00" |> <| ga_StableBackendObservations := 1 |>.

Lemma replacement_accepted_witness :
  wp (handleWaitBEAlive demo_ddc demo_status alive_ga) (fun tr o => forall ga' err,
    o = Done (ga', err) -> ga_Phase ga' = GracefulPhaseTriggerDrain ->
    deadline_passed tr alive_ga \/ accepted tr alive_ga).
Proof. exact (replacement_accepted demo_ddc demo_status alive_ga eq_refl eq_refl). Defined.

Example replacement_advances :
  match (run demo_env (handleWaitBEAlive demo_ddc demo_status alive_ga) (demo_world false)).1.2 with
  | Done (ga, None) => ga_Phase ga = GracefulPhaseTriggerDrain
  | _ => False
  end.
Proof. vm_compute. reflexivity. Qed.

Lemma extractOrdinal_pod_name_witness : extractOrdinal ("c-g" +:+ "-" +:+ Itoa 12) = 12.
Proof. exact (extractOrdinal_pod_name "c-g" 12 ltac:(lia)). Defined.

Lemma graceful_annotation_roundtrip_witness :
  getGracefulAction (setGracefulAction (demo_sts 3) History.ga1) = Ok (Some (persisted History.ga1)).
Proof.
  apply (graceful_annotation_roundtrip (demo_sts 3) History.ga1 demo_rfc3339).
  repeat split; vm_compute; auto; discriminate.
Defined.
