(* ===== verification/ScaleProps.v ===== *)
(** Taking backends out of a compute group: the properties of
    [prepare_modify.go] and of [reconcileStatefulset] of the compute group
    controller when a group shrinks. *)

From Stdlib Require Import ZArith Lia Ascii.
From stdpp Require Import base list gmap strings.
From S2P Require Import Prelude GoStr Json KubeTypes DdcApi Client Traces Mysql Resource External SubDefault.
From S2P Require Import PrepareModify Quiet GracefulCodec Graceful ComputeGroups GracefulLemmas Demo.

Local Open Scope string_scope.
Local Open Scope Z_scope.
Local Open Scope dop_scope.

(** ** Calls before the first write of a StatefulSet *)

(** [P] holds of the calls before any call that writes a StatefulSet. *)
Definition before_sts_writes (P : trace -> Prop) (tr : trace) : Prop :=
  forall tr1 e tr2, tr = app tr1 (e :: tr2) -> is_Some (sts_write e) -> P tr1.

(** The StatefulSet that a call fetched. *)
Definition sts_read (e : event OpE) : option StatefulSet :=
  match e with
  | Ev ev x =>
      match ev in OpE X return X -> option StatefulSet with
      | CGet k _ _ => match k return res (obj k) -> option StatefulSet with
                      | KSts => fun r => match r with Ok s => Some s | Er _ => None end
                      | _ => fun _ => None
                      end
      | _ => fun _ => None
      end x
  end.
Definition first_read (tr : trace) : option StatefulSet :=
  match tr with e :: _ => sts_read e | [] => None end.

#[local] Hint Resolve quiet_only_no_sts_write : spec.

Lemma before_none P tr : Forall no_sts_write tr -> before_sts_writes P tr.
Proof.
  intros Hf tr1 e tr2 -> [s Hs]. apply Forall_app in Hf as [_ Hf%Forall_inv].
  unfold no_sts_write in Hf. congruence.
Qed.

Lemma before_app (P : trace -> Prop) tr tr' :
  Forall no_sts_write tr -> (forall tr1, P (app tr tr1)) -> before_sts_writes P (app tr tr').
Proof.
  intros Hf HP. induction Hf as [|x tr Hx Hf IH] in P, HP |- *.
  - intros tr1 e tr2 _ _. apply (HP tr1).
  - intros [|y tr1] e tr2 Heq Hw; cbn in Heq; inversion Heq as [[Hy Ht]].
    + destruct Hw as [s Hs]. subst. unfold no_sts_write in Hx. congruence.
    + apply (IH (fun t => P (y :: t))) with (e := e) (tr2 := tr2); [|done..]. intros t. subst. apply (HP t).
Qed.

(** ** Ordinals *)

(** The ordinal in a host name: the number after the last dash of the part of
    the name before the first dot. *)
Definition at_ordinal (host : string) (n : Z) : Prop :=
  exists label number, (host = label \/ exists domain, host = label +:+ "." +:+ domain) /\
    has_char "." label = false /\ (label = number \/ exists name, label = name +:+ "-" +:+ number) /\
    has_char "-" number = false /\ Atoi number = Ok n.

(** Of the backends in the order shown, the surplus ones: those at ordinals from [keep] up. *)
Definition surplus (keep : Z) (bs nodes : list Backend) : Prop :=
  exists ordinals, Forall2 (fun b n => at_ordinal (be_Host b) n) bs ordinals /\
    nodes = map fst (List.filter (fun bn : Backend * Z => keep <=? bn.2) (zip bs ordinals)).

Lemma first_char c s : has_char c s = false \/ exists p t, s = p +:+ String c t /\ has_char c p = false.
Proof.
  induction s as [|d s IH]; cbn; [by left|]. destruct (ascii_dec c d) as [->|Hne].
  - right. by exists "", s.
  - destruct IH as [IH|(p & t & -> & Hp)]; [by left|]. right. exists (String d p), t. split; [done|].
    cbn. by destruct (ascii_dec c d).
Qed.
Lemma last_char c s : has_char c s = false \/ exists p t, s = p +:+ String c t /\ has_char c t = false.
Proof.
  induction s as [|d s [IH|(p & t & -> & Ht)]]; cbn; [by left| |].
  - destruct (ascii_dec c d) as [->|]; [right; by exists "", s | by left].
  - right. by exists (String d p), t.
Qed.

Lemma host_ordinal_at host n : host_ordinal host = Ok n -> at_ordinal host n.
Proof.
  unfold host_ordinal. intros Hn. assert (Hlabel : exists label, List.hd "" (Split host ".") = label /\
    (host = label \/ exists domain, host = label +:+ "." +:+ domain) /\ has_char "." label = false).
  { unfold Split. destruct (first_char "." host) as [Hd|(p & t & -> & Hp)].
    - exists host. rewrite split_char_nil by done. auto.
    - exists p. rewrite split_char_app by done. split; [done|]. split; [right; by exists t | done]. }
  destruct Hlabel as (label & Hl & Hhost & Hdot). rewrite Hl in Hn. exists label.
  unfold Split in Hn. destruct (last_char "-" label) as [Hd|(p & t & -> & Ht)].
  - exists label. rewrite split_char_nil in Hn by done. auto 10.
  - exists t. rewrite split_char_last in Hn by done. split; [done|]. split; [done|]. split; [right; by exists p | done].
Qed.

Lemma scaled_out_surplus keep bs : forall acc nodes, scaled_out keep bs acc = Ok nodes ->
  exists rest, surplus keep bs rest /\ nodes = app acc rest.
Proof.
  induction bs as [|b bs IH]; intros acc nodes; cbn [scaled_out].
  { intros [= <-]. exists []. rewrite app_nil_r. split; [|done]. exists []. by split. }
  destruct (host_ordinal (be_Host b)) as [n|] eqn:Hb; [|done]. intros (rest & (ns & Hns & ->) & ->)%IH.
  eexists. split; [exists (n :: ns); split; [constructor; [by apply host_ordinal_at | done] | reflexivity]|].
  cbn. destruct (keep <=? n); [by rewrite <- app_assoc | done].
Qed.

Lemma scaled_out_ordinals keep bs nodes : scaled_out keep bs [] = Ok nodes -> surplus keep bs nodes.
Proof. by intros (rest & Hs & ->)%scaled_out_surplus. Qed.

Section scale.
Context `{External}.

(** ** The backends of a group that Doris showed *)

Definition observed (tr : trace) (cgid : string) (bs : list Backend) : Prop :=
  exists l, l ∈ omap backends_shown tr /\ backends_of_group fmt_float json_err cgid l [] = Ok bs.

Lemma observed_app_l tr tr' cgid bs : observed tr cgid bs -> observed (app tr tr') cgid bs.
Proof. intros (l & Hl & Hb). exists l. rewrite omap_app, elem_of_app. auto. Qed.
Lemma observed_app_r tr tr' cgid bs : observed tr' cgid bs -> observed (app tr tr') cgid bs.
Proof. intros (l & Hl & Hb). exists l. rewrite omap_app, elem_of_app. auto. Qed.

Lemma GetBackends_wp db cgid :
  wp (GetBackendsByComputeGroupId fmt_float json_err db cgid) (fun tr o =>
    Forall quiet tr /\ forall bs, o = Done (Ok bs) -> observed tr cgid bs).
Proof.
  unfold GetBackendsByComputeGroupId, ShowBackends. intros [l|err]; cbn.
  - split; [by repeat constructor|]. intros bs [= Hb]. exists l. split; [left | done].
  - split; [by repeat constructor | done].
Qed.

(** Every tablet has left the nodes taken out of service, and [keep] nodes stay. *)
Definition decommissioned (keep : Z) (bs : list Backend) : Prop :=
  count is_undecommissioned bs = keep /\
  Forall (fun b => be_SystemDecommissioned b = true -> be_TabletNum b = 0) bs.

(** The statement that drops the nodes. *)
Definition drop_statement (nodes : list Backend) : option string :=
  match nodes with
  | [] => None
  | n0 :: rest => Some ("ALTER SYSTEM DROPP BACKEND " +:+ backend_list n0 rest +:+ ";")
  end.
Definition decommission_statement (nodes : list Backend) : option string :=
  match nodes with
  | [] => None
  | n0 :: rest => Some ("ALTER SYSTEM DECOMMISSION BACKEND " +:+ backend_list n0 rest +:+ ";")
  end.

(** The nodes [nodes] were accepted to be dropped, or there is none to drop. *)
Definition dropped (tr : trace) (nodes : list Backend) : Prop :=
  forall q, drop_statement nodes = Some q -> exists db, Ev (SqlxExec db q) None ∈ tr.

Lemma dropped_app_l tr tr' nodes : dropped tr nodes -> dropped (app tr tr') nodes.
Proof. intros Hd q Hq. destruct (Hd q Hq) as [db Hdb]. exists db. rewrite elem_of_app. by left. Qed.
Lemma dropped_app_r tr tr' nodes : dropped tr' nodes -> dropped (app tr tr') nodes.
Proof. intros Hd q Hq. destruct (Hd q Hq) as [db Hdb]. exists db. rewrite elem_of_app. by right. Qed.

(** A drop: the nodes are those that the group showed at ordinals from [keep] up. *)
Definition drop_result (cgid : string) (keep : Z) (tr : trace) (o : outcome (option goerr)) : Prop :=
  o = Done None -> exists bs nodes,
    observed tr cgid bs /\ scaled_out keep bs [] = Ok nodes /\ dropped tr nodes.

(** Only the drop statement of the nodes that the group showed is run. *)
Definition sql_of (stmt : list Backend -> option string) (cgid : string) (keep : Z) (tr : trace) : Prop :=
  forall q, q ∈ omap sql_exec tr -> exists bs nodes,
    observed tr cgid bs /\ surplus keep bs nodes /\ stmt nodes = Some q.

Lemma getScaledOut_wp db cgid keep :
  wp (getScaledOutBENode db cgid keep) (fun tr o => Forall quiet tr /\
    forall nodes, o = Done (Ok nodes) -> exists bs, observed tr cgid bs /\ scaled_out keep bs [] = Ok nodes).
Proof.
  unfold getScaledOutBENode. apply wp_bind. eapply wp_mono; [apply GetBackends_wp|].
  intros tr [[bs|err]|w] [Hq Ho]; cbn; rewrite ?app_nil_r; (split; [done|]); [|done|done].
  intros nodes [= Hn]. exists bs. split; [by apply Ho | done].
Qed.

Lemma quiet_sql tr : Forall quiet tr -> omap sql_exec tr = [].
Proof. intros Hq. apply omap_none. eapply Forall_impl; [exact Hq | apply quiet_no_sql]. Qed.

(** A statement run on the nodes to take out; [stmt] is its text. *)
Lemma run_statement_wp (p : list Backend -> op (option goerr)) stmt db cgid keep :
  (forall n0 rest, exists q, stmt (n0 :: rest) = Some q /\ p (n0 :: rest) = Exec db q) ->
  stmt [] = None ->
  wp (let! r := getScaledOutBENode db cgid keep in
      match r with Er err => Ret (Some err) | Ok [] => Ret None | Ok nodes => p nodes end)
    (fun tr o => Forall no_sts_write tr /\ sql_of stmt cgid keep tr /\
       (o = Done None -> exists bs nodes, observed tr cgid bs /\ scaled_out keep bs [] = Ok nodes /\
          forall q, stmt nodes = Some q -> Ev (SqlxExec (db_sqlx db) q) None ∈ tr)).
Proof.
  intros Hp Hnil. apply wp_bind. eapply wp_mono; [apply getScaledOut_wp|].
  intros tr [[nodes|err]|w] [Hq Ho].
  - destruct (Ho _ eq_refl) as (bs & Hobs & Hout). destruct nodes as [|n0 rest].
    + cbn. rewrite app_nil_r. split; [by eapply Forall_impl; [exact Hq | apply quiet_no_sts_write]|].
      split; [intros q; rewrite quiet_sql by done; by intros ?%elem_of_nil|].
      intros _. exists bs, []. rewrite Hnil. done.
    + destruct (Hp n0 rest) as (q & Hq1 & ->). cbn. intros e.
      split; [apply Forall_app; split; [eapply Forall_impl; [exact Hq | apply quiet_no_sts_write] | by repeat constructor]|].
      assert (Hobs' : forall t, observed (app tr t) cgid bs) by (intros; by apply observed_app_l).
      split.
      * intros q'. rewrite omap_app, quiet_sql by done. cbn. intros ->%list_elem_of_singleton.
        exists bs, (n0 :: rest). split; [done|]. split; [by apply scaled_out_ordinals | done].
      * intros [= ->]. exists bs, (n0 :: rest). split; [done|]. split; [done|].
        intros q' Hq'. rewrite Hq1 in Hq'. injection Hq' as ->. apply elem_of_app; right; left.
  - cbn. rewrite app_nil_r. split; [by eapply Forall_impl; [exact Hq | apply quiet_no_sts_write]|].
    split; [intros q; rewrite quiet_sql by done; by intros ?%elem_of_nil | done].
  - cbn. split; [by eapply Forall_impl; [exact Hq | apply quiet_no_sts_write]|].
    split; [intros q; rewrite quiet_sql by done; by intros ?%elem_of_nil | done].
Qed.

Lemma drop_wp db cgid keep :
  wp (scaledOutBENodesByDrop db cgid keep) (fun tr o => Forall no_sts_write tr /\
    sql_of drop_statement cgid keep tr /\ drop_result cgid keep tr o).
Proof.
  eapply wp_mono; [apply (run_statement_wp (DropBE db) drop_statement db); [|done]|].
  { intros n0 rest. eexists; split; [reflexivity | done]. }
  intros tr o (Hw & Hs & Ho). split; [done|]. split; [done|]. intros Hd.
  destruct (Ho Hd) as (bs & nodes & H1 & H2 & H3). exists bs, nodes. split; [done|]. split; [done|].
  intros q Hq. exists (db_sqlx db). auto.
Qed.

Lemma decommission_wp db cgid keep :
  wp (decommissionBENodes db cgid keep) (fun tr o => Forall no_sts_write tr /\
    sql_of decommission_statement cgid keep tr).
Proof.
  eapply wp_mono; [apply (run_statement_wp (DecommissionBE db) decommission_statement db); [|done]|].
  { intros n0 rest. eexists; split; [reflexivity | done]. }
  intros tr o (Hw & Hs & _). by split.
Qed.

(** ** Decommission *)

Definition decommission_phase (keep : Z) (bs : list Backend) : DecommissionPhase :=
  GetDecommissionPhase (ConstructDecommissionTaskStatus bs keep).

Definition no_sts_writes (tr : trace) : Prop := Forall no_sts_write tr.

(** What the decommission path may run: the decommission of nodes when none is
    under way, and the drop of nodes when it is finished. *)
Definition decommission_sql (cgid : string) (keep : Z) (tr : trace) : Prop :=
  (exists bs, observed tr cgid bs /\ decommission_phase keep bs = DecommissionAcceptable /\
     sql_of decommission_statement cgid keep tr) \/
  (exists bs, observed tr cgid bs /\ decommissioned keep bs /\ sql_of drop_statement cgid keep tr) \/
  omap sql_exec tr = [].

Lemma sql_of_after stmt cgid keep tr tr' : Forall quiet tr -> sql_of stmt cgid keep tr' ->
  sql_of stmt cgid keep (app tr tr').
Proof.
  intros Hq Hs q. rewrite omap_app, quiet_sql by done. cbn. intros Hin.
  destruct (Hs q Hin) as (bs & nodes & Ho & ?). exists bs, nodes. split; [by apply observed_app_r | done].
Qed.

Lemma progress_wp db cgid keep :
  wp (decommissionProgressCheck db cgid keep) (fun tr o => Forall quiet tr /\
    forall p, o = Done (Ok p) -> exists bs, observed tr cgid bs /\ p = decommission_phase keep bs).
Proof.
  unfold decommissionProgressCheck. apply wp_bind. eapply wp_mono; [apply GetBackends_wp|].
  intros tr [[bs|err]|w] [Hq Ho]; cbn; rewrite ?app_nil_r; (split; [done|]); [|done|done].
  intros p [= <-]. exists bs. split; [by apply Ho | done].
Qed.

(** A step without error leaves the group decommissioning, or has seen it decommissioned. *)
Definition decommission_result (c : ComputeGroupStatus) (keep : Z) (tr : trace)
    (o : outcome (ComputeGroupStatus * option goerr)) : Prop :=
  forall c', o = Done (c', None) -> cgs_UniqueId c' = cgs_UniqueId c /\
    (cgs_Phase c' = Decommissioning \/
     exists bs, observed tr (cgs_ComputeGroupId c) bs /\ decommissioned keep bs).

Lemma byDecommission_wp c db keep :
  wp (scaledOutBENodesByDecommission c db (cgs_ComputeGroupId c) keep) (fun tr o =>
    no_sts_writes tr /\ decommission_sql (cgs_ComputeGroupId c) keep tr /\ decommission_result c keep tr o).
Proof.
  unfold scaledOutBENodesByDecommission. apply wp_bind. eapply wp_mono; [apply progress_wp|].
  intros tr [[p|err]|w] [Hq Ho].
  2,3: (cbn; rewrite ?app_nil_r; split; [by eapply Forall_impl; [exact Hq | apply quiet_no_sts_write]|];
        split; [right; right; by apply quiet_sql | intros c'; done]).
  destruct (Ho _ eq_refl) as (bs & Hobs & ->).
  assert (Hw : no_sts_writes tr) by (eapply Forall_impl; [exact Hq | apply quiet_no_sts_write]).
  destruct (decommission_phase keep bs) eqn:Ep.
  - apply wp_bind. eapply wp_mono; [apply drop_wp|]. intros tr' [r|w] (Hw' & Hs & _); cbn; rewrite ?app_nil_r;
      (split; [by apply Forall_app|]); (split; [right; left; exists bs; split; [by apply observed_app_l|];
        split; [by apply Decommissioned_iff | by apply sql_of_after]|]); [|intros c'; done].
    intros c' [= <-]. split; [done|]. right. exists bs. split; [by apply observed_app_l | by apply Decommissioned_iff].
  - cbn. rewrite app_nil_r. split; [done|]. split; [right; right; by apply quiet_sql|].
    intros c' [= <-]. split; [done | by left].
  - apply wp_bind. eapply wp_mono; [apply decommission_wp|]. intros tr' [r|w] (Hw' & Hs);
      [destruct r; cbn; rewrite ?app_nil_r|cbn];
      (split; [by apply Forall_app|]); (split; [left; exists bs; split; [by apply observed_app_l|];
        split; [done | by apply sql_of_after]|]); [intros c'; done| |intros c'; done].
    intros c' [= <-]. split; [done | by left].
  - cbn. rewrite app_nil_r. split; [done|]. split; [right; right; by apply quiet_sql|].
    intros c' [= <-]. split; [done | by left].
Qed.

(** ** The step before the StatefulSet is applied *)

(** What Doris must have shown before the group is shrunk to [keep] nodes: with
    [EnableDecommission], nodes without tablets; without, the accepted drop. *)
Definition shrink_permitted (cluster : Ddc) (cgid : string) (keep : Z) (tr : trace) : Prop :=
  if EnableDecommission (ddc_Spec cluster)
  then exists bs, observed tr cgid bs /\ decommissioned keep bs
  else exists bs nodes, observed tr cgid bs /\ scaled_out keep bs [] = Ok nodes /\ dropped tr nodes.

Definition scale_sql (cluster : Ddc) (cgid : string) (keep : Z) (tr : trace) : Prop :=
  if EnableDecommission (ddc_Spec cluster) then decommission_sql cgid keep tr else sql_of drop_statement cgid keep tr.

Lemma permitted_app_l cluster cgid keep tr tr' :
  shrink_permitted cluster cgid keep tr -> shrink_permitted cluster cgid keep (app tr tr').
Proof.
  unfold shrink_permitted. destruct (EnableDecommission _).
  - intros (bs & ? & ?). exists bs. split; [by apply observed_app_l | done].
  - intros (bs & ns & ? & ? & ?). exists bs, ns. split; [by apply observed_app_l|]. split; [done | by apply dropped_app_l].
Qed.
Lemma permitted_app_r cluster cgid keep tr tr' :
  shrink_permitted cluster cgid keep tr' -> shrink_permitted cluster cgid keep (app tr tr').
Proof.
  unfold shrink_permitted. destruct (EnableDecommission _).
  - intros (bs & ? & ?). exists bs. split; [by apply observed_app_r | done].
  - intros (bs & ns & ? & ? & ?). exists bs, ns. split; [by apply observed_app_r|]. split; [done | by apply dropped_app_r].
Qed.

Lemma observed_around tr0 tr tr1 cgid bs : observed tr cgid bs -> observed (app tr0 (app tr tr1)) cgid bs.
Proof. intros. by apply observed_app_r, observed_app_l. Qed.

Lemma sql_of_around stmt cgid keep tr0 tr tr1 :
  Forall quiet tr0 -> Forall quiet tr1 -> sql_of stmt cgid keep tr -> sql_of stmt cgid keep (app tr0 (app tr tr1)).
Proof.
  intros H0 H1 Hs q. rewrite !omap_app, (quiet_sql tr0), (quiet_sql tr1), app_nil_r by done. cbn. intros Hin.
  destruct (Hs q Hin) as (bs & nodes & ? & ?). exists bs, nodes. split; [by apply observed_around | done].
Qed.

Lemma decommission_sql_around cgid keep tr0 tr tr1 :
  Forall quiet tr0 -> Forall quiet tr1 -> decommission_sql cgid keep tr -> decommission_sql cgid keep (app tr0 (app tr tr1)).
Proof.
  intros H0 H1 [(bs & ? & ? & ?)|[(bs & ? & ? & ?)|Hn]].
  - left. exists bs. split; [by apply observed_around|]. split; [done | by apply sql_of_around].
  - right; left. exists bs. split; [by apply observed_around|]. split; [done | by apply sql_of_around].
  - right; right. by rewrite !omap_app, (quiet_sql tr0), (quiet_sql tr1), Hn.
Qed.

Definition scaled (c : ComputeGroupStatus) (cluster : Ddc) (keep : Z) (tr : trace)
    (o : outcome (ComputeGroupStatus * option goerr)) : Prop :=
  forall c', o = Done (c', None) -> cgs_UniqueId c' = cgs_UniqueId c /\
    (cgs_Phase c' = Decommissioning \/ shrink_permitted cluster (cgs_ComputeGroupId c) keep tr).

(** The two ways out, with an open connection. *)
Definition scale_body (c : ComputeGroupStatus) (cluster : Ddc) (db : DB) (keep : Z) : op (ComputeGroupStatus * option goerr) :=
  let cgid := cgs_ComputeGroupId c in
  if EnableDecommission (ddc_Spec cluster) then scaledOutBENodesByDecommission c db cgid keep
  else
    let! err := scaledOutBENodesByDrop db cgid keep in
    match err with
    | Some e => Ret (c <| cgs_Phase := ScaleDownFailed |>, Some e)
    | None => Ret (c <| cgs_Phase := Scaling |>, None)
    end.

Lemma scale_body_wp c cluster db keep :
  wp (scale_body c cluster db keep) (fun tr o => no_sts_writes tr /\
    scale_sql cluster (cgs_ComputeGroupId c) keep tr /\ scaled c cluster keep tr o).
Proof.
  unfold scale_body, scale_sql, scaled, shrink_permitted. destruct (EnableDecommission _).
  { eapply wp_mono; [apply byDecommission_wp|]. intros tr o (Hw & Hs & Hr). auto. }
  apply wp_bind. eapply wp_mono; [apply drop_wp|]. intros tr [[e|]|w] (Hw & Hs & Hr); cbn; rewrite ?app_nil_r;
    (split; [done|]); (split; [done|]); intros c'; [done| |done].
  intros [= <-]. split; [done|]. right. apply (Hr eq_refl).
Qed.

Lemma scaleOut_wp c cluster cg keep : cg_Replicas cg = Some keep ->
  wp (scaleOut c cluster cg) (fun tr o => no_sts_writes tr /\
    scale_sql cluster (cgs_ComputeGroupId c) keep tr /\ scaled c cluster keep tr o).
Proof.
  intros Hk. unfold scaleOut. apply wp_bind. eapply wp_mono; [apply getMasterSqlClient_quiet|].
  assert (Hquiet : forall tr, Forall quiet tr -> no_sts_writes tr /\ scale_sql cluster (cgs_ComputeGroupId c) keep tr).
  { intros tr Hq. split; [eapply Forall_impl; [exact Hq | apply quiet_no_sts_write]|].
    unfold scale_sql, decommission_sql, sql_of. rewrite quiet_sql by done.
    destruct (EnableDecommission _); [by right; right | by intros q ?%elem_of_nil]. }
  intros tr0 [[db|err]|w] [Hq0 _].
  2,3: (cbn; rewrite ?app_nil_r; destruct (Hquiet _ Hq0); split; [done|]; split; [done | intros c'; done]).
  rewrite Hk. cbn [deref]. change (wp (with_close db (scale_body c cluster db keep))
    (fun tr' o' => no_sts_writes (app tr0 tr') /\ scale_sql cluster (cgs_ComputeGroupId c) keep (app tr0 tr') /\
                   scaled c cluster keep (app tr0 tr') o')).
  apply with_close_wp. eapply wp_mono; [apply scale_body_wp|].
  assert (Hsql : forall tr tr1, Forall quiet tr1 -> scale_sql cluster (cgs_ComputeGroupId c) keep tr ->
            scale_sql cluster (cgs_ComputeGroupId c) keep (app tr0 (app tr tr1))).
  { unfold scale_sql. intros tr tr1 H1. destruct (EnableDecommission _);
      [by apply decommission_sql_around | by apply sql_of_around]. }
  assert (Hw0 : no_sts_writes tr0) by (by apply Hquiet).
  intros tr o (Hw & Hs & Hr). split.
  { apply Forall_app; split; [done|]. apply Forall_app; split; [done | by repeat constructor]. }
  split; [apply Hsql; [by repeat constructor | done]|]. intros c' [= ->].
  destruct (Hr c' eq_refl) as [Hu Hor]. split; [done|]. destruct Hor as [?|Hp]; [by left|right].
  by apply permitted_app_r, permitted_app_l.
Qed.

Lemma find_cg_status_uid u l i c : find_cg_status u l = Some (i, c) -> cgs_UniqueId c = u.
Proof.
  revert i; induction l as [|x l IH]; intros i; cbn; [done|].
  case_decide; [by intros [= _ <-]|]. destruct (find_cg_status u l) as [[j c']|]; [|done].
  intros [= _ <-]. by apply (IH j).
Qed.

Lemma find_set_cg_status u l i c c' : find_cg_status u l = Some (i, c) -> cgs_UniqueId c' = u ->
  find_cg_status u (<[i := c']> l) = Some (i, c').
Proof.
  revert i; induction l as [|x l IH]; intros i; cbn; [done|].
  case_decide as Hx.
  - intros [= <- <-] Hu. cbn. by rewrite decide_True.
  - destruct (find_cg_status u l) as [[j d]|] eqn:Ef; [|done]. intros [= <- <-] Hu.
    change (<[S j := c']> (x :: l)) with (x :: <[j := c']> l). cbn [find_cg_status].
    rewrite decide_False by done. by rewrite (IH j eq_refl Hu).
Qed.

(** What the step leaves for the StatefulSet to be applied. *)
Definition pre_applied (cluster : Ddc) (cg : ComputeGroup) (i : nat) (c : ComputeGroupStatus) (keep : Z)
    (tr : trace) (o : outcome (Ddc * option goerr)) : Prop :=
  forall cluster', o = Done (cluster', None) -> exists c',
    find_cg_status (UniqueId cg) (ComputeGroupStatuses (ddc_Status cluster')) = Some (i, c') /\
    (cgs_Phase c' = Decommissioning \/ shrink_permitted cluster (cgs_ComputeGroupId c) keep tr).

Lemma preApply_wp st est cluster cg i c keep r er :
  cg_Replicas cg = Some keep ->
  find_cg_status (UniqueId cg) (ComputeGroupStatuses (ddc_Status cluster)) = Some (i, c) ->
  st_Replicas st = Some r -> st_Replicas est = Some er -> r < er ->
  wp (preApplyStatefulSet st est cluster cg) (fun tr o => no_sts_writes tr /\
    scale_sql cluster (cgs_ComputeGroupId c) keep tr /\ pre_applied cluster cg i c keep tr o).
Proof.
  intros Hk Hf Hr Her Hlt. unfold preApplyStatefulSet. rewrite Hf. cbn [deref].
  unfold getOperationType. rewrite Hr, Her. cbn [deref bind].
  rewrite (proj2 (Z.ltb_lt _ _) Hlt). cbn [orb].
  apply wp_bind. eapply wp_mono; [by apply scaleOut_wp|].
  intros tr [[c' err]|w] (Hw & Hs & Hres); cbn; rewrite ?app_nil_r; (split; [done|]); (split; [done|]); intros cl'; [|done].
  intros [= <- ->]. destruct (Hres c' eq_refl) as [Hu Hor]. exists c'. split; [|done]. cbn.
  apply (find_set_cg_status _ _ _ c); [done|]. rewrite Hu. by eapply find_cg_status_uid.
Qed.

(** Applying a shrunk StatefulSet takes the permission. *)
Lemma shrink_wp restConfig st cluster cg i c keep r :
  cg_Replicas cg = Some keep ->
  find_cg_status (UniqueId cg) (ComputeGroupStatuses (ddc_Status cluster)) = Some (i, c) ->
  st_Replicas st = Some r ->
  wp (reconcileStatefulset restConfig st cluster cg) (fun tr _ => forall est er,
    first_read tr = Some est -> st_Replicas est = Some er -> r < er ->
    before_sts_writes (shrink_permitted cluster (cgs_ComputeGroupId c) keep) tr).
Proof.
  intros Hk Hf Hr. unfold reconcileStatefulset. cbn [call bind]. intros [est|err].
  2: { apply wp_true. by intros tr o est er [=]. }
  destruct (volumeClaimTemplatesEqual _ _).
  2: { cbn. intros est' er _ _ _. apply before_none. by repeat constructor. }
  destruct (st_Replicas est) as [er|] eqn:Her.
  2: { apply wp_true. intros tr o est' er [= <-]. congruence. }
  destruct (Z.lt_ge_cases r er) as [Hlt|Hge].
  2: { apply wp_true. intros tr o est' er' [= <-] Her' Hlt. rewrite Her in Her'. injection Her' as <-. lia. }
  apply wp_bind. eapply wp_mono; [by eapply preApply_wp|].
  assert (Hnone : forall tr, no_sts_writes tr -> before_sts_writes (shrink_permitted cluster (cgs_ComputeGroupId c) keep)
            (Ev (CGet KSts (st_Namespace st) (st_Name st)) (Ok est) :: tr)).
  { intros tr Hw. apply before_none. by constructor. }
  intros tr [[cl' [e|]]|w] (Hw & _ & Hp).
  - cbn. intros. rewrite app_nil_r. by apply Hnone.
  - destruct (Hp _ eq_refl) as (c' & Hc' & Hor). unfold skipApplyStatefulset. rewrite Hc'. cbn [deref bind].
    case_bool_decide as Hd.
    { cbn. intros. rewrite app_nil_r. by apply Hnone. }
    destruct Hor as [?|Hperm]; [done|]. apply wp_true. intros tr1 o1 _ _ _ _ _.
    apply (before_app _ (Ev (CGet KSts (st_Namespace st) (st_Name st)) (Ok est) :: tr) tr1); [by constructor|].
    intros tr2. apply (permitted_app_r _ _ _ [_]). by apply permitted_app_l.
  - intros. by apply Hnone.
Qed.

End scale.

(** ** Ordinals and phases *)

(** A host name of a pod: the pod's name, and its domain after the first dot. *)
Lemma host_ordinal_pod name n domain : has_char "." name = false -> 0 <= n < 2 ^ 63 ->
  host_ordinal (name +:+ "-" +:+ Itoa n +:+ "." +:+ domain) = Ok n.
Proof.
  intros Hdot Hn. assert (Hi : Itoa n = dec n) by (unfold Itoa; by rewrite (proj2 (Z.ltb_ge n 0)) by lia).
  assert (Hd : str_forallb is_digit (Itoa n) = true) by (rewrite Hi; apply dec_digits; lia).
  assert (Hpod : has_char "." (name +:+ "-" +:+ Itoa n) = false).
  { rewrite !has_char_app, Hdot, (digits_no_char "." (Itoa n)) by done. done. }
  unfold host_ordinal, Split.
  replace (name +:+ "-" +:+ Itoa n +:+ "." +:+ domain)
    with ((name +:+ "-" +:+ Itoa n) +:+ String "." domain) by (by rewrite !app_assoc_str).
  rewrite (split_char_app "." _ _ "") by done. cbn [List.hd].
  change ("" +:+ (name +:+ "-" +:+ Itoa n)) with (name +:+ String "-" (Itoa n)).
  rewrite (split_char_last "-" _ _ "") by (by apply digits_no_char).
  apply Atoi_Itoa. unfold in_int. apply andb_true_iff; split; [apply Z.leb_le | apply Z.ltb_lt]; cbn in *; lia.
Qed.

Lemma scaled_out_app keep nodes acc :
  Forall (fun nb : Z * Backend => host_ordinal (be_Host nb.2) = Ok nb.1) nodes ->
  scaled_out keep (map snd nodes) acc = Ok (app acc (map snd (List.filter (fun nb => keep <=? nb.1) nodes))).
Proof.
  intros Hn; revert acc; induction Hn as [|[n b] nodes Hb Hn IH]; intros acc; cbn in *; [by rewrite app_nil_r|].
  rewrite Hb, IH. destruct (keep <=? n); [by rewrite <- app_assoc | done].
Qed.

(** ** Theorems *)

Section claims.
Context `{External}.

(** C2: A compute group is shrunk only after Doris let its nodes go.  When the
    StatefulSet read first has more replicas than the new one, any write of a
    StatefulSet in the pass comes after Doris showed the group with the wanted
    nodes in service and no tablet on the others (with decommission), or after
    it accepted the drop of the nodes of the surplus ordinals (without). *)
Theorem shrink_after_permission restConfig st cluster cg i c keep r :
  cg_Replicas cg = Some keep ->
  find_cg_status (UniqueId cg) (ComputeGroupStatuses (ddc_Status cluster)) = Some (i, c) ->
  st_Replicas st = Some r ->
  wp (reconcileStatefulset restConfig st cluster cg) (fun tr _ => forall est er,
    first_read tr = Some est -> st_Replicas est = Some er -> r < er ->
    before_sts_writes (shrink_permitted cluster (cgs_ComputeGroupId c) keep) tr).
Proof. apply shrink_wp. Qed.

(** C19: The only statements that taking nodes out runs on Doris are, with
    decommission, the decommission of the surplus nodes when none is under way
    and the drop of the surplus nodes when it is finished; without, the drop.
    The surplus nodes are those that Doris shows in the group at ordinals from
    the wanted number up, where the ordinal of a node is the number after the last
    dash of its host's first label. *)
Theorem scale_out_statements c cluster cg keep : cg_Replicas cg = Some keep ->
  wp (scaleOut c cluster cg) (fun tr _ => scale_sql cluster (cgs_ComputeGroupId c) keep tr).
Proof. intros Hk. eapply wp_mono; [by apply scaleOut_wp|]. by intros tr o (_ & Hs & _). Qed.
End claims.

(** Of the backends whose hosts are the stable names of a StatefulSet's
    pods, exactly those at ordinals from the wanted number up are taken out, in
    the order in which Doris shows them. *)
Theorem surplus_by_ordinal keep (nodes : list (Z * Backend)) name :
  has_char "." name = false ->
  Forall (fun nb => 0 <= nb.1 < 2 ^ 63 /\
    exists domain, be_Host nb.2 = name +:+ "-" +:+ Itoa nb.1 +:+ "." +:+ domain) nodes ->
  scaled_out keep (map snd nodes) [] = Ok (map snd (List.filter (fun nb => keep <=? nb.1) nodes)).
Proof.
  intros Hname Hn. rewrite scaled_out_app; [done|]. eapply Forall_impl; [exact Hn|].
  intros [n b] [Hr [domain Hb]]. cbn in *. rewrite Hb. by apply host_ordinal_pod.
Qed.

(** The progress that is read off the backends: a decommission can start
    only when no node is out of service and there are more than wanted; it is
    under way when the wanted number is in service and some other node still
    has tablets; it is finished when none has. *)
Theorem decommission_phase_cases l keep :
  (decommission_phase keep l = DecommissionAcceptable <->
     Forall (fun b => be_SystemDecommissioned b = false) l /\ keep < Z.of_nat (length l)) /\
  (decommission_phase keep l = PhaseDecommissioning <->
     count is_undecommissioned l = keep /\
     Exists (fun b => be_SystemDecommissioned b = true /\ be_TabletNum b <> 0) l) /\
  (decommission_phase keep l = PhaseDecommissioned <-> decommissioned keep l).
Proof.
  split; [|split]; [| |apply Decommissioned_iff]; unfold decommission_phase; rewrite Construct_counts;
    unfold GetDecommissionPhase; cbn; pose proof (counts_sum l) as Hsum;
    pose proof (count_nonneg is_decommissioning l); pose proof (count_nonneg is_decommissioned l).
  - assert (Hall : count is_undecommissioned l = Z.of_nat (length l) <->
      Forall (fun b => be_SystemDecommissioned b = false) l).
    { transitivity (count is_decommissioning l = 0 /\ count is_decommissioned l = 0); [lia|].
      rewrite !count_zero, !Forall_forall. unfold is_decommissioning, is_decommissioned.
      split; [intros [H1 H2] b Hb; specialize (H1 b Hb); specialize (H2 b Hb) | intros H1; split; intros b Hb;
        specialize (H1 b Hb)]; destruct (be_SystemDecommissioned b), (be_TabletNum b =? 0); cbn in *; congruence. }
    rewrite <- Hall.
    destruct (Z.eqb_spec (count is_decommissioning l) 0), (Z.eqb_spec (count is_decommissioned l) 0),
      (Z.ltb_spec keep (count is_undecommissioned l)), (Z.eqb_spec (count is_undecommissioned l) keep),
      (Z.ltb_spec 0 (count is_decommissioning l)),
      (Z.eqb_spec (count is_undecommissioned l + count is_decommissioned l) (Z.of_nat (length l)));
      cbn [andb]; split; intros Hx; try done; lia.
  - assert (Hex : 0 < count is_decommissioning l <->
      Exists (fun b => be_SystemDecommissioned b = true /\ be_TabletNum b <> 0) l).
    { transitivity (~ count is_decommissioning l = 0); [lia|]. rewrite count_zero. split.
      - intros Hn%not_Forall_Exists; [|apply _]. eapply Exists_impl; [exact Hn|]. intros b. cbn.
        unfold is_decommissioning. destruct (be_SystemDecommissioned b), (Z.eqb_spec (be_TabletNum b) 0); done.
      - intros (b & Hb & H1 & H2)%Exists_exists Hf. rewrite Forall_forall in Hf. specialize (Hf b Hb).
        unfold is_decommissioning in Hf. rewrite H1 in Hf. by destruct (Z.eqb_spec (be_TabletNum b) 0). }
    rewrite <- Hex.
    destruct (Z.eqb_spec (count is_decommissioning l) 0), (Z.eqb_spec (count is_decommissioned l) 0),
      (Z.ltb_spec keep (count is_undecommissioned l)), (Z.eqb_spec (count is_undecommissioned l) keep),
      (Z.ltb_spec 0 (count is_decommissioning l)),
      (Z.eqb_spec (count is_undecommissioned l + count is_decommissioned l) (Z.of_nat (length l)));
      cbn [andb]; split; intros Hx; try done; lia.
Qed.

(** ** Witnesses *)

#[local] Existing Instance demo_external.

Lemma shrink_after_permission_witness :
  wp (reconcileStatefulset true (demo_sts 1) demo_ddc demo_cg) (fun tr _ => forall est er,
    first_read tr = Some est -> st_Replicas est = Some er -> 1 < er ->
    before_sts_writes (shrink_permitted demo_ddc "cg1" 1) tr).
Proof. exact (shrink_after_permission true (demo_sts 1) demo_ddc demo_cg 0 demo_status 1 1 eq_refl eq_refl eq_refl). Defined.

Lemma scale_out_statements_witness :
  wp (scaleOut demo_status demo_ddc demo_cg) (fun tr _ => scale_sql demo_ddc "cg1" 1 tr).
Proof. exact (scale_out_statements demo_status demo_ddc demo_cg 1 eq_refl). Defined.

Definition demo_nodes : list (Z * Backend) :=
  map (fun n => (n, demo_row ("c-g-" +:+ Itoa n))) [2; 0; 1].

Lemma surplus_by_ordinal_witness :
  scaled_out 1 (map snd demo_nodes) [] = Ok [demo_row "c-g-2"; demo_row "c-g-1"].
Proof.
  apply (surplus_by_ordinal 1 demo_nodes "c-g" eq_refl).
  repeat constructor; try (cbn; lia); exists "svc"; reflexivity.
Defined.
