(* ===== verification/StorageProps.v ===== *)
(** The persistent volume claims: which claims the controllers delete, create
    and resize, and how claims are named after volumes. *)

From Stdlib Require Import ZArith Lia Ascii.
From stdpp Require Import base list gmap strings.
From S2P Require Import Prelude GoStr Json KubeTypes DdcApi Client Traces Mysql Resource External SubDefault.
From S2P Require Import Claims PrepareModify Quiet GracefulCodec Graceful ComputeGroups CgLifecycle DisFe.
From S2P Require Import Demo.

Local Open Scope string_scope.
Local Open Scope Z_scope.
Local Open Scope dop_scope.

(** ** The calls on claims *)

Definition pvc_of (k : kind) : obj k -> option PersistentVolumeClaim :=
  match k return obj k -> option PersistentVolumeClaim with KPvc => Some | _ => fun _ => None end.
Definition pvc_create (e : event OpE) : option PersistentVolumeClaim :=
  match e with Ev (CCreate k o) _ => pvc_of k o | _ => None end.
Definition pvc_patch (e : event OpE) : option PersistentVolumeClaim :=
  match e with Ev (CPatchMerge k o) _ => pvc_of k o | _ => None end.
Definition pvc_update (e : event OpE) : option PersistentVolumeClaim :=
  match e with Ev (CUpdate k o) _ => pvc_of k o | _ => None end.

(** ** Deletion *)

(** The claim of an ordinal: what a pod of the StatefulSet may use. *)
Definition claim_of_ordinal (stsName : string) (n : Z) (claim : string) : Prop :=
  exists volume ordinal, claim = volume +:+ stsName +:+ "-" +:+ ordinal /\ ParseInt ordinal 32 = (n, None).

Lemma claim_unused_ordinal stsName replicas claim : claim_unused stsName replicas claim = true ->
  exists n, claim_of_ordinal stsName n claim /\ replicas <= n.
Proof.
  unfold claim_unused. pose proof (Join_Split claim (stsName +:+ "-") ltac:(by destruct stsName)) as Hj.
  destruct (Split claim (stsName +:+ "-")) as [|a [|b [|? ?]]]; try done.
  destruct (ParseInt b 32) as [n [e|]] eqn:Hp; [done|]. intros Hle%Z.leb_le.
  pose proof (ParseInt_range b 32 n ltac:(lia) Hp) as Hr. unfold int32 in Hle. rewrite wrap_id in Hle by (done || lia).
  exists n. split; [|done]. exists a, b. split; [|done]. rewrite <- Hj. cbn [Join]. by rewrite app_assoc_str.
Qed.

Lemma delete_claims_spec ns labels names merr :
  only (fun e => forall name, pvc_delete e = Some name -> name ∈ names) (delete_claims ns labels names merr).
Proof.
  assert (Hgo : forall (all names : list string) merr, (forall n, n ∈ names -> n ∈ all) ->
    only (fun e => forall name, pvc_delete e = Some name -> name ∈ all) (delete_claims ns labels names merr)).
  { intros all l; induction l as [|n l IH]; intros me Hsub; cbn [delete_claims]; [by apply spec_ret|].
    assert (Hl : forall x, x ∈ l -> x ∈ all) by (intros; apply Hsub; by right).
    eapply (spec_bind _ (fun _ => True)).
    - unfold DeletePVC. apply spec_call; [intros r x [= <-]; apply Hsub; left|].
      intros [e|] _; [destruct (IsNotFound e)|]; by apply spec_ret.
    - intros [e|] _; [|by apply IH]. apply spec_call; [by intros r x|]. intros r _. by apply IH. }
  by apply Hgo.
Qed.

(** The claims were listed, and the StatefulSet read. *)
Definition pvcs_listed (tr : trace) (ns : string) (l : list PersistentVolumeClaim) : Prop :=
  exists sel, Ev (CList KPvc ns sel) (Ok l) ∈ tr.
Definition sts_fetched (tr : trace) (ns name : string) (s : StatefulSet) : Prop :=
  Ev (CGet KSts ns name) (Ok s) ∈ tr.

(** ** Creation and resizing *)

(** A change of a claim that only grows what was listed: a new claim has a name
    that was not listed, a resize keeps everything but the size, which grows,
    and nothing is deleted or replaced. *)
Definition grows (l : list PersistentVolumeClaim) (e : event OpE) : Prop :=
  (forall p, pvc_create e = Some p -> pvc_Name p ∉ map pvc_Name l) /\
  (forall p, pvc_patch e = Some p -> exists old q, old ∈ l /\ p = set_storage old q /\
     storage_request (pvc_Spec old) < q) /\
  pvc_update e = None /\ pvc_delete e = None.

(** No claim is created, patched, replaced or deleted. *)
Definition no_claim_written (e : event OpE) : Prop :=
  pvc_create e = None /\ pvc_patch e = None /\ pvc_update e = None /\ pvc_delete e = None.

Lemma grows_event l ty r m x : grows l (Ev (REvent ty r m) x).
Proof. by repeat split. Qed.
#[local] Hint Resolve grows_event : core.

Lemma getPvc_some l name p : getPvc l name = Some p -> p ∈ l /\ pvc_Name p = name.
Proof.
  unfold getPvc. intros Hf. apply List.find_some in Hf as [Hin Hn]. rewrite list_elem_of_In.
  by case_bool_decide.
Qed.
Lemma getPvc_none l name : getPvc l name = None -> name ∉ map pvc_Name l.
Proof.
  unfold getPvc. intros Hf (p & -> & Hp)%list_elem_of_fmap. rewrite list_elem_of_In in Hp.
  pose proof (List.find_none _ _ Hf p Hp) as Hn. cbv beta in Hn. by case_bool_decide.
Qed.

Lemma reconcile_claim_grows ddc l pvc : only (grows l) (reconcile_claim ddc (getPvc l (pvc_Name pvc)) pvc).
Proof.
  unfold reconcile_claim. destruct (getPvc l (pvc_Name pvc)) as [old|] eqn:Hg.
  - destruct (getPvc_some _ _ _ Hg) as [Hin _].
    destruct (Z.ltb_spec (storage_request (pvc_Spec old)) (storage_request (pvc_Spec pvc))).
    + unfold into_requests. case_decide; [done|].
      apply spec_call; [|intros [e|] _; repeat (spec_step; auto)].
      intros r. split; [done|]. split; [|done]. intros p [= <-]. eauto.
    + destruct (_ <? _); repeat (spec_step; auto).
  - apply getPvc_none in Hg. apply spec_call; [|intros [e|] _; repeat (spec_step; auto)].
    intros r. split; [|done]. by intros p [= <-].
Qed.

Lemma until_error_spec (P : event OpE -> Prop) steps : Forall (fun p => only P p) steps -> only P (until_error steps).
Proof.
  induction 1 as [|p steps Hp Hs IH]; cbn [until_error]; [by apply spec_ret|].
  eapply (spec_bind _ (fun _ => True)); [exact Hp|]. intros [e|] _; [by apply spec_ret | exact IH].
Qed.

Section claims.
Context `{External}.

(** What a cleared claim is. *)
Lemma cleared_claims_wp ddc uniqueId :
  wp (ClearStatefulsetUnusedPVCs ddc uniqueId) (fun tr _ => forall claim, claim ∈ omap pvc_delete tr ->
    exists cg sts replicas l n,
      cg ∈ ComputeGroups (ddc_Spec ddc) /\ UniqueId cg = uniqueId /\
      sts_fetched tr (ddc_Namespace ddc) (GetCGStatefulsetName ddc cg) sts /\ st_Replicas sts = Some replicas /\
      pvcs_listed tr (ddc_Namespace ddc) l /\ claim ∈ map pvc_Name l /\
      claim_of_ordinal (GetCGStatefulsetName ddc cg) n claim /\ replicas <= n).
Proof.
  unfold ClearStatefulsetUnusedPVCs. cbn [bind call]. intros [l|err]; [|cbn; by intros [] claim ?%elem_of_nil].
  destruct (spec_group ddc uniqueId) as [cg|] eqn:Hcg; [|cbn; by intros claim ?%elem_of_nil].
  assert (Hin : cg ∈ ComputeGroups (ddc_Spec ddc) /\ UniqueId cg = uniqueId).
  { revert Hcg. unfold spec_group. generalize (ComputeGroups (ddc_Spec ddc)) as gs.
    assert (Hgo : forall gs r, foldl (fun r cg => if decide (UniqueId cg = uniqueId) then Some cg else r) r gs = Some cg ->
              (cg ∈ gs /\ UniqueId cg = uniqueId) \/ r = Some cg).
    { intros gs; induction gs as [|g gs IH]; intros r; cbn; [by right|].
      intros [[Hg Hu]|Hr]%IH; [left; split; [by right | done]|].
      case_decide; [injection Hr as ->; left; split; [left | done] | by right]. }
    intros gs [?|?]%Hgo; done. }
  unfold GetStatefulSet. cbn [bind call]. intros [sts|err]; [|cbn; by intros claim ?%elem_of_nil].
  destruct (st_Replicas sts) as [replicas|] eqn:Hr; cbn [deref]; [|cbn; by intros claim ?%elem_of_nil].
  eapply wp_mono; [apply delete_claims_spec|]. intros tr o [Htr _] claim (e & He & Hc)%list_elem_of_omap.
  rewrite !elem_of_cons in He. destruct He as [->|[->|He]]; [done..|].
  rewrite Forall_forall in Htr. specialize (Htr e He claim Hc).
  rewrite list_elem_of_In in Htr. apply filter_In in Htr as [Hl Hu]. rewrite <- list_elem_of_In in Hl.
  apply claim_unused_ordinal in Hu as (n & Hn & Hle).
  exists cg, sts, replicas, l, n. destruct Hin. repeat (split; [done|]).
  split; [right; left|]. split; [done|]. split; [eexists; left|]. done.
Qed.

(** C7: Clearing the claims of a compute group deletes only claims that were
    listed and that belong to an ordinal at or above the replica count of the
    group's StatefulSet, as it was just read: no claim of a pod that the
    StatefulSet still runs. *)
Theorem cleared_claims_unused ddc uniqueId :
  wp (ClearStatefulsetUnusedPVCs ddc uniqueId) (fun tr _ => forall claim, claim ∈ omap pvc_delete tr ->
    exists cg sts replicas l n,
      cg ∈ ComputeGroups (ddc_Spec ddc) /\ UniqueId cg = uniqueId /\
      sts_fetched tr (ddc_Namespace ddc) (GetCGStatefulsetName ddc cg) sts /\ st_Replicas sts = Some replicas /\
      pvcs_listed tr (ddc_Namespace ddc) l /\ claim ∈ map pvc_Name l /\
      claim_of_ordinal (GetCGStatefulsetName ddc cg) n claim /\ replicas <= n).
Proof. apply cleared_claims_wp. Qed.

(** C27: Reconciling the claims of a component writes no claim at all, or it
    has listed the claims and never shrinks, replaces or deletes one: it creates
    only claims that the API server did not list, and patches only a listed claim
    to a larger size, keeping all its other fields. *)
Theorem reconciled_claims_grow ddc cm componentType sts cg :
  wp (ReconcilePVC ddc cm componentType sts cg) (fun tr _ =>
    Forall no_claim_written tr \/ exists l, pvcs_listed tr (ddc_Namespace ddc) l /\ Forall (grows l) tr).
Proof.
  unfold ReconcilePVC. cbv zeta.
  match goal with |- wp (deref ?o _) _ => destruct o as [spec|]; cbn [deref]; [|by left] end.
  destruct (BuildVolumesVolumeMountsAndPVCs _ _ _) as [[[vs vms] templates]|]; [|by left].
  destruct (st_Selector sts) as [sel|]; cbn [deref]; [|by left].
  cbn [bind call]. intros [l|err].
  2: { cbn. left. by repeat constructor. }
  assert (Hhead : grows l (Ev (CList KPvc (ddc_Namespace ddc) (MatchingLabels (ls_MatchLabels sel))) (Ok l)))
    by (by repeat split).
  assert (Hlist : forall tr, pvcs_listed (Ev (CList KPvc (ddc_Namespace ddc) (MatchingLabels (ls_MatchLabels sel))) (Ok l) :: tr)
            (ddc_Namespace ddc) l) by (intros; eexists; left).
  destruct (List.filter _ templates) as [|t ts].
  { cbn. right. exists l. split; [apply Hlist | by repeat constructor]. }
  destruct (Replicas spec) as [n|]; cbn [deref].
  2: { cbn. right. exists l. split; [apply Hlist | by repeat constructor]. }
  eapply wp_mono; [apply (until_error_spec (grows l))|].
  - apply Forall_forall. intros p (pvc & -> & _)%list_elem_of_fmap. apply reconcile_claim_grows.
  - intros tr o [Htr _]. right. exists l. split; [apply Hlist | by constructor].
Qed.
End claims.

(** The name under which a claim is created for a volume and an ordinal is
    the name that the removal recognises: the claim is taken for unused exactly
    when its ordinal is not below the replica count, provided the StatefulSet's
    name does not occur in the volume's. *)
Theorem claim_name_recognised stsName replicas volume n :
  volume <> "" -> 0 <= n < 2 ^ 31 ->
  occurs_within (String.length (volume +:+ "-")) (stsName +:+ "-")
    ((volume +:+ "-") +:+ (stsName +:+ "-") +:+ Itoa n) = false ->
  claim_unused stsName replicas (BuildPVCName stsName (Itoa n) volume) = (replicas <=? n).
Proof.
  intros Hv Hn Hocc. unfold BuildPVCName. cbv zeta. rewrite decide_True by done.
  replace (volume +:+ "-" +:+ stsName +:+ "-" +:+ Itoa n)
    with ((volume +:+ "-") +:+ (stsName +:+ "-") +:+ Itoa n) by (by rewrite !app_assoc_str).
  unfold claim_unused, Split. rewrite split_at by (done || by destruct stsName).
  assert (Hd : str_forallb is_digit (Itoa n) = true).
  { unfold Itoa. rewrite (proj2 (Z.ltb_ge n 0)) by lia. apply dec_digits; lia. }
  rewrite (split_no_char _ "-"); [|by rewrite has_char_app, orb_true_r | by apply digits_no_char].
  assert (Hi : in_int 32 n = true) by (unfold in_int; apply andb_true_iff; split; [apply Z.leb_le | apply Z.ltb_lt]; cbn in *; lia).
  cbn [String.append]. rewrite ParseInt_Itoa by done. unfold int32. by rewrite wrap_id.
Qed.

Lemma claim_name_recognised_witness :
  claim_unused "cluster-group" 2 (BuildPVCName "cluster-group" (Itoa 2) "be-storage0") = true.
Proof. apply (claim_name_recognised "cluster-group" 2 "be-storage0" 2); [done | lia | reflexivity]. Defined.

(** ** Volumes, mounts and claim templates *)

Section storage.
Context `{External}.

(** Every mount names its volume, in order, and every claim volume a template. *)
Definition storage_ok (r : components_result) : Prop :=
  let '(volumes, mounts, claims) := r in
  map vm_Name mounts = map v_Name volumes /\
  forall name claim, mkVolume name (VolPVC claim) ∈ volumes -> claim ∈ map pvc_Name claims.

Lemma unzip3_ok l :
  (forall x, x ∈ l -> exists name path pv, x = claim_for name path pv) -> storage_ok (unzip3 l).
Proof.
  intros Hl. unfold storage_ok, unzip3. split.
  - induction l as [|x l IH]; [done|]. cbn [map]. f_equal; [|apply IH; intros y Hy; apply Hl; by right].
    destruct (Hl x) as (n & p & pv & ->); [left | done].
  - intros name claim Hin. apply list_elem_of_fmap in Hin as (x & Hx & Hin).
    destruct (Hl x Hin) as (n & p & pv & ->). cbn in Hx. injection Hx as -> ->.
    apply list_elem_of_fmap. exists (claim_for n p pv).2. split; [done|]. apply list_elem_of_fmap. by eexists.
Qed.

Lemma empty_dirs_ok (names paths : list string) : length names = length paths ->
  storage_ok (map (fun n => mkVolume n VolEmptyDir) names, zip_with mkVolumeMount names paths, []).
Proof.
  intros Hlen. unfold storage_ok. split.
  - revert paths Hlen; induction names as [|n names IH]; intros [|p paths] Hlen; try done.
    cbn. f_equal. apply IH. by injection Hlen.
  - intros name claim Hin. apply list_elem_of_fmap in Hin as (n & Hn & _). discriminate Hn.
Qed.

(** The claims of the paths that were not passed yet. *)
Definition backed (pathPV : gmap string PersistentVolume) (template : option PersistentVolume) (path : string) : Prop :=
  is_Some (pathPV !! path) \/ is_Some template.

Lemma claims_backwards_mounts pathName pathPV template ss paths :
  let mounts := map (fun x => vm_MountPath x.1.2) (claims_backwards pathName pathPV template ss paths) in
  NoDup mounts /\ forall path, path ∈ mounts <-> path ∈ paths /\ path ∉ ss /\ backed pathPV template path.
Proof.
  revert ss; induction paths as [|p paths IH]; intros ss; cbn [claims_backwards].
  { split; [constructor|]. intros path. cbn. rewrite !elem_of_nil. tauto. }
  unfold set_Find, set_Add. destruct (decide (p ∈ ss)) as [Hp|Hp].
  { rewrite bool_decide_true by done. destruct (IH ss) as [Hnd Hin]. split; [exact Hnd|].
    intros path. rewrite Hin, elem_of_cons. split; [tauto | intros ([->|?] & ? & ?); tauto]. }
  rewrite bool_decide_false by done. cbv zeta. destruct (IH ({[p]} ∪ ss)) as [Hnd Hin].
  set (more := claims_backwards pathName pathPV template ({[p]} ∪ ss) paths) in *.
  assert (Hback : forall pv n, backed pathPV template p ->
    NoDup (map (fun x => vm_MountPath x.1.2) (claim_for n p pv :: more)) /\
    forall path, path ∈ map (fun x => vm_MountPath x.1.2) (claim_for n p pv :: more) <->
      path ∈ p :: paths /\ path ∉ ss /\ backed pathPV template path).
  { intros pv n Hb. cbn [map fst snd claim_for vm_MountPath]. split.
    - constructor; [|exact Hnd]. rewrite Hin. set_solver.
    - intros path. rewrite !elem_of_cons, Hin. destruct (decide (path = p)) as [->|Hne]; [tauto|]. set_solver. }
  destruct (pathPV !! p) as [pv|] eqn:Hpv; [apply Hback; left; by eexists|].
  destruct template as [pv|]; [apply Hback; right; by eexists|].
  split; [exact Hnd|]. intros path. rewrite Hin, elem_of_cons.
  destruct (decide (path = p)) as [->|Hne]; [|set_solver].
  split; [set_solver|]. intros (_ & _ & [Hx|Hx]); by (rewrite ?Hpv in Hx; destruct Hx).
Qed.

Lemma claims_backwards_for pathName pathPV template ss paths x :
  x ∈ claims_backwards pathName pathPV template ss paths -> exists name path pv, x = claim_for name path pv.
Proof.
  revert ss; induction paths as [|p paths IH]; intros ss; cbn [claims_backwards]; [by intros ?%elem_of_nil|].
  destruct (set_Find ss p); [apply IH|]. cbv zeta.
  destruct (pathPV !! p) as [pv|]; [|destruct template as [pv|]; [|apply IH]];
    (intros [->|Hin]%elem_of_cons; [by do 3 eexists | by eapply IH]).
Qed.

(** The paths that a component must store, from the configuration and the spec. *)
Definition required_paths (spec : CommonSpec) (confMap : config) (ty : DisaggregatedComponentType) : option (list string) :=
  storage ← match ty with
            | DisaggregatedFE => p ← getFEMetaPath confMap; Some [p]
            | DisaggregatedBE => caches ← getCacheMaxSizeAndPaths confMap; Some caches.1
            | _ => Some []
            end;
  let paths := app storage (concat (map pv_MountPaths (PersistentVolumes spec))) in
  if negb (existsb pv_LogNotStore (PersistentVolumes spec)) && negb (LogNotStore spec)
  then logPath ← getLogPath confMap ty; Some (app paths [logPath])
  else Some paths.

(** Without a claim for any of the volumes. *)
Lemma empty_dirs_storage confMap ty vm :
  getEmptyDirVolumesVolumeMounts confMap ty = Some vm -> storage_ok (vm, []).
Proof.
  intros He. unfold getEmptyDirVolumesVolumeMounts in He. destruct ty.
  - unfold getFEEmptyDirVolumesVolumeMounts in He.
    destruct (getLogPath _ _) as [lp|]; [|done]. destruct (getFEMetaPath _) as [mp|]; [|done].
    injection He as <-. apply (empty_dirs_ok [_; _] [lp; mp]). done.
  - unfold getBEEmptyDirVolumesVolumeMounts in He.
    destruct (getLogPath _ _) as [lp|]; [|done]. destruct (getCacheMaxSizeAndPaths _) as [caches|]; [|done].
    injection He as <-. apply (empty_dirs_ok (_ :: cache_names caches.1) (lp :: caches.1)).
    cbn. unfold cache_names. by rewrite length_imap.
  - unfold getMSEmptyDirVolumesVolumeMounts in He. destruct (getLogPath _ _) as [lp|]; [|done].
    injection He as <-. by apply (empty_dirs_ok [_] [lp]).
  - injection He as <-. by apply (empty_dirs_ok [] []).
Qed.

Lemma storage_built confMap ty spec r :
  BuildVolumesVolumeMountsAndPVCs confMap ty spec = Some r -> storage_ok r.
Proof.
  unfold BuildVolumesVolumeMountsAndPVCs. destruct (PersistentVolume_ spec) as [pv|] eqn:Hpv.
  - unfold PersistentVolumeBuildVolumesVolumeMountsAndPVCs. rewrite Hpv.
    intros (s & _ & [= <-])%bind_Some. apply unzip3_ok.
    intros x Hx. apply list_elem_of_fmap in Hx as (path & -> & _). by do 3 eexists.
  - destruct (PersistentVolumes spec) as [|v vs] eqn:Hpvs.
    + intros (vm & He & [= <-])%bind_Some. rewrite <- (surjective_pairing vm). by eapply empty_dirs_storage.
    + unfold PersistentVolumeArrayBuildVolumesVolumeMountsAndPVCs.
      intros (storage & _ & Hr)%bind_Some. cbv zeta in Hr. apply bind_Some in Hr as (required & _ & [= <-]).
      apply unzip3_ok, claims_backwards_for.
Qed.

(** C34: The volumes, mounts and claim templates built for a component agree:
    every mount has its volume and every claim volume its template.  With a list
    of persistent volumes, each path is mounted at most once, and exactly the
    required paths that some volume of the list, or its template, provides. *)
Theorem storage_consistent confMap ty spec :
  match BuildVolumesVolumeMountsAndPVCs confMap ty spec with
  | Some r => storage_ok r /\
      (PersistentVolume_ spec = None -> PersistentVolumes spec <> [] ->
       NoDup (map vm_MountPath r.1.2) /\
       exists required, required_paths spec confMap ty = Some required /\
         forall path, path ∈ map vm_MountPath r.1.2 <->
           path ∈ required /\ backed (path_pvs (PersistentVolumes spec)) (template_pv (PersistentVolumes spec)) path)
  | None => True
  end.
Proof.
  destruct (BuildVolumesVolumeMountsAndPVCs confMap ty spec) as [r|] eqn:Hr; [|done].
  split; [by eapply storage_built|]. intros Hpv Hpvs. unfold BuildVolumesVolumeMountsAndPVCs in Hr. rewrite Hpv in Hr.
  destruct (PersistentVolumes spec) as [|v vs] eqn:Hs; [done|].
  unfold PersistentVolumeArrayBuildVolumesVolumeMountsAndPVCs in Hr. unfold required_paths. rewrite Hs in *.
  apply bind_Some in Hr as (storage & -> & Hr). cbv zeta in Hr. cbn [mbind option_bind].
  apply bind_Some in Hr as (required & Hreq & [= <-]). cbn [unzip3 fst snd]. rewrite map_map.
  destruct (claims_backwards_mounts (name_paths required).2 (path_pvs (v :: vs))
    (template_pv (v :: vs)) ∅ (rev required)) as [Hnd Hin].
  split; [exact Hnd|]. exists required. split; [exact Hreq|]. intros path.
  etransitivity; [apply Hin|]. rewrite !list_elem_of_In, <- in_rev.
  split; [by intros (? & _ & ?)|]. intros [? ?]. split; [done|]. split; [|done]. apply not_elem_of_empty.
Qed.
End storage.
