(* ===== verification/ApplyProps.v ===== *)
(** Applying StatefulSets and services: an applied object settles, so that a
    pass over an unchanged specification writes nothing, and what the record of
    an update means for the status that is computed after it. *)

From Stdlib Require Import ZArith Lia Ascii.
From stdpp Require Import base list gmap strings.
From S2P Require Import Prelude GoStr Json KubeTypes DdcApi Client Traces Mysql Resource External SubDefault.
From S2P Require Import PrepareModify Quiet GracefulCodec Graceful ComputeGroups Demo ScaleProps.

Local Open Scope string_scope.
Local Open Scope Z_scope.
Local Open Scope dop_scope.

(** ** What a comparison leaves *)

Section settle.
Context `{External}.

Definition hash_key : string := DisaggregatedSpecHashValueAnnotation.

(** The hash that a StatefulSet without a recorded one is given. *)
Definition hash_of (st : StatefulSet) : string :=
  match st_Annotations st !! hash_key with
  | Some v => v
  | None => HashObject (statefulSetHashObject st false)
  end.

Lemma DeepEqual_eq new old :
  StatefulsetDeepEqualWithKey new old hash_key false =
  (set_sts_Annotations (<[hash_key := hash_of new]> (st_Annotations new ∪ ∅)) new,
   bool_decide (hash_of new = hash_of old) && bool_decide (st_Namespace new = st_Namespace old)).
Proof. done. Qed.

(** The API server returns a StatefulSet in its namespace with the annotations
    that were written; the claim templates are immutable. *)
Definition returned_as (est p est' : StatefulSet) : Prop :=
  st_Annotations est' = st_Annotations p /\ st_Namespace est' = st_Namespace p /\
  st_VolumeClaimTemplates est' = st_VolumeClaimTemplates est.
(** The update strategy comes back too. *)
Definition stored_as (est p est' : StatefulSet) : Prop :=
  returned_as est p est' /\ us_Type (st_UpdateStrategy est') = us_Type (st_UpdateStrategy p).

Lemma restrict_same st est est' :
  st_VolumeClaimTemplates est' = st_VolumeClaimTemplates est ->
  RestrictConditionsEqual st est' = RestrictConditionsEqual st est.
Proof. unfold RestrictConditionsEqual. by intros ->. Qed.

Lemma restrict_keeps st est :
  st_Annotations (RestrictConditionsEqual st est) = st_Annotations st /\
  st_Namespace (RestrictConditionsEqual st est) = st_Namespace st /\
  st_UpdateStrategy (RestrictConditionsEqual st est) = st_UpdateStrategy st.
Proof. unfold RestrictConditionsEqual. by destruct (st_VolumeClaimTemplates est). Qed.

Lemma generation_equal_settles name st est cluster p c est' cluster' :
  generation_equal name st est cluster = (p, c, false) -> returned_as est p est' ->
  (generation_equal name st est' cluster').1.2 = cluster' /\ (generation_equal name st est' cluster').2 = true.
Proof.
  unfold generation_equal. fold hash_key. rewrite !DeepEqual_eq. intros Hp (Ha & Hn & Hv).
  rewrite (restrict_same st est est' Hv). set (nst := RestrictConditionsEqual st est) in *.
  destruct (bool_decide (hash_of nst = hash_of est) && _) in Hp; [done|].
  unfold record_update in Hp. injection Hp as <- <-.
  assert (Hh : hash_of est' = hash_of nst).
  { unfold hash_of at 1. rewrite Ha. cbn. rewrite lookup_insert_ne by done. by rewrite lookup_insert_eq. }
  rewrite Hh, bool_decide_true by done. rewrite bool_decide_true by (rewrite Hn; done). done.
Qed.

Lemma ApplyStatefulSet_settles name st cluster :
  wp (ApplyStatefulSet st cluster (generation_equal name) []) (fun tr _ => forall est p est',
    first_read tr = Some est -> p ∈ omap sts_write tr -> returned_as est p est' ->
    forall cluster', wp (ApplyStatefulSet st cluster' (generation_equal name) []) (fun tr' o =>
      first_read tr' = Some est' -> Forall quiet tr' /\ o = Done (cluster', None))).
Proof.
  unfold ApplyStatefulSet at 1, apply_stateful_set at 1. cbn [bind call]. intros [est0|err].
  - destruct (generation_equal name st est0 cluster) as [[p0 c0] ev] eqn:Hg. cbn [foldl]. destruct ev.
    { cbn. by intros est p est' _ ?%elem_of_nil. }
    cbn [bind call PatchClientObject]. intros r.
    assert (Hmain : forall est p est', first_read (Ev (CGet KSts (st_Namespace st) (st_Name st)) (Ok est0) ::
      [Ev (CPatchMerge KSts (set_st_ResourceVersion (m_ResourceVersion (st_Meta est0)) p0)) r]) = Some est ->
      p ∈ [set_st_ResourceVersion (m_ResourceVersion (st_Meta est0)) p0] -> returned_as est p est' ->
      forall cluster', wp (ApplyStatefulSet st cluster' (generation_equal name) []) (fun tr' o =>
        first_read tr' = Some est' -> Forall quiet tr' /\ o = Done (cluster', None))).
    { intros est p est' [= <-] ->%list_elem_of_singleton Hs cluster'.
      destruct (generation_equal_settles name st est0 cluster p0 c0 est' cluster' Hg) as [Hc Hev]; [exact Hs|].
      unfold ApplyStatefulSet, apply_stateful_set. cbn [bind call]. intros [e2|err2]; [|by apply wp_true; intros tr o [=]].
      destruct (generation_equal name st e2 cluster') as [[p2 c2] ev2] eqn:H2. cbn [foldl]. destruct ev2.
      - cbn. intros [= ->]. rewrite H2 in Hc, Hev. cbn in *. subst. split; [by repeat constructor | done].
      - apply wp_true. intros tr o [= ->]. by rewrite H2 in Hev. }
    destruct r as [e|]; [destruct (IsConflict e)|]; cbn; exact Hmain.
  - destruct (IsNotFound err); apply wp_true; by intros tr o est p est' [=].
Qed.
(** *** Compute groups *)

Lemma HashObject_nonempty {A} `{SpewPrint A} (a : A) : HashObject a <> "".
Proof. apply Itoa_nonempty. Qed.

Lemma hash_normalized st :
  hash_of (normalizeGracefulStatefulSetForCompare st) =
  match st_Annotations st !! hash_key with
  | Some v => v
  | None => HashObject (statefulSetHashObject (normalizeGracefulStatefulSetForCompare st) false)
  end.
Proof.
  unfold hash_of.
  assert (He : st_Annotations (normalizeGracefulStatefulSetForCompare st) !! hash_key = st_Annotations st !! hash_key).
  { unfold normalizeGracefulStatefulSetForCompare, clearGracefulAction.
    change (delete gracefulActionAnnotation (st_Annotations st) !! hash_key = st_Annotations st !! hash_key).
    by rewrite lookup_delete_ne. }
  by rewrite He.
Qed.

Lemma business_eq new est :
  businessStatefulSetEqual new est =
  (let h := hash_of (normalizeGracefulStatefulSetForCompare new) in
   (if decide (h <> "") then set_sts_Annotations (<[hash_key := h]> (st_Annotations new)) new else new,
    bool_decide (h = hash_of (normalizeGracefulStatefulSetForCompare est)) &&
    bool_decide (st_Namespace new = st_Namespace est))).
Proof.
  unfold businessStatefulSetEqual. fold hash_key. rewrite DeepEqual_eq. cbv zeta beta.
  set (h := hash_of (normalizeGracefulStatefulSetForCompare new)).
  assert (Hm : forall m : strmap, map_get (<[hash_key := h]> m) hash_key = h).
  { intros m. unfold map_get. by rewrite lookup_insert_eq. }
  cbn [st_Annotations set_sts_Annotations st_Meta update_field m_Annotations]. by rewrite Hm.
Qed.

(** What the comparison of a compute group's StatefulSet leaves. *)
Lemma apply_equal_left cg new est cluster p c ev :
  apply_equal cg new est cluster = (p, c, ev) ->
  let nst := RestrictConditionsEqual new est in
  hash_of (normalizeGracefulStatefulSetForCompare p) = hash_of (normalizeGracefulStatefulSetForCompare nst) /\
  st_Namespace p = st_Namespace new /\ us_Type (st_UpdateStrategy p) = us_Type (st_UpdateStrategy new) /\
  gracefulAnnotationValue p = gracefulAnnotationValue new /\
  st_Annotations p !! hash_key = Some (hash_of (normalizeGracefulStatefulSetForCompare nst)).
Proof.
  unfold apply_equal. rewrite business_eq. cbv zeta.
  destruct (restrict_keeps new est) as (Hra & Hrn & Hru).
  set (nst := RestrictConditionsEqual new est) in *. set (h := hash_of (normalizeGracefulStatefulSetForCompare nst)).
  set (m := if decide (h <> "") then _ else nst).
  assert (Hm : st_Annotations m !! hash_key = Some h /\ st_Namespace m = st_Namespace nst /\
    st_UpdateStrategy m = st_UpdateStrategy nst /\
    forall k, k <> hash_key -> st_Annotations m !! k = st_Annotations nst !! k).
  { subst m. case_decide as Hh.
    - cbn. rewrite lookup_insert_eq. repeat split. intros k Hk. by rewrite lookup_insert_ne.
    - repeat split. unfold h in *. rewrite hash_normalized in *.
      destruct (st_Annotations nst !! hash_key) as [v|] eqn:Ev; [done|].
      by apply HashObject_nonempty in Hh. }
  destruct Hm as (Hm1 & Hm2 & Hm3 & Hm4).
  assert (Hp : forall q, (q = m \/ exists c0, q = (record_update (GetCGStatefulsetName cluster cg) m c0).1) ->
    hash_of (normalizeGracefulStatefulSetForCompare q) = h /\
    st_Namespace q = st_Namespace new /\ us_Type (st_UpdateStrategy q) = us_Type (st_UpdateStrategy new) /\
    gracefulAnnotationValue q = gracefulAnnotationValue new /\ st_Annotations q !! hash_key = Some h).
  { intros q Hq.
    assert (Hq' : st_Annotations q !! hash_key = Some h /\ st_Namespace q = st_Namespace m /\
      st_UpdateStrategy q = st_UpdateStrategy m /\
      st_Annotations q !! gracefulActionAnnotation = st_Annotations m !! gracefulActionAnnotation).
    { destruct Hq as [->|[c0 ->]]; [done|]. cbn. rewrite !lookup_insert_ne by done. by repeat split. }
    destruct Hq' as (H1 & H2 & H3 & H4). split.
    - by rewrite hash_normalized, H1.
    - split; [congruence|]. split; [congruence|]. split; [|done]. unfold gracefulAnnotationValue.
      rewrite H4, Hm4 by done. by rewrite Hra. }
  match goal with |- (let '(_, _) := ?x in _) = _ -> _ => destruct x as [q c'] eqn:Ex end.
  intros [= <- <- <-]. apply Hp. destruct (_ && _) in Ex.
  - injection Ex as <- <-. by left.
  - right. exists cluster. unfold record_update in *. by injection Ex as <- <-.
Qed.

Lemma apply_equal_settles cg st est cluster p c ev est' cluster' :
  apply_equal cg st est cluster = (p, c, ev) -> stored_as est p est' ->
  (apply_equal cg st est' cluster').1.2 = cluster' /\ (apply_equal cg st est' cluster').2 = true.
Proof.
  intros Hp [(Ha & Hn & Hv) Hu]. destruct (apply_equal_left _ _ _ _ _ _ _ Hp) as (_ & Hpn & Hpu & Hpg & Hph).
  destruct (apply_equal cg st est' cluster') as [[p' c'] ev'] eqn:Hq.
  destruct (apply_equal_left _ _ _ _ _ _ _ Hq) as (_ & Hqn & Hqu & Hqg & Hqh).
  rewrite (restrict_same st est est' Hv) in Hqh.
  revert Hq. unfold apply_equal. rewrite business_eq. cbv zeta. rewrite (restrict_same st est est' Hv).
  destruct (restrict_keeps st est) as (Hra & Hrn & Hru).
  set (nst := RestrictConditionsEqual st est) in *. set (h := hash_of (normalizeGracefulStatefulSetForCompare nst)) in *.
  assert (Hh : hash_of (normalizeGracefulStatefulSetForCompare est') = h).
  { by rewrite hash_normalized, Ha, Hph. }
  rewrite Hh, bool_decide_true by done. rewrite bool_decide_true by congruence. cbn [andb].
  intros [= Hp' Hc' Hev]. split; [done|]. cbn. rewrite <- Hev. rewrite Hp'.
  unfold gracefulStatefulSetControlEqual. rewrite bool_decide_true by congruence.
  rewrite bool_decide_true; [done|]. rewrite Hqg, <- Hpg. unfold gracefulAnnotationValue. by rewrite Ha.
Qed.
End settle.

(** ** Theorems *)

Section claims.
Context `{External}.

(** C10: Applying the StatefulSet of the FE or of the meta service settles: when
    the API server returns the patched object in the namespace and with the
    annotations it was given, and with the claim templates of the object that
    was read before, which are immutable, applying the same StatefulSet again
    over the returned object only reads, for any cluster object. *)
Theorem apply_generation_settles name st cluster :
  wp (ApplyStatefulSet st cluster (generation_equal name) []) (fun tr _ => forall est p est',
    first_read tr = Some est -> p ∈ omap sts_write tr -> returned_as est p est' ->
    forall cluster', wp (ApplyStatefulSet st cluster' (generation_equal name) []) (fun tr' o =>
      first_read tr' = Some est' -> Forall quiet tr' /\ o = Done (cluster', None))).
Proof. apply ApplyStatefulSet_settles. Qed.

(** The comparison of a compute group's StatefulSet settles too, with the
    hash taken without the graceful action: an object read back as it was
    compared is equal, and the cluster object is not touched. *)
Theorem compute_group_apply_settles cg st est cluster p c ev est' cluster' :
  apply_equal cg st est cluster = (p, c, ev) -> stored_as est p est' ->
  exists q, apply_equal cg st est' cluster' = (q, cluster', true).
Proof.
  intros Hp Hs. destruct (apply_equal_settles _ _ _ _ _ _ _ _ cluster' Hp Hs) as [Hc He].
  destruct (apply_equal cg st est' cluster') as [[q c'] e']. cbn in *. subst. by exists q.
Qed.

(** An update recorded in a pass always makes the status of that pass wait:
    the generation is recorded on the StatefulSet under one annotation key and
    read back under another, so that it is never found, even when the
    StatefulSet that is read is the updated one. *)
Theorem recorded_update_waits name st cluster sts :
  m_Generation (ddc_Meta cluster) <> 0 ->
  st_Annotations st !! update_key name = None -> update_key name <> UpdateStatefulsetGeneration ->
  st_Annotations sts = st_Annotations (record_update name st cluster).1 ->
  st_Annotations sts !! UpdateStatefulsetGeneration = Some (Itoa (m_Generation (ddc_Meta cluster))) /\
  waiting_update (record_update name st cluster).2 sts name = true.
Proof.
  intros Hg Hn Hk Ha. unfold record_update in *. cbn in Ha. rewrite Ha. split; [apply lookup_insert_eq|].
  unfold waiting_update. cbn [ddc_Annotations set_ddc_Annotations fst snd].
  change (ddc_Annotations (set_ddc_Annotations ?m ?d)) with m. rewrite lookup_insert_eq.
  unfold ReturnStatefulsetUpdatedGeneration. rewrite Ha.
  assert (Hz : map_get (<[UpdateStatefulsetGeneration := Itoa (m_Generation (ddc_Meta cluster))]> (st_Annotations st)) (update_key name) = "").
  { unfold map_get. rewrite lookup_insert_ne by done. by rewrite Hn. }
  unfold st_Annotations in *. rewrite Hz.
  assert (Hgen : m_Generation (ddc_Meta (set_ddc_Annotations (<[update_key name := "true"]> (ddc_Annotations cluster)) cluster))
                 = m_Generation (ddc_Meta cluster)) by done.
  rewrite Hgen. case_decide; cbn [ParseInt fst]; by apply negb_true_iff, Z.eqb_neq.
Qed.
End claims.

(** ** Witnesses *)

#[local] Existing Instance demo_external.

(** A group of three replicas is given one: the patch, and the object it leaves. *)
Definition scaling_run : trace :=
  (run demo_env (ApplyStatefulSet (demo_sts 1) demo_ddc (generation_equal "c-g") []) (demo_world false)).1.1.
Definition patched : StatefulSet := match omap sts_write scaling_run with p :: _ => p | [] => emptySts end.

Lemma apply_generation_settles_witness :
  first_read scaling_run = Some (demo_sts 3) /\ omap sts_write scaling_run = [patched] /\
  st_Replicas patched = Some 1 /\ returned_as (demo_sts 3) patched patched /\
  wp (ApplyStatefulSet (demo_sts 1) demo_ddc (generation_equal "c-g") []) (fun tr' o =>
    first_read tr' = Some patched -> Forall quiet tr' /\ o = Done (demo_ddc, None)).
Proof.
  assert (Hr : returned_as (demo_sts 3) patched patched) by (split; [done|]; split; [done | vm_compute; reflexivity]).
  split; [vm_compute; reflexivity|]. split; [vm_compute; reflexivity|]. split; [vm_compute; reflexivity|]. split; [exact Hr|].
  apply (wp_run demo_env _ (demo_world false) _ (apply_generation_settles "c-g" (demo_sts 1) demo_ddc) (demo_sts 3) patched patched);
    [vm_compute; reflexivity | vm_compute; left | exact Hr].
Defined.

Definition applied : StatefulSet := (apply_equal demo_cg (demo_sts 1) (demo_sts 3) demo_ddc).1.1.

Lemma compute_group_apply_settles_witness :
  exists q, apply_equal demo_cg (demo_sts 1) applied demo_ddc = (q, demo_ddc, true).
Proof.
  apply (compute_group_apply_settles demo_cg (demo_sts 1) (demo_sts 3) demo_ddc applied
    (apply_equal demo_cg (demo_sts 1) (demo_sts 3) demo_ddc).1.2
    (apply_equal demo_cg (demo_sts 1) (demo_sts 3) demo_ddc).2).
  - unfold applied. by destruct (apply_equal _ _ _ _) as [[q c] e].
  - repeat split.
Defined.

Lemma recorded_update_waits_witness :
  waiting_update (record_update "c-g" (demo_sts 1) demo_ddc).2 (record_update "c-g" (demo_sts 1) demo_ddc).1 "c-g" = true.
Proof.
  apply (recorded_update_waits "c-g" (demo_sts 1) demo_ddc (record_update "c-g" (demo_sts 1) demo_ddc).1); done.
Defined.
