(* ===== verification/GroupProps.v ===== *)
(** The compute group controller: which groups are accepted, what is removed
    when a group leaves the specification, and what a pass waits for. *)

From Stdlib Require Import ZArith Lia Ascii.
From stdpp Require Import base list gmap strings.
From S2P Require Import Prelude GoStr Regex Json KubeTypes DdcApi Client Traces Mysql Resource External.
From S2P Require Import SubDefault Claims PrepareModify Quiet GracefulCodec Graceful ComputeGroups.
From S2P Require Import CgLifecycle Demo StorageProps.

Local Open Scope string_scope.
Local Open Scope Z_scope.
Local Open Scope dop_scope.

(** ** Validation *)

Lemma NewSetString_nil : NewSetString [] = ∅.
Proof. done. Qed.

Lemma app_str_nonempty (a b c : string) : a <> "" -> a +:+ b <> "" /\ a +:+ b +:+ c <> "".
Proof. by destruct a. Qed.

(** The message grows with each repeated id, and starts empty. *)
Lemma duplicated_go cgs dupl (seen : gset string) :
  (foldl (fun '(dupl, uniqueIds) cg =>
     (if set_Find uniqueIds (UniqueId cg) then dupl +:+ UniqueId cg +:+ ";" else dupl,
      set_Add uniqueIds (UniqueId cg))) (dupl, seen) cgs).1 = "" <->
  dupl = "" /\ NoDup (map UniqueId cgs) /\ (forall x, x ∈ map UniqueId cgs -> x ∉ seen).
Proof.
  revert dupl seen; induction cgs as [|cg cgs IH]; intros dupl seen; cbn [foldl map].
  { cbn [fst]. split; [|by intros (-> & _)]. intros ->. split; [done|]. split; [constructor | by intros x ?%elem_of_nil]. }
  rewrite IH, NoDup_cons. clear IH. unfold set_Find, set_Add. case_bool_decide as Hs.
  - split.
    + intros (Hd & _). exfalso. revert Hd. destruct dupl; [|done]. by destruct (UniqueId cg).
    + intros (_ & _ & Hn). exfalso. apply (Hn (UniqueId cg)); [left | done].
  - split.
    + intros (-> & Hnd & Hn). split; [done|]. split; [split; [|done]|].
      * intros Hin. specialize (Hn _ Hin). set_solver.
      * intros x [->|Hx]%elem_of_cons; [done|]. specialize (Hn _ Hx). set_solver.
    + intros (-> & [Hnin Hnd] & Hn). split; [done|]. split; [done|]. intros x Hx.
      specialize (Hn x ltac:(by right)). assert (x <> UniqueId cg) by (by intros ->). set_solver.
Qed.

Definition is_letter (c : ascii) : bool := is_upper c || is_lower c.

(** The string has a character that satisfies [f]. *)
Fixpoint str_existsb (f : ascii -> bool) (s : string) : bool :=
  match s with "" => false | String c s' => f c || str_existsb f s' end.

Lemma in_letters c : in_class letters c = is_letter c.
Proof.
  destruct c as [[] [] [] [] [] [] [] []]; reflexivity.
Qed.

Lemma str_existsb_split f s : str_existsb f s = true <-> exists p c q, s = p +:+ String c q /\ f c = true.
Proof.
  induction s as [|d s IH]; cbn.
  - split; [done|]. intros (p & c & q & E & _). by destruct p.
  - rewrite orb_true_iff, IH. split.
    + intros [Hd|(p & c & q & -> & Hc)]; [by exists "", d, s | by exists (String d p), c, q].
    + intros (p & c & q & E & Hc). destruct p as [|e p]; cbn in E; injection E as -> ->; [by left|].
      right. by exists p, c, q.
Qed.

Lemma group_name_search s : search compute_group_name_re s = str_existsb is_letter s.
Proof.
  apply eq_true_iff_eq. rewrite search_spec, str_existsb_split. unfold compute_group_name_re. split.
  - intros (p & m & q & -> & Hm). inversion Hm as [| |r1 r2 s1 s2 H1 H2| | | |]; subst.
    inversion H1 as [|l c Hc| | | | |]; subst. exists p, c, (s2 +:+ q). by rewrite <- in_letters.
  - intros (p & c & q & -> & Hc). exists p, (String c ""), q. split; [done|].
    change (String c "") with (String c "" +:+ ""). constructor; [constructor; by rewrite in_letters | constructor].
Qed.

(** ** Removal *)





(** A property of traces that holds of the empty one and composes. *)
Section trace_invariant.
Context (I : trace -> Prop) (Inil : I []) (Iapp : forall tr tr', I tr -> I tr' -> I (app tr tr')).


End trace_invariant.




Section clear.
Context `{External}.





















End clear.

(** ** Theorems *)

(** The accepted groups: pairwise distinct ids, each with a letter. *)
Definition acceptable (cgs : list ComputeGroup) : Prop :=
  NoDup (map UniqueId cgs) /\ Forall (fun cg => str_existsb is_letter (UniqueId cg) = true) cgs.

Lemma validateDuplicated_empty cgs : validateDuplicated cgs = "" <-> NoDup (map UniqueId cgs).
Proof.
  unfold validateDuplicated. rewrite duplicated_go. split; [by intros (_ & ? & _)|].
  intros Hn. split; [done|]. split; [done|]. intros x _. rewrite NewSetString_nil. set_solver.
Qed.

Lemma validateRegex_accepts cgs :
  (validateRegex cgs).2 = true <-> Forall (fun cg => str_existsb is_letter (UniqueId cg) = true) cgs.
Proof.
  unfold validateRegex.
  set (f := fun regStr cg => if search compute_group_name_re (UniqueId cg) then regStr
    else regStr +:+ UniqueId cg +:+ " not match " +:+ compute_group_name_regex).
  assert (Hgo : forall l acc, foldl f acc l = "" <->
    acc = "" /\ Forall (fun cg => str_existsb is_letter (UniqueId cg) = true) l).
  { intros l; induction l as [|cg l IH]; intros acc; cbn [foldl].
    { split; [intros ->; split; [done|constructor] | by intros [-> _]]. }
    rewrite IH, Forall_cons. unfold f. rewrite group_name_search. destruct (str_existsb is_letter (UniqueId cg)).
    - tauto.
    - split; [|by intros [_ [? _]]]. intros [Hn _]. exfalso. revert Hn. destruct acc; destruct (UniqueId cg); cbn; discriminate. }
  specialize (Hgo cgs ""). case_decide as Hd; cbn [snd].
  - split; [done|]. intros Hf. exfalso. apply Hd, Hgo. done.
  - split; [|done]. intros _. apply Hgo. destruct (decide (foldl f "" cgs = "")) as [He|He]; [exact He | congruence].
Qed.

Lemma validateComputeGroup_accepts cgs : validateComputeGroup cgs = (None, true) <-> acceptable cgs.
Proof.
  unfold validateComputeGroup, acceptable. rewrite <- validateDuplicated_empty, <- validateRegex_accepts.
  destruct (validateRegex cgs) as [reg res]; cbn [snd].
  case_decide as Hd; [split; [discriminate | by intros [? _]]|].
  assert (He : validateDuplicated cgs = "") by (destruct (decide (validateDuplicated cgs = "")); [done | congruence]).
  destruct res; split; try discriminate; try done; by intros [_ ?].
Qed.

Section claims.
Context `{External}.

(** The groups of a cluster are accepted exactly when their ids are
    pairwise distinct and each contains a letter: the expression for names is
    searched for, not matched against the whole id. *)
Theorem accepted_groups cgs : validateComputeGroup cgs = (None, true) <-> acceptable cgs.
Proof. apply validateComputeGroup_accepts. Qed.

(** Two groups of a cluster share their StatefulSet and their service
    exactly when their ids agree once each underscore is read as a dash, and the
    validation accepts groups with different ids that do. *)
Theorem accepted_groups_collide ddc :
  (forall g1 g2, GetCGStatefulsetName ddc g1 = GetCGStatefulsetName ddc g2 <->
     str_map (replace_ch "_" "-") (UniqueId g1) = str_map (replace_ch "_" "-") (UniqueId g2)) /\
  (forall g, GetCGServiceName ddc g = GetCGStatefulsetName ddc g) /\
  exists g1 g2, UniqueId g1 <> UniqueId g2 /\ validateComputeGroup [g1; g2] = (None, true) /\
    GetCGStatefulsetName ddc g1 = GetCGStatefulsetName ddc g2.
Proof.
  assert (Hname : forall g1 g2, GetCGStatefulsetName ddc g1 = GetCGStatefulsetName ddc g2 <->
     str_map (replace_ch "_" "-") (UniqueId g1) = str_map (replace_ch "_" "-") (UniqueId g2)).
  { intros g1 g2. unfold GetCGStatefulsetName. rewrite !ReplaceAll_char, !str_map_app.
    split; [by intros ?%app_inj_l_str%app_inj_l_str | by intros ->]. }
  split; [exact Hname|]. split; [done|].
  exists (mkComputeGroup "a_b" false emptyCommon false false), (mkComputeGroup "a-b" false emptyCommon false false).
  split; [discriminate|]. split; [vm_compute; reflexivity|]. by apply Hname.
Qed.


(** C35: A pass over the compute groups changes nothing before the endpoints of
    the FE service have an address and the groups were accepted. *)
Theorem groups_wait_for_fe NewPodTemplateSpec restConfig ddc :
  wp (ComputeGroups.Sync NewPodTemplateSpec restConfig ddc) (fun tr _ => changes tr ->
    acceptable (ComputeGroups (ddc_Spec ddc)) /\ service_ready tr (ddc_Namespace ddc) (GetFEServiceName ddc)).
Proof.
  unfold ComputeGroups.Sync. destruct (ComputeGroups (ddc_Spec ddc)) as [|g gs] eqn:Hcgs.
  { cbn. intros [] Hc. by apply quiet_event_no_changes in Hc. }
  apply wait_for_endpoints; [repeat spec_step; done|].
  destruct (validateComputeGroup (g :: gs)) as [[ev|] []] eqn:Hv.
  - exfalso. unfold validateComputeGroup in Hv. case_decide; [done|]. by destruct (validateRegex (g :: gs)) as [? []].
  - cbn. intros [] Hc. by apply quiet_event_no_changes in Hc.
  - apply wp_true. intros tr o _. by apply validateComputeGroup_accepts.
  - cbn. intros Hc. inversion Hc.
Qed.
End claims.
