(* ===== verification/FeProps.v ===== *)
(** What the FE controller promises: it waits for the meta service, it drops
    the observers of the highest ordinals before a scale-down, and it places
    pods and frontends by the ordinal in their names. *)

From Stdlib Require Import ZArith Lia Ascii.
From stdpp Require Import base list gmap strings.
From S2P Require Import Prelude GoStr Json KubeTypes DdcApi Client Traces Mysql Resource External SubDefault.
From S2P Require Import Claims PrepareModify Quiet Observers DisFe Demo.

Local Open Scope string_scope.
Local Open Scope Z_scope.
Local Open Scope dop_scope.

(** ** Placing frontends *)

(** Hosts that are the stable names of the StatefulSet's pods are placed at
    their ordinals. *)
Lemma host_pieces name n domain :
  has_char "." name = false -> has_char "f" name = true -> 0 <= n ->
  exists u, Split (name +:+ "-" +:+ Itoa n +:+ "." +:+ domain) name !! 1%nat =
    Some (("-" +:+ Itoa n +:+ ".") +:+ u).
Proof.
  intros Hdot Hf Hn. unfold Split.
  assert (Hne : name <> "") by (intros ->; done).
  pose proof (split_at name "" ("-" +:+ Itoa n +:+ "." +:+ domain) "" Hne eq_refl) as Hs.
  change ("" +:+ name +:+ ?x) with (name +:+ x) in Hs. rewrite Hs. cbn [lookup list_lookup].
  destruct (split_head name (("-" +:+ Itoa n) +:+ ".") domain "") as (u & l & Hl).
  { apply (not_occurs_before name "." "f"); [done|done|].
    rewrite !has_char_app, (digits_no_char "f" (Itoa n)); [done|done|].
    unfold Itoa. destruct (Z.ltb_spec n 0); [lia|]. by apply dec_digits. }
  exists u. rewrite !app_assoc_str in Hl. rewrite Hl. cbn [lookup list_lookup].
  change ("" +:+ ?x) with x. by rewrite !app_assoc_str.
Qed.

(** The name of the pod of an ordinal, alone or followed by its domain. *)
Definition pod_sign (name : string) (n : Z) (sign : string) : Prop :=
  sign = name +:+ "-" +:+ Itoa n \/ exists domain, sign = name +:+ "-" +:+ Itoa n +:+ "." +:+ domain.

Lemma digits_Itoa n : 0 <= n -> str_forallb is_digit (Itoa n) = true.
Proof. intros Hn. unfold Itoa. destruct (Z.ltb_spec n 0); [lia|]. by apply dec_digits. Qed.

Lemma last_piece n : 0 <= n < 2 ^ 63 -> Atoi (List.last (Split ("-" +:+ Itoa n) "-") "") = Ok n.
Proof.
  intros Hn. unfold Split. change ("-" +:+ Itoa n) with ("" +:+ String "-" (Itoa n)).
  rewrite (split_char_last "-") by (apply digits_no_char; [done | apply digits_Itoa; lia]).
  apply Atoi_Itoa. unfold in_int. apply andb_true_iff; split; [apply Z.leb_le | apply Z.ltb_lt]; cbn; lia.
Qed.

Lemma pod_sign_pieces name n sign :
  has_char "." name = false -> has_char "f" name = true -> 0 <= n < 2 ^ 63 -> pod_sign name n sign ->
  exists p1, Split sign name !! 1%nat = Some p1 /\ Split p1 "." !! 0%nat = Some ("-" +:+ Itoa n).
Proof.
  intros Hdot Hf Hn Hs.
  assert (Hno : forall c, is_digit c = false -> has_char c "-" = false -> has_char c ("-" +:+ Itoa n) = false).
  { intros c Hc Hm. rewrite has_char_app, (digits_no_char c (Itoa n)), Hm by (done || apply digits_Itoa; lia). done. }
  destruct Hs as [->|[domain ->]].
  - exists ("-" +:+ Itoa n). split.
    + assert (Hne : name <> "") by (intros ->; done). unfold Split.
      pose proof (split_at name "" ("-" +:+ Itoa n) "" Hne eq_refl) as Hs.
      change ("" +:+ name +:+ ?x) with (name +:+ x) in Hs. rewrite Hs.
      by rewrite (split_no_char name "f") by (done || by apply Hno).
    + unfold Split. by rewrite split_char_nil by (by apply Hno).
  - destruct (host_pieces name n domain) as [u Hu]; [done|done|lia|]. eexists. split; [exact Hu|].
    replace (("-" +:+ Itoa n +:+ ".") +:+ u) with (("-" +:+ Itoa n) +:+ String "." u) by (by rewrite !app_assoc_str).
    unfold Split. by rewrite split_char_app by (by apply Hno).
Qed.

Lemma BuildSeq_go_signs ipMap name nodes m :
  has_char "." name = false -> has_char "f" name = true ->
  Forall (fun nf => 0 <= nf.1 < 2 ^ 63 /\ pod_sign name nf.1 (sign_name ipMap name nf.2)) nodes ->
  BuildSeqNumberToFrontendMap_go ipMap name (map snd nodes) m =
    Ret (Ok (foldl (fun m nf => <[nf.1 := nf.2]> m) m nodes)).
Proof.
  intros Hdot Hf Hn. revert m; induction Hn as [|[n fe] nodes [Hr Hs] Hn IH]; intros m; [done|].
  cbn [map BuildSeqNumberToFrontendMap_go foldl fst snd] in *.
  destruct (pod_sign_pieces name n _ Hdot Hf Hr Hs) as (p1 & H1 & H2).
  fold (sign_name ipMap name fe). unfold nth_piece. rewrite H1, H2, last_piece by done. apply IH.
Qed.

Lemma foldl_insert_lookup (nodes : list (Z * Frontend)) (m : gmap Z Frontend) k fe :
  NoDup nodes.*1 -> (forall n, n ∈ nodes.*1 -> m !! n = None) ->
  foldl (fun m nf => <[nf.1 := nf.2]> m) m nodes !! k = Some fe <-> (k, fe) ∈ nodes \/ m !! k = Some fe.
Proof.
  revert m; induction nodes as [|[n f] nodes IH]; intros m Hnd Hm; cbn [foldl fst snd].
  { rewrite elem_of_nil. tauto. }
  cbn in Hnd. apply NoDup_cons in Hnd as [Hn Hnd]. rewrite IH; [|done|].
  - rewrite elem_of_cons. destruct (decide (n = k)) as [->|Hne].
    + rewrite lookup_insert_eq. assert (m !! k = None) by (apply Hm; left). split; [|intros [[[= ->]|?]|?]; auto; congruence].
      intros [?|[= ->]]; auto.
    + rewrite lookup_insert_ne by done. split; [intros [?|?]; auto | intros [[[= <- ->]|?]|?]; auto; congruence].
  - intros n' Hn'. rewrite lookup_insert_ne by (intros ->; done). apply Hm. by right.
Qed.

(** ** Pods by ordinal *)

Lemma podIsFollower_ordinal name n election : 0 <= n < 2 ^ 63 ->
  podIsFollower (name +:+ "-" +:+ Itoa n) name election = (n <? election).
Proof.
  intros Hn. unfold podIsFollower.
  replace (name +:+ "-" +:+ Itoa n) with ((name +:+ "-") +:+ Itoa n) by (by rewrite app_assoc_str).
  rewrite HasPrefix_app.
  replace (String.length name + 1)%nat with (String.length (name +:+ "-")) by (rewrite length_app_str; cbn; lia).
  rewrite str_drop_app, Atoi_Itoa; [done|].
  unfold in_int. apply andb_true_iff; split; [apply Z.leb_le | apply Z.ltb_lt]; cbn; lia.
Qed.

Lemma count_pods_map (f : Pod -> bool) (pods : list (Z * Pod)) :
  count_pods f (map snd pods) = Z.of_nat (length (List.filter (fun np => f np.2) pods)).
Proof.
  unfold count_pods. f_equal. induction pods as [|[n p] pods IH]; [done|].
  cbn. destruct (f p); cbn; by rewrite IH.
Qed.

Lemma filter_ext_Forall {A} (f g : A -> bool) l :
  Forall (fun a => f a = g a) l -> List.filter f l = List.filter g l.
Proof. induction 1 as [|a l Ha Hl IH]; [done|]. cbn. by rewrite Ha, IH. Qed.

Lemma classify_available pods a c f :
  (foldl (fun '(available, creating, failed) pod =>
    if PodIsReady (p_Status pod) then (available + 1, creating, failed)
    else if decide (ps_Phase (p_Status pod) = "Running" \/ ps_Phase (p_Status pod) = "Pending")
    then (available, creating + 1, failed)
    else (available, creating, failed + 1)) (a, c, f) pods).1.1 =
  a + count_pods (fun pod => PodIsReady (p_Status pod)) pods.
Proof.
  unfold count_pods. revert a c f; induction pods as [|p pods IH]; intros a c f; cbn [foldl List.filter length fst]; [lia|].
  destruct (PodIsReady (p_Status p)); [|case_decide]; rewrite IH; cbn [length]; lia.
Qed.

(** The ready pods of the ordinals that elect the master. *)
Definition ready_followers (election : Z) (pods : list (Z * Pod)) : Z :=
  Z.of_nat (length (List.filter (fun np => PodIsReady (p_Status np.2) && (np.1 <? election)) pods)).

Lemma followers_count name election (pods : list (Z * Pod)) :
  Forall (fun np => 0 <= np.1 < 2 ^ 63 /\ p_Name np.2 = name +:+ "-" +:+ Itoa np.1) pods ->
  count_pods (fun pod => PodIsReady (p_Status pod) && podIsFollower (p_Name pod) name election) (map snd pods) =
  ready_followers election pods.
Proof.
  intros Hp. rewrite count_pods_map. unfold ready_followers. do 2 f_equal. apply filter_ext_Forall.
  eapply Forall_impl; [exact Hp|]. intros [n p] [Hn Hname]. cbn [fst snd] in *. by rewrite Hname, podIsFollower_ordinal.
Qed.

(** ** Theorems *)

Section claims.
Context `{External}.

(** A pass of the FE controller changes nothing before the endpoints of the
    meta service have an address. *)
Theorem fe_waits_for_meta_service NewPodTemplateSpec ddc :
  wp (DisFe.Sync NewPodTemplateSpec ddc) (fun tr _ =>
    changes tr -> service_ready tr (ddc_Namespace ddc) (GetMSServiceName ddc)).
Proof.
  eapply wp_mono; [apply (wait_for_endpoints _ _ _ _ True)|].
  - repeat spec_step; done.
  - by apply wp_true.
  - intros tr o Ho Hc. by apply Ho.
Qed.

(** C26: Before a scale-down of the FE every statement run on Doris drops
    frontends that Doris shows as observers: as many as there are beyond the
    wanted replicas that do not elect, and of all the observers shown, each at
    the ordinal of its host name or of the pod listed at its address, those of
    the highest ordinals. *)
Theorem observers_dropped_highest cluster confMap db :
  wp (drop_observers cluster confMap db) (fun tr _ => forall q, q ∈ omap sql_exec tr ->
    surplus_dropped (GetFEStatefulsetName cluster) (Replicas (fe_Common (Fe (ddc_Spec cluster))))
      (GetElectionNumber cluster) db tr q).
Proof. apply drop_surplus_wp. Qed.

(** Frontends that go by the stable names of the pods of the FE StatefulSet
    are placed at the ordinals of those pods, one frontend at each. *)
Theorem frontends_placed ddc ipMap nodes :
  has_char "." (GetFEStatefulsetName ddc) = false -> NoDup nodes.*1 ->
  Forall (fun nf => 0 <= nf.1 < 2 ^ 63 /\
    pod_sign (GetFEStatefulsetName ddc) nf.1 (sign_name ipMap (GetFEStatefulsetName ddc) nf.2)) nodes ->
  exists m, BuildSeqNumberToFrontendMap (map snd nodes) ipMap (GetFEStatefulsetName ddc) = Ret (Ok m) /\
    forall k fe, m !! k = Some fe <-> (k, fe) ∈ nodes.
Proof.
  intros Hdot Hnd Hn.
  assert (Hf : has_char "f" (GetFEStatefulsetName ddc) = true).
  { unfold GetFEStatefulsetName. rewrite !has_char_app. apply orb_true_r. }
  eexists. split; [by apply BuildSeq_go_signs|].
  intros k fe. rewrite foldl_insert_lookup by done. rewrite lookup_empty. split; [by intros [?|?] | auto].
Qed.

(** The replica count of the FE is corrected to a default and to at least
    the election number, and nothing else of the cluster object changes. *)
Theorem fe_replicas_corrected ddc :
  wp (correct_replicas ddc) (fun tr o => Forall quiet tr /\
    o = Done (set_fe_replicas (Z.max (GetElectionNumber ddc)
      (default DefaultFeReplicaNumber (Replicas (fe_Common (Fe (ddc_Spec ddc)))))) ddc)).
Proof.
  assert (Hset : forall r, Replicas (fe_Common (Fe (ddc_Spec ddc))) = Some r -> set_fe_replicas r ddc = ddc).
  { intros r Hr. destruct ddc as [meta api kind spec status], spec as [ms fe cgs auth admin dec], fe as [e common], common.
    cbn in *. by subst. }
  unfold correct_replicas. destruct (Replicas (fe_Common (Fe (ddc_Spec ddc)))) as [r|] eqn:Hr; cbn [bind wp call default].
  - cbv zeta. rewrite Hr. cbn [deref]. destruct (Z.ltb_spec r (GetElectionNumber ddc)) as [Hlt|Hge].
    + cbn. intros []. split; [by repeat constructor|]. by rewrite Z.max_l by lia.
    + cbn. split; [done|]. rewrite Z.max_r by lia. by rewrite Hset.
  - intros []. cbv zeta. cbn [bind call set_fe_replicas].
    change (GetElectionNumber (set_fe_replicas DefaultFeReplicaNumber ddc)) with (GetElectionNumber ddc).
    change (Replicas (fe_Common (Fe (ddc_Spec (set_fe_replicas DefaultFeReplicaNumber ddc))))) with (Some DefaultFeReplicaNumber).
    cbn [deref]. destruct (Z.ltb_spec DefaultFeReplicaNumber (GetElectionNumber ddc)) as [Hlt|Hge].
    + cbn. intros []. split; [by repeat constructor|]. by rewrite Z.max_l by lia.
    + cbn. split; [by repeat constructor|]. by rewrite Z.max_r by lia.
Qed.

(** The FE is shown available once a pod of an electing ordinal is ready,
    and becomes ready exactly when every pod carries the revision of the
    StatefulSet, all electing ordinals are ready and so are as many pods as wanted. *)
Theorem fe_status_by_ordinals ddc sts pods replicas :
  Replicas (fe_Common (Fe (ddc_Spec ddc))) = Some replicas ->
  Forall (fun np => 0 <= np.1 < 2 ^ 63 /\ p_Name np.2 = GetFEStatefulsetName ddc +:+ "-" +:+ Itoa np.1) pods ->
  exists ddc', fe_status_of_pods ddc sts (map snd pods) = Ret ddc' /\
    ch_FeAvailable (ClusterHealth_ (ddc_Status ddc')) =
      (0 <? ready_followers (GetElectionNumber ddc) pods) || ch_FeAvailable (ClusterHealth_ (ddc_Status ddc)) /\
    fes_Phase (FEStatus_ (ddc_Status ddc')) =
      (if StatefulsetControlledPodsAllUseNewUpdateRevision (st_UpdateRevision sts) (map snd pods) &&
          (ready_followers (GetElectionNumber ddc) pods =? GetElectionNumber ddc) &&
          (count_pods (fun pod => PodIsReady (p_Status pod)) (map snd pods) =? replicas)
       then Ready else fes_Phase (FEStatus_ (ddc_Status ddc))).
Proof.
  intros Hr Hp. unfold fe_status_of_pods. rewrite (followers_count _ _ _ Hp).
  pose proof (classify_available (map snd pods) 0 0 0) as Hc. fold (classify_pods (map snd pods)) in Hc.
  destruct (classify_pods (map snd pods)) as [[avail creating] failed]. cbn [fst] in Hc. rewrite Z.add_0_l in Hc. subst avail.
  destruct (0 <? _), (StatefulsetControlledPodsAllUseNewUpdateRevision _ _), (_ =? GetElectionNumber ddc);
    cbn; rewrite ?Hr; cbn; try (by eexists); destruct (_ =? replicas); by eexists.
Qed.
End claims.

(** ** Witnesses *)

Definition demo_observers : list (Z * Frontend) :=
  [(2, mkFrontend "fe2" "c-fe-2.c-fe-internal.default" 9010 "OBSERVER" false "No");
   (1, mkFrontend "fe1" "10.0.0.7" 9010 "OBSERVER" false "No")].

Lemma frontends_placed_witness : exists m,
  BuildSeqNumberToFrontendMap (map snd demo_observers) {["10.0.0.7" := "c-fe-1"]} (GetFEStatefulsetName demo_ddc) = Ret (Ok m) /\
  forall k fe, m !! k = Some fe <-> (k, fe) ∈ demo_observers.
Proof.
  apply (frontends_placed demo_ddc {["10.0.0.7" := "c-fe-1"]} demo_observers eq_refl).
  - apply (bool_decide_unpack _). vm_compute. exact I.
  - apply Forall_cons. split; [split; [cbn; lia | right; exists "c-fe-internal.default"; reflexivity]|].
    apply Forall_cons. split; [split; [cbn; lia | left; vm_compute; reflexivity]|]. constructor.
Defined.

Definition demo_fe_pods : list (Z * Pod) := [(0, demo_pod "c-fe-0" false); (1, demo_pod "c-fe-1" false)].
Definition demo_fe_ddc : Ddc := set_fe_replicas 2 demo_ddc.

Lemma fe_status_by_ordinals_witness : exists ddc',
  fe_status_of_pods demo_fe_ddc (demo_sts 3) (map snd demo_fe_pods) = Ret ddc' /\
  ch_FeAvailable (ClusterHealth_ (ddc_Status ddc')) = true.
Proof.
  destruct (fe_status_by_ordinals demo_fe_ddc (demo_sts 3) demo_fe_pods 2 eq_refl) as (d & Hd & Ha & _).
  - apply Forall_cons. split; [split; [cbn; lia | reflexivity]|].
    apply Forall_cons. split; [split; [cbn; lia | reflexivity]|]. constructor.
  - exists d. split; [exact Hd|]. rewrite Ha. vm_compute. reflexivity.
Defined.
