(* ===== verification/RolloutProps.v ===== *)
(** What a pass of the graceful rollout leaves on the StatefulSet that is going
    to be applied, when an action starts and ends, and how its waits end. *)

From Stdlib Require Import ZArith Lia.
From stdpp Require Import base list gmap strings.
From S2P Require Import Prelude GoStr Json KubeTypes DdcApi Client Traces Mysql Resource External SubDefault.
From S2P Require Import PrepareModify Quiet GracefulCodec Graceful GracefulSpec GracefulLemmas.
From S2P Require Import GracefulHistory Demo.

Local Open Scope string_scope.
Local Open Scope Z_scope.
Local Open Scope dop_scope.

Section rollout.
Context `{External}.

(** ** What a pass leaves *)

(** The StatefulSet holds the action back: its pods are replaced only when
    deleted, the action is stored, and a scale-down keeps the present count. *)
Definition held (st est st' : StatefulSet) (ga : GracefulAction) : Prop :=
  st_UpdateStrategy st' = mkUpdateStrategy OnDelete None /\
  gracefulAnnotationValue st' = Marshal_GracefulAction ga /\
  st_Replicas st' = (match ga_Type ga with
                     | GracefulActionScaleDown | GracefulActionDelete => st_Replicas est
                     | _ => st_Replicas st
                     end) /\
  st_Template st' = st_Template st.

Lemma hold_held st est ga : held st est (hold st est ga) ga.
Proof.
  unfold hold, held, prepareGracefulStatefulSet, gracefulAnnotationValue. split; [|split; [|split]].
  - by destruct (ga_Type ga).
  - unfold setGracefulAction, set_sts_Annotations, st_Annotations. destruct (ga_Type ga); cbn; by rewrite lookup_insert_eq.
  - by destruct (ga_Type ga).
  - by destruct (ga_Type ga).
Qed.

(** The status that the steps of a pass work on. *)
Definition pass_status (cgs : ComputeGroupStatus) : ComputeGroupStatus := cgs <| cgs_GracefulAction := None |>.
Definition machine_status (cgs : ComputeGroupStatus) (ga : GracefulAction) : ComputeGroupStatus :=
  pass_status cgs <| cgs_Phase := graceful_phase (ga_Type ga) (cgs_Phase (pass_status cgs)) |>.

(** The pass begins with the detection of an action, with this result. *)
Definition detection (st est : StatefulSet) (cgs : ComputeGroupStatus) (tr : trace) (action : option GracefulAction)
    (rest : trace) : Prop :=
  exists tr0, exec (detectGracefulAction st est (pass_status cgs)) tr0 (Done action) /\ tr = app tr0 rest.

(** The action that is stored, or the detected one of a higher priority. *)
Definition takes_over (stored : GracefulAction) (action : option GracefulAction) (ga : GracefulAction) : Prop :=
  match action with
  | Some a =>
      if decide (gracefulActionPriority (ga_Type stored) < gracefulActionPriority (ga_Type a)) then ga = a else ga = stored
  | None => ga = stored
  end.

(** The state machine went on from the stored action, and left [ga]. *)
Definition advanced (st est : StatefulSet) (cluster : Ddc) (cgs : ComputeGroupStatus) (tr : trace) (ga : GracefulAction) : Prop :=
  exists stored action rest base tr1 tr2, getGracefulAction est = Ok (Some stored) /\
    detection st est cgs tr action rest /\ takes_over stored action base /\ rest = app tr1 tr2 /\
    exec (runGracefulStateMachine cluster (machine_status cgs base) est (refreshRollingUpdateTargetRevision est base))
      tr1 (Done (ga, None)).

(** The action in progress: the detected one when none is stored; what the
    machine left of the stored one, with another message when pods of the old
    revision were found at its end. *)
Definition in_progress (st est : StatefulSet) (cluster : Ddc) (cgs : ComputeGroupStatus) (tr : trace) (ga : GracefulAction) : Prop :=
  (getGracefulAction est = Ok None /\ exists rest, detection st est cgs tr (Some ga) rest) \/
  (advanced st est cluster cgs tr ga /\ ga_Phase ga <> GracefulPhaseDone) \/
  (exists ga1, advanced st est cluster cgs tr ga1 /\ ga_Phase ga1 = GracefulPhaseDone /\
     ga = ga1 <| ga_LastMessage := ga_LastMessage ga |>).

(** How a pass ends: an action in progress is held, an error leaves the
    StatefulSet as it was built, and otherwise it is applied as it was built,
    when no action is stored, or with the stored action cleared, when that one is done. *)
Definition rollout_outcome (st est : StatefulSet) (cluster : Ddc) (cgs : ComputeGroupStatus) (tr : trace) (r : rollout_result) : Prop :=
  let '(st', cgs', skip, err) := r in
  match skip, err with
  | true, None => exists ga, held st est st' ga /\ in_progress st est cluster cgs tr ga
  | true, Some _ => st' = st
  | false, None =>
      (st' = st /\ getGracefulAction est = Ok None) \/
      (st' = clearGracefulAction (ensureOnDeleteStrategy st) /\
       exists ga, advanced st est cluster cgs tr ga /\ ga_Phase ga = GracefulPhaseDone)
  | false, Some _ => False
  end.

Lemma priority_type a b : gracefulActionPriority (ga_Type a) < gracefulActionPriority (ga_Type b) -> ga_Type b <> ga_Type a.
Proof. intros Hlt E. rewrite E in Hlt. lia. Qed.

Lemma preferred_takes_over stored action : takes_over stored action (preferred action stored).
Proof.
  unfold takes_over, preferred. destruct action as [a|]; [|done]. case_decide as Hp.
  - rewrite decide_True by (by apply priority_type). by rewrite (proj2 (Z.ltb_lt _ _) Hp).
  - case_decide; [|done]. by rewrite (proj2 (Z.ltb_ge _ _)) by lia.
Qed.

Lemma start_graceful_outcome st est cluster cg cgs cgs' action tr0 : getGracefulAction est = Ok None ->
  exec (detectGracefulAction st est (pass_status cgs)) tr0 (Done (Some action)) ->
  wp (start_graceful st est cluster cg cgs' action) (fun tr o => forall r, o = Done r ->
    rollout_outcome st est cluster cgs (app tr0 tr) r).
Proof.
  intros Hg Hd.
  assert (Hp : result (fun r : rollout_result => let '(st', _, skip, err) := r in
    match skip, err with true, None => held st est st' action | false, None => st' = st | _, _ => False end)
    (start_graceful st est cluster cg cgs' action)).
  { unfold start_graceful. eapply spec_bind; [apply only_any|]. intros [[] reason] _.
    - apply spec_call; [done|]. intros _ _. apply spec_ret, hold_held.
    - apply spec_call; [done|]. intros _ _. by apply spec_ret. }
  eapply wp_mono; [exact Hp|]. intros tr o [_ Ho] [[[st' cgs''] skip] err] ->. cbn in Ho.
  destruct skip, err; cbn; try done; [|by left]. exists action. split; [exact Ho|]. left. split; [done|].
  exists tr, tr0. by split.
Qed.

Lemma finish_graceful_outcome st est cluster cg cgs cgs' ga tr0 :
  (forall tr, advanced st est cluster cgs (app tr0 tr) ga) -> ga_Phase ga = GracefulPhaseDone ->
  wp (finish_graceful st est cluster cg cgs' ga) (fun tr o => forall r, o = Done r ->
    rollout_outcome st est cluster cgs (app tr0 tr) r).
Proof.
  intros Ha Hdone.
  assert (Hp : result (fun r : rollout_result => let '(st', _, skip, err) := r in
    match skip, err with
    | true, None => exists ga', held st est st' ga' /\ ga' = ga <| ga_LastMessage := ga_LastMessage ga' |>
    | true, Some _ => st' = st | false, None => st' = clearGracefulAction (ensureOnDeleteStrategy st) | _, _ => False end)
    (finish_graceful st est cluster cg cgs' ga)).
  { unfold finish_graceful. eapply spec_bind; [apply only_any|]. intros [] _.
    - apply spec_call; [done|]. intros _ _. unfold finalizeGracefulAction. cbn [bind call].
      apply spec_call; [done|]. intros [e|] _; by apply spec_ret.
    - apply spec_ret. eexists. split; [apply hold_held | done]. }
  eapply wp_mono; [exact Hp|]. intros tr o [_ Ho] [[[st' cgs''] skip] err] ->. cbn in Ho.
  destruct skip, err; cbn; try done.
  - destruct Ho as (ga' & Hh & E). exists ga'. split; [done|]. right; right. by exists ga.
  - right. split; [done|]. by exists ga.
Qed.

(** ** Completion *)

(** The raw patch that clears the action. *)
Definition raw_patch (e : event OpE) : option string :=
  match e with Ev (CPatchRaw _ _ _ patch) _ => Some patch | _ => None end.
Definition no_raw_patch (e : event OpE) : Prop := raw_patch e = None.

Lemma quiet_no_raw_patch e : quiet e -> no_raw_patch e.
Proof. destruct e as [X e x]; by destruct e. Qed.

(** ** The clock *)

Definition past (deadline : Z) (tr : trace) : Prop := Forall (fun now => deadline < now) (omap time_read tr).

Lemma past_app d tr tr' : past d (app tr tr') -> past d tr /\ past d tr'.
Proof. unfold past. rewrite omap_app. apply Forall_app. Qed.

(** Doris showed the pod's backend alive and of another generation. *)
Definition replaced (tr : trace) (ga : GracefulAction) : Prop :=
  exists b, reported tr (ga_CurrentPod ga) b /\ be_Alive b = true /\ backendIsShutdown b = Ok false /\
    acceptStartTime ga b = true /\ acceptEpoch ga b = true.

Lemma force_past m1 m2 ga : ga_DeadlineAt ga <> 0 ->
  wp (force_or_wait m1 m2 ga) (fun tr o => past (ga_DeadlineAt ga) tr -> exists ga', o = Done (ga', None) /\ idle ga').
Proof.
  intros Hd. unfold force_or_wait. rewrite decide_False by done. cbn [bind call wp]. intros now.
  rewrite bool_decide_false by done. cbn [negb andb].
  destruct (Z.ltb_spec (ga_DeadlineAt ga) now) as [Hlt|Hge]; cbn.
  - intros _. eexists. split; [done | apply advance_idle].
  - intros Hp. apply Forall_cons in Hp as [Hn _]. lia.
Qed.

(** ** Theorems *)

(** C25: A pass of the graceful rollout that reports an action in progress
    leaves a StatefulSet that replaces no pod by itself, keeps the present
    replica count for a scale-down, and carries the action: the one detected in
    this pass when none was stored, or what the state machine left of the stored
    one, or of a detected one of higher priority, but for the message of an
    action that ended with pods of the old revision.  A failed pass leaves the
    StatefulSet as it was built from the spec, and one that lets it be applied
    leaves it as built, when no action was stored, or with the action, which is
    done, cleared. *)
Theorem pass_holds_or_applies st est cluster cg cgs :
  wp (gracefulRolloutReconcile st est cluster cg cgs) (fun tr o => forall r, o = Done r ->
    rollout_outcome st est cluster cgs tr r).
Proof.
  unfold gracefulRolloutReconcile. apply wp_bind. fold (pass_status cgs). apply exec_wp. intros tr0 [action|w] Hdet; [|done].
  destruct (getGracefulAction est) as [[stored|]|err] eqn:Hg; cbv zeta.
  - set (base := preferred action stored). apply wp_bind. fold (machine_status cgs base).
    apply exec_wp. intros tr1 [[ga [e|]]|w] Hrun; [by intros r [= <-]| |done].
    assert (Ha : forall tr, advanced st est cluster cgs (app (app tr0 tr1) tr) ga).
    { intros tr. exists stored, action, (app tr1 tr), base, tr1, tr. split; [done|].
      split; [exists tr0; by rewrite <- app_assoc|]. split; [apply preferred_takes_over | done]. }
    case_decide as Hph.
    + eapply wp_mono; [by apply (finish_graceful_outcome _ _ _ _ cgs _ _ (app tr0 tr1))|].
      intros tr o Ho. by rewrite app_assoc.
    + intros r [= <-]. cbn. exists ga. split; [apply hold_held|]. right; left. split; [|done].
      rewrite app_assoc. apply Ha.
  - destruct action as [a|].
    + by apply start_graceful_outcome.
    + intros r [= <-]. by left.
  - by intros r [= <-].
Qed.

(** A rolling update is declared complete only when every listed pod of the
    StatefulSet carries the target revision, or when the pods could not be listed. *)
Theorem completed_when_updated st est cluster cg cgs ga :
  wp (finish_graceful st est cluster cg cgs ga) (fun tr _ =>
    omap raw_patch tr <> [] -> ga_Type ga = GracefulActionRollingUpdate ->
    omap pod_list tr = [] \/ exists items, omap pod_list tr = [items] /\
      Forall (fun p => outdated (target_revision est ga) p = false) items).
Proof.
  destruct (decide (ga_Type ga = GracefulActionRollingUpdate)) as [Ht|Hne]; [|by apply wp_true].
  unfold finish_graceful, shouldFinalizeGracefulAction. apply wp_bind. rewrite Ht. apply wp_bind. pose proof (selectNextRollingUpdatePod_quiet est ga) as Hq.
  eapply wp_mono; [exact (wp_and _ _ _ Hq (selectNextRollingUpdatePod_wp est ga))|].
  intros tr [r|w] [[Htr _] Hr].
  - cbn [wp]. rewrite app_nil_r. destruct (Hr r eq_refl) as [(items & Hl & Hs)|[-> Hl]].
    + destruct r as [[name ord]|].
      * cbn. rewrite app_nil_r, (omap_none raw_patch tr); [done|]. eapply Forall_impl; [exact Htr | apply quiet_no_raw_patch].
      * unfold finalizeGracefulAction. cbn. intros [] [e|]; cbn; intros _ _; right; exists items; (split; [|done]);
          rewrite omap_app, Hl; done.
    + unfold finalizeGracefulAction. cbn. intros [] [e|]; cbn; intros _ _; left; rewrite omap_app, Hl; done.
  - rewrite (omap_none raw_patch tr); [done|]. eapply Forall_impl; [exact Htr | apply quiet_no_raw_patch].
Qed.

(** The drain of a pod is over exactly when its container has ended or was
    restarted, or when the clock is past the deadline; a pod that is gone ends it
    too, and the action never waits on any further. *)
Theorem drain_wait_ends cluster ga :
  wp (handleWaitDrain cluster ga) (fun tr o => forall ga',
    o = Done (ga', None) -> ga_Phase ga = GracefulPhaseWaitDrain ->
    (exists pod, Ev (CGet KPod (ddc_Namespace cluster) (ga_CurrentPod ga)) (Ok pod) ∈ tr /\
       (ga_Phase ga' = GracefulPhaseDeletePod <->
          isContainerTerminated pod beMainContainerName = true \/
          ga_InitialRestartCount ga < getContainerRestartCount pod beMainContainerName \/
          exists now, now ∈ omap time_read tr /\ ga_DeadlineAt ga < now) /\
       (ga_Phase ga' = GracefulPhaseDeletePod \/ ga_Phase ga' = GracefulPhaseWaitDrain)) \/
    (exists e, Ev (CGet KPod (ddc_Namespace cluster) (ga_CurrentPod ga)) (Er e) ∈ tr /\ IsNotFound e = true /\
       ga_Phase ga' = if decide (ga_Type ga = GracefulActionRollingUpdate)
                      then GracefulPhaseWaitPodReady else GracefulPhaseTriggerDrain)).
Proof.
  unfold handleWaitDrain, getPod. cbn [bind call]. intros [pod|e].
  - destruct (isContainerTerminated pod beMainContainerName) eqn:Hterm.
    { cbn. intros [] ga' [= <-] _. left. exists pod. split; [left|]. cbn. rewrite Hterm. tauto. }
    destruct (Z.ltb_spec (ga_InitialRestartCount ga) (getContainerRestartCount pod beMainContainerName)) as [Hr|Hr].
    { cbn. intros [] ga' [= <-] _. left. exists pod. split; [left|]. cbn. tauto. }
    cbn [bind call wp]. intros now. destruct (Z.ltb_spec (ga_DeadlineAt ga) now) as [Hd|Hd].
    + cbn. intros [] ga' [= <-] _. left. exists pod. split; [left|]. cbn. split; [|by left].
      split; [|done]. intros _. right; right. exists now. split; [left | done].
    + cbn. intros ga' [= <-] Hp. left. exists pod. split; [left|]. cbn. rewrite Hp. split; [|by right].
      split; [done|]. rewrite Hterm. intros [?|[?|(n & Hn & Hlt)]]; [done | lia|].
      apply list_elem_of_singleton in Hn as ->. lia.
  - destruct (IsNotFound e) eqn:He; cbn; [|done]. intros ga' [= <-] _. right. exists e. split; [left|]. split; [done|].
    by case_decide.
Qed.

(** Past the deadline the wait for a backend is over, unless Doris has just
    shown a replacement that was not stable yet: on that branch the clock is not
    read. *)
Theorem alive_wait_ends cluster cgs ga :
  wp (handleWaitBEAlive cluster cgs ga) (fun tr o =>
    ga_DeadlineAt ga <> 0 -> past (ga_DeadlineAt ga) tr -> forall r, o = Done r ->
    r.2 = None /\ (idle r.1 \/
      replaced tr ga /\ ga_StableBackendObservations r.1 < requiredStableBackendObservations)).
Proof.
  unfold handleWaitBEAlive, ensure_timer. destruct (decide (ga_DeadlineAt ga = 0)) as [Hz|Hd]; [by apply wp_true|].
  cbn [bind]. apply wp_bind. eapply wp_mono; [apply getBackendByPodName_wp|]. intros tr0 [found|w] Hb; [|done].
  assert (Hforce : forall m1 m2, wp (force_or_wait m1 m2 ga) (fun tr o =>
    ga_DeadlineAt ga <> 0 -> past (ga_DeadlineAt ga) (app tr0 tr) -> forall r, o = Done r ->
    r.2 = None /\ (idle r.1 \/
      replaced (app tr0 tr) ga /\ ga_StableBackendObservations r.1 < requiredStableBackendObservations))).
  { intros m1 m2. eapply wp_mono; [by apply force_past|]. intros tr o Ho _ Hp r Hr.
    destruct (Ho (proj2 (past_app _ _ _ Hp))) as (ga' & -> & Hi). injection Hr as <-. split; [done | by left]. }
  destruct found as [b|err]; [|apply Hforce]. specialize (Hb b eq_refl).
  destruct (backendIsShutdown b) as [shutdown|err] eqn:Hs; [|apply Hforce]. cbv zeta.
  destruct (be_Alive b && negb shutdown && acceptStartTime ga b && acceptEpoch ga b) eqn:Hacc; [|apply Hforce].
  apply andb_true_iff in Hacc as [[[Ha Hsh]%andb_true_iff Hst]%andb_true_iff Hep]. destruct shutdown; [done|].
  destruct (Z.leb_spec requiredStableBackendObservations
    (ga_StableBackendObservations (observe ga (backendLastStartTime b) (backendProcessEpoch b).1))) as [Hle|Hgt].
  - intros []. cbn [wp bind]. intros _ _ r [= <-]. split; [done | left; apply advance_idle].
  - cbn [wp]. intros _ _ r [= <-]. split; [done|]. right. split; [|exact Hgt].
    exists b. split; [by apply reported_app_l|]. by repeat split.
Qed.

(** An action is started only when the spec asks for it: a scale-down
    exactly when fewer replicas are wanted, otherwise a rolling update when the
    spec has changed or an interrupted update left a pod behind, otherwise none. *)
Theorem detected_actions st est cgs r er : st_Replicas st = Some r -> st_Replicas est = Some er ->
  wp (detectGracefulAction st est cgs) (fun tr o => forall a, o = Done a ->
    (r < er -> exists ga, a = Some ga /\ ga_Type ga = GracefulActionScaleDown /\ ga_DesiredReplicas ga = Some r) /\
    (er <= r -> statefulSetSpecChanged st est = true ->
       exists ga, a = Some ga /\ ga_Type ga = GracefulActionRollingUpdate) /\
    (er <= r -> statefulSetSpecChanged st est = false ->
       (exists ga, a = Some ga) <->
       st_UpdateRevision est <> "" /\ st_UpdateRevision est <> st_CurrentRevision est /\
       exists items, omap pod_list tr = [items] /\
         Exists (fun p => outdated (st_UpdateRevision est) p = true) items)).
Proof.
  intros Hr Her. unfold detectGracefulAction. rewrite Hr, Her. cbn [deref].
  destruct (Z.ltb_spec r er) as [Hlt|Hge].
  { cbn. intros a [= <-]. split; [intros _; eexists; by repeat split|]. split; lia. }
  destruct (statefulSetSpecChanged st est) eqn:Hch.
  { cbn. intros a [= <-]. split; [lia|]. split; [intros _ _; by eexists | done]. }
  destruct (decide (st_UpdateRevision est <> "" /\ st_UpdateRevision est <> st_CurrentRevision est)) as [[Hne Hcur]|Hno].
  2: { cbn. intros a [= <-]. split; [lia|]. split; [done|]. intros _ _. split; [by intros [? ?] | tauto]. }
  cbv zeta. apply wp_bind. eapply wp_mono; [apply selectNextRollingUpdatePod_wp|]. intros tr [found|w] Hf; [|done].
  specialize (Hf found eq_refl). unfold target_revision in Hf. cbn [ga_TargetRevision update_field] in Hf.
  rewrite decide_False in Hf by exact Hne.
  assert (Hiff : is_Some found <-> exists items, omap pod_list tr = [items] /\
    Exists (fun p => outdated (st_UpdateRevision est) p = true) items).
  { destruct Hf as [(items & Hl & Hs)|[-> Hl]]; [|split; [by intros [? ?] | intros (items & Hi & _); congruence]].
    rewrite Hl. destruct found as [[name ord]|]; cbn in Hs.
    - split; [|by eexists]. intros _. exists items. split; [done|]. destruct Hs as (pod & Hin & Ho & _).
      apply Exists_exists. by exists pod.
    - split; [by intros [? ?]|]. intros (items' & [= <-] & Hex). exfalso. apply Exists_exists in Hex as (p & Hp & Ho).
      rewrite Forall_forall in Hs. specialize (Hs p Hp). congruence. }
  destruct found as [[name ord]|]; cbn; intros a [= <-]; rewrite app_nil_r; (split; [lia|]); (split; [done|]); intros _ _.
  - split; [intros _ | by eexists]. split; [done|]. split; [done|]. by apply Hiff.
  - split; [by intros [? ?]|]. intros (_ & _ & Hex). by apply Hiff in Hex as [? ?].
Qed.
End rollout.

(** ** Witness *)

#[local] Existing Instance demo_external.

(** Three replicas wanted to become one. *)
Lemma detected_actions_witness :
  wp (detectGracefulAction (demo_sts 1) (demo_sts 3) demo_status) (fun tr o => forall a, o = Done a ->
    exists ga, a = Some ga /\ ga_Type ga = GracefulActionScaleDown /\ ga_DesiredReplicas ga = Some 1).
Proof.
  eapply wp_mono; [exact (detected_actions (demo_sts 1) (demo_sts 3) demo_status 1 3 eq_refl eq_refl)|].
  intros tr o Ho a Ha. apply (proj1 (Ho a Ha)). lia.
Defined.
