(* ===== verification/ClusterProps.v ===== *)
(** What a pass over a cluster reports: the health of the cluster, the readiness
    of its groups, and the status that is written back. *)

From Stdlib Require Import ZArith Lia.
From stdpp Require Import base list gmap strings.
From S2P Require Import Prelude GoStr Json KubeTypes DdcApi Client Traces Mysql Resource External SubDefault.
From S2P Require Import PrepareModify Quiet CgLifecycle DdcReconciler Demo.

Local Open Scope string_scope.
Local Open Scope Z_scope.
Local Open Scope dop_scope.

(** ** Health *)

Lemma count_status_bound f l : 0 <= count_status f l <= Z.of_nat (length l).
Proof. unfold count_status. pose proof (List.filter_length_le f l). lia. Qed.

Lemma count_status_all f l : count_status f l = Z.of_nat (length l) <-> Forall (fun c => f c = true) l.
Proof.
  induction l as [|c l IH]; [split; [constructor | done]|].
  rewrite Forall_cons, <- IH. pose proof (count_status_bound f l) as Hb. unfold count_status in *. cbn [List.filter].
  destruct (f c); cbn [length]; split; [intros; split; [done|lia] | intros [_ ?]; lia | lia | by intros [? _]].
Qed.

Definition available_groups (s : DdcStatus) : Z := count_status (fun c => 0 <? cgs_AvailableReplicas c) (ComputeGroupStatuses s).

Lemma health_counts ddc : let s := ddc_Status (set_health (set_cg_health ddc)) in
  let n := Z.of_nat (length (ComputeGroupStatuses s)) in
  (ch_Health (ClusterHealth_ s) = Green <->
     ms_AvailableStatus (MSStatus s) = Available /\ ms_Phase (MSStatus s) = Ready /\
     fes_AvailableStatus (FEStatus_ s) = Available /\ fes_Phase (FEStatus_ s) = Ready /\
     0 < n /\ available_groups s = n) /\
  (ch_Health (ClusterHealth_ s) = Red <->
     ms_AvailableStatus (MSStatus s) <> Available \/ fes_AvailableStatus (FEStatus_ s) <> Available \/
     2 * available_groups s <= n).
Proof.
  cbv zeta. destruct ddc as [meta api kind spec [ms fe ch l og]].
  unfold set_health, set_cg_health, health_of, available_groups. cbn.
  pose proof (count_status_bound (fun c => 0 <? cgs_AvailableReplicas c) l) as Hb.
  set (a := count_status _ l) in *. set (n := Z.of_nat (length l)) in *.
  assert (Hq : (a <=? Z.quot n 2) = true /\ 2 * a <= n \/ (a <=? Z.quot n 2) = false /\ n < 2 * a).
  { rewrite Z.quot_div_nonneg by lia. destruct (Z.leb_spec a (n / 2)) as [Hx|Hx]; [left | right]; (split; [done|]).
    - pose proof (Z.mul_div_le n 2). lia.
    - destruct (Z.le_gt_cases (2 * a) n); [|done]. pose proof (Z.div_le_lower_bound n 2 a). lia. }
  destruct (decide (ms_AvailableStatus ms = Available)) as [Hma|Hma];
    [rewrite (bool_decide_false (ms_AvailableStatus ms <> Available)) by (intros Hx; by apply Hx)
    |rewrite (bool_decide_true (ms_AvailableStatus ms <> Available)) by done; cbn; split; [split; [done | tauto] | tauto]].
  destruct (decide (fes_AvailableStatus fe = Available)) as [Hfa|Hfa];
    [rewrite (bool_decide_false (fes_AvailableStatus fe <> Available)) by (intros Hx; by apply Hx)
    |rewrite (bool_decide_true (fes_AvailableStatus fe <> Available)) by done; cbn; split; [split; [done | tauto] | tauto]].
  cbn [orb]. destruct Hq as [[-> Ha]|[-> Hlt]]; [cbn; split; [split; [done | lia] | tauto]|].
  destruct (decide (ms_Phase ms = Ready)) as [Hmp|Hmp];
    [rewrite (bool_decide_false (ms_Phase ms <> Ready)) by (intros Hx; by apply Hx)
    |rewrite (bool_decide_true (ms_Phase ms <> Ready)) by done; cbn; split; (split; [done|]); [tauto | intros [?|[?|?]]; (done || lia)]].
  destruct (decide (fes_Phase fe = Ready)) as [Hfp|Hfp];
    [rewrite (bool_decide_false (fes_Phase fe <> Ready)) by (intros Hx; by apply Hx)
    |rewrite (bool_decide_true (fes_Phase fe <> Ready)) by done; cbn; split; (split; [done|]); [tauto | intros [?|[?|?]]; (done || lia)]].
  cbn [orb]. destruct (Z.ltb_spec a n) as [Hn|Hn]; cbn.
  - split; (split; [done|]); [lia | intros [?|[?|?]]; (done || lia)].
  - split; [split; [intros _; repeat split; (done || lia) | done] | split; [done | intros [?|[?|?]]; (done || lia)]].
Qed.

(** ** The status update *)

(** The cluster object whose status a call writes. *)
Definition status_write (e : event OpE) : option Ddc :=
  match e with Ev (CStatusUpdate d) _ => Some d | _ => None end.

(** A write of the status: the cluster object just fetched, with the new status. *)
Definition writes_status (ddc : Ddc) (tr : trace) (d : Ddc) : Prop :=
  exists fetched, Ev (CGet KDdc (ddc_Namespace ddc) (ddc_Name ddc)) (Ok fetched) ∈ tr /\
    d = fetched <| ddc_Status := ddc_Status ddc |>.

(** The last call was a write of the status that failed. *)
Definition failed_write (e : event OpE) : bool :=
  match e with
  | Ev ev x =>
      match ev in OpE X return X -> bool with
      | CStatusUpdate _ => fun r => match r with Ok _ => false | Er _ => true end
      | _ => fun _ => false
      end x
  end.
Definition write_failed (tr : trace) : Prop := exists e, last tr = Some e /\ failed_write e = true.

Lemma write_failed_cons e tr : tr <> [] -> write_failed (e :: tr) -> write_failed tr.
Proof. intros Hne (e' & Hl & Hf). exists e'. destruct tr; [done|]. by cbn in *. Qed.

Lemma write_failed_single e : write_failed [e] -> failed_write e = true.
Proof. by intros (e' & [= <-] & Hf). Qed.

Lemma status_attempts_wp n ddc eddc : 
  wp (status_attempts n ddc eddc) (fun tr o =>
    (length (omap status_write tr) <= n)%nat /\ Forall (writes_status ddc tr) (omap status_write tr) /\
    exists d, o = Done d /\ (tr = [] -> d = eddc) /\ (write_failed tr -> ddc_Status d = ddc_Status ddc)).
Proof.
  revert eddc; induction n as [|n IH]; intros eddc; cbn [status_attempts].
  { cbn. split; [lia|]. split; [constructor|]. exists eddc. split; [done|]. split; [done|].
    by intros (e & He & _). }
  assert (Hmono : forall evs tr d, writes_status ddc tr d -> writes_status ddc (app evs tr) d).
  { intros evs tr d (f & Hf & ->). exists f. rewrite elem_of_app. auto. }
  assert (Hnil : forall tr, tr = [] -> ~ write_failed tr).
  { by intros tr -> (e & He & _). }
  intros [fetched|e]; cbn [bind].
  - cbv zeta. set (d := fetched <| ddc_Status := ddc_Status ddc |>).
    assert (Hd : forall tr', writes_status ddc (Ev (CGet KDdc (ddc_Namespace ddc) (ddc_Name ddc)) (Ok fetched) :: tr') d).
    { intros tr'. exists fetched. split; [left | done]. }
    intros [stored|e]; cbn [bind wp].
    + cbn. split; [lia|]. split; [by constructor|]. exists stored. split; [done|]. split; [done|].
      intros Hfail. apply write_failed_cons, write_failed_single in Hfail; done.
    + destruct (IsConflict e).
      * eapply wp_mono; [apply IH|]. intros tr o (Hlen & Hw & d' & -> & Hnl & Hf). cbn [omap list_omap status_write].
        split; [cbn; lia|]. split.
        { constructor; [apply Hd|]. eapply Forall_impl; [exact Hw|].
          intros x. apply (Hmono [_; _]). }
        exists d'. split; [done|]. split; [done|]. intros Hfail. destruct tr as [|ev tr].
        { by rewrite (Hnl eq_refl). }
        apply Hf. by do 2 (apply write_failed_cons in Hfail; [|done]).
      * cbn. split; [lia|]. split; [by constructor|]. exists d. by repeat split.
  - destruct (IsConflict e).
    + eapply wp_mono; [apply IH|]. intros tr o (Hlen & Hw & d' & -> & Hnl & Hf). cbn [omap list_omap status_write].
      split; [lia|]. split; [eapply Forall_impl; [exact Hw | intros x; apply (Hmono [_])]|].
      exists d'. split; [done|]. split; [done|]. intros Hfail. destruct tr as [|ev tr].
      * by apply write_failed_single in Hfail.
      * apply Hf. by apply write_failed_cons in Hfail.
    + cbn. split; [lia|]. split; [constructor|]. exists eddc. split; [done|]. split; [done|].
      intros Hfail. by apply write_failed_single in Hfail.
Qed.

(** ** Theorems *)

Section claims.
Context `{External}.

(** The health of a cluster is green exactly when the meta service and the FE
    are available and ready and every group has an available replica, and red
    exactly when one of the two is not available or at most half of the groups have one. *)
Theorem cluster_health ddc :
  wp (CgLifecycle.UpdateComponentStatus ddc) (fun tr o => forall ddc' err, o = Done (ddc', err) ->
    ComputeGroupStatuses (ddc_Status ddc) <> [] ->
    let s := ddc_Status (set_health ddc') in
    (ch_Health (ClusterHealth_ s) = Green <->
       ms_AvailableStatus (MSStatus s) = Available /\ ms_Phase (MSStatus s) = Ready /\
       fes_AvailableStatus (FEStatus_ s) = Available /\ fes_Phase (FEStatus_ s) = Ready /\
       ComputeGroupStatuses s <> [] /\ Forall (fun c => 0 < cgs_AvailableReplicas c) (ComputeGroupStatuses s)) /\
    (ch_Health (ClusterHealth_ s) = Red <->
       ms_AvailableStatus (MSStatus s) <> Available \/ fes_AvailableStatus (FEStatus_ s) <> Available \/
       2 * available_groups s <= Z.of_nat (length (ComputeGroupStatuses s)))).
Proof.
  assert (Hres : result (fun r => ComputeGroupStatuses (ddc_Status ddc) <> [] -> exists d, r.1 = set_cg_health d)
    (CgLifecycle.UpdateComponentStatus ddc)).
  { unfold CgLifecycle.UpdateComponentStatus. destruct (ComputeGroupStatuses (ddc_Status ddc)) eqn:Hl; [by apply spec_ret|].
    eapply spec_bind; [apply only_any|]. intros [cgss errMs] _. cbv zeta.
    eapply spec_bind; [apply only_any|]. intros d _. apply spec_ret. intros _. by exists d. }
  eapply wp_mono; [exact Hres|]. intros tr o [_ Ho] ddc' err -> Hne. cbv zeta.
  destruct (Ho Hne) as [d Hd]. cbn [fst] in Hd. subst ddc'. destruct (health_counts d) as [Hg Hr]. split; [|exact Hr].
  rewrite Hg. unfold available_groups. rewrite count_status_all.
  assert (Hf : Forall (fun c => (0 <? cgs_AvailableReplicas c) = true) (ComputeGroupStatuses (ddc_Status (set_health (set_cg_health d))))
    <-> Forall (fun c => 0 < cgs_AvailableReplicas c) (ComputeGroupStatuses (ddc_Status (set_health (set_cg_health d))))).
  { split; intros Hx; (eapply Forall_impl; [exact Hx|]); intros c; apply Z.ltb_lt. }
  rewrite Hf.
  assert (Hn : 0 < Z.of_nat (length (ComputeGroupStatuses (ddc_Status (set_health (set_cg_health d))))) <->
    ComputeGroupStatuses (ddc_Status (set_health (set_cg_health d))) <> []).
  { generalize (ComputeGroupStatuses (ddc_Status (set_health (set_cg_health d)))). intros [|c l]; cbn [length];
      split; intros Hx; (done || lia). }
  by rewrite Hn.
Qed.

(** The status is written at most four times, each time onto the cluster
    object just fetched, of which nothing but the status is changed. *)
Theorem status_written ddc :
  wp (updateDorisDisaggregatedClusterStatus ddc) (fun tr _ =>
    (length (omap status_write tr) <= 4)%nat /\ Forall (writes_status ddc tr) (omap status_write tr)).
Proof.
  unfold updateDorisDisaggregatedClusterStatus. apply wp_bind. eapply wp_mono; [apply status_attempts_wp|].
  intros tr o (Hl & Hw & d & -> & _). cbn. by rewrite app_nil_r.
Qed.

(** A write of the status that fails in the end is not tried again: the
    result asks for no other pass. *)
Theorem failed_status_write_not_requeued ddc :
  wp (updateDorisDisaggregatedClusterStatus ddc) (fun tr o => write_failed tr -> o = Done noResult).
Proof.
  unfold updateDorisDisaggregatedClusterStatus. apply wp_bind. eapply wp_mono; [apply status_attempts_wp|].
  intros tr o (Hl & Hw & d & -> & _ & Hf). cbn. rewrite app_nil_r. intros Hfail.
  unfold disAggregatedInconsistentStatus. by rewrite (Hf Hfail), bool_decide_true.
Qed.

(** A group turns ready only from its StatefulSet as it was just read,
    without a stored graceful action and with its update seen, when every pod of
    the group carries its revision and as many pods are ready as were wanted;
    otherwise the phase is kept, or ready becomes rolling. *)
Theorem group_ready_when_settled ddc cgs :
  wp (updateCGStatus ddc cgs) (fun tr o => forall cgs' err, o = Done (cgs', err) ->
    (cgs_Phase cgs' = Ready -> cgs_Phase cgs = Ready \/
      exists sts pods, Ev (CGet KSts (ddc_Namespace ddc) (cgs_StatefulsetName cgs)) (Ok sts) ∈ tr /\
        omap pod_list tr = [pods] /\ hasGracefulAction sts = false /\
        waiting_update ddc sts (cgs_StatefulsetName cgs) = false /\
        StatefulsetControlledPodsAllUseNewUpdateRevision (st_UpdateRevision sts) pods = true /\
        (classify_pods pods).1.1 = cgs_Replicas cgs) /\
    cgs_Phase cgs' ∈ [cgs_Phase cgs; Ready; GracefulRolling]).
Proof.
  assert (Hkeep : forall tr : trace, (cgs_Phase cgs = Ready -> cgs_Phase cgs = Ready \/
    exists sts pods, Ev (CGet KSts (ddc_Namespace ddc) (cgs_StatefulsetName cgs)) (Ok sts) ∈ tr /\
        omap pod_list tr = [pods] /\ hasGracefulAction sts = false /\
        waiting_update ddc sts (cgs_StatefulsetName cgs) = false /\
        StatefulsetControlledPodsAllUseNewUpdateRevision (st_UpdateRevision sts) pods = true /\
        (classify_pods pods).1.1 = cgs_Replicas cgs) /\
    cgs_Phase cgs ∈ [cgs_Phase cgs; Ready; GracefulRolling]).
  { intros tr. split; [tauto|]. left. }
  unfold updateCGStatus, GetStatefulSet. cbv zeta. cbn [bind call]. intros [sts|e].
  2: { cbn -[elem_of]. intros cgs' err [= <- _]. apply Hkeep. }
  cbn [bind]. destruct (waiting_update ddc sts (cgs_StatefulsetName cgs)) eqn:Hw.
  { cbn -[elem_of]. intros cgs' err [= <- _]. apply Hkeep. }
  cbn [bind call]. intros [pods|e].
  2: { cbn -[elem_of]. intros cgs' err [= <- _]. apply Hkeep. }
  destruct (classify_pods pods) as [[avail creating] failed] eqn:Hc. cbv zeta.
  destruct (hasGracefulAction sts) eqn:Hg.
  { cbn -[elem_of]. intros cgs' err [= <- _]. case_decide; cbn -[elem_of].
    - split; [done|]. right; right; left.
    - apply Hkeep. }
  destruct (StatefulsetControlledPodsAllUseNewUpdateRevision _ pods) eqn:Hall; cbn [andb].
  2: { cbn -[elem_of]. intros cgs' err [= <- _]. apply Hkeep. }
  cbn [cgs_Replicas update_field]. destruct (Z.eqb_spec avail (cgs_Replicas cgs)) as [Heq|Hne];
    cbn -[elem_of classify_pods]; intros cgs' err [= <- _].
  - split; [|right; left]. intros _. right. exists sts, pods. rewrite Hc. repeat split; try done. left.
  - apply Hkeep.
Qed.

(** With the spec unchanged, a pass asks for no other only when the cluster
    is green and no group is decommissioning, scaling or rolling. *)
Theorem quiet_result_settled ddc preHv : preHv = HashObject (ddc_Spec ddc) ->
  wp (updateObjectORStatus ddc preHv) (fun tr o => o = Done noResult ->
    ch_Health (ClusterHealth_ (ddc_Status ddc)) = Green /\
    Forall (fun c => cgs_Phase c <> Decommissioning /\ shouldRequeueComputeGroupPhase (cgs_Phase c) = false)
      (ComputeGroupStatuses (ddc_Status ddc))).
Proof.
  intros ->. unfold updateObjectORStatus. cbv zeta. rewrite decide_False by (intros Hx; by apply Hx). cbn [bind].
  apply wp_bind, wp_true. intros tr [res|w]; [|done]. cbn [wp]. intros [= Hr]. revert Hr. unfold write_back_result.
  change (ddc_Status (clearReconcileAnnotations ddc)) with (ddc_Status ddc).
  destruct (existsb _ (ComputeGroupStatuses (ddc_Status ddc))) eqn:Hex; [done|]. case_decide as Hg; [done|]. intros _.
  split; [by destruct (decide (ch_Health (ClusterHealth_ (ddc_Status ddc)) = Green))|].
  apply Forall_forall. intros c Hc. apply list_elem_of_In in Hc.
  destruct (bool_decide (cgs_Phase c = Decommissioning) || shouldRequeueComputeGroupPhase (cgs_Phase c)) eqn:Hb.
  - exfalso. rewrite (proj2 (existsb_exists _ _)) in Hex; [done|]. by exists c.
  - apply orb_false_iff in Hb as [Hd Hs]. by apply bool_decide_eq_false in Hd.
Qed.
End claims.

(** ** Witness *)

#[local] Existing Instance demo_external.

Lemma quiet_result_settled_witness :
  wp (updateObjectORStatus demo_ddc (HashObject (ddc_Spec demo_ddc))) (fun tr o => o = Done noResult ->
    ch_Health (ClusterHealth_ (ddc_Status demo_ddc)) = Green /\
    Forall (fun c => cgs_Phase c <> Decommissioning /\ shouldRequeueComputeGroupPhase (cgs_Phase c) = false)
      (ComputeGroupStatuses (ddc_Status demo_ddc))).
Proof. exact (quiet_result_settled demo_ddc _ eq_refl). Defined.
