(* ===== verification/MysqlProps.v ===== *)
(** The connections to Doris: statements that change the cluster run on the
    master. *)

From Stdlib Require Import ZArith Lia.
From stdpp Require Import base list gmap strings.
From S2P Require Import Prelude GoStr KubeTypes DdcApi Client Traces Mysql Quiet.

Local Open Scope string_scope.
Local Open Scope Z_scope.
Local Open Scope dop_scope.

(** The address that a data source names. *)
Definition source_of (cfg : DBConfig) : string :=
  db_User cfg +:+ ":" +:+ db_Password cfg +:+ "@tcp(" +:+ db_Host cfg +:+ ":" +:+
  db_Port cfg +:+ ")/" +:+ db_Database cfg.

(** The connection was opened to the source, with options after it. *)
Definition opened (tr : trace) (cfg : DBConfig) (db : DB) : Prop :=
  exists options, Ev (SqlxOpen (source_of cfg +:+ options)) (Ok (db_sqlx db)) ∈ tr.

Lemma opened_app_l tr tr' cfg db : opened tr cfg db -> opened (app tr tr') cfg db.
Proof. intros [o Ho]. exists o. rewrite elem_of_app. by left. Qed.
Lemma opened_app_r tr tr' cfg db : opened tr' cfg db -> opened (app tr tr') cfg db.
Proof. intros [o Ho]. exists o. rewrite elem_of_app. by right. Qed.

Lemma open_and_ping_wp dsn :
  wp (open_and_ping dsn) (fun tr o => forall db, o = Done (Ok db) -> Ev (SqlxOpen dsn) (Ok (db_sqlx db)) ∈ tr).
Proof.
  unfold open_and_ping. intros [db|err]; cbn -[elem_of]; [|done].
  intros [e|]; cbn -[elem_of]; [done|]. intros db' [= <-]. left.
Qed.

Lemma NewDorisSqlDB_wp cfg tls sec :
  wp (NewDorisSqlDB cfg tls sec) (fun tr o => forall db, o = Done (Ok db) -> opened tr cfg db).
Proof.
  assert (Hplain : wp (open_and_ping (source_of cfg)) (fun tr o => forall db, o = Done (Ok db) -> opened tr cfg db)).
  { eapply wp_mono; [apply open_and_ping_wp|]. intros tr o Ho db Hdb. exists "". rewrite app_nil_str. auto. }
  unfold NewDorisSqlDB. fold (source_of cfg). cbv zeta. destruct tls as [tls|]; [|exact Hplain].
  destruct sec as [sec|]; [|exact Hplain]. cbn [bind call]. intros []; [|done].
  cbn [bind call]. intros [e|]; [done|]. cbn [bind call]. intros [e|]; [done|]. cbn [bind call].
  eapply wp_mono; [apply open_and_ping_wp|]. intros tr o Ho db Hdb.
  eexists ("?tls=" +:+ _). do 3 right. by apply Ho.
Qed.

Lemma master_spec fes m fs : followers_of fes = (Some m, fs) ->
  m ∈ fes /\ fe_Role m = FE_FOLLOWER_ROLE /\ fe_IsMaster m = true.
Proof.
  assert (Hgo : forall l acc m fs, foldl (fun '(master, res) fe =>
      if decide (fe_Role fe = FE_FOLLOWER_ROLE)
      then (if fe_IsMaster fe then Some fe else master, app res [fe])
      else (master, res)) acc l = (Some m, fs) ->
    acc.1 = Some m \/ (m ∈ l /\ fe_Role m = FE_FOLLOWER_ROLE /\ fe_IsMaster m = true)).
  { intros l; induction l as [|fe l IH]; intros [a r] m' fs'; cbn [foldl]; [intros [= -> _]; by left|].
    intros Hf. destruct (IH _ _ _ Hf) as [Ha|(Hin & Hr & Hm)]; [|right; split; [by right | done]].
    revert Ha. case_decide as Hr; cbn; [|by left]. destruct (fe_IsMaster fe) eqn:Hm; [|by left].
    intros [= <-]. right. split; [left | done]. }
  intros Hf. destruct (Hgo fes (None, []) m fs Hf) as [Hn|Hm]; [discriminate Hn | exact Hm].
Qed.

(** The connection on which nodes are taken out is one to the master: the
    balanced one when Doris says that it is connected to the master, else one
    opened to the master's host, and then the balanced one is closed. *)
Theorem connection_to_master cfg tls sec :
  wp (NewDorisMasterSqlDB cfg tls sec) (fun tr o => forall db, o = Done (Ok db) ->
    exists balanced fes master,
      opened tr cfg balanced /\ Ev (SqlxShowFrontends (db_sqlx balanced)) (Ok fes) ∈ tr /\
      master ∈ fes /\ fe_Role master = FE_FOLLOWER_ROLE /\ fe_IsMaster master = true /\
      (fe_CurrentConnected master = "Yes" /\ db = balanced \/
       fe_CurrentConnected master <> "Yes" /\ Ev (SqlxClose (db_sqlx balanced)) tt ∈ tr /\
       opened tr (mkDBConfig (db_User cfg) (db_Password cfg) (fe_Host master) (db_Port cfg) "mysql") db)).
Proof.
  unfold NewDorisMasterSqlDB, GetFollowers, ShowFrontends, Close. apply wp_bind.
  eapply wp_mono; [apply NewDorisSqlDB_wp|]. intros tr0 [[balanced|err]|w] Hb; [|done|done].
  specialize (Hb balanced eq_refl). cbn [bind call]. intros [fes|err]; [|done]. cbn [bind].
  destruct (followers_of fes) as [[master|] fs] eqn:Hm; cbn [deref]; [|done].
  apply master_spec in Hm as (Hin & Hrole & Hmaster). case_decide as Hyes.
  - cbn [wp]. intros db [= <-]. exists balanced, fes, master. split; [by apply opened_app_l|].
    split; [apply elem_of_app; right; left|]. split; [done|]. split; [done|]. split; [done|]. by left.
  - apply wp_bind. eapply wp_mono; [apply NewDorisSqlDB_wp|]. intros tr1 [r|w] Hr; [|done].
    cbn [bind call]. intros []. cbn [wp]. intros db [= ->]. specialize (Hr db eq_refl).
    exists balanced, fes, master. split; [by apply opened_app_l|].
    split; [apply elem_of_app; right; left|]. split; [done|]. split; [done|]. split; [done|]. right. split; [done|]. split.
    + apply elem_of_app; right. right. apply elem_of_app; right. left.
    + apply opened_app_r. apply (opened_app_r [_]). by apply opened_app_l.
Qed.
