(* ===== verification/DcrTraces.v ===== *)
(** Reasoning about the passes of the coupled clusters: the StatefulSets and
    claims that a trace reads and writes, and the steps that leave the spec of
    the cluster alone. *)

From Stdlib Require Import ZArith Lia Ascii.
From stdpp Require Import base list gmap strings.
From S2P Require Import Prelude GoStr KubeTypes DdcApi Client Traces Mysql Resource External SubDefault Quiet Observers.
From S2P Require Import DcrApi DcrResource DcrSub DcrFe.

Local Open Scope string_scope.
Local Open Scope Z_scope.
Local Open Scope dop_scope.

(** ** Reading off a trace *)

(** The answer to a get of a StatefulSet. *)
Definition sts_get (e : event OpE) : option (res StatefulSet) :=
  match e with
  | Ev ev x =>
      match ev in OpE X return X -> option (res StatefulSet) with
      | CGet k _ _ => match k return res (obj k) -> option (res StatefulSet) with
                      | KSts => Some | _ => fun _ => None end
      | _ => fun _ => None
      end x
  end.

(** The claim that a call creates or patches. *)
Definition pvc_write (e : event OpE) : option PersistentVolumeClaim :=
  match e with
  | Ev (CCreate k o) _ | Ev (CPatchMerge k o) _ | Ev (CUpdate k o) _ =>
      match k return obj k -> option PersistentVolumeClaim with KPvc => Some | _ => fun _ => None end o
  | _ => None
  end.

(** The status of a cluster that a call writes. *)
Definition status_write (e : event OpE) : option Dcr :=
  match e with Ev (DcrStatusUpdate d) _ => Some d | _ => None end.

(** The answer to a get of a config map. *)
Definition config_map_get (e : event OpE) : option (res ConfigMap) :=
  match e with
  | Ev ev x =>
      match ev in OpE X return X -> option (res ConfigMap) with
      | CGet k _ _ => match k return res (obj k) -> option (res ConfigMap) with
                      | KConfigMap => Some | _ => fun _ => None end
      | _ => fun _ => None
      end x
  end.

(** The answer to a get of a cluster. *)
Definition dcr_get (e : event OpE) : option (res Dcr) :=
  match e with
  | Ev ev x =>
      match ev in OpE X return X -> option (res Dcr) with
      | CGet k _ _ => match k return res (obj k) -> option (res Dcr) with
                      | KDcr => Some | _ => fun _ => None end
      | _ => fun _ => None
      end x
  end.

(** A statement that Doris refuses. *)
Definition sql_failure (e : event OpE) : bool :=
  match e with
  | Ev ev x => match ev in OpE X return X -> bool with
               | SqlxExec _ _ => fun r => match r with Some _ => true | None => false end
               | _ => fun _ => false
               end x
  end.

(** A call that neither reads a cluster nor writes its status. *)
Definition no_dcr (e : event OpE) : Prop := dcr_get e = None /\ status_write e = None.

Lemma no_dcr_trace tr : Forall no_dcr tr -> omap dcr_get tr = [] /\ omap status_write tr = [].
Proof. intros Ht. split; apply omap_none; (eapply Forall_impl; [exact Ht|]); by intros e []. Qed.

Definition no_sts_access (e : event OpE) : Prop := sts_get e = None /\ sts_write e = None.

(** ** Composition *)

(** A prefix whose calls do not matter for the postcondition. *)
Lemma wp_prefix {A B} (P : event OpE -> Prop) (R : A -> Prop) (p : op A) (f : A -> op B) Q :
  (forall tr tr' o, Forall P tr -> Q tr' o -> Q (app tr tr') o) -> (forall w, Q [] (Crashed w)) ->
  spec P R p -> (forall a, R a -> wp (f a) Q) -> wp (bind p f) Q.
Proof.
  intros HQ Hc Hp Hf. apply wp_bind. eapply wp_mono; [exact Hp|]. intros tr [a|w] [Htr HR].
  - eapply wp_mono; [by apply Hf|]. intros tr' o. by apply HQ.
  - rewrite <- (app_nil_r tr). by apply HQ.
Qed.

(** A step of a program whose postcondition holds of every trace that matters as [[]]. *)
Lemma wp_free {A} (P : event OpE -> Prop) (p : op A) (Q : trace -> outcome A -> Prop) :
  (forall tr o, Forall P tr -> Q tr o) -> only P p -> wp p Q.
Proof. intros HQ Hp. eapply wp_mono; [exact Hp|]. intros tr o [Htr _]. by apply HQ. Qed.

Lemma spec_and {A} (P : event OpE -> Prop) (R R' : A -> Prop) (p : op A) :
  spec P R p -> result R' p -> spec P (fun a => R a /\ R' a) p.
Proof.
  intros H1 H2. eapply wp_mono; [exact (wp_and _ _ _ H1 H2)|].
  intros tr [a|w] [[? ?] [_ ?]]; by repeat split.
Qed.

(** ** Steps that do not touch StatefulSets *)

Lemma quiet_service_no_sts (e : event OpE) : quiet e -> sts_get e = None -> no_sts_access e.
Proof. intros H1 H2. split; [done|]. by apply quiet_no_sts_write. Qed.

(** A call that reads or writes a service or a StatefulSet. *)
Definition on_shelf (k : kind) : bool := match k with KSvc | KSts => true | _ => false end.
Definition touches (e : event OpE) : bool :=
  match e with
  | Ev (CGet k _ _) _ | Ev (CCreate k _) _ | Ev (CPatchMerge k _) _ | Ev (CUpdate k _) _ | Ev (CDelete k _) _ => on_shelf k
  | _ => false
  end.
Definition shelf_free (e : event OpE) : Prop := touches e = false.

(** A call that touches neither those nor the cluster. *)
Definition beside (e : event OpE) : Prop := no_sts_access e /\ no_dcr e /\ shelf_free e.

#[export] Hint Extern 1 (no_sts_access (Ev _ _)) => (split; reflexivity) : spec.
#[export] Hint Extern 1 (no_dcr (Ev _ _)) => (split; reflexivity) : spec.
#[export] Hint Extern 1 (shelf_free (Ev _ _)) => exact eq_refl : spec.
#[export] Hint Extern 1 (beside (Ev _ _)) => (repeat split) : spec.

(** What a step keeps of the cluster object: its spec and its name. *)
Definition same_spec (d d' : Dcr) : Prop :=
  dcr_Spec d' = dcr_Spec d /\ dcr_Name d' = dcr_Name d /\ dcr_Namespace d' = dcr_Namespace d.
#[export] Instance same_spec_equivalence : Equivalence same_spec.
Proof.
  split; [by intros d | intros d d' (? & ? & ?); repeat split; congruence |
          intros d1 d2 d3 (? & ? & ?) (? & ? & ?); repeat split; congruence].
Qed.
Lemma set_status_same_spec c s d : same_spec d (set_status c s d).
Proof. by destruct c. Qed.
Lemma set_annotations_same_spec a d : same_spec d (set_dcr_Annotations a d).
Proof. done. Qed.
#[export] Hint Resolve set_status_same_spec set_annotations_same_spec : spec.

Section steps.
Context `{External}.

Lemma get_config_maps_spec (P : event OpE -> Prop) ns cms acc msg :
  (forall n m r, P (Ev (CGet KConfigMap n m) r)) -> only P (get_config_maps ns cms acc msg).
Proof.
  intros HP. revert acc msg; induction cms as [|cm cms IH]; intros acc msg; cbn [get_config_maps]; [by apply spec_ret|].
  apply spec_call; [auto|]. intros [|] _; apply IH.
Qed.

Lemma k8s_GetConfig_spec (P : event OpE -> Prop) cmi ns c :
  (forall n m r, P (Ev (CGet KConfigMap n m) r)) -> only P (k8s_GetConfig cmi ns c).
Proof.
  intros HP. unfold k8s_GetConfig. destruct (GetMountConfigMapInfo cmi) as [|cm cms]; [by apply spec_ret|].
  eapply (spec_bind _ (fun _ => True)); [|by intros [cm' err] _; destruct (ResolveConfigMaps cm' c); apply spec_ret].
  unfold GetConfigMaps. eapply (spec_bind _ (fun _ => True)); [by apply get_config_maps_spec|].
  intros [l m] _. by apply spec_ret.
Qed.

Lemma GetConfig_spec (P : event OpE -> Prop) cmi ns c :
  (forall n m r, P (Ev (CGet KConfigMap n m) r)) -> spec P (fun r => r.2 = None) (GetConfig cmi ns c).
Proof.
  intros HP. eapply spec_bind; [by apply k8s_GetConfig_spec|]. intros [cfg err] _. by apply spec_ret.
Qed.

Lemma BuildCoreConfigmapStatusHash_spec (P : event OpE -> Prop) d c :
  (forall n m r, P (Ev (CGet KConfigMap n m) r)) -> (forall t r m x, P (Ev (REvent t r m) x)) ->
  only P (BuildCoreConfigmapStatusHash d c).
Proof.
  intros Hg He. unfold BuildCoreConfigmapStatusHash, GetConfigMap, warn. repeat (spec_step; auto).
Qed.

Lemma InitStatus_spec (P : event OpE -> Prop) d c :
  (forall x, P (Ev TimeNow x)) -> spec P (same_spec d) (InitStatus d c).
Proof. intros HP. unfold InitStatus. destruct c; repeat (spec_step; auto); done. Qed.

Lemma Compare_spec (P : event OpE -> Prop) d old c :
  (forall n m r, P (Ev (CGet KConfigMap n m) r)) -> (forall t r m x, P (Ev (REvent t r m) x)) ->
  (forall x, P (Ev TimeNow x)) -> spec P (same_spec d) (CompareConfigmapAndTriggerRestart d old c).
Proof.
  intros Hg He Ht. unfold CompareConfigmapAndTriggerRestart. case_decide; [by apply spec_ret|].
  eapply (spec_bind _ (fun _ => True)); [by apply BuildCoreConfigmapStatusHash_spec|]. intros h _.
  case_decide; [by apply spec_ret|]. case_decide; [|by apply spec_ret].
  apply spec_call; [auto|]. intros now _. destruct (GetComponentStatus _ c); [|by apply spec_panic].
  apply spec_ret. etransitivity; [by apply set_annotations_same_spec | apply set_status_same_spec].
Qed.

Lemma CheckConfigMountPath_spec (P : event OpE -> Prop) d c :
  (forall t r m x, P (Ev (REvent t r m) x)) -> only P (CheckConfigMountPath d c).
Proof.
  intros He. assert (Hgo : forall cms m, only P (CheckConfigMountPath_go m cms)).
  { induction cms as [|cm cms IH]; intros m; cbn [CheckConfigMountPath_go]; [by apply spec_ret|].
    apply (spec_bind _ (fun _ => True)); [unfold warn; repeat (spec_step; auto)|]. auto. }
  unfold CheckConfigMountPath, with_base. destruct c; try destruct (base_of d _); by apply spec_panic || apply Hgo.
Qed.

Lemma CheckSecretMountPath_spec (P : event OpE -> Prop) d c :
  (forall t r m x, P (Ev (REvent t r m) x)) -> only P (DcrCheckSecretMountPath d c).
Proof.
  intros He. assert (Hgo : forall l m, only P (CheckSecretMountPath_go m l)).
  { induction l as [|s l IH]; intros m; cbn [CheckSecretMountPath_go]; [by apply spec_ret|].
    apply (spec_bind _ (fun _ => True)); [repeat (spec_step; auto)|]. auto. }
  unfold DcrCheckSecretMountPath, with_base. destruct c; try destruct (base_of d _); by apply spec_panic || apply Hgo.
Qed.

Lemma CheckSecretExist_spec (P : event OpE -> Prop) d c :
  (forall t r m x, P (Ev (REvent t r m) x)) -> (forall n m r, P (Ev (CGet KSecret n m) r)) ->
  only P (DcrCheckSecretExist d c).
Proof.
  intros He Hg. assert (Hgo : forall ns l msg, only P (missing_secrets ns l msg)).
  { induction l as [|s l IH]; intros msg; cbn [missing_secrets]; [by apply spec_ret|].
    apply spec_call; [auto|]. intros [|] _; apply IH. }
  assert (Hb : forall b ns, only P (let! errMessage := missing_secrets ns (bs_Secrets b) "" in
      if decide (errMessage <> "") then warn "SecretNotExist" ("CheckSecretExist error: " +:+ errMessage +:+ ".")
      else Ret tt)).
  { intros b ns. eapply spec_bind; [apply Hgo|]. intros m _. unfold warn. repeat (spec_step; auto). }
  unfold DcrCheckSecretExist, with_base. destruct c; try destruct (base_of d _); by apply spec_panic || apply Hb.
Qed.

Lemma check_component_spec (P : event OpE -> Prop) d c :
  (forall t r m x, P (Ev (REvent t r m) x)) -> (forall n m r, P (Ev (CGet KSecret n m) r)) ->
  only P (check_component d c).
Proof.
  intros He Hg. unfold check_component.
  eapply spec_bind; [by apply CheckConfigMountPath_spec|]. intros _ _.
  eapply spec_bind; [by apply CheckSecretMountPath_spec|]. intros _ _. by apply CheckSecretExist_spec.
Qed.

Lemma CheckSharedPVC_spec (P : event OpE -> Prop) d :
  (forall t r m x, P (Ev (REvent t r m) x)) -> (forall n m r, P (Ev (CGet KPvc n m) r)) ->
  only P (CheckSharedPVC d).
Proof.
  intros He Hg. unfold CheckSharedPVC. set (ns := dcr_Namespace d).
  induction (SharedPersistentVolumeClaims (dcr_Spec d)) as [|cl l IH]; cbn [check_shared_claims]; [by apply spec_ret|].
  unfold GetPVC, warn. apply spec_call; [auto|]. intros [pvc|err] _; [|repeat (spec_step; auto)].
  destruct (ArrayContains _ _); [exact IH | repeat (spec_step; auto)].
Qed.

Lemma ApplyService_spec (P : event OpE -> Prop) svc equal :
  (forall n m r, P (Ev (CGet KSvc n m) r)) -> (forall s r, P (Ev (CCreate KSvc s) r)) ->
  (forall s r, P (Ev (CPatchMerge KSvc s) r)) -> only P (ApplyService svc equal).
Proof.
  intros Hg Hc Hp. unfold ApplyService, CreateClientObject, PatchClientObject.
  apply spec_call; [auto|]. intros [esvc|err] _.
  - destruct (equal _ _) as [s [|]]; repeat (spec_step; auto).
  - destruct (IsNotFound err); [repeat (spec_step; auto)|].
    destruct (equal _ _) as [s [|]]; repeat (spec_step; auto).
Qed.

Lemma GetFinal_spec (P : event OpE -> Prop) d c :
  (forall n m r, P (Ev (CGet KConfigMap n m) r)) -> only P (GetFinalPersistentVolumes d c).
Proof.
  intros Hg. unfold GetFinalPersistentVolumes, with_base.
  assert (Hb : forall b, only P (let! '(cfg, err) := GetConfig (bs_ConfigMapInfo b) (dcr_Namespace d) c in
    match err with
    | Some e => Ret (Er e)
    | None =>
        let '(_, _, sharedPaths) := BuildSharedVolumesAndVolumeMounts (SharedPersistentVolumeClaims (dcr_Spec d)) c in
        assert_ok (GenerateEveryoneMountPathDorisPersistentVolume b sharedPaths cfg c) (fun volumes => Ret (Ok volumes))
    end)).
  { intros b. eapply spec_bind; [by apply GetConfig_spec|]. intros [cfg [e|]] _; [by apply spec_ret|].
    cbv zeta. unfold BuildSharedVolumesAndVolumeMounts.
    destruct (GenerateEveryoneMountPathDorisPersistentVolume _ _ _ _); by apply spec_ret || apply spec_panic. }
  destruct c; try destruct (base_of d _); by apply spec_panic || apply Hb.
Qed.

(** The events of the preparation of claims. *)
Lemma with_claims_spec {A} (P : event OpE -> Prop) (R : A -> Prop) d c msg fail f :
  (forall t r m x, P (Ev (REvent t r m) x)) -> (forall n m r, P (Ev (CGet KConfigMap n m) r)) ->
  (forall n s r, P (Ev (CList KPvc n s) r)) ->
  (forall e, spec P R (fail e)) -> (forall vs pvcs, spec P R (f vs pvcs)) -> spec P R (with_claims d c msg fail f).
Proof.
  intros He Hg Hl Hfail Hf. unfold with_claims.
  eapply spec_bind; [by apply GetFinal_spec|].
  intros [vs|e] _; [|unfold warn; repeat (spec_step; auto)].
  apply spec_call; [auto|]. intros [pvcs|e] _; [apply Hf|]. unfold warn. repeat (spec_step; auto).
Qed.

Lemma patchPVCs_spec (P : event OpE -> Prop) d sel pvcs sts v replicas :
  (forall t r m x, P (Ev (REvent t r m) x)) -> (forall p r, P (Ev (CPatchMerge KPvc p) r)) ->
  (forall p r, P (Ev (CCreate KPvc p) r)) -> only P (patchPVCs d sel pvcs sts v replicas).
Proof.
  intros He Hp Hc. unfold patchPVCs.
  assert (H1 : forall cap pvcs b, only P (patch_claims cap pvcs b)).
  { intros cap; induction pvcs0 as [|p l IH]; intros b; cbn [patch_claims]; [by apply spec_ret|].
    destruct (_ =? _); [apply IH|]. unfold into_requests. case_decide; [done|].
    apply spec_call; [auto|]. intros [e|] _; unfold warn; repeat (spec_step; auto). }
  assert (H2 : forall left n, only P (create_claims d sel sts v n left)).
  { induction left as [|left IH]; intros n; cbn [create_claims]; [by apply spec_ret|].
    apply spec_call; [auto|]. intros [e|] _; unfold warn; repeat (spec_step; auto). }
  eapply spec_bind; [apply H1|]. intros b _. eapply (spec_bind _ (fun _ => True)); [repeat (spec_step; auto)|].
  intros b' _. eapply spec_bind; [apply H2|]. intros _ _. by apply spec_ret.
Qed.

Lemma PrepareReconcileResources_spec (P : event OpE -> Prop) d c :
  (forall t r m x, P (Ev (REvent t r m) x)) -> (forall n m r, P (Ev (CGet KConfigMap n m) r)) ->
  (forall n s r, P (Ev (CList KPvc n s) r)) -> (forall p r, P (Ev (CPatchMerge KPvc p) r)) ->
  (forall p r, P (Ev (CCreate KPvc p) r)) -> only P (PrepareReconcileResources d c).
Proof.
  intros He Hg Hl Hp Hc.
  assert (Hv : forall sel sts replicas all pvcs vs b, only P (prepare_volumes d sel sts replicas all pvcs vs b)).
  { intros sel sts replicas all pvcs; induction vs as [|v vs IH]; intros b; cbn [prepare_volumes]; [by apply spec_ret|].
    case_decide; [|apply IH]. eapply spec_bind; [by apply patchPVCs_spec|]. intros b' _. apply IH. }
  assert (Hprep : only P (prepare_component d c)).
  { unfold prepare_component. destruct (base_of d c) as [base|]; [|by apply spec_panic]. cbn [deref].
    destruct (bs_PersistentVolumes base); [by apply spec_ret|]. unfold preparePersistentVolumeClaim.
    assert (Hk : forall n, only P (with_claims d c " GetFinalPersistentVolumes failed：" (fun _ => Ret false)
        (fun volumes pvcs => prepare_volumes d (GenerateStatefulSetSelector d c) (GenerateComponentStatefulSetName d c)
           n volumes pvcs volumes true))).
    { intros n. apply with_claims_spec; auto. intros; by apply spec_ret. }
    unfold claim_replicas. destruct c; try apply Hk;
      (destruct (base_of d _) as [b|]; [|by apply spec_panic]); cbn [deref];
      destruct (bs_Replicas b); by apply spec_panic || apply Hk. }
  unfold PrepareReconcileResources. destruct c; by apply spec_ret || apply Hprep.
Qed.
End steps.

(** ** Builders of pod templates *)

Definition reads_config (e : event OpE) : Prop :=
  match e with Ev (CGet KConfigMap _ _) _ => True | _ => False end.

(** What the controllers rely on: a builder of pod templates makes no call but
    gets of config maps. *)
Class TemplateBuilder {A} (build : Dcr -> config -> op A) :=
  build_reads : forall d cfg, only reads_config (build d cfg).

Lemma reads_config_free e : reads_config e ->
  no_sts_access e /\ no_dcr e /\ no_sql e /\ quiet e /\ pvc_write e = None.
Proof. destruct e as [X e x]. destruct e; try done; destruct k; done. Qed.

Lemma build_free {A} (build : Dcr -> config -> op A) `{!TemplateBuilder build} (P : event OpE -> Prop) d cfg :
  (forall e, reads_config e -> P e) -> only P (build d cfg).
Proof. intros HP. eapply spec_weaken; [apply build_reads | exact HP | done]. Qed.

(** A builder without calls. *)
#[export] Instance pure_builder {A} (f : Dcr -> config -> A) : TemplateBuilder (fun d cfg => Ret (f d cfg)).
Proof. intros d cfg. by apply spec_ret. Qed.
