(* ===== verification/PodProps.v ===== *)
(** The pods of the components: the builders make no call but gets of config
    maps, so that the controllers' theorems hold for them; every mount has its
    volume; and what the probes, the environment and the init containers
    guarantee. *)

From Stdlib Require Import ZArith Lia Ascii.
From stdpp Require Import base list gmap strings.
From S2P Require Import Prelude GoStr KubeTypes DdcApi Client Traces Mysql Resource External SubDefault Demo.
From S2P Require Import DcrApi DcrResource DcrSub PodTemplate DcrPods DcrTraces.

Local Open Scope string_scope.
Local Open Scope Z_scope.
Local Open Scope dop_scope.

(** ** The builders *)

Section builders.
Context `{External}.

Lemma component_config_reads d b c : only reads_config (component_config d b c).
Proof.
  unfold component_config. eapply spec_bind; [by apply k8s_GetConfig_spec|]. intros [cfg err] _. by apply spec_ret.
Qed.

Lemma fe_access_reads d c : only reads_config (fe_access d c).
Proof.
  unfold fe_access. destruct (GetConfigFEAddrForAccess d c) as [addr port]. destruct (decide _); [|by apply spec_ret].
  eapply (spec_bind _ (fun _ => True)); [|intros; by apply spec_ret].
  destruct (FeSpec_ _) as [fe|]; [|by apply spec_ret].
  eapply spec_bind; [by apply k8s_GetConfig_spec|]. intros [cfg err] _. by apply spec_ret.
Qed.

Lemma member_container_reads d cfg c name last : only reads_config (member_container d cfg c name last).
Proof.
  unfold member_container. destruct (NewBaseMainContainer d cfg c); [|by apply spec_panic]. cbn [assert_ok].
  eapply spec_bind; [apply fe_access_reads|]. intros [[addr port] feConfig] _.
  destruct (query_port _ _); [|by apply spec_panic]. destruct (GetContainerPorts _ _); [|by apply spec_panic].
  by apply spec_ret.
Qed.

#[local] Hint Resolve component_config_reads fe_access_reads member_container_reads : spec.

#[export] Instance buildFEPodTemplateSpec_reads : TemplateBuilder buildFEPodTemplateSpec.
Proof. intros d cfg. unfold buildFEPodTemplateSpec. destruct (fe_template d cfg); by apply spec_ret || apply spec_panic. Qed.

#[export] Instance buildBEPodTemplateSpec_reads : TemplateBuilder buildBEPodTemplateSpec.
Proof. intros d cfg. unfold buildBEPodTemplateSpec, beContainer, assert_ok. spec_go. Qed.

#[export] Instance buildCnPodTemplateSpec_reads : TemplateBuilder buildCnPodTemplateSpec.
Proof. intros d cfg. unfold buildCnPodTemplateSpec, cnContainer, assert_ok. spec_go. Qed.

#[export] Instance buildBrokerPodTemplateSpec_reads : TemplateBuilder buildBrokerPodTemplateSpec.
Proof. intros d cfg. unfold buildBrokerPodTemplateSpec, brokerContainer, assert_ok. spec_go. Qed.
End builders.

(** ** Volumes and mounts *)

(** Every mount names one of the volumes. *)
Definition bound (volumes : list string) (mounts : list VolumeMount) : Prop :=
  Forall (fun m => vm_Name m ∈ volumes) mounts.

Lemma bound_app vs1 vs2 ms1 ms2 : bound vs1 ms1 -> bound vs2 ms2 -> bound (app vs1 vs2) (app ms1 ms2).
Proof.
  intros H1 H2. apply Forall_app. split; (eapply Forall_impl; [eassumption|]); cbn; intros m Hm; apply elem_of_app; auto.
Qed.

Lemma bound_weaken vs vs' ms : vs ⊆ vs' -> bound vs ms -> bound vs' ms.
Proof. intros Hv Hb. eapply Forall_impl; [exact Hb|]. set_solver. Qed.

Lemma bound_weaken_r vs ms1 ms2 : bound vs ms1 -> bound vs ms2 -> bound vs (app ms1 ms2).
Proof. intros. by apply Forall_app. Qed.

(** Mounts made along with their volumes. *)
Lemma bound_map {A} (vol : A -> Volume) (mnt : A -> VolumeMount) l :
  (forall a, vm_Name (mnt a) = v_Name (vol a)) -> bound (map v_Name (map vol l)) (map mnt l).
Proof.
  intros Heq. apply Forall_forall. intros m Hm. apply list_elem_of_In, in_map_iff in Hm as (a & <- & Ha).
  rewrite Heq. apply list_elem_of_In, in_map, in_map, Ha.
Qed.

Lemma bound_config cmi c : let vm := getMultiConfigVolumeAndVolumeMount cmi c in bound (map v_Name vm.1) vm.2.
Proof. by apply bound_map. Qed.
Lemma bound_secrets base c : let vm := getMultiSecretVolumeAndVolumeMount base c in bound (map v_Name vm.1) vm.2.
Proof. by apply bound_map. Qed.
Lemma bound_kerberos info : let vm := getKerberosVolumeAndVolumeMount info in bound (map v_Name vm.1) vm.2.
Proof. destruct info as [i|]; repeat constructor; cbn; set_solver. Qed.
Lemma bound_auth s : bound (map v_Name (auth_volumes s)) (auth_mounts s).
Proof. unfold auth_volumes, auth_mounts. destruct (decide (s <> "")); repeat constructor; cbn; set_solver. Qed.
Lemma bound_default c : let vm := getDefaultVolumesVolumeMounts c in bound (map v_Name vm.1) vm.2.
Proof. destruct c; repeat constructor; cbn; set_solver. Qed.
Lemma bound_shared spvcs c :
  let vm := (BuildSharedVolumesAndVolumeMounts spvcs c).1 in bound (map v_Name vm.1) vm.2.
Proof. by apply bound_map. Qed.

(** The mounts of the storage name volumes of the pod, or claim templates. *)
Lemma bound_storage base paths cfg c volumes mounts vs :
  template_storage base paths cfg c = Some volumes -> buildVolumeMounts base paths cfg c = Some mounts ->
  GenerateEveryoneMountPathDorisPersistentVolume base paths cfg c = Some vs ->
  bound (app (map v_Name (appendPodInfoVolumesVolumeMounts volumes []).1) (map dv_Name vs)) mounts.
Proof.
  unfold template_storage, buildVolumeMounts, newVolumesFromBaseSpec. intros Hv Hm Hg. rewrite Hg in *. cbn in Hv, Hm.
  assert (Hinfo : forall l, bound (app (map v_Name (app volumes [podinfo_volume])) l) [mkVolumeMount POD_INFO_VOLUME_NAME POD_INFO_PATH]).
  { intros l. constructor; [|constructor]. cbn [vm_Name]. rewrite map_app, !elem_of_app. left. right. by left. }
  cbn [appendPodInfoVolumesVolumeMounts fst].
  destruct (bs_PersistentVolumes base) as [|v0 rest] eqn:Hp.
  - injection Hm as <-. apply (bound_weaken_r _ [_]); [apply Hinfo|].
    assert (vs = []) as ->.
    { unfold GenerateEveryoneMountPathDorisPersistentVolume in Hg. rewrite Hp in Hg. cbn in Hg. congruence. }
    assert (volumes = (getDefaultVolumesVolumeMounts c).1) as -> by (destruct c; injection Hv as <-; done).
    eapply bound_weaken; [|apply bound_default]. rewrite map_app. set_solver.
  - injection Hm as <-. apply (bound_weaken_r _ [_]); [apply Hinfo|].
    apply Forall_forall. intros m Hin. apply list_elem_of_In, in_map_iff in Hin as (v & <- & Hin). cbn.
    apply elem_of_app. right. by apply list_elem_of_In, in_map.
Qed.

(** C30: Every mount of a component's main container names a volume of its pod
    template or a claim template of its StatefulSet, whatever storage,
    configuration, secrets and shared claims its spec has. *)
Theorem mounts_bound `{External} (d : Dcr) (cfg : config) (c : ComponentType) (pts : PodTemplateSpec) (container : Container)
    (st : StatefulSet)
    (Hpts : NewPodTemplateSpec d cfg c = Some pts) (Hc : NewBaseMainContainer d cfg c = Some container)
    (Hst : NewStatefulSet d cfg c = Some st) :
  bound (app (map v_Name (pt_Volumes pts)) (map pvc_Name (st_VolumeClaimTemplates st))) (c_VolumeMounts container).
Proof.
  unfold NewStatefulSet in Hst. apply bind_Some in Hst as (base & Hbase & Hst). cbn iota beta in Hst.
  apply bind_Some in Hst as (vs & Hg & Hst). apply bind_Some in Hst as (template & _ & [= <-]).
  cbn [st_VolumeClaimTemplates]. rewrite map_map.
  unfold NewPodTemplateSpec in Hpts. rewrite Hbase in Hpts. cbn [mbind option_bind] in Hpts.
  apply bind_Some in Hpts as (volumes & Hv & [= <-]).
  unfold NewBaseMainContainer in Hc.
  assert (Hspec : match c with ComponentOther _ => Some emptyBase | _ => base_of d c end = Some base)
    by (destruct c; first [exact Hbase | discriminate Hbase]).
  rewrite Hspec in Hc. cbn [mbind option_bind] in Hc. destruct (getCommand c) as [cmd args].
  apply bind_Some in Hc as (envs & _ & Hc). apply bind_Some in Hc as (mounts & Hm & Hc).
  apply bind_Some in Hc as (pp & _ & Hc). apply bind_Some in Hc as (probe & _ & [= <-]). cbn.
  unfold main_container_mounts in Hm. cbn in Hm.
  destruct (buildVolumeMounts base _ cfg c) as [storage|] eqn:Hb; [|done]. injection Hm as <-.
  pose proof (bound_storage _ _ _ _ _ _ _ Hv Hb Hg) as Hs. cbn [appendPodInfoVolumesVolumeMounts fst] in Hs.
  repeat apply bound_weaken_r;
    [eapply bound_weaken; [|exact Hs]
    |eapply bound_weaken; [|apply (bound_config (bs_ConfigMapInfo base) c)]
    |eapply bound_weaken; [|apply (bound_secrets base c)]
    |eapply bound_weaken; [|apply (bound_kerberos (KerberosInfo_ (dcr_Spec d)))]
    |eapply bound_weaken; [|apply (bound_auth (AuthSecret (dcr_Spec d)))]
    |eapply bound_weaken; [|apply (bound_shared (SharedPersistentVolumeClaims (dcr_Spec d)) c)]];
    clear; cbn; rewrite !map_app; intros x; rewrite !elem_of_app; tauto.
Qed.

(** ** The environment *)

(** The variable that a container sees: the last with the name. *)
Definition effective (n : string) (envs : list EnvVar) : option EnvVar :=
  last (List.filter (fun e => bool_decide (ev_Name e = n)) envs).

Lemma effective_app n l1 l2 :
  effective n (app l1 l2) = match effective n l2 with Some e => Some e | None => effective n l1 end.
Proof. unfold effective. by rewrite List.filter_app, last_app. Qed.

Lemma effective_none n l : effective n l = None <-> n ∉ map ev_Name l.
Proof.
  unfold effective. rewrite last_None. split.
  - intros Hf Hin. apply list_elem_of_In, in_map_iff in Hin as (e & <- & Hin).
    assert (He : In e []); [|done]. rewrite <- Hf. apply List.filter_In. split; [done|]. by apply bool_decide_eq_true.
  - intros Hn. destruct (List.filter _ l) as [|e l'] eqn:Hf; [done|]. exfalso. apply Hn.
    assert (Hin : In e (e :: l')) by by left. rewrite <- Hf in Hin.
    apply List.filter_In in Hin as [Hin <-%bool_decide_eq_true]. by apply list_elem_of_In, in_map.
Qed.

Lemma ArrayContains_spec {A} `{EqDecision A} (l : list A) x : ArrayContains l x = true <-> x ∈ l.
Proof.
  unfold ArrayContains. rewrite existsb_exists. split.
  - intros (y & Hy & ->%bool_decide_eq_true). by apply list_elem_of_In.
  - intros Hx%list_elem_of_In. exists x. split; [done | by apply bool_decide_eq_true].
Qed.

Lemma effective_filtered n dst src :
  effective n (List.filter (fun e => negb (ArrayContains (map ev_Name dst) (ev_Name e))) src) =
  if decide (n ∈ map ev_Name dst) then None else effective n src.
Proof.
  unfold effective. induction src as [|e src IH]; [by destruct (decide _)|]. cbn [List.filter].
  destruct (ArrayContains (map ev_Name dst) (ev_Name e)) eqn:Hc; cbn [negb].
  - rewrite IH. destruct (decide (n ∈ _)) as [Hn|Hn]; [done|]. rewrite bool_decide_eq_false_2; [done|].
    intros <-. by apply Hn, ArrayContains_spec.
  - cbn [List.filter]. destruct (bool_decide_reflect (ev_Name e = n)) as [<-|Hne].
    + assert (Hn : ev_Name e ∉ map ev_Name dst) by (rewrite <- ArrayContains_spec; by rewrite Hc).
      rewrite decide_False in IH |- * by exact Hn.
      rewrite !last_cons. by rewrite IH.
    + exact IH.
Qed.

(** Merging makes the second list override the first. *)
Lemma effective_merge n src dst :
  effective n (mergeEnvs src dst) = match effective n dst with Some e => Some e | None => effective n src end.
Proof.
  destruct dst as [|e dst]; [done|]. destruct src as [|s src]; [cbn; by destruct (effective n _)|].
  unfold mergeEnvs. rewrite effective_app, effective_filtered.
  destruct (decide (n ∈ _)) as [Hn|Hn].
  - destruct (effective n (e :: dst)) eqn:He; [done|]. by apply effective_none in He.
  - apply effective_none in Hn. rewrite Hn. by destruct (effective n (s :: src)).
Qed.

(** What a component's own switches add. *)
Definition component_flags (d : Dcr) (base : BaseSpec) (c : ComponentType) : list EnvVar :=
  app (if skip_init d c then [env_var "SKIP_CHECK_ULIMIT" "true"] else [])
      (if resolves_cpu d c then [env_var "BE_CPU_LIMIT" (cpu_limit (bs_Resources base))] else []).

(** The environment of a main container is layered: the variables that the
    operator adds last hide those of the component's switches, these hide the
    user's, and the user's hide the operator's defaults, Kerberos included. *)
Theorem environment_layers (d : Dcr) (cfg : config) (c : ComponentType) (base : BaseSpec) (container : Container)
    (name : string) (ports : list ContainerPort) (own : list EnvVar) (n : string)
    (Hbase : base_of d c = Some base) (Hc : NewBaseMainContainer d cfg c = Some container) :
  exists kerberos, buildKerberosEnv (KerberosInfo_ (dcr_Spec d)) cfg (component_string c) = Some kerberos /\
  effective n (c_Env (finish_container container name ports own)) =
    match effective n own, effective n (component_flags d base c), effective n (bs_EnvVars base) with
    | Some e, _, _ | None, Some e, _ | None, None, Some e => Some e
    | None, None, None => effective n (app (buildBaseEnvs d) kerberos)
    end.
Proof.
  unfold NewBaseMainContainer in Hc.
  assert (Hspec : match c with ComponentOther _ => Some emptyBase | _ => base_of d c end = Some base)
    by (destruct c; first [exact Hbase | discriminate Hbase]).
  rewrite Hspec in Hc. cbn [mbind option_bind] in Hc. destruct (getCommand c) as [cmd args].
  apply bind_Some in Hc as (envs & He & Hc). apply bind_Some in Hc as (mounts & _ & Hc).
  apply bind_Some in Hc as (pp & _ & Hc). apply bind_Some in Hc as (probe & _ & [= <-]).
  unfold main_container_envs in He. apply bind_Some in He as (kerberos & Hk & [= <-]).
  exists kerberos. split; [exact Hk|]. unfold finish_container. cbn [c_Env update_field].
  set (merged := mergeEnvs _ _).
  replace (if resolves_cpu d c then _ else _) with (app merged (component_flags d base c))
    by (unfold component_flags; destruct (skip_init d c), (resolves_cpu d c); cbn; by rewrite <- ?app_assoc, ?app_nil_r).
  rewrite !effective_app. destruct (effective n own); [done|]. destruct (effective n (component_flags d base c)); [done|].
  unfold merged. by rewrite effective_merge, effective_app.
Qed.

(** ** Probes *)

(** A positive value of the policy, or else the default. *)
Definition or_default (policy : option ReadinessProbePolicy) (field : ReadinessProbePolicy -> Z) (d : Z) : Z :=
  match policy with Some p => if 0 <? field p then field p else d | None => d end.

(** The timing of a readiness probe; a probe without a timeout has the one of Kubernetes. *)
Definition timed (policy : option ReadinessProbePolicy) (p : Probe) : Prop :=
  pr_PeriodSeconds p = or_default policy rp_PeriodSeconds 5 /\
  pr_FailureThreshold p = or_default policy rp_FailureThreshold 3 /\
  pr_TimeoutSeconds p = or_default policy rp_TimeoutSeconds 0 /\ pr_InitialDelaySeconds p = 0.

Lemma with_policy_timed policy h :
  timed policy (with_policy policy (mkProbe h 0 0 5 3)) /\ pr_Handler (with_policy policy (mkProbe h 0 0 5 3)) = h.
Proof.
  destruct policy as [[t f q]|]; [|repeat split]. unfold with_policy, applyReadinessProbePolicy, timed, or_default.
  cbn. destruct (0 <? q), (0 <? f), (0 <? t); repeat split.
Qed.

(** A call of curl on the path, with the scheme and the port. *)
Definition curls (scheme path : string) (port : Z) (h : ProbeHandler) : Prop :=
  exists options host, h = ExecAction ["bash"; "-c"; options +:+ " " +:+ scheme +:+ "://" +:+ host +:+ ":" +:+ Itoa port +:+ path].

(** How readiness is asked for: by curl when the pods go by their names or TLS
    is on, over https exactly with TLS; otherwise by the kubelet. *)
Definition readiness_handler (mode tls path : string) (port : Z) (h : ProbeHandler) : Prop :=
  if decide (tls = "true") then curls "https" path port h
  else if decide (mode = START_MODEL_FQDN) then curls "http" path port h
  else h = HTTPGetAction path port.

Lemma curls_intro scheme path port options host l cmd :
  cmd = options +:+ l +:+ Itoa port +:+ path -> l = " " +:+ scheme +:+ "://" +:+ host +:+ ":" ->
  curls scheme path port (ExecAction ["bash"; "-c"; cmd]).
Proof. intros -> ->. exists options, host. by rewrite !app_assoc_str. Qed.

Lemma readiness_of_spec c cfg port path policy p :
  c ∈ [Component_FE; Component_BE; Component_CN] -> path <> "" ->
  readiness_of c cfg port path [] HttpGet policy = Some p ->
  exists mode tls, GetStartMode cfg = Some mode /\ GetString cfg ENABLE_TLS_KEY = Some tls /\
    timed policy p /\ readiness_handler mode tls path port (pr_Handler p).
Proof.
  intros Hc Hpath Hp. unfold readiness_of in Hp. apply bind_Some in Hp as (tls & Htls & Hp).
  unfold readinessProbe in Hp. rewrite (proj2 (with_policy_timed policy _)) in Hp. cbn [getProbe] in Hp.
  unfold getHttpProbe in Hp. rewrite decide_True in Hp by done. apply bind_Some in Hp as (mode & Hmode & Hp).
  exists mode, tls. split; [done|]. split; [done|]. unfold readiness_handler.
  destruct (decide (mode = START_MODEL_FQDN /\ _)) as [[Hm _]|Hm].
  - apply bind_Some in Hp as (q & Hq & [= <-]). unfold buildFQDNReadinessExecProbe in Hq.
    destruct (decide (tls = "true")) as [Ht|Ht].
    + apply bind_Some in Hq as (certs & _ & <-%Some_inj). unfold curl_probe.
      rewrite (proj2 (with_policy_timed policy _)). split; [apply with_policy_timed|].
      eapply (curls_intro "https" _ _ _ "$host" " https://$host:"); [|done]. rewrite <- (app_assoc_str _ certs). reflexivity.
    + apply Some_inj in Hq as <-. rewrite decide_True by done. unfold curl_probe.
      rewrite (proj2 (with_policy_timed policy _)). split; [apply with_policy_timed|].
      eapply (curls_intro "http" _ _ _ "$host" " http://$host:"); [|done]. reflexivity.
  - assert (mode <> START_MODEL_FQDN) by (intros ?; by apply Hm).
    destruct (decide (tls = "true")) as [Ht|Ht].
    + apply bind_Some in Hp as (q & Hq & [= <-]). apply bind_Some in Hq as (certs & _ & <-%Some_inj). unfold curl_probe.
      rewrite (proj2 (with_policy_timed policy _)). split; [apply with_policy_timed|].
      eapply (curls_intro "https" _ _ _ "localhost" " https://localhost:"); [|done]. rewrite <- (app_assoc_str _ certs). reflexivity.
    + injection Hp as <-. rewrite decide_False by done.
      rewrite (proj2 (with_policy_timed policy _)). split; [apply with_policy_timed | done].
Qed.

(** The port that answers over HTTP. *)
Definition http_key (c : ComponentType) : string :=
  match c with Component_FE => HTTP_PORT | _ => WEBSERVER_PORT end.

(** The probes of FE, BE and compute nodes: the start may take six minutes, or
    up to what the spec asks for beyond that; the liveness probe has a positive
    timeout; readiness has the timing of the spec's policy however it is asked
    for, over HTTP by the kubelet, by name with curl in FQDN mode, and over
    https with the client's certificates exactly when TLS is on. *)
Theorem probes_of_component (d : Dcr) (cfg : config) (c : ComponentType) (base : BaseSpec) (container : Container)
    (Hc : c ∈ [Component_FE; Component_BE; Component_CN]) (Hbase : base_of d c = Some base)
    (Hcontainer : NewBaseMainContainer d cfg c = Some container) :
  exists startup live ready mode tls port,
    c_StartupProbe container = Some startup /\ c_LivenessProbe container = Some live /\
    c_ReadinessProbe container = Some ready /\
    Z.max 360 (bs_StartTimeout base) - 5 < pr_FailureThreshold startup * pr_PeriodSeconds startup
      <= Z.max 360 (bs_StartTimeout base) /\
    0 < pr_TimeoutSeconds live /\
    GetStartMode cfg = Some mode /\ GetString cfg ENABLE_TLS_KEY = Some tls /\ GetPort cfg (http_key c) = Some port /\
    timed (bs_ReadinessProbePolicy base) ready /\ readiness_handler mode tls HEALTH_API_PATH port (pr_Handler ready).
Proof.
  unfold NewBaseMainContainer in Hcontainer.
  assert (Hspec : match c with ComponentOther _ => Some emptyBase | _ => base_of d c end = Some base)
    by (destruct c; first [exact Hbase | discriminate Hbase]).
  rewrite Hspec in Hcontainer. cbn [mbind option_bind] in Hcontainer. destruct (getCommand c) as [cmd args].
  apply bind_Some in Hcontainer as (envs & _ & Hk). apply bind_Some in Hk as (mounts & _ & Hk).
  apply bind_Some in Hk as (pp & Hpp & Hk). apply bind_Some in Hk as (ready & Hready & <-%Some_inj).
  assert (Hports : GetPort cfg (http_key c) = Some (pp_readness pp) /\ pp_path pp = HEALTH_API_PATH /\
    pp_commands pp = [] /\ pp_ready pp = HttpGet).
  { destruct c; cbn [component_probes] in Hpp; try (by repeat (apply elem_of_cons in Hc as [Hc|Hc]; [discriminate|]); apply elem_of_nil in Hc);
      apply bind_Some in Hpp as (r & Hr & Hpp); apply bind_Some in Hpp as (l & _ & <-%Some_inj); done. }
  destruct Hports as (Hport & Hpath & Hcmds & Htype). rewrite Hpath, Hcmds, Htype in Hready.
  destruct (readiness_of_spec c cfg _ HEALTH_API_PATH _ ready Hc ltac:(done) Hready) as (mode & tls & Hm & Ht & Htime & Hh).
  eexists _, _, ready, mode, tls, (pp_readness pp). cbn [c_StartupProbe c_LivenessProbe c_ReadinessProbe update_field].
  split; [reflexivity|]. split; [reflexivity|]. split; [reflexivity|]. split; [|split; [|done]].
  - unfold startupProbe. cbn [pr_FailureThreshold pr_PeriodSeconds].
    destruct (Z.ltb_spec (bs_StartTimeout base) 360); rewrite Z.quot_div_nonneg by lia;
      pose proof (Z.div_mod (Z.max 360 (bs_StartTimeout base)) 5 ltac:(done));
      pose proof (Z.mod_pos_bound (Z.max 360 (bs_StartTimeout base)) 5 ltac:(lia));
      rewrite ?Z.max_l, ?Z.max_r in * by lia; lia.
  - unfold livenessProbe. cbn [pr_TimeoutSeconds]. destruct (Z.ltb_spec (bs_LiveTimeout base) 1); lia.
Qed.

(** ** Init containers *)

(** The image of the init containers that the StatefulSet of BE is applied
    with: the user's, or that of BE itself, which also replaces the operator's
    own default image when the user names it. *)
Definition init_image (si : option SystemInitialization) (be : Container) : string :=
  match si with
  | Some s => if decide (InitImage s = "" \/ InitImage s = DEFAULT_INIT_IMAGE) then c_Image be else InitImage s
  | None => c_Image be
  end.

Lemma replaced_image name s beImage :
  let c := newBaseInitContainer name s in
  let c' := if decide (c_Image c = DEFAULT_INIT_IMAGE) then c <| c_Image := beImage |> else c in
  (c_Name c', c_Image c') =
  (name, if decide (InitImage s = "" \/ InitImage s = DEFAULT_INIT_IMAGE) then beImage else InitImage s).
Proof.
  cbv zeta. unfold newBaseInitContainer. cbn [c_Image update_field].
  destruct (decide (InitImage s = "")) as [E|E].
  - rewrite decide_True by done. rewrite decide_True by auto. done.
  - destruct (decide (InitImage s = DEFAULT_INIT_IMAGE)) as [E'|E'].
    + rewrite decide_True by auto. done.
    + rewrite decide_False by (intros [?|?]; contradiction). done.
Qed.

(** The StatefulSet of BE is applied with the default initialisation first,
    unless it is skipped, then the user's; both run with the user's image, or
    with BE's own when none is given. *)
Theorem be_init_containers (d : Dcr) (cfg : config) (be : BeSpec) (pts : PodTemplateSpec) (container : Container)
    (Hbe : BeSpec_ (dcr_Spec d) = Some be) (Hpts : NewPodTemplateSpec d cfg Component_BE = Some pts)
    (Hname : c_Name container = component_string Component_BE) :
  let si := bs_SystemInitialization (be_Base be) in
  map (fun c => (c_Name c, c_Image c))
    (pt_InitContainers (UseNewDefaultInitContainerImage (pts <| pt_Containers := [container] |>))) =
  app (if be_SkipDefaultSystemInit be then [] else [("default-init", init_image si container)])
      (match si with Some _ => [("init", init_image si container)] | None => [] end).
Proof.
  cbv zeta. unfold NewPodTemplateSpec in Hpts. cbn [base_of] in Hpts. rewrite Hbe in Hpts.
  cbn [fmap option_fmap option_map mbind option_bind] in Hpts.
  apply bind_Some in Hpts as (volumes & _ & <-%Some_inj). unfold UseNewDefaultInitContainerImage.
  cbn [pt_Containers pt_InitContainers update_field be_image skip_init]. rewrite Hbe, decide_True by (by left).
  unfold constructInitContainers. cbn [negb]. rewrite bool_decide_eq_true_2 by set_solver.
  unfold constructBeDefaultInitContainer. rewrite !map_app, !map_map.
  assert (Hnone : forall b, init_image None b = if decide ("" = "" \/ "" = DEFAULT_INIT_IMAGE) then c_Image b else "")
    by (intros b; by rewrite decide_True by (by left)).
  destruct (be_SkipDefaultSystemInit be), (bs_SystemInitialization (be_Base be)) as [s|];
    cbn [map app negb andb]; rewrite ?replaced_image; done.
Qed.

(** ** What the builder of BE writes into the spec *)

Section writes.
Context `{External}.

Definition pod_affinity (base : BaseSpec) : option PodAffinity := bs_Affinity base ≫= af_PodAffinity.

(** Building the pod of BE writes into the cluster's spec and nowhere else: a
    workload group makes the security context privileged, and the affinity
    with FE is appended to the user's pod affinity, if there is one, again at
    every build. *)
Theorem be_build_writes (d : Dcr) (cfg : config) (be : BeSpec) (Hbe : BeSpec_ (dcr_Spec d) = Some be) :
  result (fun r => exists base, r.1 = set_be_base base d /\
    base = (be_Base be) <| bs_Affinity := bs_Affinity base |> <| bs_ContainerSecurityContext := bs_ContainerSecurityContext base |> /\
    bs_ContainerSecurityContext base =
      (if be_EnableWorkloadGroup be then make_privileged (bs_ContainerSecurityContext (be_Base be))
       else bs_ContainerSecurityContext (be_Base be)) /\
    pa_Preferred <$> pod_affinity base =
      (if be_EnableFeAffinity be then (fun l => app l [fe_term]) <$> (pa_Preferred <$> pod_affinity (be_Base be))
       else pa_Preferred <$> pod_affinity (be_Base be))) (buildBEPodTemplateSpec d cfg).
Proof.
  unfold buildBEPodTemplateSpec. destruct (NewPodTemplateSpec d cfg Component_BE) as [pts|]; [|by apply spec_panic].
  cbn [assert_ok]. rewrite Hbe. cbn [deref]. destruct (be_affinity be pts) as [pts' base] eqn:Ha.
  eapply (spec_bind _ (fun _ => True)); [apply only_any|]. intros cfg' _.
  destruct (AddTerminationGracePeriodSeconds pts' cfg' _) as [pts2|]; [|by apply spec_panic]. cbn [assert_ok].
  eapply (spec_bind _ (fun _ => True)); [apply only_any|]. intros container _. apply spec_ret.
  eexists. split; [reflexivity|]. unfold be_affinity in Ha.
  destruct (be_EnableFeAffinity be); injection Ha as _ <-; unfold prefer_in_spec, pod_affinity;
    destruct (be_EnableWorkloadGroup be), (be_Base be) as [? ? ? ? ? ? ? ? ? ? ? ? ? ? [[? [pa|] ?]|]]; done.
Qed.
End writes.

(** ** Witnesses *)

(** A BE with a claim of its own, a secret, Kerberos, a shared claim and a
    workload group that wants to be near FE. *)
Definition demo_be_base : BaseSpec :=
  emptyBase <| bs_Image := "doris-be" |> <| bs_Replicas := Some 1 |>
            <| bs_PersistentVolumes := [mkDcrVolume (mkPVCSpec [] None None ∅) "/opt/apache-doris/be/storage" "data" ∅ (PVCProvisionerOther "StatefulSet")] |>
            <| bs_Secrets := [mkSecretMount "cert" "/etc/cert"] |>
            <| bs_EnvVars := [env_var "USER" "me"] |>
            <| bs_StartTimeout := 1000 |>
            <| bs_SystemInitialization := Some (mkSystemInitialization "" ["sh"] [] noResources) |>
            <| bs_Affinity := Some (mkAffinity None (Some (mkPodAffinity [] [])) None) |>.
Definition demo_be_spec : BeSpec := mkBeSpec demo_be_base true false true true.
Definition demo_be_dcr : Dcr :=
  emptyDcr <| dcr_Meta := emptyMeta <| m_Name := "c" |> <| m_Namespace := "ns" |> |>
           <| dcr_Spec := (dcr_Spec emptyDcr) <| BeSpec_ := Some demo_be_spec |>
                <| AuthSecret := "auth" |> <| KerberosInfo_ := Some (mkKerberosInfo "krb5-conf" "keytabs" "") |>
                <| SharedPersistentVolumeClaims := [mkSharedPVC "/data/shared" "shared" []] |> |>.

Section witnesses.
Local Existing Instance demo_external.

Definition demo_be_template : PodTemplateSpec := default emptyTemplate (NewPodTemplateSpec demo_be_dcr ∅ Component_BE).
Definition demo_be_container : Container := default emptyContainer (NewBaseMainContainer demo_be_dcr ∅ Component_BE).
Definition demo_be_sts : StatefulSet := default emptySts (NewStatefulSet demo_be_dcr ∅ Component_BE).

Lemma mounts_bound_witness :
  map vm_Name (c_VolumeMounts demo_be_container) = ["podinfo"; "data"; "cert"; "krb5"; "keytab"; "basic-auth"; "shared"] /\
  bound (app (map v_Name (pt_Volumes demo_be_template)) (map pvc_Name (st_VolumeClaimTemplates demo_be_sts)))
    (c_VolumeMounts demo_be_container).
Proof.
  split; [vm_compute; reflexivity|].
  apply (mounts_bound demo_be_dcr ∅ Component_BE demo_be_template demo_be_container demo_be_sts); vm_compute; reflexivity.
Defined.

Lemma environment_layers_witness :
  effective "USER" (c_Env (finish_container demo_be_container "be" [] [])) = Some (env_var "USER" "me").
Proof.
  destruct (environment_layers demo_be_dcr ∅ Component_BE demo_be_base demo_be_container "be" [] [] "USER")
    as (kerberos & Hk & E); [reflexivity | vm_compute; reflexivity|].
  rewrite E. vm_compute. reflexivity.
Defined.

Lemma probes_of_component_witness :
  exists startup, c_StartupProbe demo_be_container = Some startup /\
    995 < pr_FailureThreshold startup * pr_PeriodSeconds startup <= 1000.
Proof.
  destruct (probes_of_component demo_be_dcr ∅ Component_BE demo_be_base demo_be_container)
    as (startup & live & ready & mode & tls & port & H1 & _ & _ & H2 & _);
    [set_solver | reflexivity | vm_compute; reflexivity|].
  exists startup. split; [exact H1 | exact H2].
Defined.

Lemma be_init_containers_witness :
  map (fun c => (c_Name c, c_Image c))
    (pt_InitContainers (UseNewDefaultInitContainerImage (demo_be_template <| pt_Containers := [demo_be_container] |>))) =
  [("default-init", "doris-be"); ("init", "doris-be")].
Proof.
  exact (be_init_containers demo_be_dcr ∅ demo_be_spec demo_be_template demo_be_container eq_refl
    ltac:(vm_compute; reflexivity) ltac:(vm_compute; reflexivity)).
Defined.

Lemma be_build_writes_witness :
  match (run demo_env (buildBEPodTemplateSpec demo_be_dcr ∅) (demo_world true)).1.2 with Done _ => true | _ => false end = true /\
  result (fun r => exists base, r.1 = set_be_base base demo_be_dcr /\
    pa_Preferred <$> pod_affinity base = Some [fe_term] /\ bs_ContainerSecurityContext base = privileged)
    (buildBEPodTemplateSpec demo_be_dcr ∅).
Proof.
  split; [vm_compute; reflexivity|].
  eapply spec_weaken; [exact (be_build_writes demo_be_dcr ∅ demo_be_spec eq_refl) | done|].
  intros r (base & H1 & _ & H2 & H3). exists base. split; [exact H1|]. split; [exact H3 | exact H2].
Defined.
End witnesses.
