(* ===== verification/DdcPodProps.v ===== *)
(** The pods of a disaggregated cluster: what the builders write into the spec,
    that every mount has its volume, that a workload selects the pods of its
    own template, and that the pods of a compute group have what the graceful
    rollout relies on. *)

From Stdlib Require Import ZArith Lia Ascii.
From stdpp Require Import base list gmap strings.
From S2P Require Import Prelude GoStr KubeTypes DcrApi DdcApi Client Traces Mysql Resource External SubDefault Demo.
From S2P Require Import StorageProps PodTemplate DcrPods PodProps DdcPods.
From S2P Require Graceful ComputeGroups DisFe MetaService.

Local Open Scope string_scope.
Local Open Scope Z_scope.
Local Open Scope dop_scope.

(** ** What is written into the spec *)

(** The image of the initialisation is the default one when none is given. *)
Definition settled_init (si : option SystemInitialization) : option SystemInitialization :=
  (fun s => s <| InitImage := if decide (InitImage s <> "") then InitImage s else DEFAULT_INIT_IMAGE |>) <$> si.
Definition settled_common (cs : CommonSpec) : CommonSpec := cs <| SystemInit := settled_init (SystemInit cs) |>.
Definition settled_group (cg : ComputeGroup) : ComputeGroup :=
  privileged_group (cg <| cg_Common := settled_common (cg_Common cg) |>).

Lemma settled_init_idemp si : settled_init (settled_init si) = settled_init si.
Proof. destruct si as [[[|] ? ? ?]|]; reflexivity. Qed.

Lemma settled_common_idemp cs : settled_common (settled_common cs) = settled_common cs.
Proof. unfold settled_common. cbn. by rewrite settled_init_idemp. Qed.

Lemma settled_group_idemp cg : settled_group (settled_group cg) = settled_group cg.
Proof.
  unfold settled_group, privileged_group, settled_common. cbn.
  destruct (EnableWorkloadGroup cg) eqn:Hw; cbn; rewrite ?Hw; cbn; rewrite settled_init_idemp; [|done].
  by destruct (ContainerSecurityContext (cg_Common cg)) as [[]|].
Qed.

Lemma settled_labels cg : CommonLabels (cg_Common (settled_group cg)) = CommonLabels (cg_Common cg).
Proof. unfold settled_group, privileged_group. by destruct (EnableWorkloadGroup _). Qed.

Lemma init_settled skip c si : (constructDisaggregatedInitContainers skip c si).2 = settled_init si.
Proof. by destruct si. Qed.

(** ** Templates *)

(** What each of the builders makes: one container, with its mounts bound, and
    with the volumes and the mounts that are asked for. *)
Definition template_ok (name : string) (labels : strmap) (vs : list Volume) (ms : list VolumeMount)
    (pts : PodTemplateSpec) : Prop :=
  pt_Labels pts = labels /\ vs ⊆ pt_Volumes pts /\
  exists c, pt_Containers pts = [c] /\ c_Name c = name /\ ms ⊆ c_VolumeMounts c /\
    bound (map v_Name (pt_Volumes pts)) (c_VolumeMounts c).

Lemma change_container_one name f c cs : change_container name f [c] = Some cs -> cs = [f c] /\ c_Name c = name.
Proof. cbn. destruct (decide _); [|done]. by intros [= <-]. Qed.

(** Kerberos adds its volumes with its mounts. *)
Lemma template_ok_kerberos component confMap spec pts pts' name labels vs ms :
  AddClusterSpecForPodTemplate component confMap spec pts = Some pts' ->
  template_ok name labels vs ms pts -> template_ok name labels vs ms pts'.
Proof.
  intros Ha (Hl & Hv & c & Hc & Hn & Hm & Hb). unfold AddClusterSpecForPodTemplate in Ha.
  assert (Hsame : Some pts = Some pts' -> template_ok name labels vs ms pts').
  { intros [= <-]. split; [exact Hl|]. split; [exact Hv|]. by exists c. }
  assert (Hadd : forall main v k envs, bound (map v_Name v) k ->
    (containers ← change_container main
       (fun c => c <| c_Env := app (c_Env c) envs |> <| c_VolumeMounts := app (c_VolumeMounts c) k |>) (pt_Containers pts);
     Some (pts <| pt_Containers := containers |> <| pt_Volumes := app (pt_Volumes pts) v |>)) = Some pts' ->
    template_ok name labels vs ms pts').
  { intros main v k envs Hk. rewrite Hc. intros (cs & Hch & [= <-])%bind_Some.
    apply change_container_one in Hch as [-> _]. split; [exact Hl|]. cbn. split; [set_solver|].
    eexists. split; [reflexivity|]. cbn. split; [exact Hn|]. split; [set_solver|]. rewrite map_app. by apply bound_app. }
  destruct component; try (by apply Hsame);
    (destruct (Kerberos spec) as [k|]; [|by apply Hsame]);
    apply bind_Some in Ha as (envs & _ & Ha); pose proof (bound_kerberos (Some k)) as Hk;
    destruct (getKerberosVolumeAndVolumeMount (Some k)) as [v m]; eapply Hadd; by try eassumption.
Qed.

Lemma bound_built `{External} confMap ty cs vs vms vcts :
  BuildVolumesVolumeMountsAndPVCs confMap ty cs = Some (vs, vms, vcts) -> bound (map v_Name vs) vms.
Proof.
  intros [Hm _]%storage_built.
  apply Forall_forall. intros m Hin. rewrite <- Hm. by apply list_elem_of_fmap_2.
Qed.

(** ** The builders *)

Section builders.
Context `{External}.

(** The mounts that every main container starts with. *)
Lemma bound_one vs name path : name ∈ vs -> bound vs [mkVolumeMount name path].
Proof. intros. by repeat constructor. Qed.

Lemma bound_configmaps cms : let vm := BuildDefaultConfigMapVolumesVolumeMounts cms in bound (map v_Name vm.1) vm.2.
Proof. by apply bound_map. Qed.

Lemma bound_common_secrets cs :
  let vm := GetMultiSecretVolumeAndVolumeMountWithCommonSpec cs in bound (map v_Name vm.1) vm.2.
Proof. by apply bound_map. Qed.

(** The value of an assertion, named by the pattern. *)
Tactic Notation "asserted" simple_intropattern(p) :=
  lazymatch goal with
  | |- spec _ _ (assert_ok ?o _) => let E := fresh "E" in destruct o as [p|] eqn:E; cbn [assert_ok]; [|by apply spec_panic]
  end.

Lemma probed_container c cs ty :
  c_Name (BuildDisaggregatedProbe c cs ty) = c_Name c /\ c_VolumeMounts (BuildDisaggregatedProbe c cs ty) = c_VolumeMounts c.
Proof. by unfold BuildDisaggregatedProbe. Qed.

Lemma common_container cs ty name ports envs :
  let c := disaggregated_container cs ty name ports envs in
  c_Name c = name /\ c_VolumeMounts c = [mkVolumeMount POD_INFO_VOLUME_NAME POD_INFO_PATH].
Proof. unfold disaggregated_container. by destruct (GetDisaggregatedCommand ty). Qed.

(** Adding mounts to a container, and volumes to a template. *)
Lemma add_mounts_name ms c : c_Name (add_mounts ms c) = c_Name c.
Proof. done. Qed.
Lemma mounts_added ms c : c_VolumeMounts (add_mounts ms c) = app (c_VolumeMounts c) ms.
Proof. done. Qed.

(** The container of a compute group, and its mounts. *)
Lemma NewCGContainer_result ddc cvs cg :
  result (fun r => r.1 = privileged_group cg /\ c_Name r.2 = Graceful.beMainContainerName /\
    exists vs vms vcts, BuildVolumesVolumeMountsAndPVCs cvs DisaggregatedBE (cg_Common cg) = Some (vs, vms, vcts) /\
    c_VolumeMounts r.2 = app [mkVolumeMount POD_INFO_VOLUME_NAME POD_INFO_PATH] (app vms
      (app (BuildDefaultConfigMapVolumesVolumeMounts (ConfigMaps (cg_Common cg))).2
      (app [mkVolumeMount gracefulRuntimeVolumeName Graceful.gracefulRuntimeMountPath]
      (app (auth_mounts (AuthSecret (ddc_Spec ddc)))
           (GetMultiSecretVolumeAndVolumeMountWithCommonSpec (cg_Common cg)).2))))) (NewCGContainer ddc cvs cg).
Proof.
  assert (Hsame : forall cs : CommonSpec, cs = cg_Common (privileged_group cg) ->
    BuildVolumesVolumeMountsAndPVCs cvs DisaggregatedBE cs = BuildVolumesVolumeMountsAndPVCs cvs DisaggregatedBE (cg_Common cg) /\
    ConfigMaps cs = ConfigMaps (cg_Common cg) /\
    GetMultiSecretVolumeAndVolumeMountWithCommonSpec cs = GetMultiSecretVolumeAndVolumeMountWithCommonSpec (cg_Common cg)).
  { intros cs ->. unfold privileged_group. by destruct (EnableWorkloadGroup cg). }
  unfold NewCGContainer. cbv zeta. asserted ports.
  eapply (spec_bind _ (fun _ => True)); [apply only_any|]. intros envs _.
  destruct (Hsame _ eq_refl) as (-> & -> & ->). asserted [[vs vms] vcts]. apply spec_ret.
  split; [done|]. cbn [snd]. rewrite !add_mounts_name. split; [apply common_container|].
  exists vs, vms, vcts. split; [done|]. rewrite !mounts_added, (proj2 (common_container _ _ _ _ _)).
  by rewrite <- !app_assoc.
Qed.

Lemma NewFEContainer_result ddc cvs :
  let cs := fe_Common (Fe (ddc_Spec ddc)) in
  result (fun c => c_Name c = FE_MAIN_CONTAINER_NAME /\
    exists vs vms vcts, BuildVolumesVolumeMountsAndPVCs cvs DisaggregatedFE cs = Some (vs, vms, vcts) /\
    c_VolumeMounts c = app [mkVolumeMount POD_INFO_VOLUME_NAME POD_INFO_PATH] (app vms
      (app (BuildDefaultConfigMapVolumesVolumeMounts (ConfigMaps cs)).2
      (app (auth_mounts (AuthSecret (ddc_Spec ddc)))
           (GetMultiSecretVolumeAndVolumeMountWithCommonSpec cs).2)))) (NewFEContainer ddc cvs).
Proof.
  unfold NewFEContainer. cbv zeta. asserted ports.
  eapply (spec_bind _ (fun _ => True)); [apply only_any|]. intros envs _.
  asserted [[vs vms] vcts]. apply spec_ret. rewrite !add_mounts_name. split; [apply common_container|].
  exists vs, vms, vcts. split; [done|]. rewrite !mounts_added, (proj2 (common_container _ _ _ _ _)).
  by rewrite <- !app_assoc.
Qed.

Lemma NewMSContainer_result ddc cvs :
  let cs := MetaServiceSpec (ddc_Spec ddc) in
  result (fun c => c_Name c = MS_MAIN_CONTAINER_NAME /\
    exists vs vms vcts, BuildVolumesVolumeMountsAndPVCs cvs DisaggregatedMS cs = Some (vs, vms, vcts) /\
    c_VolumeMounts c = app [mkVolumeMount POD_INFO_VOLUME_NAME POD_INFO_PATH] (app vms
      (app (BuildDefaultConfigMapVolumesVolumeMounts (ConfigMaps cs)).2
           (GetMultiSecretVolumeAndVolumeMountWithCommonSpec cs).2))) (NewMSContainer ddc cvs).
Proof.
  unfold NewMSContainer. cbv zeta. asserted ports.
  eapply (spec_bind _ (fun _ => True)); [apply only_any|]. intros envs _.
  asserted [[vs vms] vcts]. apply spec_ret. rewrite !add_mounts_name. split; [apply common_container|].
  exists vs, vms, vcts. split; [done|]. rewrite !mounts_added, (proj2 (common_container _ _ _ _ _)).
  by rewrite <- !app_assoc.
Qed.

(** The fields of a template that the builders go on from. *)
Definition base_template (labels : strmap) (pts : PodTemplateSpec) : Prop :=
  pt_Labels pts = labels /\ pt_Volumes pts = [podinfo_volume] /\ pt_Containers pts = [].

Lemma common_template skip cs ty :
  base_template (CommonLabels cs) (NewPodTemplateSpecWithCommonSpec skip cs ty).1 /\
  (NewPodTemplateSpecWithCommonSpec skip cs ty).2 = settled_common cs.
Proof.
  unfold NewPodTemplateSpecWithCommonSpec, settled_common. rewrite <- (init_settled skip ty).
  by destruct (constructDisaggregatedInitContainers skip ty (SystemInit cs)).
Qed.

Lemma grace_template labels pts cvs d pts' :
  AddTerminationGracePeriodSeconds pts cvs d = Some pts' -> base_template labels pts -> base_template labels pts'.
Proof.
  unfold AddTerminationGracePeriodSeconds. intros (n & _ & [= <-])%bind_Some. by destruct (0 <? _).
Qed.

(** A template on its way: its labels, its one container and its volumes. *)
Definition growing (labels : strmap) (c : Container) (vs : list Volume) (pts : PodTemplateSpec) : Prop :=
  pt_Labels pts = labels /\ pt_Containers pts = [c] /\ pt_Volumes pts = vs.

Lemma growing_start labels labels' pts c : base_template labels pts ->
  growing labels' c [podinfo_volume] (add_container c (pts <| pt_Labels := labels' |>)).
Proof. intros (Hl & Hv & Hc). unfold growing. cbn. by rewrite Hv, Hc. Qed.

Lemma growing_add labels c vs vs' pts : growing labels c vs pts -> growing labels c (app vs vs') (add_volumes vs' pts).
Proof. intros (Hl & Hc & Hv). unfold growing. cbn. by rewrite Hv. Qed.

Lemma growing_affinity labels c vs a pts : growing labels c vs pts -> growing labels c vs (pts <| pt_Affinity := a |>).
Proof. done. Qed.

Lemma growing_ok name labels c vs vs' ms pts : growing labels c vs pts -> c_Name c = name -> vs' ⊆ vs ->
  ms ⊆ c_VolumeMounts c -> bound (map v_Name vs) (c_VolumeMounts c) -> template_ok name labels vs' ms pts.
Proof. intros (Hl & Hc & Hv) Hn Hsub Hm Hb. unfold template_ok. rewrite Hv. eauto 10. Qed.

(** At most one element, that is one of the pieces. *)
Ltac piece :=
  first [ apply list_subseteq_nil
        | intros x ->%list_elem_of_singleton; rewrite ?elem_of_app, ?list_elem_of_singleton; tauto ].

(** Each piece of the mounts has its piece of the volumes. *)
Ltac bound_pieces Hb :=
  repeat match goal with |- bound _ (app _ _) => apply bound_weaken_r end;
  first [ apply bound_one
        | eapply bound_weaken;
          [|first [ exact (bound_built _ _ _ _ _ _ Hb) | apply bound_configmaps | apply bound_auth
                  | apply bound_common_secrets ]] ];
  try intros x; rewrite ?elem_of_app; cbn [map v_Name podinfo_volume]; rewrite ?list_elem_of_singleton; tauto.

(** The template of a compute group. *)
Lemma cg_built ddc selector cvs cg :
  result (fun r => r.1 = settled_group cg /\
    template_ok Graceful.beMainContainerName (AddLabel selector (CommonLabels (cg_Common cg)))
      [mkVolume gracefulRuntimeVolumeName VolEmptyDir]
      [mkVolumeMount gracefulRuntimeVolumeName Graceful.gracefulRuntimeMountPath] r.2)
    (cg_NewPodTemplateSpec ddc selector cvs cg).
Proof.
  unfold cg_NewPodTemplateSpec.
  destruct (common_template (SkipDefaultSystemInit cg) (cg_Common cg) DisaggregatedBE) as [Hbase Hcs].
  destruct (NewPodTemplateSpecWithCommonSpec _ (cg_Common cg) DisaggregatedBE) as [pts0 cs]. cbn [fst snd] in Hbase, Hcs.
  subst cs. asserted pts1. eapply grace_template in Hbase; [|exact E]. rewrite (proj1 Hbase).
  eapply spec_bind; [apply NewCGContainer_result|].
  intros [cg' c] (Hcg & Hn & vs & vms & vcts & Hb & Hm). cbn [fst snd] in *. cbn [cg_Common update_field] in Hb, Hm.
  rewrite Hb. cbn [assert_ok]. asserted pts2. asserted affinity. apply spec_ret. split; [exact Hcg|].
  cbn [snd]. eapply (template_ok_kerberos _ _ _ _ pts2) in E0; [exact E0|].
  eapply growing_ok; [repeat first [apply growing_affinity | eapply growing_add | by eapply growing_start]
                     | exact Hn | rewrite ?Hm; piece..|].
  rewrite Hm, !map_app.
  bound_pieces Hb.
Qed.

Lemma fe_common_set cs ddc : fe_Common (Fe (ddc_Spec (set_fe_common cs ddc))) = cs.
Proof. done. Qed.
Lemma fe_auth_set cs ddc : AuthSecret (ddc_Spec (set_fe_common cs ddc)) = AuthSecret (ddc_Spec ddc).
Proof. done. Qed.
Lemma fe_labels_set cs ddc :
  DisFe.getFEPodLabels (set_fe_common (settled_common cs) ddc) =
  AddLabel (DisFe.newFEPodsSelector (ddc_Name ddc)) (CommonLabels cs).
Proof. done. Qed.
Lemma ms_common_set cs ddc : MetaServiceSpec (ddc_Spec (set_ms_common cs ddc)) = cs.
Proof. done. Qed.

(** The template of FE. *)
Lemma fe_built ddc cvs :
  let cs := fe_Common (Fe (ddc_Spec ddc)) in
  result (fun r => r.1 = set_fe_common (settled_common cs) ddc /\
    template_ok FE_MAIN_CONTAINER_NAME (DisFe.getFEPodLabels ddc) [] [] r.2) (fe_NewPodTemplateSpec ddc cvs).
Proof.
  cbv zeta. unfold fe_NewPodTemplateSpec. set (cs := fe_Common (Fe (ddc_Spec ddc))).
  destruct (common_template false cs DisaggregatedFE) as [Hbase Hcs].
  destruct (NewPodTemplateSpecWithCommonSpec _ cs DisaggregatedFE) as [pts0 cs']. cbn [fst snd] in Hbase, Hcs.
  subst cs'. asserted pts1. eapply grace_template in Hbase; [|exact E].
  eapply spec_bind; [apply NewFEContainer_result|].
  intros c (Hn & vs & vms & vcts & Hb & Hm).
  rewrite fe_common_set in Hb, Hm. rewrite fe_auth_set in Hm |- *. rewrite fe_labels_set.
  rewrite Hb. cbn [assert_ok].
  asserted affinity. asserted pts2. apply spec_ret. split; [done|].
  cbn [snd]. eapply template_ok_kerberos; [exact E1|].
  eapply growing_ok; [repeat first [apply growing_affinity | eapply growing_add | by eapply growing_start]
                     | exact Hn | rewrite ?Hm; piece..|].
  rewrite Hm, !map_app. bound_pieces Hb.
Qed.

(** The template of the meta service. *)
Lemma ms_built ddc selector cvs :
  let cs := MetaServiceSpec (ddc_Spec ddc) in
  result (fun r => r.1 = set_ms_common (settled_common cs) ddc /\
    template_ok MS_MAIN_CONTAINER_NAME (AddLabel selector (CommonLabels cs)) [] [] r.2)
    (ms_NewPodTemplateSpec ddc selector cvs).
Proof.
  cbv zeta. unfold ms_NewPodTemplateSpec. set (cs := MetaServiceSpec (ddc_Spec ddc)).
  destruct (common_template false cs DisaggregatedMS) as [Hbase Hcs].
  destruct (NewPodTemplateSpecWithCommonSpec _ cs DisaggregatedMS) as [pts0 cs']. cbn [fst snd] in Hbase, Hcs.
  subst cs'. rewrite (proj1 Hbase). eapply spec_bind; [apply NewMSContainer_result|].
  intros c (Hn & vs & vms & vcts & Hb & Hm).
  rewrite ms_common_set in Hb, Hm.
  rewrite Hb. cbn [assert_ok].
  asserted affinity. apply spec_ret. split; [done|]. cbn [snd].
  eapply growing_ok; [repeat first [apply growing_affinity | eapply growing_add | by eapply growing_start]
                     | exact Hn | rewrite ?Hm; piece..|].
  rewrite Hm, !map_app. bound_pieces Hb.
Qed.

(** C31: Every mount of every container of the pods of a disaggregated cluster,
    Kerberos' included, names a volume of its pod: for the compute groups, FE
    and the meta service, whatever storage, configuration, secrets and
    authentication the spec has. *)
Theorem disaggregated_mounts_bound ddc cvs selector cg :
  let mounted pts := Forall (fun c => bound (map v_Name (pt_Volumes pts)) (c_VolumeMounts c)) (pt_Containers pts) in
  result (fun r => mounted r.2) (cg_NewPodTemplateSpec ddc selector cvs cg) /\
  result (fun r => mounted r.2) (fe_NewPodTemplateSpec ddc cvs) /\
  result (fun r => mounted r.2) (ms_NewPodTemplateSpec ddc selector cvs).
Proof.
  cbv zeta.
  assert (Hok : forall name labels vs ms pts, template_ok name labels vs ms pts ->
    Forall (fun c => bound (map v_Name (pt_Volumes pts)) (c_VolumeMounts c)) (pt_Containers pts)).
  { intros name labels vs ms pts (_ & _ & c & -> & _ & _ & Hb). by constructor. }
  split; [|split].
  - eapply spec_weaken; [apply cg_built | done|]. intros r [_ Hr]. exact (Hok _ _ _ _ _ Hr).
  - eapply spec_weaken; [apply fe_built | done|]. intros r [_ Hr]. exact (Hok _ _ _ _ _ Hr).
  - eapply spec_weaken; [apply ms_built | done|]. intros r [_ Hr]. exact (Hok _ _ _ _ _ Hr).
Qed.

(** C32: A StatefulSet selects the pods of its own template.  For a compute
    group and the meta service the selector is the labels of the template; that
    of FE is a part of them exactly when the user's labels leave the labels of
    the selector as they are. *)
Theorem workload_selects_its_pods ddc cvs cg :
  let selector st := ls_MatchLabels <$> st_Selector st in
  result (fun r => selector r.2 = Some (pt_Labels (st_Template r.2)))
    (ComputeGroups.NewStatefulset cg_NewPodTemplateSpec ddc cg cvs) /\
  result (fun r => selector r.2 = Some (pt_Labels (st_Template r.2)))
    (MetaService.newStatefulset ms_NewPodTemplateSpec ddc cvs) /\
  result (fun r => exists sel, selector r.2 = Some sel /\
      (sel ⊆ pt_Labels (st_Template r.2) <->
       forall k v w, sel !! k = Some v -> CommonLabels (fe_Common (Fe (ddc_Spec ddc))) !! k = Some w -> w = v))
    (DisFe.NewStatefulset fe_NewPodTemplateSpec ddc cvs).
Proof.
  cbv zeta. split; [|split].
  - unfold ComputeGroups.NewStatefulset. asserted [[vs vms] vcts].
    eapply spec_bind; [apply cg_built|]. intros [cg' pts] (Hcg & Hl & _). cbn [fst snd] in Hcg, Hl.
    apply spec_ret. rewrite Hcg. cbn [snd st_Selector st_Template update_field fmap option_fmap option_map ls_MatchLabels].
    by rewrite settled_labels, Hl.
  - unfold MetaService.newStatefulset. asserted [[vs vms] vcts].
    eapply spec_bind; [apply ms_built|]. intros [ddc' pts] (_ & Hl & _). apply spec_ret. cbn in *. f_equal. symmetry. exact Hl.
  - unfold DisFe.NewStatefulset. asserted [[vs vms] vcts].
    eapply spec_bind; [apply fe_built|]. intros [ddc' pts] (Hd & Hl & _). apply spec_ret. cbn in *. subst ddc'.
    eexists. split; [reflexivity|]. rewrite Hl. unfold DisFe.getFEPodLabels, AddLabel.
    set (sel := DisFe.newFEPodsSelector (ddc_Name ddc)). set (user := CommonLabels _).
    change (DisFe.newFEPodsSelector _) with sel. rewrite map_subseteq_spec. split.
    + intros Hsub k v w Hk Hw. specialize (Hsub k v Hk). rewrite (lookup_union_Some_l _ _ _ _ Hw) in Hsub. by injection Hsub.
    + intros Hu k v Hk. destruct (user !! k) as [w|] eqn:Hw.
      * rewrite (lookup_union_Some_l _ _ _ _ Hw). f_equal. by eapply Hu.
      * by rewrite lookup_union_r.
Qed.

(** C28: Building the pod of a compute group writes into the group's spec only
    two fields: the image of its initialisation, if it has one, which becomes the
    default when it was empty, and, when workload groups are enabled, the flag of
    its security context that makes it privileged.  Building again, with any
    configuration and cluster, leaves the group as it is. *)
Theorem group_build_settles ddc selector cvs cg :
  result (fun r =>
    r.1 = cg <| cg_Common := (cg_Common cg)
      <| SystemInit := (fun si => si <| InitImage :=
           if decide (InitImage si <> "") then InitImage si else DEFAULT_INIT_IMAGE |>) <$> SystemInit (cg_Common cg) |>
      <| ContainerSecurityContext :=
           let sc := ContainerSecurityContext (cg_Common cg) in
           if EnableWorkloadGroup cg
           then Some ((default (mkSecurityContext None "") sc) <| sc_Privileged := Some true |>) else sc |> |> /\
    forall ddc' selector' cvs', result (fun again => again.1 = r.1) (cg_NewPodTemplateSpec ddc' selector' cvs' r.1))
    (cg_NewPodTemplateSpec ddc selector cvs cg).
Proof.
  eapply spec_weaken; [apply cg_built | done|]. intros r [-> _]. split.
  - unfold settled_group, privileged_group. cbn. by destruct (EnableWorkloadGroup cg).
  - intros ddc' selector' cvs'. eapply spec_weaken; [apply cg_built | done|].
    intros again [-> _]. apply settled_group_idemp.
Qed.

(** C33: The pods of a compute group have what the graceful rollout works with:
    the one container has the name that the commands are sent to, and it mounts
    a volume of its own, empty when the pod starts, at a directory that the
    sentinel of a terminating backend lies in. *)
Theorem graceful_sentinel_mounted ddc selector cvs cg :
  result (fun r => exists c v m, pt_Containers r.2 = [c] /\ c_Name c = Graceful.beMainContainerName /\
    v ∈ pt_Volumes r.2 /\ v_Source v = VolEmptyDir /\ m ∈ c_VolumeMounts c /\ vm_Name m = v_Name v /\
    HasPrefix Graceful.beTerminatingSentinelPath (vm_MountPath m +:+ "/") = true)
    (cg_NewPodTemplateSpec ddc selector cvs cg).
Proof.
  eapply spec_weaken; [apply cg_built | done|]. intros r (_ & _ & Hv & c & Hc & Hn & Hm & _).
  eexists c, _, _. split; [exact Hc|]. split; [exact Hn|]. split; [apply Hv; by left|]. split; [done|].
  split; [apply Hm; by left|]. split; [done|]. by vm_compute.
Qed.
End builders.

(** ** The builders on a cluster *)

Section runs.
Local Existing Instance demo_external.

(** What a run returns, without the calls. *)
Definition returned {A B} (f : A -> B) (p : op A) : option B :=
  match (run demo_env p (demo_world true)).1.2 with Done a => Some (f a) | _ => None end.

Definition demo_workload_group : ComputeGroup :=
  demo_cg <| EnableWorkloadGroup := true |>
          <| cg_Common := emptyCommon <| Image := "doris-be" |> <| SystemInit := Some (mkSystemInitialization "" ["sh"] [] noResources) |> |>.

Example demo_cg_pod :
  returned (fun r => (map c_Name (pt_InitContainers r.2), map c_Name (pt_Containers r.2), map v_Name (pt_Volumes r.2)))
    (cg_NewPodTemplateSpec demo_ddc (ComputeGroups.newCGPodsSelector "c" "g") ∅ demo_workload_group) =
  Some (["default-init"; "init"], ["compute"], ["podinfo"; "be-log"; "be-storage0"; "doris-graceful-runtime"]).
Proof. vm_compute. reflexivity. Qed.

Example demo_fe_pod :
  returned (fun r => (map c_Name (pt_Containers r.2), map v_Name (pt_Volumes r.2))) (fe_NewPodTemplateSpec demo_ddc ∅) =
  Some (["fe"], ["podinfo"; "fe-log"; "fe-meta"]).
Proof. vm_compute. reflexivity. Qed.

Example demo_ms_pod :
  returned (fun r => (map c_Name (pt_Containers r.2), map v_Name (pt_Volumes r.2)))
    (ms_NewPodTemplateSpec demo_ddc (MetaService.newMSPodsSelector "c") ∅) =
  Some (["metaservice"], ["podinfo"; "ms-log"]).
Proof. vm_compute. reflexivity. Qed.
End runs.
