(* ===== verification/DcrStorageProps.v ===== *)
(** The storage of the coupled clusters: the names of the volumes of a
    [storage_root_path], the claims that are made for them, and those that are
    removed. *)

From Stdlib Require Import ZArith Lia Ascii.
From stdpp Require Import base list gmap strings.
From S2P Require Import Prelude GoStr KubeTypes StorageConf.

Local Open Scope string_scope.
Local Open Scope Z_scope.

(** Data paths whose pieces hold no dash and no underscore, none of them
    a part at the end of an earlier one, get pairwise different names. *)
Theorem data_path_names_distinct (paths : list string)
    (Hplain : Forall (fun p => pieces p <> [] /\ Forall plain (pieces p)) paths)
    (Hnest : no_nested paths) :
  length (GetNameOfEachPath paths) = length paths /\ NoDup (GetNameOfEachPath paths).
Proof.
  unfold GetNameOfEachPath.
  assert (named paths (foldl name_path (∅, ∅) paths)) as Hn.
  { apply (foldl_named paths [] (∅, ∅)); [|eapply Forall_impl; [exact Hplain|]; by intros ? []..| |done].
    - split; cbn; intros *; rewrite ?lookup_empty; try done; by intros ?%elem_of_nil.
    - apply Forall_true. by constructor. }
  destruct (foldl name_path (∅, ∅) paths) as [np pn] eqn:E. split; [apply length_map|].
  destruct Hn as [_ Hp Hi]; cbn in *.
  assert (forall p, p ∈ paths -> exists name, pn !! p = Some name /\
            ReplaceAll (default "" (pn !! p)) "_" "-" = name) as Hrep.
  { intros p Hin. destruct (Hp p Hin) as (name & H1 & _ & s & Hs & H2). exists name. split; [done|].
    rewrite H1. cbn [default]. rewrite ReplaceAll_char, replace_absent; [done|]. rewrite H2.
    apply join_no_underscore. eapply Forall_suffix; [exact Hs|]. rewrite Forall_forall in Hplain. by apply Hplain. }
  apply NoDup_map_inj_on; [|by apply no_nested_NoDup]. intros a b Ha Hb Heq.
  destruct (Hrep a Ha) as (na & Ea & Ra), (Hrep b Hb) as (nb & Eb & Rb).
  apply (Hi a b na Ha Hb Ea). congruence.
Qed.

Lemma data_path_names_distinct_witness :
  NoDup (GetNameOfEachPath ["/home/disk1/doris"; "/home/disk2/doris"]).
Proof.
  apply (data_path_names_distinct ["/home/disk1/doris"; "/home/disk2/doris"]).
  - repeat constructor; vm_compute; done.
  - split; [|by split; [constructor|]]. constructor; [|constructor]. intros [k Hk].
    destruct k as [|x k]; [by vm_compute in Hk|]. vm_compute (pieces _) in Hk. injection Hk as _ Hk.
    apply (f_equal length) in Hk. change (2 = length (k ++ ["home"; "disk2"; "doris"])%list)%nat in Hk.
    rewrite length_app in Hk. cbn in Hk. lia.
Defined.
