(* ===== verification/DcrFeProps.v ===== *)
(** What the FE controller of a DorisCluster promises: a scale-down keeps the
    frontends that elect the master, and the observers that leave are dropped
    before the StatefulSet shrinks. *)

From Stdlib Require Import ZArith Lia Ascii.
From stdpp Require Import base list gmap strings.
From S2P Require Import PodTemplate.
From S2P Require Import Prelude GoStr KubeTypes DdcApi Client Traces Mysql Resource External SubDefault Quiet Observers.
From S2P Require Import DcrApi DcrResource DcrSub DcrFe DcrTraces Demo.

Local Open Scope string_scope.
Local Open Scope Z_scope.
Local Open Scope dop_scope.

Section lemmas.
Context `{External}.

(** ** The comparison keeps the replica count *)

Lemma DeepEqual_keeps_replicas new old key excl :
  st_Replicas (StatefulsetDeepEqualWithKey new old key excl).1 = st_Replicas new.
Proof. done. Qed.

Lemma StatefulSetDeepEqual_keeps_replicas new old excl st b :
  StatefulSetDeepEqual new old excl = Some (st, b) -> st_Replicas st = st_Replicas new.
Proof.
  unfold StatefulSetDeepEqual. pose proof (DeepEqual_keeps_replicas new old DcrComponentResourceHash excl) as Hk.
  destruct (StatefulsetDeepEqualWithKey _ _ _ _) as [n eq]; cbn in Hk. destruct eq; [by intros [= <- _]|].
  unfold clear_config_env_path_numbers_alwaysEquals. cbv zeta. destruct (negb _); [by intros [= <- _]|].
  destruct (main_container _) as [[i c]|]; [|done]. cbn [mbind option_bind].
  destruct (st_Replicas n) as [nr|] eqn:Hn; [|done]. destruct (st_Replicas old) as [or|]; [|done].
  cbn [mbind option_bind]. destruct (nr =? or); [intros [= <- _]; congruence|].
  case_decide; intros [= <- _]; cbn; congruence.
Qed.

Lemma restrict_keeps_replicas new old : st_Replicas (RestrictConditionsEqual new old) = st_Replicas new.
Proof. unfold RestrictConditionsEqual. by destruct (st_VolumeClaimTemplates old). Qed.

(** An apply reads the StatefulSet once, and writes only the replicas it was given. *)
Lemma apply_restricted_wp st pasfs :
  (forall s, Forall (fun pasf => st_Replicas (pasf s None) = st_Replicas s) pasfs) ->
  wp (apply_stateful_set st tt restricted_equal pasfs) (fun tr _ =>
    forall s, s ∈ omap sts_write tr -> st_Replicas s = st_Replicas st).
Proof.
  intros Hp. unfold apply_stateful_set. cbn [bind call]. intros got.
  assert (Hpasf : forall s, st_Replicas (foldl (fun st pasf => pasf st None) s pasfs) = st_Replicas s).
  { clear got. induction pasfs as [|pasf pasfs IH]; intros s; [done|]. cbn. rewrite IH.
    - specialize (Hp s). by inversion Hp.
    - intros s'. specialize (Hp s'). by inversion Hp. }
  assert (Hgo : forall create est, wp (let! '(s, c, ev) := restricted_equal st est tt in
      let s := foldl (fun st pasf => pasf st None) s pasfs in
      if create : bool then let! err := CreateClientObject KSts s in Ret (c, err)
      else if ev : bool then Ret (c, None)
      else let! err := PatchClientObject KSts (set_st_ResourceVersion (m_ResourceVersion (st_Meta est)) s) in
           match err with
           | None => Ret (c, None)
           | Some e => if IsConflict e then Ret (c, None) else Ret (c, Some e)
           end) (fun tr _ => forall s, s ∈ omap sts_write tr -> st_Replicas s = st_Replicas st)).
  { intros create est. unfold restricted_equal.
    destruct (StatefulSetDeepEqual _ est false) as [[s ev]|] eqn:E; [|cbn; by intros s ?%elem_of_nil].
    apply StatefulSetDeepEqual_keeps_replicas in E. rewrite restrict_keeps_replicas in E.
    cbn [deref bind]. destruct create; [|destruct ev; [cbn; by intros s' ?%elem_of_nil|]].
    - cbn. intros _ s' ->%list_elem_of_singleton. by rewrite Hpasf.
    - assert (Hr : st_Replicas (set_st_ResourceVersion (m_ResourceVersion (st_Meta est))
          (foldl (fun st pasf => pasf st None) s pasfs)) = st_Replicas st) by (cbn; by rewrite Hpasf).
      cbn -[set_st_ResourceVersion]. intros [e|]; [destruct (IsConflict e)|]; cbn -[set_st_ResourceVersion];
        by intros s' ->%list_elem_of_singleton. }
  destruct got as [est|err]; [apply (Hgo false est)|].
  destruct (IsNotFound err); [apply (Hgo true emptySts) | cbn; by intros s ?%elem_of_nil].
Qed.

(** ** Dropping observers touches neither the StatefulSet nor the cluster *)

Lemma NewDorisMasterSqlDB_beside cfg tls sec : only beside (NewDorisMasterSqlDB cfg tls sec).
Proof.
  assert (Ho : forall dsn, only beside (open_and_ping dsn)) by (intros; unfold open_and_ping; spec_go).
  assert (Hn : forall cfg tls sec, only beside (NewDorisSqlDB cfg tls sec)).
  { intros; unfold NewDorisSqlDB; spec_go. }
  unfold NewDorisMasterSqlDB, GetFollowers, ShowFrontends, Close. spec_go.
Qed.

Lemma place_observers_beside sts ns labels conf obs : only beside (place_observers sts ns labels conf obs).
Proof.
  assert (Hb : forall ipMap, only beside (BuildSeqNumberToFrontendMap obs ipMap sts)).
  { intros ipMap. eapply wp_mono; [apply BuildSeq_go_wp|]. intros tr o [-> _]. split; [done | by destruct o]. }
  unfold place_observers, GetPods. destruct (GetStartMode conf); [|by apply spec_panic]. cbn [assert_ok].
  spec_go.
Qed.

Lemma drop_surplus_beside sts ns labels wanted el conf db :
  only beside (drop_surplus sts ns labels wanted el conf db).
Proof.
  pose proof (place_observers_beside sts ns labels conf). unfold drop_surplus, GetObservers, ShowFrontends, DropObserver, Exec. spec_go.
Qed.

Lemma dropObserver_beside cluster : only beside (dropObserverBySqlClient cluster).
Proof.
  unfold dropObserverBySqlClient, GetSecret.
  apply spec_call; [intros; by repeat split|]. intros s _. destruct (GetClusterSecret _ _) as [u pw].
  destruct (FeSpec_ _) as [fe|]; [|by apply spec_panic]. cbn [deref].
  eapply spec_bind; [apply k8s_GetConfig_spec; intros; by repeat split|]. intros [maps err] _.
  destruct (GetPort maps QUERY_PORT); [|by apply spec_panic]. cbn [assert_ok].
  destruct (DcrFindSecretTLSConfig maps cluster) as [[tls name]|]; [|by apply spec_panic].
  eapply (spec_bind _ (fun _ => True)); [spec_go|]. intros sec _.
  eapply (spec_bind _ (fun _ => True)); [apply NewDorisMasterSqlDB_beside|]. intros [db|e] _; [|by apply spec_ret].
  apply with_close_spec; [intros; by repeat split | apply drop_surplus_beside].
Qed.
End lemmas.

(** ** The guard *)

Definition wanted_replicas (d : Dcr) : option Z := base_of d Component_FE ≫= bs_Replicas.

Lemma wanted_of_fe d fe : FeSpec_ (dcr_Spec d) = Some fe -> wanted_replicas d = bs_Replicas (fe_Base fe).
Proof. intros Hfe. unfold wanted_replicas. cbn. by rewrite Hfe. Qed.

Lemma set_fe_replicas_wanted d fe n : FeSpec_ (dcr_Spec d) = Some fe -> wanted_replicas (set_fe_replicas n d) = Some n.
Proof.
  intros Hfe. unfold set_fe_replicas, wanted_replicas. cbn. rewrite Hfe. cbn. by rewrite Hfe.
Qed.

(** The wanted replicas raised to the followers that exist. *)
Definition guarded (fe : FeSpec) (wanted existing : Z) : Z := Z.max wanted (Z.min (GetElectionNumber fe) existing).

Section guard.
Context `{External}.

Lemma safeScaleDown_wp cluster fe nr or fe' :
  FeSpec_ (dcr_Spec cluster) = Some fe' -> bs_Replicas (fe_Base fe') = Some nr ->
  spec no_sts_access (fun d => wanted_replicas d = Some (guarded fe nr or)) (safeScaleDown cluster fe nr or).
Proof.
  intros Hfe Hr. unfold safeScaleDown, guarded, warn.
  destruct (Z.leb_spec or nr); cbn [orb].
  { apply spec_ret. rewrite (wanted_of_fe _ _ Hfe), Hr. f_equal. lia. }
  destruct (Z.leb_spec (GetElectionNumber fe) nr); cbn [orb].
  { apply spec_ret. rewrite (wanted_of_fe _ _ Hfe), Hr. f_equal. lia. }
  destruct (Z.leb_spec (GetElectionNumber fe) or); (apply spec_call; [intros; by split|]); intros _ _;
    apply spec_ret; rewrite (set_fe_replicas_wanted _ _ _ Hfe); f_equal; lia.
Qed.

Lemma inject_keeps_wanted d : 
  spec no_sts_access (fun r => wanted_replicas r.1 = wanted_replicas d) (CheckRestartTimeAndInject d Component_FE).
Proof.
  unfold CheckRestartTimeAndInject, warn. destruct (base_of d Component_FE) as [base|] eqn:Hb; [|by apply spec_panic].
  cbn [deref]. case_decide; [by apply spec_ret|]. destruct (time_parse_rfc3339 _) as [t|err].
  - apply spec_call; [intros; by split|]. intros now _. destruct (_ <? _).
    + apply spec_call; [intros; by split|]. intros _ _. by apply spec_ret.
    + apply spec_ret. cbn [fst set_base]. unfold wanted_replicas. rewrite Hb. cbn in Hb |- *.
      destruct (FeSpec_ (dcr_Spec d)) as [fe|]; [|done]. injection Hb as <-. done.
  - apply spec_call; [intros; by split|]. intros _ _. by apply spec_ret.
Qed.

(** The outcome [o] of the preparation after the answer [got] of the API server. *)
Definition prepared (d : Dcr) (got : res StatefulSet) (o : outcome (Dcr * option goerr)) : Prop :=
  forall d', o = Done (d', None) ->
  match got with
  | Er _ => wanted_replicas d' = wanted_replicas d
  | Ok est => exists fe existing, FeSpec_ (dcr_Spec d) = Some fe /\ st_Replicas est = Some existing /\
      wanted_replicas d' = Some (guarded fe (default 0 (bs_Replicas (fe_Base fe))) existing)
  end.

Lemma finish_prepare_wp cluster old nr or fe :
  wanted_replicas cluster = Some (guarded fe nr or) ->
  spec no_sts_access (fun r => r.2 = None -> wanted_replicas r.1 = Some (guarded fe nr or))
    (deref (base_of cluster Component_FE ≫= bs_Replicas) (fun nr =>
      if int32 (nr - or) <? 0 then
        let! err := dropObserverBySqlClient cluster in
        Ret (cluster, err)
      else if decide (cst_Phase old = Available) then
        let! '(cluster, inject) := CheckRestartTimeAndInject cluster Component_FE in
        if inject : bool then
          deref (FEStatus (dcr_Status cluster)) (fun status =>
            Ret (set_fe_status (Some (set_phase Restarting status)) cluster, None))
        else Ret (cluster, None)
      else Ret (cluster, None))).
Proof.
  intros Hw. fold (wanted_replicas cluster). rewrite Hw. cbn [deref]. destruct (_ <? 0).
  { eapply spec_bind; [eapply spec_weaken; [apply dropObserver_beside | by intros e [? _] | done]|]. intros err _. by apply spec_ret. }
  case_decide; [|by apply spec_ret].
  eapply spec_bind; [apply inject_keeps_wanted|]. intros [d' b] Hd'; cbn [fst] in Hd'.
  destruct b; [|apply spec_ret; intros _; cbn [fst]; congruence].
  destruct (FEStatus _); [|by apply spec_panic]. apply spec_ret. intros _. cbn [fst].
  rewrite <- Hw, <- Hd'. done.
Qed.

Lemma free_no_access tr : Forall no_sts_access tr -> omap sts_get tr = [] /\ omap sts_write tr = [].
Proof.
  intros Ht. split; apply omap_none; (eapply Forall_impl; [exact Ht|]); by intros e [].
Qed.

Lemma prepareStatefulsetApply_wp d old :
  wp (prepareStatefulsetApply d old) (fun tr o => exists got,
    omap sts_get tr = [got] /\ omap sts_write tr = [] /\ prepared d got o).
Proof.
  unfold prepareStatefulsetApply. cbn [bind call]. intros got.
  assert (Hspec : spec no_sts_access (fun r => prepared d got (Done r)) (match got with
    | Er _ => Ret (d, None)
    | Ok oldSt =>
        deref (FeSpec_ (dcr_Spec d)) (fun fe =>
        let '(cluster, nr) := match bs_Replicas (fe_Base fe) with
          | Some n => (d, n) | None => (set_fe_replicas 0 d, 0) end in
        deref (st_Replicas oldSt) (fun or =>
        let! cluster := safeScaleDown cluster fe nr or in
        deref (base_of cluster Component_FE ≫= bs_Replicas) (fun nr =>
        if int32 (nr - or) <? 0 then
          let! err := dropObserverBySqlClient cluster in Ret (cluster, err)
        else if decide (cst_Phase old = Available) then
          let! '(cluster, inject) := CheckRestartTimeAndInject cluster Component_FE in
          if inject : bool then
            deref (FEStatus (dcr_Status cluster)) (fun status =>
              Ret (set_fe_status (Some (set_phase Restarting status)) cluster, None))
          else Ret (cluster, None)
        else Ret (cluster, None))))
    end)).
  { destruct got as [est|err]; [|apply spec_ret; by intros d' [= <-]].
    destruct (FeSpec_ (dcr_Spec d)) as [fe|] eqn:Hfe; [|by apply spec_panic]. cbn [deref].
    assert (exists cl nr fe', (match bs_Replicas (fe_Base fe) with Some n => (d, n) | None => (set_fe_replicas 0 d, 0) end) = (cl, nr)
      /\ FeSpec_ (dcr_Spec cl) = Some fe' /\ bs_Replicas (fe_Base fe') = Some nr /\ nr = default 0 (bs_Replicas (fe_Base fe)))
      as (cl & nr & fe' & -> & Hcl & Hnr & Hdef).
    { destruct (bs_Replicas (fe_Base fe)) as [n|] eqn:Hn; [by exists d, n, fe|].
      exists (set_fe_replicas 0 d), 0, (fe <| fe_Base := (fe_Base fe) <| bs_Replicas := Some 0 |> |>).
      split; [done|]. split; [|done]. unfold set_fe_replicas. cbn. rewrite Hfe. cbn. by rewrite Hfe. }
    destruct (st_Replicas est) as [or|] eqn:Hor; [|by apply spec_panic]. cbn [deref].
    eapply spec_bind; [exact (safeScaleDown_wp cl fe nr or fe' Hcl Hnr)|]. intros cl' Hw.
    eapply spec_weaken; [exact (finish_prepare_wp cl' old nr or fe Hw)|done|]. intros [d' err] Hd' d'' [= <- ->].
    exists fe, or. split; [done|]. split; [done|]. rewrite <- Hdef. by apply Hd'. }
  eapply wp_mono; [exact Hspec|]. intros tr o [Htr Ho]. exists got. apply free_no_access in Htr as [Hg Hw].
  cbn [omap list_omap sts_get sts_write]. rewrite Hg, Hw. split; [done|]. split; [done|].
  destruct o as [r|w]; [exact Ho | done].
Qed.
End guard.

Section guarded_pass.
Context `{External}.
Context (build : Dcr -> config -> op PodTemplateSpec) `{!TemplateBuilder build}.

(** What a written StatefulSet has to do with the first answer of the API server. *)
Definition writes_guarded (d : Dcr) (tr : trace) : Prop :=
  forall st, st ∈ omap sts_write tr -> exists fe got rest,
    FeSpec_ (dcr_Spec d) = Some fe /\ omap sts_get tr = got :: rest /\
    match got with
    | Ok est => exists existing, st_Replicas est = Some existing /\
        st_Replicas st = Some (guarded fe (default 0 (bs_Replicas (fe_Base fe))) existing)
    | Er _ => st_Replicas st = bs_Replicas (fe_Base fe)
    end.

Lemma writes_guarded_prefix d tr tr' : Forall no_sts_access tr -> writes_guarded d tr' -> writes_guarded d (app tr tr').
Proof.
  intros Ht Hw st. destruct (free_no_access _ Ht) as [Hg Hs]. rewrite !omap_app, Hg, Hs. apply Hw.
Qed.

Lemma writes_guarded_same d d' tr : same_spec d d' -> writes_guarded d' tr -> writes_guarded d tr.
Proof. intros [Hs _] Hw st Hst. destruct (Hw st Hst) as (fe & Hrest). rewrite Hs in Hrest. by exists fe. Qed.

Lemma no_writes_guarded d : writes_guarded d [].
Proof. by intros st ?%elem_of_nil. Qed.

Lemma buildFEStatefulSet_wp d cfg :
  spec no_sts_access (fun st => st_Replicas st = wanted_replicas d) (buildFEStatefulSet build d cfg).
Proof.
  unfold buildFEStatefulSet. destruct (NewStatefulSet d cfg Component_FE) as [st|] eqn:E; [|by apply spec_panic].
  cbn [assert_ok]. eapply spec_bind; [apply build_free; [done|]; by intros e [? _]%reads_config_free|]. intros template _. apply spec_ret.
  unfold NewStatefulSet in E. unfold wanted_replicas. destruct (base_of d Component_FE) as [base|]; [|done].
  cbn [mbind option_bind] in E. unfold BuildSharedVolumesAndVolumeMounts in E.
  destruct (GenerateEveryoneMountPathDorisPersistentVolume _ _ _ _); [|done].
  destruct (NewPodTemplateSpec _ _ _); [|done]. by injection E as <-.
Qed.

Lemma sync_statefulset_guarded d old cfg :
  (exists fe, FeSpec_ (dcr_Spec d) = Some fe) ->
  wp (sync_statefulset build d old cfg) (fun tr _ => writes_guarded d tr).
Proof.
  intros [fe0 Hfe0]. unfold sync_statefulset. apply wp_bind. eapply wp_mono; [apply prepareStatefulsetApply_wp|].
  intros tr o (got & Hget & Hwrite & Hprep). destruct o as [[d' err]|w]; [|intros st; rewrite Hwrite; by intros ?%elem_of_nil].
  destruct err as [e|]; cbn [or_fail wp]; [intros st; rewrite app_nil_r, Hwrite; by intros ?%elem_of_nil|].
  specialize (Hprep d' eq_refl).
  apply (wp_prefix no_sts_access (fun st => st_Replicas st = wanted_replicas d')).
  - intros tr1 tr2 _ Ht1 Hg st. specialize (Hg st). destruct (free_no_access _ Ht1) as [H1 H2].
    rewrite !omap_app, H1, H2 in *. exact Hg.
  - intros w st. rewrite app_nil_r, Hwrite. by intros ?%elem_of_nil.
  - apply buildFEStatefulSet_wp.
  - intros st Hst. apply wp_bind. eapply wp_mono; [by apply (apply_restricted_wp st [])|].
    assert (forall tr', (forall s, s ∈ omap sts_write tr' -> st_Replicas s = st_Replicas st) ->
      writes_guarded d (app tr tr')) as Hgo.
    { intros tr' Htr' s. rewrite !omap_app, Hwrite, Hget. cbn [app]. intros Hs. specialize (Htr' s Hs).
      destruct got as [est|err].
      - destruct Hprep as (fe & existing & Hfe & He & Hw). eexists fe, _, _. split; [done|]. split; [done|].
        exists existing. split; [done|]. congruence.
      - eexists fe0, _, _. split; [done|]. split; [done|]. rewrite Htr', Hst, Hprep. by apply wanted_of_fe. }
    intros tr' [[u err]|w] Htr'; cbn [wp]; rewrite ?app_nil_r; by apply Hgo.
Qed.

(** C5: A pass of the FE controller writes the StatefulSet only with the wanted
    replicas raised to the smaller of the election number and the replicas that
    exist, so that no frontend that elects the master leaves; the exception is a
    StatefulSet that the API server did not return, absent or not, which is
    written as wanted. *)
Theorem fe_scale_down_guarded (cluster : Dcr) :
  wp (DcrFe.Sync build cluster) (fun tr _ => writes_guarded cluster tr).
Proof.
  unfold DcrFe.Sync. destruct (FeSpec_ (dcr_Spec cluster)) as [fe|] eqn:Hfe; [|apply no_writes_guarded].
  set (old := default zeroComponentStatus _).
  assert (Hpre : forall A B (R : A -> Prop) (p : op A) (f : A -> op B),
    spec no_sts_access R p -> (forall a, R a -> wp (f a) (fun tr _ => writes_guarded cluster tr)) ->
    wp (bind p f) (fun tr _ => writes_guarded cluster tr)).
  { intros A B R p f Hp Hf. eapply wp_prefix; [..|exact Hp|exact Hf].
    - intros tr tr' _. apply writes_guarded_prefix.
    - intros _. apply no_writes_guarded. }
  eapply Hpre; [apply InitStatus_spec; intros; by split|]. intros d1 Hd1.
  apply (Hpre _ _ (same_spec cluster)).
  { destruct (EnableRestartWhenConfigChange _); [|by apply spec_ret].
    eapply spec_weaken; [apply (Compare_spec no_sts_access); intros; by split|done|]. intros d2 Hd2. by etransitivity. }
  clear d1 Hd1. intros d Hd.
  eapply Hpre; [apply GetConfig_spec; intros; by split|]. intros [cfg err] Herr. cbn in Herr. subst err.
  cbn [or_fail]. eapply Hpre; [apply check_component_spec; intros; by split|]. intros _ _.
  eapply Hpre; [apply CheckSharedPVC_spec; intros; by split|]. intros _ _.
  unfold apply_services. destruct (BuildExternalService d _ cfg) as [svc|]; [|apply no_writes_guarded].
  destruct (BuildInternalService d _ cfg) as [internal|]; [|apply no_writes_guarded]. cbn [assert_ok].
  eapply Hpre; [apply ApplyService_spec; intros; by split|]. intros [e|] _; [apply no_writes_guarded|].
  eapply Hpre; [apply ApplyService_spec; intros; by split|]. intros [e|] _; [apply no_writes_guarded|].
  cbn [or_fail]. eapply Hpre; [apply PrepareReconcileResources_spec; intros; by split|].
  intros ready _. destruct ready; [|apply no_writes_guarded].
  eapply wp_mono; [apply sync_statefulset_guarded; destruct Hd as [-> _]; by exists fe|].
  intros tr o. by apply writes_guarded_same.
Qed.
End guarded_pass.

(** ** The observers that leave *)

Section observers.
Context `{External}.
Context (build : Dcr -> config -> op PodTemplateSpec) `{!TemplateBuilder build}.

Lemma surplus_dropped_mono name wanted el db tr tr' q :
  (forall e, e ∈ tr -> e ∈ tr') -> surplus_dropped name wanted el db tr q -> surplus_dropped name wanted el db tr' q.
Proof.
  intros Hin (fes & ipMap & replicas & ordinals & nodes & H1 & H2 & H3 & H4 & Ha & Hrest).
  exists fes, ipMap, replicas, ordinals, nodes. split; [by apply Hin|]. split; [done|]. split; [done|]. split; [done|].
  split; [|exact Hrest]. destruct Ha as [->|(ns & sel & pods & Hl & ->)]; [by left|right]. exists ns, sel, pods. by split; [apply Hin|].
Qed.

(** A refused statement is an error of the step, and there is only one statement. *)
Definition failure_reported {A} (failed : A -> Prop) (tr : trace) (o : outcome A) : Prop :=
  existsb sql_failure tr = true -> forall a, o = Done a -> failed a.

Lemma no_sql_no_failure tr : Forall no_sql tr -> omap sql_exec tr = [] /\ existsb sql_failure tr = false.
Proof.
  intros Ht. split; [by apply omap_none|]. induction Ht as [|e tr He Ht IH]; [done|]. cbn. rewrite IH, orb_false_r.
  destruct e as [X e x]. by destruct e.
Qed.

Lemma failure_app tr tr' : existsb sql_failure (app tr tr') = existsb sql_failure tr || existsb sql_failure tr'.
Proof. apply existsb_app. Qed.

Lemma drop_surplus_failure name ns labels wanted el conf db :
  wp (drop_surplus name ns labels wanted el conf db) (failure_reported (fun err => err <> None)).
Proof.
  assert (Hquiet : forall P : Prop, forall tr (o : outcome (option goerr)), Forall no_sql tr ->
    failure_reported (fun err => err <> None) tr o).
  { intros _ tr o Ht Hf. by rewrite (proj2 (no_sql_no_failure _ Ht)) in Hf. }
  unfold drop_surplus, GetObservers, ShowFrontends. cbn [bind call].
  intros [fes|err]; [|apply Hquiet; [exact True | by repeat constructor]]. cbn [bind wp].
  destruct wanted as [replicas|]; cbn [deref]; [|apply Hquiet; [exact True | by repeat constructor]].
  destruct (_ <=? 0); [apply Hquiet; [exact True | by repeat constructor]|].
  apply wp_bind. eapply wp_mono; [apply place_observers_wp|]. intros tr o [Hq _].
  assert (Forall no_sql tr) as Hn by (eapply Forall_impl; [exact Hq | apply quiet_no_sql]).
  assert (forall r, Forall no_sql (Ev (SqlxShowFrontends (db_sqlx db)) r :: tr)) as Hn' by (by constructor).
  destruct o as [[m|e]|w]; cbn [wp]; [|apply Hquiet; [exact True | rewrite ?app_nil_r; by constructor]..].
  destruct (FindNeedDeletedObservers m _); [apply Hquiet; [exact True|]; cbn; rewrite app_nil_r; by constructor|].
  intros [err|]; unfold failure_reported; [by intros _ a [= <-]|]. intros Hf a [= <-]. exfalso. revert Hf.
  change (existsb sql_failure (app (Ev (SqlxShowFrontends (db_sqlx db)) (Ok fes) :: tr)
    [Ev (SqlxExec (db_sqlx db) (foldl (fun s node => s +:+ "ALTER SYSTEM DROP OBSERVER " +:+
       quoted_addr (fe_Host node) (fe_EditLogPort node) +:+ ";") "" (f :: l))) None]) = true -> False).
  rewrite failure_app, (proj2 (no_sql_no_failure _ (Hn' _))). done.
Qed.

(** Every statement drops the surplus observers, and a refused one is reported. *)
Definition drops_surplus (name : string) (wanted : option Z) (el : Z) (tr : trace) (o : outcome (option goerr)) : Prop :=
  (forall q, q ∈ omap sql_exec tr -> exists db, surplus_dropped name wanted el db tr q) /\
  failure_reported (fun err => err <> None) tr o.

Lemma drops_surplus_extend name wanted el tr1 tr tr2 o :
  Forall no_sql tr1 -> Forall no_sql tr2 -> drops_surplus name wanted el tr o ->
  drops_surplus name wanted el (app tr1 (app tr tr2)) o.
Proof.
  intros H1 H2 [Hq Hf]. destruct (no_sql_no_failure _ H1) as [S1 F1], (no_sql_no_failure _ H2) as [S2 F2]. split.
  - intros q. rewrite !omap_app, S1, S2, app_nil_r. cbn [app]. intros Hin. destruct (Hq q Hin) as [db Hdb].
    exists db. eapply surplus_dropped_mono; [|exact Hdb]. intros e He. rewrite !elem_of_app. auto.
  - unfold failure_reported in *. rewrite !failure_app, F1, F2, orb_false_r. exact Hf.
Qed.

Lemma drops_nothing name wanted el tr o : Forall no_sql tr -> drops_surplus name wanted el tr o.
Proof.
  intros Ht. destruct (no_sql_no_failure _ Ht) as [Hs Hf]. split.
  - intros q. rewrite Hs. by intros ?%elem_of_nil.
  - unfold failure_reported. by rewrite Hf.
Qed.

Lemma dropObserver_wp cluster fe : FeSpec_ (dcr_Spec cluster) = Some fe ->
  wp (dropObserverBySqlClient cluster)
    (drops_surplus (GeneratePodTemplateName cluster Component_FE) (bs_Replicas (fe_Base fe)) (GetElectionNumber fe)).
Proof.
  intros Hfe. unfold dropObserverBySqlClient, GetSecret.
  assert (Hpre : forall A (R : A -> Prop) (p : op A) f name wanted el,
    spec no_sql R p -> (forall a, R a -> wp (f a) (drops_surplus name wanted el)) ->
    wp (bind p f) (drops_surplus name wanted el)).
  { intros A R p f name wanted el Hp Hf. eapply wp_prefix; [..|exact Hp|exact Hf].
    - intros tr tr' o Ht Hd. rewrite <- (app_nil_r tr'). by apply drops_surplus_extend.
    - intros w. by apply drops_nothing. }
  apply (Hpre _ (fun _ => True)); [spec_go|]. intros s _. destruct (GetClusterSecret _ _) as [u pw].
  rewrite Hfe. cbn [deref]. eapply Hpre; [apply k8s_GetConfig_spec; done|]. intros [maps err] _.
  destruct (GetPort maps QUERY_PORT); [|by apply drops_nothing]. cbn [assert_ok].
  destruct (DcrFindSecretTLSConfig maps cluster) as [[tls sname]|]; [|by apply drops_nothing].
  apply (Hpre _ (fun _ => True)); [spec_go|]. intros sec _.
  apply (Hpre _ (fun _ => True)); [apply quiet_only_no_sql, NewDorisMasterSqlDB_quiet|].
  intros [db|e] _; [|by apply drops_nothing]. apply with_close_wp.
  eapply wp_mono; [exact (wp_and _ _ _ (drop_surplus_wp _ _ _ _ _ _ _) (drop_surplus_failure _ _ _ _ _ _ _))|].
  intros tr o [Hq Hf]. assert (Hd : drops_surplus (GeneratePodTemplateName cluster Component_FE)
    (bs_Replicas (fe_Base fe)) (GetElectionNumber fe) tr o) by (split; [intros q Hin; exists db; by apply Hq | exact Hf]).
  change (app tr ?x) with (app [] (app tr x)). apply drops_surplus_extend; [done | by repeat constructor | exact Hd].
Qed.

(** The statements of a pass, and what they have to do with the existing
    StatefulSet: the observers beyond the guarded replicas of a scale-down. *)
Definition scale_in_justified (d : Dcr) (tr : trace) : Prop :=
  forall q, q ∈ omap sql_exec tr -> exists fe est existing db,
    let wanted := guarded fe (default 0 (bs_Replicas (fe_Base fe))) existing in
    FeSpec_ (dcr_Spec d) = Some fe /\ omap sts_get tr !! 0%nat = Some (Ok est) /\ st_Replicas est = Some existing /\
    int32 (wanted - existing) < 0 /\
    surplus_dropped (GeneratePodTemplateName d Component_FE) (Some wanted) (GetElectionNumber fe) db tr q.

(** The cluster after the guard: its FE spec has the guarded replicas. *)
Definition fe_like (d : Dcr) (fe : FeSpec) (wanted : Z) (d' : Dcr) : Prop :=
  dcr_Name d' = dcr_Name d /\ exists fe', FeSpec_ (dcr_Spec d') = Some fe' /\
    bs_Replicas (fe_Base fe') = Some wanted /\ GetElectionNumber fe' = GetElectionNumber fe.

Lemma set_fe_replicas_like d fe n : FeSpec_ (dcr_Spec d) = Some fe -> fe_like d fe n (set_fe_replicas n d).
Proof.
  intros Hfe. unfold set_fe_replicas. cbn. rewrite Hfe. cbn. split; [done|].
  eexists. split; [cbn; by rewrite Hfe|]. done.
Qed.

Lemma safeScaleDown_like cluster fe fe' nr or :
  FeSpec_ (dcr_Spec cluster) = Some fe' -> bs_Replicas (fe_Base fe') = Some nr ->
  GetElectionNumber fe' = GetElectionNumber fe ->
  spec no_sql (fe_like cluster fe (guarded fe nr or)) (safeScaleDown cluster fe nr or).
Proof.
  intros Hfe Hr He. unfold safeScaleDown, guarded, warn.
  assert (Hsame : forall n, n = nr -> fe_like cluster fe n cluster) by (intros n ->; split; [done|]; by exists fe').
  assert (Hset : forall n, fe_like cluster fe n (set_fe_replicas n cluster)).
  { intros n. destruct (set_fe_replicas_like cluster fe' n Hfe) as (Hn & f & H1 & H2 & H3).
    split; [done|]. exists f. by rewrite <- He. }
  destruct (Z.leb_spec or nr); cbn [orb]; [apply spec_ret, Hsame; lia|].
  destruct (Z.leb_spec (GetElectionNumber fe) nr); cbn [orb]; [apply spec_ret, Hsame; lia|].
  destruct (Z.leb_spec (GetElectionNumber fe) or); (apply spec_call; [done|]); intros _ _; apply spec_ret.
  - replace (Z.max nr _) with (GetElectionNumber fe) by lia. apply Hset.
  - replace (Z.max nr _) with or by lia. apply Hset.
Qed.

(** The statements of the preparation, after the StatefulSet [est] was read. *)
Definition justified_after (d : Dcr) (fe : FeSpec) (est : StatefulSet) (tr : trace) : Prop :=
  forall q, q ∈ omap sql_exec tr -> exists existing db,
    let wanted := guarded fe (default 0 (bs_Replicas (fe_Base fe))) existing in
    st_Replicas est = Some existing /\ int32 (wanted - existing) < 0 /\
    surplus_dropped (GeneratePodTemplateName d Component_FE) (Some wanted) (GetElectionNumber fe) db tr q.

Definition statements_ok (d : Dcr) (fe : FeSpec) (est : StatefulSet) (tr : trace)
    (o : outcome (Dcr * option goerr)) : Prop :=
  justified_after d fe est tr /\ failure_reported (fun r => r.2 <> None) tr o.

Lemma no_statements_ok d fe est tr o : Forall no_sql tr -> statements_ok d fe est tr o.
Proof.
  intros Ht. destruct (no_sql_no_failure _ Ht) as [Hs Hf]. split.
  - intros q. rewrite Hs. by intros ?%elem_of_nil.
  - unfold failure_reported. by rewrite Hf.
Qed.

Lemma statements_ok_prefix d fe est tr tr' o :
  Forall no_sql tr -> statements_ok d fe est tr' o -> statements_ok d fe est (app tr tr') o.
Proof.
  intros Ht [Hj Hf]. destruct (no_sql_no_failure _ Ht) as [S1 F1]. split.
  - intros q. rewrite omap_app, S1. cbn [app]. intros Hin. destruct (Hj q Hin) as (ex & db & H1 & H2 & H3).
    exists ex, db. split; [done|]. split; [done|]. eapply surplus_dropped_mono; [|exact H3].
    intros e He. apply elem_of_app. by right.
  - unfold failure_reported in *. by rewrite failure_app, F1.
Qed.

Lemma inject_no_sql d : only no_sql (CheckRestartTimeAndInject d Component_FE).
Proof. unfold CheckRestartTimeAndInject, warn. spec_go. Qed.

Lemma prepare_statements d old got :
  wp (match got with
      | Er _ => Ret (d, None)
      | Ok oldSt =>
          deref (FeSpec_ (dcr_Spec d)) (fun fe =>
          let '(cluster, nr) := match bs_Replicas (fe_Base fe) with
            | Some n => (d, n) | None => (set_fe_replicas 0 d, 0) end in
          deref (st_Replicas oldSt) (fun or =>
          let! cluster := safeScaleDown cluster fe nr or in
          deref (base_of cluster Component_FE ≫= bs_Replicas) (fun nr =>
          if int32 (nr - or) <? 0 then
            let! err := dropObserverBySqlClient cluster in Ret (cluster, err)
          else if decide (cst_Phase old = Available) then
            let! '(cluster, inject) := CheckRestartTimeAndInject cluster Component_FE in
            if inject : bool then
              deref (FEStatus (dcr_Status cluster)) (fun status =>
                Ret (set_fe_status (Some (set_phase Restarting status)) cluster, None))
            else Ret (cluster, None)
          else Ret (cluster, None))))
      end) (fun tr o =>
    match FeSpec_ (dcr_Spec d), got with
    | Some fe, Ok est => statements_ok d fe est tr o
    | _, _ => Forall no_sql tr
    end).
Proof.
  destruct got as [est|err]; [|destruct (FeSpec_ (dcr_Spec d)); constructor].
  destruct (FeSpec_ (dcr_Spec d)) as [fe|] eqn:Hfe; [|constructor]. cbn [deref].
  assert (exists cl nr fe', (match bs_Replicas (fe_Base fe) with Some n => (d, n) | None => (set_fe_replicas 0 d, 0) end) = (cl, nr)
    /\ FeSpec_ (dcr_Spec cl) = Some fe' /\ bs_Replicas (fe_Base fe') = Some nr /\
    GetElectionNumber fe' = GetElectionNumber fe /\ dcr_Name cl = dcr_Name d /\ nr = default 0 (bs_Replicas (fe_Base fe)))
    as (cl & nr & fe' & -> & Hcl & Hnr & Hel & Hname & Hdef).
  { destruct (bs_Replicas (fe_Base fe)) as [n|] eqn:Hn; [by exists d, n, fe|].
    destruct (set_fe_replicas_like d fe 0 Hfe) as (Hname & f & H1 & H2 & H3). by exists (set_fe_replicas 0 d), 0, f. }
  destruct (st_Replicas est) as [or|] eqn:Hor; [|by apply no_statements_ok]. cbn [deref].
  assert (Hpre : forall A (R : A -> Prop) (p : op A) (f : A -> op (Dcr * option goerr)), spec no_sql R p ->
    (forall a, R a -> wp (f a) (statements_ok d fe est)) -> wp (bind p f) (statements_ok d fe est)).
  { intros A R p f Hp Hf. eapply wp_prefix; [..|exact Hp|exact Hf].
    - intros tr tr' o. apply statements_ok_prefix.
    - intros w. by apply no_statements_ok. }
  apply (Hpre _ (fe_like cl fe (guarded fe nr or))); [by apply (safeScaleDown_like cl fe fe')|].
  intros cl' (Hname' & f & Hf1 & Hf2 & Hf3). cbn [base_of]. rewrite Hf1. cbn [fmap option_fmap option_map mbind option_bind].
  rewrite Hf2. cbn [deref]. destruct (Z.ltb_spec (int32 (guarded fe nr or - or)) 0) as [Hlt|Hge].
  - apply wp_bind. eapply wp_mono; [by apply dropObserver_wp|]. intros tr o [Hq Hf].
    assert (Hj : justified_after d fe est tr).
    { intros q Hin. destruct (Hq q Hin) as [db Hdb]. exists or, db. rewrite <- Hdef. split; [done|]. split; [done|].
      rewrite Hf2, Hf3 in Hdb. unfold GeneratePodTemplateName in *. by rewrite Hname', Hname in Hdb. }
    destruct o as [a|w]; [|by split]. cbn [wp]. rewrite app_nil_r. split; [done|].
    intros Hx r [= <-]. by apply (Hf Hx a).
  - case_decide; [|by apply no_statements_ok].
    apply (Hpre _ (fun _ => True)); [apply inject_no_sql|]. intros [d' b] _. destruct b; [|by apply no_statements_ok].
    destruct (FEStatus _); by apply no_statements_ok.
Qed.

Lemma prepareStatefulsetApply_statements d old :
  wp (prepareStatefulsetApply d old) (fun tr o => (exists fe est,
    FeSpec_ (dcr_Spec d) = Some fe /\ omap sts_get tr !! 0%nat = Some (Ok est) /\ statements_ok d fe est tr o) \/
    Forall no_sql tr).
Proof.
  unfold prepareStatefulsetApply. cbn [bind call]. intros got.
  eapply wp_mono; [apply prepare_statements|]. intros tr o Ho.
  destruct (FeSpec_ (dcr_Spec d)) as [fe|]; [|right; by constructor]. destruct got as [est|err]; [|right; by constructor].
  left. exists fe, est. split; [done|]. split; [done|].
  apply (statements_ok_prefix d fe est [_]); [by repeat constructor | exact Ho].
Qed.

Lemma restricted_apply_no_sql st : only no_sql (apply_stateful_set st tt restricted_equal []).
Proof.
  unfold apply_stateful_set, restricted_equal, CreateClientObject, PatchClientObject.
  apply spec_call; [done|]. intros [est|err] _; [|destruct (IsNotFound err); [|by apply spec_ret]];
    (destruct (StatefulSetDeepEqual _ _ false) as [[s ev]|]; [|by apply spec_panic]); spec_go.
Qed.

(** C6: Of a pass that scales the FE in, every statement run on Doris drops
    observers that Doris showed, as many as there are beyond the guarded
    replicas that do not elect; every observer shown has an ordinal, from its
    host name or from the pod that the API server listed at its address, and the
    dropped ones are those of the highest ordinals of all of them.  When Doris
    refuses a statement the StatefulSet is not written. *)
Theorem fe_drops_then_shrinks d old cfg :
  wp (sync_statefulset build d old cfg) (fun tr _ =>
    scale_in_justified d tr /\ (existsb sql_failure tr = true -> omap sts_write tr = [])).
Proof.
  unfold sync_statefulset. apply wp_bind.
  eapply wp_mono; [exact (wp_and _ _ _ (prepareStatefulsetApply_wp d old) (prepareStatefulsetApply_statements d old))|].
  intros tr o [(got & Hget & Hwrite & _) Hst].
  assert (Hj : forall tr', Forall no_sql tr' -> scale_in_justified d (app tr tr')).
  { intros tr' Ht' q. destruct (no_sql_no_failure _ Ht') as [Hs _]. rewrite omap_app, Hs, app_nil_r. intros Hin.
    destruct Hst as [(fe & est & Hfe & Hl & Hok & _)|Hn]; [|rewrite (proj1 (no_sql_no_failure _ Hn)) in Hin; by apply elem_of_nil in Hin].
    destruct (Hok q Hin) as (existing & db & H1 & H2 & H3). exists fe, est, existing, db. split; [done|].
    split; [by rewrite omap_app, Hget in *|]. split; [done|]. split; [done|].
    eapply surplus_dropped_mono; [|exact H3]. intros e He. apply elem_of_app. by left. }
  assert (Hr : failure_reported (fun r => r.2 <> None) tr o).
  { destruct Hst as [(fe & est & _ & _ & _ & Hf)|Hn]; [exact Hf|].
    unfold failure_reported. by rewrite (proj2 (no_sql_no_failure _ Hn)). }
  destruct o as [[d' err]|w]; [|split; [rewrite <- (app_nil_r tr); by apply Hj | done]].
  destruct err as [e|]; cbn [or_fail wp]; [split; [by apply Hj | rewrite app_nil_r; done]|].
  assert (Hrest : only no_sql (let! st := buildFEStatefulSet build d' cfg in
    let! '(_, err) := apply_stateful_set st tt restricted_equal [] in Ret (d', err))).
  { apply (spec_bind _ (fun _ => True)).
    - unfold buildFEStatefulSet. destruct (NewStatefulSet _ _ _); [|by apply spec_panic]. cbn [assert_ok].
      eapply spec_bind; [apply build_free; [done|]; by intros e (_ & _ & ? & _)%reads_config_free|]. intros; by apply spec_ret.
    - intros st _. eapply spec_bind; [apply restricted_apply_no_sql|]. intros [u err] _. by apply spec_ret. }
  eapply wp_mono; [exact Hrest|]. intros tr' o' [Ht' _]. split; [by apply Hj|].
  rewrite failure_app, (proj2 (no_sql_no_failure _ Ht')), orb_false_r. intros Hf. by destruct (Hr Hf (d', None) eq_refl).
Qed.
End observers.

(** ** Witnesses *)

(** A cluster of five frontends, three of which elect the master, scaled to one. *)
Definition demo_fe_base : BaseSpec := emptyBase <| bs_Replicas := Some 1 |>.
Definition demo_dcr : Dcr :=
  emptyDcr <| dcr_Meta := emptyMeta <| m_Name := "c" |> <| m_Namespace := "ns" |> |>
           <| dcr_Spec := (dcr_Spec emptyDcr) <| FeSpec_ := Some (mkFeSpec None demo_fe_base) |> |>.
Definition demo_fe_sts (replicas : Z) : StatefulSet :=
  emptySts <| st_Meta := emptyMeta <| m_Name := "c-fe" |> <| m_Namespace := "ns" |> |>
           <| st_Replicas := Some replicas |>.
Definition demo_fe_row (i : Z) (role connected : string) : Frontend :=
  mkFrontend ("fe" +:+ Itoa i) ("c-fe-" +:+ Itoa i +:+ ".svc") 9010 role (i =? 0) connected.
Definition demo_fe_world : world :=
  (demo_world false) <| w_sts := [demo_fe_sts 5] |>
    <| w_frontends := [demo_fe_row 0 "FOLLOWER" "Yes"; demo_fe_row 1 "FOLLOWER" "No"; demo_fe_row 2 "FOLLOWER" "No";
                       demo_fe_row 3 "OBSERVER" "No"; demo_fe_row 4 "OBSERVER" "No"] |>.
Definition demo_builder : Dcr -> config -> op PodTemplateSpec := 
  fun _ _ => Ret (emptyTemplate <| pt_Containers := [emptyContainer <| c_Name := "fe" |> <| c_Image := "doris-fe" |>] |>).

Local Existing Instance demo_external.

Lemma fe_scale_down_guarded_witness :
  let tr := (run demo_env (DcrFe.Sync demo_builder demo_dcr) demo_fe_world).1.1 in
  map st_Replicas (omap sts_write tr) = [Some 3] /\ writes_guarded demo_dcr tr.
Proof.
  cbv zeta. split; [vm_compute; reflexivity|].
  exact (wp_exec _ _ (fe_scale_down_guarded demo_builder demo_dcr) _ _ (run_exec demo_env _ demo_fe_world)).
Defined.

Lemma fe_drops_then_shrinks_witness :
  let tr := (run demo_env (sync_statefulset demo_builder demo_dcr zeroComponentStatus ∅) demo_fe_world).1.1 in
  length (omap sql_exec tr) = 1%nat /\ scale_in_justified demo_dcr tr /\
  (existsb sql_failure tr = true -> omap sts_write tr = []).
Proof.
  cbv zeta. split; [vm_compute; reflexivity|].
  exact (wp_exec _ _ (fe_drops_then_shrinks demo_builder demo_dcr zeroComponentStatus ∅) _ _ (run_exec demo_env _ demo_fe_world)).
Defined.
