(* ===== verification/DcrStatusProps.v ===== *)
(** The status of a DorisCluster: which statuses the reconciler takes for the
    same one, when it writes the status, and how the pods of a component make
    its phase. *)

From Stdlib Require Import ZArith Lia Ascii.
From stdpp Require Import base list gmap strings sorting.
From S2P Require Import Prelude GoStr KubeTypes DdcApi Client Traces Mysql Resource External SubDefault Demo.
From S2P Require Import DcrApi DcrResource DcrSub DcrFe DcrReconciler DcrTraces.
From S2P Require DdcReconciler.

Local Open Scope string_scope.
Local Open Scope Z_scope.
Local Open Scope dop_scope.

(** ** Sorting *)

Definition str_le (s t : string) : Prop := str_leb s t = true.

Lemma ch_code_inj c d : ch_code c = ch_code d -> c = d.
Proof.
  unfold ch_code. intros H%Nat2Z.inj. rewrite <- (ascii_nat_embedding c), <- (ascii_nat_embedding d). congruence.
Qed.

Lemma str_leb_cons c d s t : str_leb (String c s) (String d t) =
  ((ch_code c <? ch_code d) || ((ch_code c =? ch_code d) && str_leb s t)).
Proof.
  cbn [str_leb]. destruct (Z.ltb_spec (ch_code c) (ch_code d)), (Z.ltb_spec (ch_code d) (ch_code c)),
    (Z.eqb_spec (ch_code c) (ch_code d)); try lia; done.
Qed.

#[export] Instance str_le_total : Total str_le.
Proof.
  intros s. induction s as [|c s IH]; intros [|d t]; [by left|by left|by right|]. unfold str_le.
  rewrite !str_leb_cons. destruct (IH t) as [->| ->];
    destruct (Z.ltb_spec (ch_code c) (ch_code d)), (Z.ltb_spec (ch_code d) (ch_code c)),
      (Z.eqb_spec (ch_code c) (ch_code d)), (Z.eqb_spec (ch_code d) (ch_code c)); auto; lia.
Qed.

#[export] Instance str_le_trans : Transitive str_le.
Proof.
  intros s. induction s as [|c s IH]; intros [|d t] [|e u]; try done. unfold str_le. rewrite !str_leb_cons.
  rewrite !orb_true_iff, !andb_true_iff, !Z.ltb_lt, !Z.eqb_eq.
  intros [?|[? ?]] [?|[? ?]]; [left; lia..|right; split; [lia | by eapply IH]].
Qed.

#[export] Instance str_le_antisym : AntiSymm (=) str_le.
Proof.
  intros s. induction s as [|c s IH]; intros [|d t]; try done. unfold str_le. rewrite !str_leb_cons.
  rewrite !orb_true_iff, !andb_true_iff, !Z.ltb_lt, !Z.eqb_eq.
  intros [?|[E ?]] [?|[E' ?]]; try lia. apply ch_code_inj in E as ->. f_equal. by apply IH.
Qed.

Lemma insert_string_perm s l : insert_string s l ≡ₚ s :: l.
Proof.
  induction l as [|t l IH]; [done|]. cbn. destruct (str_leb s t); [done|].
  rewrite IH. apply Permutation_swap.
Qed.
Lemma sort_Strings_perm l : sort_Strings l ≡ₚ l.
Proof. induction l as [|s l IH]; [done|]. cbn. by rewrite insert_string_perm, IH. Qed.

Lemma insert_string_sorted s l : StronglySorted str_le l -> StronglySorted str_le (insert_string s l).
Proof.
  induction 1 as [|t l Hl IH Ht]; [by repeat constructor|]. cbn. destruct (str_leb s t) eqn:E.
  - constructor; [by constructor|]. constructor; [done|]. eapply Forall_impl; [exact Ht|].
    intros x Hx. by apply (str_le_trans _ t).
  - constructor; [exact IH|]. rewrite insert_string_perm. constructor; [|exact Ht].
    destruct (str_le_total t s) as [?|Hs]; [done|]. unfold str_le in Hs. congruence.
Qed.
Lemma sort_Strings_sorted l : StronglySorted str_le (sort_Strings l).
Proof. induction l; cbn; [constructor | by apply insert_string_sorted]. Qed.

Lemma sort_Strings_eq l k : sort_Strings l = sort_Strings k <-> l ≡ₚ k.
Proof.
  split; intros E.
  - by rewrite <- (sort_Strings_perm l), <- (sort_Strings_perm k), E.
  - apply (StronglySorted_unique str_le); [apply sort_Strings_sorted..|].
    by rewrite !sort_Strings_perm.
Qed.

(** What a comparison of slices returns: the verdict, and the slice rearranged. *)
Lemma equalSplice_spec e n : (equalSplice e n).1 ≡ₚ e /\ ((equalSplice e n).2 = true <-> e ≡ₚ n).
Proof.
  unfold equalSplice. destruct (Nat.eqb_spec (length e) (length n)) as [Hl|Hl]; cbn.
  - split; [apply sort_Strings_perm|]. rewrite bool_decide_eq_true. apply sort_Strings_eq.
  - split; [done|]. split; [done|]. intros Hp%Permutation_length. lia.
Qed.

(** ** The relation the comparison decides *)

(** The same condition and service, and the same pods in any order; the hash of
    the configuration is not compared. *)
Definition same_component (e n : ComponentStatus) : Prop :=
  cst_ComponentCondition e = cst_ComponentCondition n /\ cst_AccessService e = cst_AccessService n /\
  cst_CreatingMembers e ≡ₚ cst_CreatingMembers n /\ cst_RunningMembers e ≡ₚ cst_RunningMembers n /\
  cst_FailedMembers e ≡ₚ cst_FailedMembers n.

#[export] Instance same_component_equivalence : Equivalence same_component.
Proof.
  split.
  - intros e. by repeat split.
  - intros e n (H1 & H2 & H3 & H4 & H5). by repeat split; symmetry.
  - intros e n m (? & ? & ? & ? & ?) (? & ? & ? & ? & ?). repeat split; etransitivity; eassumption.
Qed.

(** For CN an absent status is the zero status without autoscaler. *)
Definition cn_parts (s : option CnStatus) : ComponentStatus * option HorizontalScaler :=
  match s with Some c => (cns_Status c, cns_HorizontalScaler c) | None => (zeroComponentStatus, None) end.
Definition same_cn (e n : option CnStatus) : Prop :=
  same_component (cn_parts e).1 (cn_parts n).1 /\ (cn_parts e).2 = (cn_parts n).2.

Record same_status (e n : DcrStatus) : Prop := {
  ss_fe : option_Forall2 same_component (FEStatus e) (FEStatus n);
  ss_be : option_Forall2 same_component (BEStatus e) (BEStatus n);
  ss_cn : same_cn (CnStatus_ e) (CnStatus_ n);
  ss_broker : option_Forall2 same_component (BrokerStatus e) (BrokerStatus n)
}.

Lemma inconsistentComponentStatus_spec e n :
  option_Forall2 same_component (inconsistentComponentStatus e n).1 e /\
  ((inconsistentComponentStatus e n).2 = false <-> option_Forall2 same_component e n).
Proof.
  destruct e as [e|], n as [n|]; cbn.
  2,3: split; [repeat constructor; reflexivity|]; split; [done | by inversion 1].
  2: split; [constructor|]; split; [constructor | done].
  assert (Hinv : option_Forall2 same_component (Some e) (Some n) <-> same_component e n).
  { split; [by inversion 1 | by constructor]. }
  rewrite Hinv. clear Hinv. unfold same_component at 2.
  destruct (bool_decide (cst_ComponentCondition e <> _)) eqn:Hc; cbn [orb].
  { apply bool_decide_eq_true in Hc. split; [by constructor|]. split; [done | by intros (? & _)]. }
  apply bool_decide_eq_false, dec_stable in Hc.
  destruct (bool_decide (cst_AccessService e <> _)) eqn:Ha; cbn [orb].
  { apply bool_decide_eq_true in Ha. split; [by constructor|]. split; [done | by intros (_ & ? & _)]. }
  apply bool_decide_eq_false, dec_stable in Ha.
  pose proof (equalSplice_spec (cst_CreatingMembers e) (cst_CreatingMembers n)) as [Hc1 Hc2].
  destruct (equalSplice (cst_CreatingMembers e) _) as [cr s1]. cbn in Hc1, Hc2.
  pose proof (equalSplice_spec (cst_RunningMembers e) (cst_RunningMembers n)) as [Hr1 Hr2].
  pose proof (equalSplice_spec (cst_FailedMembers e) (cst_FailedMembers n)) as [Hf1 Hf2].
  destruct s1; cbn [negb]; cycle 1.
  { split; [constructor; by repeat split|]. split; [done|]. intros (_ & _ & ? & _). destruct Hc2 as [_ Hc2]. by rewrite Hc2 in *. }
  cbn. destruct (equalSplice (cst_RunningMembers e) _) as [ru s2]. cbn in Hr1, Hr2. destruct s2; cbn [negb]; cycle 1.
  { split; [constructor; by repeat split|]. split; [done|]. intros (_ & _ & _ & ? & _). destruct Hr2 as [_ Hr2]. by rewrite Hr2 in *. }
  cbn. destruct (equalSplice (cst_FailedMembers e) _) as [fa s3]. cbn in Hf1, Hf2.
  split; [constructor; by repeat split|]. destruct s3; cbn; intuition congruence.
Qed.

Lemma horizontal_spec eh nh : inconsistentHorizontalStatus eh nh = false <-> eh = nh.
Proof.
  destruct eh as [[n1 v1]|], nh as [[n2 v2]|]; cbn; try (split; congruence).
  rewrite orb_false_iff, !bool_decide_eq_false. split; [intros [?%dec_stable ?%dec_stable]; congruence|].
  intros [= -> ->]. by split; intros [].
Qed.

Lemma inconsistentCnStatus_spec e n :
  same_cn (inconsistentCnStatus e n).1 e /\ ((inconsistentCnStatus e n).2 = false <-> same_cn e n).
Proof.
  unfold same_cn.
  assert (Hgo : forall e n, let '(st, differs) :=
      inconsistentComponentStatus (Some (cn_parts e).1) (Some (cn_parts n).1) in
    let r := (c ← e; s ← st; Some (c <| cns_Status := s |>),
              differs || inconsistentHorizontalStatus (e ≫= cns_HorizontalScaler) (n ≫= cns_HorizontalScaler)) in
    (same_component (cn_parts r.1).1 (cn_parts e).1 /\ (cn_parts r.1).2 = (cn_parts e).2) /\
    (r.2 = false <-> same_component (cn_parts e).1 (cn_parts n).1 /\ (cn_parts e).2 = (cn_parts n).2)).
  { clear. intros e n.
    pose proof (inconsistentComponentStatus_spec (Some (cn_parts e).1) (Some (cn_parts n).1)) as [H1 H2].
    destruct (inconsistentComponentStatus _ _) as [st differs]. cbn [fst snd] in *.
    assert (Hs : forall s : option CnStatus, s ≫= cns_HorizontalScaler = (cn_parts s).2) by (by intros [c|]).
    cbv zeta. split.
    - inversion H1 as [x y Hxy|]; subst. destruct e as [c|]; cbn in *; by split.
    - cbn [snd]. rewrite orb_false_iff, H2, horizontal_spec, !Hs. split; intros [Hc Hh]; (split; [|done]).
      + by inversion Hc.
      + by constructor. }
  specialize (Hgo e n). destruct e as [e|], n as [n|]; cbn -[inconsistentComponentStatus] in Hgo |- *;
    [destruct (inconsistentComponentStatus _ _) as [[st|] d]; exact Hgo..|].
  split; [by split|]. split; [by split | done].
Qed.

(** C23: the reconciler takes two statuses for consistent exactly when they agree
    on every component's condition and service and on its pods in any order,
    whatever the hash of its configuration, and the status that it keeps after
    the comparison, with its lists sorted in place, is the same status. *)
Theorem status_comparison (s : DcrStatus) (d : Dcr) :
  same_status (inconsistentStatus s d).1 s /\
  ((inconsistentStatus s d).2 = false <-> same_status s (dcr_Status d)).
Proof.
  unfold inconsistentStatus.
  pose proof (inconsistentComponentStatus_spec (FEStatus s) (FEStatus (dcr_Status d))) as [F1 F2].
  destruct (inconsistentComponentStatus (FEStatus s) _) as [fe b1]. cbn in F1, F2.
  pose proof (inconsistentComponentStatus_spec (BEStatus s) (BEStatus (dcr_Status d))) as [B1 B2].
  pose proof (inconsistentCnStatus_spec (CnStatus_ s) (CnStatus_ (dcr_Status d))) as [C1 C2].
  pose proof (inconsistentComponentStatus_spec (BrokerStatus s) (BrokerStatus (dcr_Status d))) as [K1 K2].
  assert (Hc : forall o, option_Forall2 same_component o o) by (intros []; repeat constructor; reflexivity).
  assert (Hn : forall o, same_cn o o) by (intros o; split; reflexivity).
  destruct b1; [split; [by split|]; split; [done|]; intros []; intuition congruence|]. cbn.
  destruct (inconsistentComponentStatus (BEStatus s) _) as [be b2]. cbn in B1, B2.
  destruct b2; [split; [by split|]; split; [done|]; intros []; intuition congruence|]. cbn.
  destruct (inconsistentCnStatus (CnStatus_ s) _) as [cn b3]. cbn in C1, C2.
  destruct b3; [split; [by split|]; split; [done|]; intros []; intuition congruence|]. cbn.
  destruct (inconsistentComponentStatus (BrokerStatus s) _) as [bk b4]. cbn in K1, K2 |- *.
  split; [by split|]. split; [intros Hb; split; tauto | by intros []; tauto].
Qed.

(** ** Writing the status *)

Lemma update_attempts_wp n d : wp (update_attempts n d) (fun tr o =>
  omap dcr_get tr = [] /\ exists k, omap status_write tr = repeat d k /\ (k <= n)%nat /\
    (n <> 0%nat -> k <> 0%nat)).
Proof.
  induction n as [|n IH]; cbn [update_attempts].
  { split; [done|]. by exists 0%nat. }
  cbn [bind call]. intros [e|].
  - destruct (IsConflict e); [|split; [done|]; exists 1%nat; split; [done|]; lia].
    destruct n as [|n]; [split; [done|]; exists 1%nat; split; [done|]; lia|].
    eapply wp_mono; [exact IH|]. intros tr o [Hg (k & Hk & Hle & _)]. split; [exact Hg|].
    exists (S k). split; [by cbn; rewrite Hk|]. lia.
  - split; [done|]. exists 1%nat. split; [done|]. lia.
Qed.

(** The cluster that is written for the status of [dcr] after [edcr] was read. *)
Definition written_as (dcr edcr d : Dcr) : Prop :=
  exists st, d = edcr <| dcr_Status := st |> /\ same_status st (dcr_Status dcr).

(** The attempts to write: the same cluster, one to four times. *)
Definition writes_status (dcr edcr : Dcr) (tr : trace) : Prop :=
  exists d k, written_as dcr edcr d /\ omap status_write tr = repeat d k /\ (1 <= k <= 4)%nat.

(** Every end of the update, by what the API server has: a cluster that
    differs is written; one that agrees is asked for again while a component
    waits, and is written when none does. *)
Definition updated (dcr : Dcr) (tr : trace) (o : outcome (DdcReconciler.Result * option goerr)) : Prop :=
  match omap dcr_get tr with
  | [Ok edcr] =>
      if decide ((inconsistentStatus (dcr_Status dcr) edcr).2 = false /\
                 reconcile (dcr <| dcr_Status := (inconsistentStatus (dcr_Status dcr) edcr).1 |>) <> Some false)
      then omap status_write tr = [] /\ forall r, o = Done r -> r = (DdcReconciler.after 5, None)
      else writes_status dcr edcr tr /\ forall r, o = Done r -> r.1 = DdcReconciler.noResult
  | _ => omap status_write tr = [] /\ forall r, o = Done r -> r.2 <> None
  end.

Lemma update_write_wp dcr edcr : wp
  (let! err := update_attempts 4 (edcr <| dcr_Status := (inconsistentStatus (dcr_Status dcr) edcr).1 |>) in
   Ret (DdcReconciler.noResult, err))
  (fun tr o => omap dcr_get tr = [] /\ writes_status dcr edcr tr /\
    forall r, o = Done r -> r.1 = DdcReconciler.noResult).
Proof.
  apply wp_bind. eapply wp_mono; [apply update_attempts_wp|].
  intros tr o [Hg (k & Hk & Hle & Hne)].
  assert (writes_status dcr edcr tr).
  { eexists _, k. split; [|split; [exact Hk | lia]]. eexists. split; [done|].
    apply (status_comparison (dcr_Status dcr) edcr). }
  destruct o as [err|w]; cbn [wp]; rewrite ?app_nil_r; (split; [done|]; split; [done|]); by intros r [= <-].
Qed.

Lemma updateDorisClusterStatus_wp dcr : wp (updateDorisClusterStatus dcr) (updated dcr).
Proof.
  unfold updateDorisClusterStatus. cbn [bind call]. intros [edcr|err].
  2: { cbn. split; [done|]. by intros r [= <-]. }
  pose proof (update_write_wp dcr edcr) as Hw. unfold updated.
  destruct (inconsistentStatus (dcr_Status dcr) edcr) as [st differs] eqn:Hi. cbn [fst snd] in *.
  destruct differs; cbn [dcr_Status] in Hw |- *.
  - eapply wp_mono; [exact Hw|]. intros tr o (Hg & H1 & H2). cbn -[inconsistentStatus]. rewrite Hg, Hi.
    rewrite decide_False by (by intros []). by split.
  - destruct (reconcile _) as [[]|] eqn:Hr; cbn [deref].
    + cbn -[inconsistentStatus]. rewrite Hi, decide_True; [split; [done|]; by intros r [= <-]|].
      split; [done|]. cbn [fst]. by rewrite Hr.
    + eapply wp_mono; [exact Hw|]. intros tr o (Hg & H1 & H2). cbn -[inconsistentStatus]. rewrite Hg, Hi.
      rewrite decide_False; [by split|]. cbn [fst]. intros [_ Hn]. by apply Hn.
    + cbn -[inconsistentStatus]. rewrite Hi, decide_True; [split; [done|]; by intros r [=]|].
      split; [done|]. cbn [fst]. by rewrite Hr.
Qed.

Definition transition_time (s : ComponentStatus) : Time := cc_LastTransitionTime (cst_ComponentCondition s).

(** A status whose FE condition carries the reading of the clock that the
    pass made is written at every pass, one to four times until there is no
    conflict, as the status of the cluster that the API server has then; the
    pass is never asked to run again after five seconds, although components wait. *)
Theorem fresh_status_written (dcr : Dcr) (s : ComponentStatus)
    (Hs : FEStatus (dcr_Status dcr) = Some s) (Hclock : t_monotonic (transition_time s) = true) :
  wp (updateDorisClusterStatus dcr) (fun tr o => forall edcr, omap dcr_get tr = [Ok edcr] ->
    (forall e, FEStatus (dcr_Status edcr) = Some e -> t_monotonic (transition_time e) = false) ->
    writes_status dcr edcr tr /\ forall r, o = Done r -> r.1 = DdcReconciler.noResult).
Proof.
  eapply wp_mono; [apply updateDorisClusterStatus_wp|]. intros tr o Hu edcr Hget Hdec.
  unfold updated in Hu. rewrite Hget in Hu. rewrite decide_False in Hu; [exact Hu|].
  intros [[Hfe _ _ _]%status_comparison _]. rewrite Hs in Hfe. inversion Hfe as [x e Hx Hx1 He|]; subst.
  specialize (Hdec e (eq_sym He)). destruct Hx as [Hx _]. unfold transition_time in *. congruence.
Qed.

(** ** Pods and phase *)

Lemma perm_three {A} (x : A) l1 l2 l3 l : l1 ++ l2 ++ l3 ≡ₚ l ->
  (x :: l1) ++ l2 ++ l3 ≡ₚ x :: l /\ l1 ++ (x :: l2) ++ l3 ≡ₚ x :: l /\ l1 ++ l2 ++ x :: l3 ≡ₚ x :: l.
Proof.
  intros <-. split; [done|]. split.
  - symmetry. apply Permutation_middle.
  - rewrite !app_assoc. symmetry. apply Permutation_middle.
Qed.

Lemma classify_perm pods :
  pc_readys (classify pods) ++ pc_creatings (classify pods) ++ pc_faileds (classify pods) ≡ₚ pods.
Proof.
  induction pods as [|p pods IH]; [done|]. apply (perm_three p) in IH as (H1 & H2 & H3).
  unfold classify in *. cbn [pc_readys pc_creatings pc_faileds List.filter] in *.
  destruct (PodIsReady (p_Status p)); [exact H1|]. destruct (pod_starting p); [exact H2 | exact H3].
Qed.

Lemma explain_phase m members c : cc_Phase (explain m members c) = cc_Phase c.
Proof. destruct members; [done|]. cbn. by destruct (m !! _). Qed.

Lemma same_restart_spec key pods : same_restart key pods = true <-> forall p q, p ∈ pods -> q ∈ pods ->
  map_get (m_Annotations (p_Meta p)) key = map_get (m_Annotations (p_Meta q)) key.
Proof.
  destruct pods as [|p pods]; cbn [same_restart]; [split; [intros _ p q Hp; by apply elem_of_nil in Hp | done]|].
  rewrite forallb_forall. split.
  - intros Hall a b Ha Hb. apply list_elem_of_In, Hall, bool_decide_eq_true in Ha, Hb. congruence.
  - intros Heq q Hq. apply bool_decide_eq_true, Heq; [by apply list_elem_of_In | left].
Qed.

(** All the wanted pods are ready, and they have been restarted alike. *)
Definition all_available (pods : list Pod) (replicas : Z) (c : ComponentType) : Prop :=
  Z.of_nat (length (filter (fun p => PodIsReady (p_Status p) = true) pods)) = replicas /\
  forall p q, p ∈ pods -> q ∈ pods -> map_get (m_Annotations (p_Meta p)) (GetRestartAnnotationKey c) =
    map_get (m_Annotations (p_Meta q)) (GetRestartAnnotationKey c).

(** A pod that is neither ready nor on its way. *)
Definition member_failed (pods : list Pod) : Prop :=
  exists p, p ∈ pods /\ PodIsReady (p_Status p) = false /\ pod_starting p = false.

Lemma ready_length pods : length (filter (fun p => PodIsReady (p_Status p) = true) pods) =
  length (pc_readys (classify pods)).
Proof.
  induction pods as [|p pods IH]; [done|]. unfold classify in *. cbn [pc_readys List.filter] in *.
  rewrite filter_cons. case_decide as Hr; [rewrite Hr; cbn; by rewrite IH|].
  destruct (PodIsReady (p_Status p)); done.
Qed.

Lemma faileds_nil pods : pc_faileds (classify pods) <> [] <-> member_failed pods.
Proof.
  unfold member_failed, classify. cbn [pc_faileds]. split.
  - destruct (List.filter _ pods) as [|p l] eqn:E; [done|]. intros _. exists p.
    assert (Hin : In p (p :: l)) by (by left). rewrite <- E in Hin. apply List.filter_In in Hin as [Hin Hb].
    apply andb_true_iff in Hb as [?%negb_true_iff ?%negb_true_iff]. split; [by apply list_elem_of_In | done].
  - intros (p & Hin & H1 & H2) E. assert (Hf : In p []); [|done]. rewrite <- E. apply List.filter_In.
    split; [by apply list_elem_of_In|]. by rewrite H1, H2.
Qed.

(** The members of a status are the component's pods, each in one class;
    the phase is available exactly when the wanted pods are ready and restarted
    alike, a failed pod makes it failed otherwise, and else it is kept. *)
Theorem pods_classified (pods : list Pod) (replicas : Z) (c : ComponentType) (st : ComponentStatus) :
  let st' := status_of_pods pods replicas c st in
  cst_RunningMembers st' ++ cst_CreatingMembers st' ++ cst_FailedMembers st' ≡ₚ map p_Name pods /\
  (all_available pods replicas c -> cst_Phase st' = Available) /\
  (~ all_available pods replicas c -> member_failed pods -> cst_Phase st' = HaveMemberFailed) /\
  (~ all_available pods replicas c -> ~ member_failed pods -> cst_Phase st' = cst_Phase st).
Proof.
  cbv zeta. split.
  { cbn -[classify]. rewrite <- !fmap_app. apply (fmap_Permutation p_Name), classify_perm. }
  assert (Hb : (Z.of_nat (length (pc_readys (classify pods))) =? replicas) &&
    same_restart (GetRestartAnnotationKey c) pods = true <-> all_available pods replicas c).
  { unfold all_available. by rewrite andb_true_iff, Z.eqb_eq, same_restart_spec, ready_length. }
  rewrite <- faileds_nil. unfold status_of_pods, cst_Phase. cbn -[classify] in *.
  destruct (_ && _); [|destruct (pc_faileds (classify pods)) as [|p l] eqn:Hf]; cbn -[classify].
  - split; [done|]. split; intros Hn; destruct Hn; by apply Hb.
  - split; [intros ?%Hb; done|]. split; [by intros _ []|]. intros _ _. apply explain_phase.
  - split; [intros ?%Hb; done|]. split; [intros _ _; destruct (podmap pods !! _); done|]. intros _ Hn. by destruct Hn.
Qed.

(** ** Witness *)

(** A cluster whose FE status is of this pass, while the API server has the one
    of the pass before. *)
Definition demo_component (monotonic : bool) : ComponentStatus :=
  zeroComponentStatus <| cst_ComponentCondition := mkCondition "c-fe" Initializing (mkTime 7 monotonic) "" "" |>.
Definition demo_status_dcr (monotonic : bool) : Dcr := set_fe_status (Some (demo_component monotonic)) emptyDcr.

Lemma fresh_status_written_witness :
  let tr := [@Ev OpE _ (CGet KDcr "" "") (Ok (demo_status_dcr false));
             Ev (DcrStatusUpdate (demo_status_dcr true)) None] in
  exec (updateDorisClusterStatus (demo_status_dcr true)) tr (Done (DdcReconciler.noResult, None)) /\
  writes_status (demo_status_dcr true) (demo_status_dcr false) tr.
Proof.
  cbv zeta. assert (Hex : exec (updateDorisClusterStatus (demo_status_dcr true))
    [@Ev OpE _ (CGet KDcr "" "") (Ok (demo_status_dcr false)); Ev (DcrStatusUpdate (demo_status_dcr true)) None]
    (Done (DdcReconciler.noResult, None))).
  { apply exec_call. vm_compute (updateDorisClusterStatus _). repeat constructor. }
  split; [exact Hex|].
  refine (proj1 (wp_exec _ _ (fresh_status_written (demo_status_dcr true) (demo_component true) eq_refl eq_refl)
    _ _ Hex (demo_status_dcr false) eq_refl _)).
  intros e [= <-]. reflexivity.
Defined.
