(* ===== verification/DcrReconcilerProps.v ===== *)
(** The pass over a DorisCluster: the controllers of the components against the
    interface that the reconciler relies on, when the status is written, what
    is removed, and a cluster without FE. *)

From Stdlib Require Import ZArith Lia Ascii.
From stdpp Require Import base list gmap strings.
From S2P Require Import Prelude GoStr KubeTypes DdcApi Client Traces Mysql Resource External SubDefault Quiet Observers Demo.
From S2P Require Import DcrApi DcrResource DcrSub DcrFe DcrReconciler DcrTraces PodProps DcrStatusProps DcrFeProps.
From S2P Require DcrBe DcrCn DdcReconciler.

Local Open Scope string_scope.
Local Open Scope Z_scope.
Local Open Scope dop_scope.

(** ** The interface *)

(** What the reconciler relies on: a controller neither reads clusters nor
    writes their status; it hands the cluster on. *)
Class ClusterStatusFree (sc : SubController) := {
  csf_sync : forall d, only no_dcr (sc_Sync sc d);
  csf_clear : forall d, only no_dcr (sc_ClearResources sc d);
  csf_update : forall d, only no_dcr (sc_UpdateComponentStatus sc d)
}.

Local Ltac ev := intros; by split.

Section controllers.
Context `{External}.

Lemma inject_no_dcr d c : only no_dcr (CheckRestartTimeAndInject d c).
Proof. unfold CheckRestartTimeAndInject, warn. spec_go. Qed.

Lemma clear_common_no_dcr d c : only no_dcr (ClearCommonResources d c).
Proof. unfold ClearCommonResources, DeleteStatefulset, DeleteService. spec_go. Qed.

Lemma endpoints_no_dcr ns name : only no_dcr (endpoints_available ns name).
Proof. unfold endpoints_available. spec_go. Qed.

Lemma FeAvailable_no_dcr d : only no_dcr (FeAvailable d).
Proof. unfold FeAvailable. pose proof endpoints_no_dcr. destruct (GetConfigFEAddrForAccess _ _). case_decide; spec_go. Qed.

Lemma classify_no_dcr ns st l n c : only no_dcr (ClassifyPodsByStatus ns st l n c).
Proof. unfold ClassifyPodsByStatus. spec_go. Qed.

Lemma hash_no_dcr d c : only no_dcr (BuildCoreConfigmapStatusHash d c).
Proof. apply BuildCoreConfigmapStatusHash_spec; ev. Qed.

Lemma service_no_dcr svc eq : only no_dcr (ApplyService svc eq).
Proof. apply ApplyService_spec; ev. Qed.

Lemma apply_services_no_dcr d c cfg k : only no_dcr k -> only no_dcr (apply_services d c cfg k).
Proof. intros Hk. unfold apply_services, or_fail, assert_ok. pose proof service_no_dcr. spec_go. Qed.


Lemma beside_no_dcr {A} (p : op A) : only beside p -> only no_dcr p.
Proof. intros Hp. eapply spec_weaken; [exact Hp | by intros e (_ & ? & _) | done]. Qed.

Lemma build_no_dcr {A} (build : Dcr -> config -> op A) `{!TemplateBuilder build} d cfg : only no_dcr (build d cfg).
Proof. by apply build_free; [|intros e (_ & ? & _)%reads_config_free]. Qed.

Lemma apply_sts_no_dcr st (equal : StatefulSet -> StatefulSet -> unit -> op (StatefulSet * unit * bool)) pasfs :
  (forall a b u, only no_dcr (equal a b u)) -> only no_dcr (apply_stateful_set st tt equal pasfs).
Proof. intros He. unfold apply_stateful_set, CreateClientObject, PatchClientObject. spec_go. Qed.

Lemma equal_no_dcr a b u : only no_dcr (restricted_equal a b u).
Proof. unfold restricted_equal. spec_go. Qed.

Lemma prepare_no_dcr d c : only no_dcr (PrepareReconcileResources d c).
Proof. apply PrepareReconcileResources_spec; ev. Qed.
Lemma check_no_dcr d c : only no_dcr (check_component d c).
Proof. apply check_component_spec; ev. Qed.
Lemma shared_no_dcr d : only no_dcr (CheckSharedPVC d).
Proof. apply CheckSharedPVC_spec; ev. Qed.
Lemma config_no_dcr cmi ns c : only no_dcr (k8s_GetConfig cmi ns c).
Proof. apply k8s_GetConfig_spec; ev. Qed.
Lemma init_no_dcr d c : only no_dcr (InitStatus d c).
Proof. eapply spec_weaken; [apply (InitStatus_spec no_dcr); ev|done..]. Qed.
Lemma compare_no_dcr d old c : only no_dcr (CompareConfigmapAndTriggerRestart d old c).
Proof. eapply spec_weaken; [apply (Compare_spec no_dcr); ev|done..]. Qed.
Lemma get_config_no_dcr cmi ns c : only no_dcr (GetConfig cmi ns c).
Proof. eapply spec_weaken; [apply (GetConfig_spec no_dcr); ev|done..]. Qed.
End controllers.

#[export] Hint Resolve inject_no_dcr clear_common_no_dcr FeAvailable_no_dcr classify_no_dcr hash_no_dcr service_no_dcr
  build_no_dcr equal_no_dcr prepare_no_dcr check_no_dcr shared_no_dcr config_no_dcr init_no_dcr compare_no_dcr
  get_config_no_dcr : spec.

(** ** The controllers of the operator *)

Section instances.
Context `{External}.
Context (build : Dcr -> config -> op PodTemplateSpec) `{!TemplateBuilder build}.
Context (build_in : Dcr -> config -> op (Dcr * PodTemplateSpec)) `{!TemplateBuilder build_in}.

Lemma fe_sync_no_dcr d : only no_dcr (DcrFe.Sync build d).
Proof.
  assert (Hs : forall cl old cfg, only no_dcr (sync_statefulset build cl old cfg)).
  { intros. unfold sync_statefulset, prepareStatefulsetApply, safeScaleDown, buildFEStatefulSet, assert_ok, or_fail, warn.
    pose proof (fun cl => beside_no_dcr _ (dropObserver_beside cl)).
    pose proof (fun st => apply_sts_no_dcr st _ [] equal_no_dcr). spec_go. }
  unfold DcrFe.Sync, or_fail. spec_go. apply apply_services_no_dcr. spec_go.
Qed.

Lemma fe_clear_no_dcr d : only no_dcr (DcrFe.ClearResources d).
Proof.
  assert (Hdel : forall sel sts v max left err, only no_dcr (delete_from d sel sts v max left err)).
  { intros sel sts v max left; revert max; induction left as [|left IH]; intros max err; cbn [delete_from]; [by apply spec_ret|].
    unfold DeletePVC, warn. spec_go. }
  assert (Hsur : forall sel sts n all pvcs vs err, only no_dcr (delete_surplus d sel sts n all pvcs vs err)).
  { intros sel sts n all pvcs; induction vs as [|v vs IH]; intros err; cbn [delete_surplus]; [by apply spec_ret|].
    unfold deletePVCs. spec_go. }
  assert (Hl : only no_dcr (listAndDeletePersistentVolumeClaim d Component_FE)).
  { unfold listAndDeletePersistentVolumeClaim, claim_replicas. destruct (base_of d Component_FE) as [b|]; [|by apply spec_panic].
    cbn [deref]. destruct (bs_Replicas b); [|by apply spec_panic]. cbn [deref].
    apply with_claims_spec; [ev|ev|ev|intros; by apply spec_ret|auto]. }
  unfold DcrFe.ClearResources, RecycleResources, recycleFEResources. spec_go.
Qed.

Lemma update_no_dcr d : only no_dcr (DcrFe.UpdateComponentStatus d).
Proof. unfold DcrFe.UpdateComponentStatus. spec_go. Qed.

#[export] Instance feController_free : ClusterStatusFree (feController build).
Proof. split; intros d; [apply fe_sync_no_dcr | apply fe_clear_no_dcr | apply update_no_dcr]. Qed.

Lemma removed_no_dcr {A} d (status : option A) c : only no_dcr (DcrBe.clear_when_removed d status c).
Proof. unfold DcrBe.clear_when_removed. spec_go. Qed.

#[export] Instance beController_free : ClusterStatusFree (beController build_in).
Proof.
  split; intros d; cbn; [|apply removed_no_dcr | unfold DcrBe.Be.UpdateComponentStatus; spec_go].
  unfold DcrBe.Be.Sync, DcrBe.Be.prepareStatefulsetApply, DcrBe.Be.buildBEStatefulSet, or_fail, assert_ok. spec_go.
  apply apply_services_no_dcr. pose proof (fun st pasfs => apply_sts_no_dcr st _ pasfs equal_no_dcr). spec_go.
Qed.

#[export] Instance brokerController_free : ClusterStatusFree (brokerController build_in).
Proof.
  split; intros d; cbn; [|apply removed_no_dcr | unfold DcrBe.Broker.UpdateComponentStatus; spec_go].
  unfold DcrBe.Broker.Sync, DcrBe.Broker.buildBKStatefulSet, or_fail, assert_ok.
  assert (He : forall a b u, only no_dcr (DcrBe.Broker.plain_equal a b u)) by (intros; unfold DcrBe.Broker.plain_equal; spec_go).
  pose proof (fun st pasfs => apply_sts_no_dcr st _ pasfs He). spec_go.
Qed.

#[export] Instance cnController_free : ClusterStatusFree (cnController build).
Proof.
  assert (Hdel : forall d, only no_dcr (DcrCn.DeleteAutoscaler_ d)).
  { intros. unfold DcrCn.DeleteAutoscaler_, DeleteAutoscaler. spec_go. }
  assert (Hc : forall d, only no_dcr (DcrCn.ClearResources d)).
  { intros. unfold DcrCn.ClearResources, warn. spec_go. }
  split; intros d; cbn; [|apply Hc | unfold DcrCn.UpdateComponentStatus, warn; spec_go].
  unfold DcrCn.Sync, DcrCn.cn_GetConfig, DcrCn.buildCnStatefulSet, or_fail, assert_ok. spec_go.
  apply apply_services_no_dcr. unfold DcrCn.applyStatefulSet, DcrCn.deployAutoScaler, CreateOrUpdateClientObject,
    CreateClientObject, UpdateClientObject. spec_go.
Qed.
End instances.

(** ** The pass *)

Section pass.
Context `{External}.

Lemma until_failure_no_dcr (f : SubController -> Dcr -> op (Dcr * option goerr)) scs d :
  Forall (fun sc => forall d, only no_dcr (f sc d)) scs -> only no_dcr (until_failure f scs d).
Proof.
  intros Hf. revert d; induction Hf as [|sc scs Hsc Hscs IH]; intros d; cbn [until_failure]; [by apply spec_ret|].
  eapply spec_bind; [apply Hsc|]. intros [d' [e|]] _; [by apply spec_ret | apply IH].
Qed.

Lemma clear_all_no_dcr scs d : Forall ClusterStatusFree scs -> only no_dcr (clear_all scs d).
Proof.
  intros Hf. revert d; induction Hf as [|sc scs Hsc Hscs IH]; intros d; cbn [clear_all]; [by apply spec_ret|].
  eapply spec_bind; [apply Hsc|]. intros [d' r] _. apply IH.
Qed.

(** Every status that is written is of the cluster that was read last, between
    one and four times, and only for a cluster with FE replicas. *)
Definition writes_last_read (edcr : Dcr) (tr : trace) : Prop :=
  omap status_write tr <> [] -> is_Some (fe_replicas edcr) /\ exists d fresh k,
    omap dcr_get tr = [Ok fresh] /\ dcr_Spec d = dcr_Spec fresh /\ dcr_Meta d = dcr_Meta fresh /\
    omap status_write tr = repeat d k /\ (1 <= k <= 4)%nat.

(** Without FE replicas the pass does not succeed. *)
Definition fails_without_fe {A} (edcr : Dcr) (o : outcome (A * (DdcReconciler.Result * option goerr))) : Prop :=
  fe_replicas edcr = None -> forall w r, o <> Done (w, (r, None)).

Lemma pass_silent {A} edcr tr (o : outcome (A * (DdcReconciler.Result * option goerr))) : omap status_write tr = [] ->
  fails_without_fe edcr o -> writes_last_read edcr tr /\ fails_without_fe edcr o.
Proof. intros Hw Hf. split; [|done]. intros Hn. by rewrite Hw in Hn. Qed.

Lemma failed_end {A} edcr (w : A) r e : fails_without_fe edcr (Done (w, (r, Some e))).
Proof. by intros _ w' r' [=]. Qed.
Lemma crashed_end {A} edcr why : @fails_without_fe A edcr (Crashed why).
Proof. by intros _ w r. Qed.
Hint Resolve failed_end crashed_end : core.

Lemma revert_wp edcr dcr : wp (revertDorisClusterSomeFields edcr dcr) (fun tr o =>
  Forall no_dcr tr /\ (fe_replicas edcr = None -> exists w, o = Crashed w)).
Proof.
  unfold revertDorisClusterSomeFields, ApplyDorisCluster.
  destruct (fe_replicas edcr); cbn [deref]; [|split; [done | by eexists]].
  destruct (fe_replicas dcr); cbn [deref]; [|by split]. destruct (negb _); [|by split].
  cbn [bind call]. intros [d|e]; [|destruct (IsConflict e)]; (split; [by repeat constructor | done]).
Qed.

Lemma finish_pass_wp edcr dcr (w : strmap) : wp
  (let! '(dcr, err) := revertDorisClusterSomeFields edcr dcr in
   match err with
   | Some e => Ret (w, (DdcReconciler.noResult, Some e))
   | None => let! r := updateDorisClusterStatus dcr in Ret (w, r)
   end) (fun tr o => writes_last_read edcr tr /\ fails_without_fe edcr o).
Proof.
  apply wp_bind. eapply wp_mono; [apply revert_wp|]. intros tr o [[Hg Hs]%no_dcr_trace Hcr].
  destruct o as [[dcr1 [e|]]|why]; [cbn [wp]; rewrite app_nil_r; apply pass_silent; auto| |apply pass_silent; auto].
  apply wp_bind. eapply wp_mono; [apply updateDorisClusterStatus_wp|]. intros tr' o Hu.
  assert (Hfe : is_Some (fe_replicas edcr)).
  { destruct (fe_replicas edcr); [by eexists|]. by destruct (Hcr eq_refl). }
  assert (writes_last_read edcr (app tr tr')) as Hw.
  { intros Hn. split; [done|]. rewrite !omap_app, Hg, Hs in *. cbn [app] in *. unfold updated in Hu.
    destruct (omap dcr_get tr') as [|[fresh|] [|]] eqn:Hget; try (by destruct Hu as [Hu _]; rewrite Hu in Hn).
    case_decide; [by destruct Hu as [Hu _]; rewrite Hu in Hn|].
    destruct Hu as [(d & k & (st & -> & _) & Hk & Hle) _]. by exists (fresh <| dcr_Status := st |>), fresh, k. }
  assert (Hf : forall A (o : outcome (A * _)), fails_without_fe edcr o).
  { intros A o' Hno. destruct Hfe as [n Hfe]. congruence. }
  destruct o as [r|why]; cbn [wp]; rewrite ?app_nil_r; by split.
Qed.

(** The two over the trace of a pass, by the cluster that it read first. *)
Definition pass_writes_status {A} (tr : trace) (o : outcome (A * (DdcReconciler.Result * option goerr))) : Prop :=
  match omap dcr_get tr, tr with
  | Ok edcr :: _, _ :: rest =>
      if decide (m_DeletionTimestamp (dcr_Meta edcr) = None)
      then writes_last_read edcr rest /\ fails_without_fe edcr o
      else omap status_write tr = []
  | _, _ => omap status_write tr = []
  end.

(** C16: in a pass over a cluster, whatever the orders of the controllers, the
    status is written only when the cluster has FE replicas and is not being
    deleted, on the cluster as it was read last and at most four times; a pass
    over a cluster without FE replicas that is not being deleted never succeeds. *)
Theorem status_of_last_read (sync_order clear_order status_order : list SubController) ns name watched
    (Hsync : Forall ClusterStatusFree sync_order) (Hclear : Forall ClusterStatusFree clear_order)
    (Hstatus : Forall ClusterStatusFree status_order) :
  wp (Reconcile sync_order clear_order status_order ns name watched) pass_writes_status.
Proof.
  unfold Reconcile, pass_writes_status. cbn [bind call]. intros [edcr|err]; [|by destruct (IsNotFound err)].
  destruct (m_DeletionTimestamp (dcr_Meta edcr)) as [ts|] eqn:Hts.
  - apply wp_bind. eapply wp_mono; [by apply clear_all_no_dcr|]. intros tr o [[_ Hs]%no_dcr_trace _].
    destruct o; cbn [wp]; cbn; rewrite ?app_nil_r, Hts, decide_False by done; done.
  - set (Q := fun (tr : trace) o => writes_last_read edcr tr /\ @fails_without_fe strmap edcr o).
    eapply (wp_mono _ Q); [|intros tr o HQ; cbn; by rewrite Hts, decide_True].
    assert (Hpre : forall A (p : op A) f, only no_dcr p -> (forall a, wp (f a) Q) -> wp (bind p f) Q).
    { intros A p f Hp Hf. eapply (wp_prefix no_dcr (fun _ => True)); [..|exact Hp|auto].
      - intros tr tr' o [Hg Hs]%no_dcr_trace [Hw Hfe]. split; [|done]. unfold writes_last_read in *.
        rewrite !omap_app, Hg, Hs. exact Hw.
      - intros w. apply pass_silent; auto. }
    apply Hpre; [apply until_failure_no_dcr; eapply Forall_impl; [exact Hsync | by intros sc []]|].
    intros [d1 [e|]]; [apply pass_silent; auto|]. apply Hpre; [by apply clear_all_no_dcr|]. intros d2.
    apply Hpre; [apply until_failure_no_dcr; eapply Forall_impl; [exact Hstatus | by intros sc []]|].
    intros [d3 [e|]]; [apply pass_silent; auto|]. apply finish_pass_wp.
Qed.
End pass.

(** ** Removal *)

(** The objects that every component may own. *)
Definition component_objects (d : Dcr) (c : ComponentType) : list (kind * string) :=
  [(KSts, GenerateComponentStatefulSetName d c); (KSvc, GenerateInternalCommunicateServiceName d c);
   (KSvc, GenerateExternalServiceName d c)].

(** A deletion of one of the objects, as the API server returned it. *)
Definition deletes_object (ns : string) (objects : list (kind * string)) (tr : trace) (e : event OpE) : Prop :=
  exists k name (o : obj k) r, (k, name) ∈ objects /\ e = Ev (CDelete k o) r /\ Ev (CGet k ns name) (Ok o) ∈ tr.

(** The API server said that the object does not exist, or accepted its deletion. *)
Definition object_gone (ns : string) (tr : trace) (kn : kind * string) : Prop :=
  (exists err, Ev (CGet kn.1 ns kn.2) (Er err) ∈ tr /\ IsNotFound err = true) \/
  (exists (o : obj kn.1) r, Ev (CGet kn.1 ns kn.2) (Ok o) ∈ tr /\ Ev (CDelete kn.1 o) r ∈ tr /\
     forall err, r = Some err -> IsNotFound err = true).

Definition removes (ns : string) (objects : list (kind * string)) (tr : trace) (done : bool) : Prop :=
  (forall e, e ∈ tr -> is_write e = true -> deletes_object ns objects tr e) /\
  (done = true -> Forall (object_gone ns tr) objects).

(** The shape of the deletions of [client.go]. *)
Definition get_delete (k : kind) (ns name : string) : op (option goerr) :=
  let! got := call (CGet k ns name) in
  match got with
  | Er err => if IsNotFound err then Ret None else Ret (Some err)
  | Ok o => call (CDelete k o)
  end.

Definition not_failed (err : option goerr) : bool :=
  match err with Some e => IsNotFound e | None => true end.

Lemma get_delete_wp k ns name : wp (get_delete k ns name) (fun tr o =>
  exists err, o = Done err /\ removes ns [(k, name)] tr (not_failed err)).
Proof.
  unfold get_delete. cbn [bind call]. intros [o|err].
  - intros r. exists r. split; [done|]. split.
    + intros e [->|[->|[]%elem_of_nil]%elem_of_cons]%elem_of_cons Hw; [done|].
      exists k, name, o, r. split; [left|]. split; [done | left].
    + intros Hr. constructor; [|constructor]. right. exists o, r. split; [left|]. split; [right; left|].
      intros err ->. exact Hr.
  - assert (Hno : forall e, e ∈ [Ev (CGet k ns name) (Er err)] -> is_write e = true -> False)
      by (by intros e ->%list_elem_of_singleton).
    destruct (IsNotFound err) eqn:Hn; cbn [wp]; eexists; (split; [done|]); split;
      try (by intros e He Hw; destruct (Hno e He Hw)).
    + intros _. constructor; [|constructor]. left. exists err. split; [left | done].
    + cbn. by rewrite Hn.
Qed.

Lemma removes_app ns o1 o2 tr1 tr2 b : removes ns o1 tr1 true -> removes ns o2 tr2 b ->
  removes ns (o1 ++ o2) (app tr1 tr2) b.
Proof.
  intros [D1 G1] [D2 G2]. split.
  - intros e [He|He]%elem_of_app Hw.
    + destruct (D1 e He Hw) as (k & n & o & r & H1 & H2 & H3). exists k, n, o, r. rewrite !elem_of_app. auto.
    + destruct (D2 e He Hw) as (k & n & o & r & H1 & H2 & H3). exists k, n, o, r. rewrite !elem_of_app. auto.
  - assert (Hmono : forall tr tr' kn, (forall e, e ∈ tr -> e ∈ tr') -> object_gone ns tr kn -> object_gone ns tr' kn).
    { intros tr tr' kn Hin [(err & H1 & H2)|(o & r & H1 & H2 & H3)]; [left; exists err | right; exists o, r]; auto. }
    intros ->. apply Forall_app. split; (eapply Forall_impl; [by apply G1 || by apply G2|]); intros kn;
      apply Hmono; intros e He; apply elem_of_app; auto.
Qed.

Lemma removes_some ns o1 o2 tr : removes ns o1 tr false -> removes ns (o1 ++ o2) tr false.
Proof.
  intros [D1 _]. split; [|done]. intros e He Hw. destruct (D1 e He Hw) as (k & n & o & r & H1 & H2 & H3).
  exists k, n, o, r. rewrite elem_of_app. auto.
Qed.

(** One step of the removal: it goes on unless the deletion failed. *)
Lemma removal_step ns k name objects (p : op (option goerr)) (rest : op (bool * option goerr)) :
  p = get_delete k ns name ->
  wp rest (fun tr o => exists r, o = Done r /\ removes ns objects tr r.1) ->
  wp (let! err := p in
      match err with
      | Some e => if IsNotFound e then rest else Ret (false, Some e)
      | None => rest
      end) (fun tr o => exists r, o = Done r /\ removes ns ((k, name) :: objects) tr r.1).
Proof.
  intros -> Hrest. apply wp_bind. eapply wp_mono; [apply get_delete_wp|]. intros tr o (err & -> & Hr).
  assert (Hgo : not_failed err = true ->
    wp rest (fun tr' o => exists r, o = Done r /\ removes ns ((k, name) :: objects) (app tr tr') r.1)).
  { intros Hf. rewrite Hf in Hr. eapply wp_mono; [exact Hrest|]. intros tr' o (r & -> & Hr').
    exists r. split; [done|]. exact (removes_app ns [(k, name)] objects tr tr' r.1 Hr Hr'). }
  destruct err as [e|]; [|by apply Hgo]. cbn [not_failed] in *. destruct (IsNotFound e); [by apply Hgo|].
  cbn [wp]. rewrite app_nil_r. exists (false, Some e). split; [done|]. exact (removes_some ns [(k, name)] objects tr Hr).
Qed.

Lemma ClearCommonResources_wp d c : wp (ClearCommonResources d c) (fun tr o =>
  exists r, o = Done r /\ removes (dcr_Namespace d) (component_objects d c) tr r.1).
Proof.
  unfold ClearCommonResources, component_objects. do 3 (apply removal_step; [done|]).
  cbn [wp]. exists (true, None). split; [done|]. split; [by intros e ?%elem_of_nil | by constructor].
Qed.

(** The removal of BE and broker deletes nothing while the component has a
    spec or no status; then it deletes only the component's StatefulSet and
    services as the API server returned them, and reports success only when
    each of them did not exist or its deletion was accepted. *)
Theorem removed_component_cleared {A} (d : Dcr) (status : option A) (c : ComponentType) :
  wp (DcrBe.clear_when_removed d status c) (fun tr o => exists done err, o = Done (d, (done, err)) /\
    if decide (base_of d c = None /\ is_Some status)
    then removes (dcr_Namespace d) (component_objects d c) tr done
    else Forall quiet tr).
Proof.
  unfold DcrBe.clear_when_removed. destruct status as [s|]; cycle 1.
  { exists true, None. split; [done|]. rewrite decide_False; [constructor | by intros [_ []]]. }
  destruct (base_of d c) as [b|].
  { exists true, None. split; [done|]. rewrite decide_False; [constructor | by intros [? _]]. }
  apply wp_bind. eapply wp_mono; [apply ClearCommonResources_wp|]. intros tr o (r & -> & Hr).
  cbn [wp]. rewrite app_nil_r. destruct r as [done err]. exists done, err. split; [reflexivity|].
  rewrite decide_True; [exact Hr|]. split; [done | by eexists].
Qed.

(** ** Witnesses *)

(** The environment of the demonstration with one cluster. *)
Definition dcr_env (d : Dcr) (X : Type) (e : OpE X) (w : world) : X * world :=
  match e in OpE X return X * world -> X * world with
  | CGet k _ _ =>
      match k return res (obj k) * world -> res (obj k) * world with
      | KDcr => fun _ => (Ok d, w)
      | _ => fun r => r
      end
  | _ => fun r => r
  end (demo_env X e w).

Local Existing Instance demo_external.
Definition demo_order : list SubController := Scs.

Lemma demo_order_free : Forall ClusterStatusFree demo_order.
Proof. repeat (apply Forall_cons; split; [apply _|]). apply Forall_nil_2. Qed.

Definition demo_pass :=
  run (dcr_env demo_dcr) (Reconcile demo_order demo_order demo_order "ns" "c" ∅) demo_fe_world.

Lemma status_of_last_read_witness :
  length (omap status_write demo_pass.1.1) = 1%nat /\ pass_writes_status demo_pass.1.1 demo_pass.1.2.
Proof.
  split; [vm_compute; reflexivity|].
  exact (wp_exec _ _ (status_of_last_read demo_order demo_order demo_order "ns" "c" ∅
    demo_order_free demo_order_free demo_order_free) _ _ (run_exec (dcr_env demo_dcr) _ demo_fe_world)).
Defined.
