(* ===== verification/DcrClaimProps.v ===== *)
(** The claims of a DorisCluster's component: what a preparation patches and
    creates, how it settles on a store of claims, and which claims a removal
    deletes. *)

From Stdlib Require Import ZArith Lia Ascii.
From stdpp Require Import base list gmap strings.
From S2P Require Import Prelude GoStr KubeTypes DdcApi Client Traces Mysql Resource External SubDefault Demo.
From S2P Require Import DcrApi DcrResource DcrSub DcrFe DcrTraces DcrFeProps.

Local Open Scope string_scope.
Local Open Scope Z_scope.
Local Open Scope dop_scope.

(** ** Names of claims *)

Lemma BuildPVCName_last sts i v : 0 <= i -> List.last (Split (BuildPVCName sts (Itoa i) v) "-") "" = Itoa i.
Proof.
  intros Hi. assert (Hd : has_char "-" (Itoa i) = false).
  { apply digits_no_char; [done|]. unfold Itoa. rewrite (proj2 (Z.ltb_ge i 0)) by lia. by apply dec_digits. }
  unfold BuildPVCName, Split. cbv zeta. case_decide.
  - replace (v +:+ "-" +:+ sts +:+ "-" +:+ Itoa i) with ((v +:+ "-" +:+ sts) +:+ String "-" (Itoa i))
      by (by rewrite !app_assoc_str). by apply split_char_last.
  - by apply (split_char_last "-" sts).
Qed.

Lemma Itoa_inj i j : 0 <= i -> 0 <= j -> Itoa i = Itoa j -> i = j.
Proof.
  intros Hi Hj. unfold Itoa. rewrite (proj2 (Z.ltb_ge i 0)), (proj2 (Z.ltb_ge j 0)) by lia. intros E.
  pose proof (parse_dec i Hi) as Hp. rewrite E, (parse_dec j Hj) in Hp. congruence.
Qed.

(** The name of a claim determines its ordinal, whatever the volume. *)
Lemma BuildPVCName_inj sts i j v w : 0 <= i -> 0 <= j ->
  BuildPVCName sts (Itoa i) v = BuildPVCName sts (Itoa j) w -> i = j.
Proof.
  intros Hi Hj E. apply Itoa_inj; [done..|].
  by rewrite <- (BuildPVCName_last sts i v), <- (BuildPVCName_last sts j w), E by done.
Qed.

Section claims.
Context `{External}.

(** ** What a preparation writes *)

Definition wrong_size (cap : Z) (p : PersistentVolumeClaim) : bool := negb (storage_request (pvc_Spec p) =? cap).

(** The claims of the ordinals from [n] up to the replicas. *)
Definition new_claims (d : Dcr) (sel : strmap) (sts : string) (v : DcrVolume) (n : Z) (left : nat)
  : list PersistentVolumeClaim :=
  map (fun i => BuildPVC v sel (dcr_Namespace d) sts (Itoa i)) (seqZ n (Z.of_nat left)).

Lemma new_claims_S d sel sts v n left : new_claims d sel sts v n (S left) =
  BuildPVC v sel (dcr_Namespace d) sts (Itoa n) :: new_claims d sel sts v (n + 1) left.
Proof.
  unfold new_claims. rewrite seqZ_cons by lia. cbn [map]. do 2 f_equal; f_equal; lia.
Qed.

(** A claim that carries requests, as every claim that the API server admits does. *)
Definition requesting (p : PersistentVolumeClaim) : Prop := pvs_Requests (pvc_Spec p) <> ∅.

Lemma patch_claims_wp cap pvcs b : Forall requesting pvcs -> wp (patch_claims cap pvcs b) (fun tr o =>
  omap pvc_write tr = map (set_capacity cap) (List.filter (wrong_size cap) pvcs) /\
  o = Done (b && forallb (fun p => negb (wrong_size cap p)) pvcs)).
Proof.
  intros Hreq. revert b; induction Hreq as [|p pvcs Hp _ IH]; intros b; cbn [patch_claims List.filter forallb].
  { split; [done|]. by rewrite andb_true_r. }
  replace (storage_request (pvc_Spec p) =? cap) with (negb (wrong_size cap p))
    by (unfold wrong_size; by rewrite negb_involutive).
  destruct (wrong_size cap p); cbn [negb andb]; [|apply IH].
  - unfold into_requests. rewrite decide_False by done.
    cbn [bind call]. intros [e|] []; (eapply wp_mono; [apply IH|]); intros tr o [Hw ->]; cbn;
      rewrite Hw, andb_false_r; done.
Qed.

Lemma create_claims_wp d sel sts v left : forall n, wp (create_claims d sel sts v n left) (fun tr o =>
  omap pvc_write tr = new_claims d sel sts v n left /\ o = Done tt).
Proof.
  induction left as [|left IH]; intros n; [by split|]. rewrite new_claims_S. cbn [create_claims bind call].
  intros [e|]; [destruct (IsAlreadyExists e)|]; cbn [bind call warn]; try intros [];
    (eapply wp_mono; [apply IH|]); intros tr o [Hw ->]; cbn; by rewrite Hw.
Qed.

(** The preparation of a volume whose claims carry requests patches its claims of another capacity, in
    order, then creates the claims of the ordinals from their number up to the
    replicas, whatever the answers; it reports the volume prepared exactly when
    there is nothing to patch and nothing to create, and it never fails. *)
Theorem claims_prepared (d : Dcr) (sel : strmap) (pvcs : list PersistentVolumeClaim) (sts : string)
    (v : DcrVolume) (replicas : Z) (Hreq : Forall requesting pvcs) :
  let cap := storage_request (dv_Spec v) in
  let n := Z.of_nat (length pvcs) in
  wp (patchPVCs d sel pvcs sts v replicas) (fun tr o => exists prepared, o = Done prepared /\
    omap pvc_write tr = (map (set_capacity cap) (List.filter (wrong_size cap) pvcs) ++
                         map (fun i => BuildPVC v sel (dcr_Namespace d) sts (Itoa i)) (seqZ n (replicas - n)))%list /\
    (prepared = true <-> omap pvc_write tr = [])).
Proof.
  cbv zeta. unfold patchPVCs. set (cap := storage_request (dv_Spec v)). set (n := Z.of_nat (length pvcs)).
  apply wp_bind. eapply wp_mono; [by apply patch_claims_wp|]. intros tr o [Hw ->]. cbn [andb].
  assert (Hnew : new_claims d sel sts v n (Z.to_nat (replicas - n)) =
    map (fun i => BuildPVC v sel (dcr_Namespace d) sts (Itoa i)) (seqZ n (replicas - n))).
  { unfold new_claims. destruct (Z.le_ge_cases 0 (replicas - n)); [by rewrite Z2Nat.id|].
    replace (Z.to_nat (replicas - n)) with 0%nat by lia. by rewrite !seqZ_nil by lia. }
  assert (Hall : forallb (fun p => negb (wrong_size cap p)) pvcs = true <->
    map (set_capacity cap) (List.filter (wrong_size cap) pvcs) = []).
  { clear. induction pvcs as [|p l IH]; [done|]. cbn. destruct (wrong_size cap p); cbn; [by split|exact IH]. }
  assert (Hgo : forall b tr0, omap pvc_write tr0 = [] ->
    (b = true <-> map (set_capacity cap) (List.filter (wrong_size cap) pvcs) = [] /\ ~ n < replicas) ->
    wp (create_claims d sel sts v n (Z.to_nat (replicas - n)) ;;; Ret b) (fun tr' o => exists prepared,
      o = Done prepared /\ omap pvc_write (app tr (app tr0 tr')) =
        (map (set_capacity cap) (List.filter (wrong_size cap) pvcs) ++
          map (fun i => BuildPVC v sel (dcr_Namespace d) sts (Itoa i)) (seqZ n (replicas - n)))%list /\
      (prepared = true <-> omap pvc_write (app tr (app tr0 tr')) = []))).
  { intros b tr0 H0 Hb. apply wp_bind. eapply wp_mono; [apply create_claims_wp|]. intros tr1 o [H1 ->].
    cbn [wp]. rewrite app_nil_r. exists b. split; [done|]. rewrite !omap_app, Hw, H0, H1, Hnew. split; [done|].
    rewrite Hb, app_nil. split; intros [? Hr]; (split; [done|]).
    - by rewrite seqZ_nil by lia.
    - intros Hlt. rewrite seqZ_cons in Hr by lia. done. }
  destruct (Z.ltb_spec n replicas) as [Hlt|Hge].
  - cbn [bind call]. intros []. apply (Hgo false [Ev _ tt]); [done|]. split; [done | by intros [_ []]].
  - apply (Hgo _ []); [done|]. rewrite Hall. split; [intros; split; [done|lia] | by intros []].
Qed.

(** ** What a removal deletes *)

(** A deleted claim is one of an ordinal from [replicas] on. *)
Definition deletes_above (sts : string) (replicas : Z) (e : event OpE) : Prop :=
  forall name, pvc_delete e = Some name -> exists v i, replicas <= i /\ name = BuildPVCName sts (Itoa i) v.

Lemma delete_from_above d sel sts v replicas left : forall max err,
  replicas <= max - Z.of_nat left -> only (deletes_above sts replicas) (delete_from d sel sts v max left err).
Proof.
  induction left as [|left IH]; intros max err Hle; cbn [delete_from]; [by apply spec_ret|].
  assert (Hrest : forall err, only (deletes_above sts replicas) (delete_from d sel sts v (max - 1) left err))
    by (intros; apply IH; lia).
  unfold DeletePVC. apply (spec_bind _ (fun _ => True)).
  - apply spec_call; [|intros [e|] _; [destruct (IsNotFound e)|]; by apply spec_ret].
    intros r name [= <-]. exists v, (max - 1). split; [lia | done].
  - intros [e|] _; [|auto]. apply spec_call; [by intros x name | auto].
Qed.

Lemma delete_surplus_above d sel sts replicas all pvcs vs : forall err,
  only (deletes_above sts replicas) (delete_surplus d sel sts replicas all pvcs vs err).
Proof.
  induction vs as [|v vs IH]; intros err; cbn [delete_surplus]; [by apply spec_ret|].
  destruct (Z.leb_spec (Z.of_nat (length (claims_of all pvcs (dv_Name v)))) replicas); [apply IH|].
  apply (spec_bind _ (fun _ => True)); [|intros; apply IH]. unfold deletePVCs. apply delete_from_above. lia.
Qed.

(** C21: the clearing of the FE never deletes the claim of an ordinal below the
    wanted replicas, of any volume. *)
Theorem fe_claims_kept (d : Dcr) :
  wp (DcrFe.ClearResources d) (fun tr _ => forall name, name ∈ omap pvc_delete tr ->
    exists replicas, wanted_replicas d = Some replicas /\
      forall v i, 0 <= i < replicas -> name <> BuildPVCName (GenerateComponentStatefulSetName d Component_FE) (Itoa i) v).
Proof.
  set (sts := GenerateComponentStatefulSetName d Component_FE).
  set (P := fun e => forall name, pvc_delete e = Some name -> exists replicas, wanted_replicas d = Some replicas /\
    forall v i, 0 <= i < replicas -> name <> BuildPVCName sts (Itoa i) v).
  assert (HP : only P (DcrFe.ClearResources d)).
  { assert (Hc : only P (ClearCommonResources d Component_FE)).
    { assert (Hs : only P (DeleteStatefulset (dcr_Namespace d) sts)) by (apply DeleteStatefulset_spec; by intros * name).
      assert (Hv : forall name, only P (DeleteService (dcr_Namespace d) name))
        by (intros; apply DeleteService_spec; by intros * name').
      unfold ClearCommonResources. fold sts. spec_go. }
    unfold DcrFe.ClearResources, RecycleResources, recycleFEResources.
    destruct (FEStatus _); [|by apply spec_ret]. apply (spec_bind _ (fun _ => True)); [|intros err _; spec_go].
    destruct (base_of d Component_FE) as [base|] eqn:Hb; [|by apply spec_panic]. cbn [deref].
    destruct (bs_PersistentVolumes base); [by apply spec_ret|].
    unfold listAndDeletePersistentVolumeClaim, claim_replicas. rewrite Hb. cbn [deref].
    destruct (bs_Replicas base) as [replicas|] eqn:Hr; [|by apply spec_panic]. cbn [deref]. fold sts.
    apply with_claims_spec; try (by intros * name); [by intros; apply spec_ret|]. intros vs pvcs.
    eapply spec_weaken; [apply (delete_surplus_above _ _ _ replicas)| |done]. intros e He name Hn.
    destruct (He name Hn) as (v & i & Hi & ->). exists replicas. split; [unfold wanted_replicas; by rewrite Hb|].
    intros w j Hj Heq%BuildPVCName_inj; lia. }
  eapply wp_mono; [exact HP|]. intros tr o [Htr _] name Hin. apply list_elem_of_omap in Hin as (e & He & Hn).
  rewrite Forall_forall in Htr. by apply (Htr e He).
Qed.
End claims.
