(* ===== verification/DcrSettle.v ===== *)
(** The preparation of claims settles: against a store of claims that accepts
    its writes, one pass makes the claims of every volume right, and the next
    one finds nothing to do and lets the StatefulSet be applied. *)

From Stdlib Require Import ZArith Lia Ascii.
From stdpp Require Import base list gmap strings.
From S2P Require Import Prelude GoStr KubeTypes DdcApi Client Traces Mysql Resource External SubDefault Demo.
From S2P Require Import DcrApi DcrResource DcrSub DcrFe DcrTraces DcrFeProps DcrClaimProps.

Local Open Scope string_scope.
Local Open Scope Z_scope.
Local Open Scope dop_scope.

(** ** A store of claims *)

Abbreviation store := (list PersistentVolumeClaim).

Definition store_patch (p : PersistentVolumeClaim) (s : store) : store :=
  map (fun q => if decide (pvc_Name q = pvc_Name p) then p else q) s.

Definition already_exists : goerr := mkErr ReasonAlreadyExists "already exists".
Definition store_create (p : PersistentVolumeClaim) (s : store) : option goerr * store :=
  if decide (pvc_Name p ∈ map pvc_Name s) then (Some already_exists, s) else (None, app s [p]).

(** The store answers the calls on claims, [other] the rest. *)
Definition store_env (other : forall X, OpE X -> X) (X : Type) (e : OpE X) (s : store) : X * store :=
  match e in OpE X return X -> X * store with
  | CList k _ _ =>
      match k return res (list (obj k)) -> res (list (obj k)) * store with
      | KPvc => fun _ => (Ok s, s) | _ => fun x => (x, s)
      end
  | CPatchMerge k o =>
      match k return obj k -> option goerr -> option goerr * store with
      | KPvc => fun p _ => (None, store_patch p s) | _ => fun _ x => (x, s)
      end o
  | CCreate k o =>
      match k return obj k -> option goerr -> option goerr * store with
      | KPvc => fun p _ => store_create p s | _ => fun _ x => (x, s)
      end o
  | _ => fun x => (x, s)
  end (other X e).

(** ** Patching *)

Lemma names_patch p s : map pvc_Name (store_patch p s) = map pvc_Name s.
Proof.
  unfold store_patch. rewrite map_map. apply map_ext. intros q. by case_decide.
Qed.

(** With distinct names a patch replaces one claim. *)
Lemma store_patch_unique p s cap : NoDup (map pvc_Name s) -> p ∈ s ->
  store_patch (set_capacity cap p) s = map (fun q => if decide (q = p) then set_capacity cap q else q) s.
Proof.
  intros Hnd Hp. unfold store_patch. apply map_ext_in. intros q Hq%list_elem_of_In.
  change (pvc_Name (set_capacity cap p)) with (pvc_Name p).
  destruct (decide (pvc_Name q = pvc_Name p)) as [E|Hne], (decide (q = p)) as [->|Hqp]; try done.
  exfalso. apply Hqp. revert Hnd Hp Hq E. clear. induction s as [|x s IH]; [by intros _ ?%elem_of_nil|].
  cbn. intros [Hx Hnd]%NoDup_cons Hp Hq E.
  apply elem_of_cons in Hp as [->|Hp], Hq as [->|Hq]; [done| | |by apply IH].
  - exfalso. apply Hx. rewrite <- E. by apply (list_elem_of_fmap_2 pvc_Name).
  - exfalso. apply Hx. rewrite E. by apply (list_elem_of_fmap_2 pvc_Name).
Qed.

(** The claims of a list with their capacity set. *)
Definition resized (cap : Z) (l s : store) : store :=
  map (fun q => if decide (q ∈ l) then set_capacity cap q else q) s.

Lemma names_resized cap l s : map pvc_Name (resized cap l s) = map pvc_Name s.
Proof. unfold resized. rewrite map_map. apply map_ext. intros q. by case_decide. Qed.

Lemma set_capacity_idem cap p : set_capacity cap (set_capacity cap p) = set_capacity cap p.
Proof. unfold set_capacity. cbn. by rewrite insert_insert_eq. Qed.

Lemma resized_cons cap p l s : NoDup (map pvc_Name s) -> NoDup (p :: l) -> (forall q, q ∈ p :: l -> q ∈ s) ->
  resized cap l (store_patch (set_capacity cap p) s) = resized cap (p :: l) s.
Proof.
  intros Hnd Hl Hin. rewrite store_patch_unique by (done || apply Hin; left). unfold resized. rewrite map_map.
  apply NoDup_cons in Hl as [Hp Hl]. apply map_ext_in. intros q Hq%list_elem_of_In.
  destruct (decide (q = p)) as [->|Hne].
  - rewrite (decide_True (P := p ∈ p :: l)) by left. case_decide; [apply set_capacity_idem | done].
  - destruct (decide (q ∈ l)); [rewrite decide_True by (by right) | rewrite decide_False; [|intros [?|?]%elem_of_cons]]; done.
Qed.

Section settle.
Context `{External}.
Context (other : forall X, OpE X -> X).
Local Abbreviation env := (store_env other).

Lemma patch_claims_runs cap l : forall s b, NoDup (map pvc_Name s) -> NoDup l -> (forall q, q ∈ l -> q ∈ s) ->
  Forall requesting l -> exists tr b', runs env (patch_claims cap l b) s tr b' (resized cap (List.filter (wrong_size cap) l) s).
Proof.
  induction l as [|p l IH]; intros s b Hs Hl Hin Hreq; cbn [patch_claims List.filter].
  { exists [], b. unfold resized. erewrite map_ext, map_id; [apply runs_ret|]. intros q. by rewrite decide_False by (by intros ?%elem_of_nil). }
  pose proof Hl as [Hp Hl']%NoDup_cons. apply Forall_cons in Hreq as [Hreqp Hreq].
  assert (Hw : (storage_request (pvc_Spec p) =? cap) = negb (wrong_size cap p))
    by (unfold wrong_size; by rewrite negb_involutive).
  rewrite Hw. destruct (wrong_size cap p); cbn [negb].
  2: { apply IH; [done..| |done]. intros q Hq. apply Hin. by right. }
  unfold into_requests. rewrite decide_False by exact Hreqp.
  set (s' := store_patch (set_capacity cap p) s).
  assert (Hin' : forall q, q ∈ l -> q ∈ s').
  { intros q Hq. unfold s'. rewrite store_patch_unique by (done || apply Hin; left). apply list_elem_of_fmap.
    exists q. rewrite decide_False by (by intros ->). split; [done|]. apply Hin. by right. }
  destruct (IH s' false) as (tr & b' & Hr); [by unfold s'; rewrite names_patch | done..|].
  eexists _, b'. eapply runs_call; [reflexivity|]. eapply runs_call; [reflexivity|].
  unfold s' in Hr. rewrite resized_cons in Hr; [exact Hr|done|..].
  - apply NoDup_cons. split; [intros [Hf _]%list_elem_of_In%List.filter_In; apply Hp; by apply list_elem_of_In |].
    by apply NoDup_ListNoDup, List.NoDup_filter, NoDup_ListNoDup.
  - intros q [->|Hq]%elem_of_cons; [apply Hin; left|]. apply Hin. right.
    by apply list_elem_of_In, List.filter_In in Hq as [Hq%list_elem_of_In _].
Qed.

(** ** Creating *)

Lemma create_claims_runs d sel sts v left : forall n s,
  0 <= n -> (forall i, n <= i < n + Z.of_nat left -> BuildPVCName sts (Itoa i) (dv_Name v) ∉ map pvc_Name s) ->
  exists tr, runs env (create_claims d sel sts v n left) s tr tt (app s (new_claims d sel sts v n left)).
Proof.
  induction left as [|left IH]; intros n s Hn Hfresh.
  { exists []. unfold new_claims. rewrite seqZ_nil by lia. by rewrite app_nil_r. }
  rewrite new_claims_S. cbn [create_claims]. set (p := BuildPVC v sel (dcr_Namespace d) sts (Itoa n)).
  destruct (IH (n + 1) (app s [p])) as [tr Hr]; [lia| |].
  { intros i Hi. rewrite map_app. rewrite elem_of_app. intros [Hs|Hp%list_elem_of_singleton].
    - by apply (Hfresh i); [lia|].
    - change (pvc_Name p) with (BuildPVCName sts (Itoa n) (dv_Name v)) in Hp. apply BuildPVCName_inj in Hp; lia. }
  eexists. eapply runs_call.
  - cbn. unfold store_create. rewrite decide_False; [done|]. apply (Hfresh n). lia.
  - cbn [bind]. rewrite <- app_assoc in Hr. exact Hr.
Qed.
End settle.

(** ** The claims of a volume *)

Lemma prefix_comparable w v t : prefixb w (v +:+ t) = true -> prefixb w v = true \/ prefixb v w = true.
Proof.
  revert v; induction w as [|c w IH]; intros v; [by left|]. destruct v as [|d v]; [by right|]. cbn.
  destruct (ascii_dec c d) as [->|]; [|done]. destruct (ascii_dec d d); [apply IH | done].
Qed.

Section volumes.
Context `{External}.
Context (other : forall X, OpE X -> X) (d : Dcr) (sel : strmap) (sts : string) (replicas : Z) (volumes : list DcrVolume).
Local Abbreviation env := (store_env other).

(** The volumes can be told apart by the names of their claims. *)
Definition distinct_volumes : Prop :=
  Forall (fun v => dv_Name v <> "") volumes /\
  forall v w, v ∈ volumes -> w ∈ volumes -> HasPrefix (dv_Name v) (dv_Name w) = true -> v = w.

Definition class (v : DcrVolume) (s : store) : store := claims_of volumes s (dv_Name v).

(** A claim of a volume, by its name. *)
Definition claim_at (v : DcrVolume) (i : Z) (p : PersistentVolumeClaim) : Prop :=
  0 <= i /\ pvc_Name p = BuildPVCName sts (Itoa i) (dv_Name v).

Lemma claim_key_name p q : pvc_Name p = pvc_Name q -> claim_key volumes p = claim_key volumes q.
Proof. intros E. unfold claim_key, claim_volume. by rewrite E. Qed.

Lemma class_map (f : PersistentVolumeClaim -> PersistentVolumeClaim) v s :
  (forall p, pvc_Name (f p) = pvc_Name p) -> class v (map f s) = map f (class v s).
Proof.
  intros Hf. unfold class, claims_of. induction s as [|p s IH]; [done|]. cbn [map List.filter].
  rewrite (claim_key_name (f p) p) by apply Hf. destruct (bool_decide _); cbn [map]; by rewrite IH.
Qed.

Lemma class_app v s1 s2 : class v (app s1 s2) = app (class v s1) (class v s2).
Proof. unfold class, claims_of. apply List.filter_app. Qed.

Lemma class_elem v s p : p ∈ class v s <-> p ∈ s /\ claim_key volumes p = "-^" +:+ dv_Name v.
Proof. unfold class, claims_of. by rewrite list_elem_of_In, List.filter_In, <- list_elem_of_In, bool_decide_eq_true. Qed.

Hypothesis Hdistinct : distinct_volumes.

Lemma claim_volume_at v i p : v ∈ volumes -> claim_at v i p -> claim_volume volumes p = Some v.
Proof.
  intros Hv [Hi Hp]. destruct Hdistinct as [Hne Hpre]. unfold claim_volume. rewrite Hp.
  assert (Hm : forall w, w ∈ volumes ->
    negb (bool_decide (dv_Name w = "")) && HasPrefix (BuildPVCName sts (Itoa i) (dv_Name v)) (dv_Name w) = true -> w = v).
  { intros w Hw [_ Hw2]%andb_true_iff. unfold BuildPVCName in Hw2. cbv zeta in Hw2.
    rewrite Forall_forall in Hne. rewrite decide_True in Hw2 by (by apply Hne).
    apply prefix_comparable in Hw2 as [?|?]; [symmetry; by apply Hpre | by apply Hpre]. }
  destruct (List.find _ volumes) as [w|] eqn:E.
  - apply find_some in E as [Hw Hb]. f_equal. apply Hm; [by apply list_elem_of_In | exact Hb].
  - apply (find_none _ _) with (x := v) in E; [|by apply list_elem_of_In]. exfalso. revert E.
    rewrite Forall_forall in Hne. rewrite bool_decide_eq_false_2 by (by apply Hne). unfold BuildPVCName. cbv zeta.
    rewrite decide_True by (by apply Hne). by rewrite HasPrefix_app.
Qed.

Lemma claim_key_at v i p : v ∈ volumes -> claim_at v i p -> claim_key volumes p = "-^" +:+ dv_Name v.
Proof. intros Hv Hp. unfold claim_key. by rewrite (claim_volume_at v i p). Qed.

Lemma key_inj v w : v ∈ volumes -> w ∈ volumes -> "-^" +:+ dv_Name v = "-^" +:+ dv_Name w -> v = w.
Proof.
  intros Hv Hw E%app_inj_l_str. apply (proj2 Hdistinct); [done..|]. rewrite E.
  rewrite <- (app_nil_str (dv_Name w)) at 1. apply HasPrefix_app.
Qed.

(** ** One volume *)

Definition capacity (v : DcrVolume) : Z := storage_request (dv_Spec v).

Definition settled (v : DcrVolume) (s : store) : Prop :=
  Forall (fun p => storage_request (pvc_Spec p) = capacity v) (class v s) /\ replicas <= Z.of_nat (length (class v s)).

(** The claims of a volume are those of the first ordinals. *)
Definition contiguous (v : DcrVolume) (s : store) : Prop :=
  Forall (fun p => exists i, i < Z.of_nat (length (class v s)) /\ claim_at v i p) (class v s).

Definition others_kept (v : DcrVolume) (s s' : store) : Prop :=
  forall w, w ∈ volumes -> w <> v -> class w s' = class w s.

Definition wrong_of (v : DcrVolume) (s : store) : store := List.filter (wrong_size (capacity v)) (class v s).

Lemma wrong_of_elem v s p : p ∈ wrong_of v s <-> p ∈ class v s /\ storage_request (pvc_Spec p) <> capacity v.
Proof.
  unfold wrong_of, wrong_size. rewrite list_elem_of_In, List.filter_In, <- list_elem_of_In, negb_true_iff, Z.eqb_neq. done.
Qed.

Lemma resized_class v s : class v (resized (capacity v) (wrong_of v s) s) =
  map (fun q => if decide (q ∈ wrong_of v s) then set_capacity (capacity v) q else q) (class v s).
Proof. unfold resized. apply class_map. intros p. by case_decide. Qed.

Lemma set_capacity_request cap p : storage_request (pvc_Spec (set_capacity cap p)) = cap.
Proof. unfold storage_request, set_capacity. cbn. by rewrite lookup_insert_eq. Qed.

Lemma resized_settles v s :
  Forall (fun p => storage_request (pvc_Spec p) = capacity v) (class v (resized (capacity v) (wrong_of v s) s)).
Proof.
  rewrite resized_class. apply Forall_forall. intros p Hp. apply list_elem_of_fmap in Hp as (q & -> & Hq).
  case_decide as Hw; [apply set_capacity_request|].
  destruct (decide (storage_request (pvc_Spec q) = capacity v)) as [E|Hn]; [exact E|].
  destruct Hw. by apply wrong_of_elem.
Qed.

Lemma resized_others v s : v ∈ volumes -> others_kept v s (resized (capacity v) (wrong_of v s) s).
Proof.
  intros Hv w Hw Hne. unfold resized. rewrite class_map by (intros p; by case_decide).
  rewrite <- (map_id (class w s)) at 2. apply map_ext_in. intros p Hp%list_elem_of_In. rewrite decide_False; [done|].
  intros [Hpv _]%wrong_of_elem. apply Hne. apply class_elem in Hp as [_ Hk], Hpv as [_ Hk']. symmetry. apply key_inj; [done..|].
  congruence.
Qed.

Lemma new_claims_at v n left p : 0 <= n -> p ∈ new_claims d sel sts v n left ->
  exists i, n <= i < n + Z.of_nat left /\ claim_at v i p /\ storage_request (pvc_Spec p) = capacity v.
Proof.
  intros Hn Hp. apply list_elem_of_fmap in Hp as (i & -> & Hi%elem_of_seqZ). exists i. split; [lia|].
  split; [split; [lia | done] | done].
Qed.

Lemma new_claims_NoDup v left : forall n, 0 <= n -> NoDup (map pvc_Name (new_claims d sel sts v n left)).
Proof.
  induction left as [|left IH]; intros n Hn; [constructor|]. rewrite new_claims_S. cbn [map]. constructor; [|apply IH; lia].
  intros Hin. apply list_elem_of_fmap in Hin as (p & Hname & Hp).
  destruct (new_claims_at v (n + 1) left p ltac:(lia) Hp) as (i & Hi & [_ Hp'] & _). rewrite Hp' in Hname.
  apply (BuildPVCName_inj sts n i (dv_Name v)) in Hname; lia.
Qed.

Lemma new_claims_class v w n left : 0 <= n -> v ∈ volumes -> w ∈ volumes ->
  class w (new_claims d sel sts v n left) = if decide (w = v) then new_claims d sel sts v n left else [].
Proof.
  intros Hn Hv Hw.
  assert (Hk : forall p, p ∈ new_claims d sel sts v n left -> claim_key volumes p = "-^" +:+ dv_Name v).
  { intros p (i & _ & Hp & _)%new_claims_at; [|done]. by apply (claim_key_at v i). }
  unfold class, claims_of. induction (new_claims d sel sts v n left) as [|p l IH]; [by case_decide|].
  cbn [List.filter]. rewrite IH by (intros q Hq; apply Hk; by right). rewrite (Hk p) by left.
  case_decide as E; [by rewrite E, bool_decide_eq_true_2|]. rewrite bool_decide_eq_false_2; [done|].
  intros Heq. apply E. symmetry. by apply key_inj.
Qed.

Lemma patchPVCs_runs v s : v ∈ volumes -> NoDup (map pvc_Name s) -> contiguous v s -> Forall requesting (class v s) ->
  exists tr ok s', runs env (patchPVCs d sel (class v s) sts v replicas) s tr ok s' /\
    settled v s' /\ NoDup (map pvc_Name s') /\ others_kept v s s'.
Proof.
  intros Hv Hnd Hc Hreq. unfold patchPVCs. fold (capacity v). set (n := Z.of_nat (length (class v s))).
  destruct (patch_claims_runs other (capacity v) (class v s) s true) as (tr1 & b & H1); [done| |by intros q [? _]%class_elem|exact Hreq|].
  { apply NoDup_ListNoDup, List.NoDup_filter, NoDup_ListNoDup. by apply NoDup_fmap_1 in Hnd. }
  fold (wrong_of v s) in H1. set (s1 := resized (capacity v) (wrong_of v s) s) in *.
  assert (Hl1 : length (class v s1) = length (class v s)) by (unfold s1; by rewrite resized_class, length_map).
  assert (Hfresh : forall i, n <= i < n + Z.of_nat (Z.to_nat (replicas - n)) ->
    BuildPVCName sts (Itoa i) (dv_Name v) ∉ map pvc_Name s).
  { intros i Hi Hin. apply list_elem_of_fmap in Hin as (p & Hname & Hp).
    assert (Hpv : p ∈ class v s).
    { apply class_elem. split; [done|]. apply (claim_key_at v i); [done|]. split; [lia | done]. }
    unfold contiguous in Hc. rewrite Forall_forall in Hc. destruct (Hc p Hpv) as (j & Hj & Hj0 & Hjn).
    rewrite Hjn in Hname. apply BuildPVCName_inj in Hname; lia. }
  destruct (create_claims_runs other d sel sts v (Z.to_nat (replicas - n)) n s1) as [tr2 H2]; [lia | unfold s1; by rewrite names_resized|].
  set (s2 := app s1 (new_claims d sel sts v n (Z.to_nat (replicas - n)))) in *.
  assert (Hfin : settled v s2 /\ NoDup (map pvc_Name s2) /\ others_kept v s s2).
  { split; [|split].
    - unfold settled, s2. rewrite class_app, new_claims_class, decide_True by (done || lia). split.
      + apply Forall_app. split; [apply resized_settles|]. apply Forall_forall. intros p Hp.
        apply new_claims_at in Hp as (i & _ & _ & Hcap); [exact Hcap | lia].
      + rewrite length_app, Hl1. fold n. unfold new_claims. rewrite length_map, length_seqZ. lia.
    - unfold s2. rewrite map_app. apply NoDup_app. unfold s1. rewrite names_resized. split; [done|]. split.
      + intros x Hx Hin. apply list_elem_of_fmap in Hin as (p & -> & Hp).
        destruct (new_claims_at v n _ p ltac:(lia) Hp) as (i & Hi & [_ Hname] & _). by apply (Hfresh i); [lia | rewrite <- Hname].
      + apply new_claims_NoDup. lia.
    - intros w Hw Hne. unfold s2. rewrite class_app, new_claims_class, decide_False, app_nil_r by (done || lia).
      by apply resized_others. }
  destruct (Z.ltb_spec n replicas).
  - eexists _, false, s2. split; [|exact Hfin]. eapply runs_bind; [exact H1|].
    eapply runs_bind; [eapply runs_call; [reflexivity | apply runs_ret]|]. eapply runs_bind; [exact H2 | apply runs_ret].
  - eexists _, b, s2. split; [|exact Hfin]. eapply runs_bind; [exact H1|].
    eapply runs_bind; [apply runs_ret|]. eapply runs_bind; [exact H2 | apply runs_ret].
Qed.

(** ** All volumes, twice *)

Definition operated (v : DcrVolume) : Prop := dv_PVCProvisioner v = PVCProvisionerOperator.

Lemma prepare_settles s0 vs : forall s b, NoDup vs -> (forall v, v ∈ vs -> v ∈ volumes) -> NoDup (map pvc_Name s) ->
  (forall v, v ∈ vs -> operated v -> class v s = class v s0 /\ contiguous v s0 /\ Forall requesting (class v s0)) ->
  exists tr ok s', runs env (prepare_volumes d sel sts replicas volumes s0 vs b) s tr ok s' /\
    (forall v, v ∈ vs -> operated v -> settled v s') /\ forall w, w ∈ volumes -> w ∉ vs -> class w s' = class w s.
Proof.
  induction vs as [|v vs IH]; intros s b Hvs Hin Hnd Hsame; cbn [prepare_volumes].
  { exists [], b, s. split; [apply runs_ret|]. split; [by intros v ?%elem_of_nil | done]. }
  apply NoDup_cons in Hvs as [Hv Hvs]. case_decide as Hop; cycle 1.
  { destruct (IH s b Hvs) as (tr & ok & s' & Hr & Hset & Hkeep); [by intros w ?; apply Hin; right | done | |].
    - intros w Hw. apply Hsame. by right.
    - exists tr, ok, s'. split; [exact Hr|]. split.
      + by intros w [->|Hw]%elem_of_cons Hopw; [|apply Hset].
      + intros w Hw Hn. apply Hkeep; [done|]. intros ?. apply Hn. by right. }
  destruct (Hsame v ltac:(left) Hop) as (Hcl & Hcont & Hreq). fold (class v s0). rewrite <- Hcl.
  destruct (patchPVCs_runs v s) as (tr1 & ok1 & s1 & H1 & Hset1 & Hnd1 & Hoth1); [by apply Hin; left | done | | by rewrite Hcl |].
  { unfold contiguous in *. by rewrite Hcl. }
  destruct (IH s1 (b && ok1) Hvs) as (tr2 & ok2 & s2 & H2 & Hset2 & Hkeep2); [by intros w ?; apply Hin; right | done | |].
  { intros w Hw Hopw. rewrite Hoth1; [by apply Hsame; [right|] | by apply Hin; right | by intros ->]. }
  exists (app tr1 tr2), ok2, s2. split; [eapply runs_bind; [exact H1 | exact H2]|]. split.
  - intros w [->|Hw]%elem_of_cons Hopw; [|by apply Hset2]. unfold settled in *.
    rewrite (Hkeep2 v); [exact Hset1 | apply Hin; left | done].
  - intros w Hw Hn. rewrite Hkeep2, Hoth1; [done | done | intros -> | done | intros ?]; apply Hn; [left | by right].
Qed.

Lemma settled_quiet v s : settled v s -> runs env (patchPVCs d sel (class v s) sts v replicas) s [] true s.
Proof.
  intros [Hcap Hlen]. unfold patchPVCs. fold (capacity v).
  assert (Hp : runs env (patch_claims (capacity v) (class v s) true) s [] true s).
  { clear Hlen. induction Hcap as [|p l Hp Hcap IH]; [apply runs_ret|]. cbn [patch_claims]. rewrite (proj2 (Z.eqb_eq _ _) Hp).
    exact IH. }
  apply (runs_bind _ _ _ _ [] _ _ [] _ _ Hp). rewrite (proj2 (Z.ltb_ge _ _) Hlen).
  replace (Z.to_nat (replicas - Z.of_nat (length (class v s)))) with 0%nat by lia. apply runs_ret.
Qed.

Lemma prepare_quiet s vs : (forall v, v ∈ vs -> operated v -> settled v s) ->
  runs env (prepare_volumes d sel sts replicas volumes s vs true) s [] true s.
Proof.
  induction vs as [|v vs IH]; intros Hset; [apply runs_ret|]. cbn [prepare_volumes].
  assert (Hvs : runs env (prepare_volumes d sel sts replicas volumes s vs true) s [] true s).
  { apply IH. intros w Hw. apply Hset. by right. }
  case_decide as Hop; [|exact Hvs]. eapply (runs_bind _ _ _ _ [] true s []); [|exact Hvs].
  apply settled_quiet, Hset; [left | exact Hop].
Qed.
End volumes.

(** ** A component *)

(** A program that reads config maps alone does the same against every store. *)
Lemma reads_config_runs other {A} (p : op A) s s' : Forall reads_config (run (store_env other) p s).1.1 ->
  run (store_env other) p s' = ((run (store_env other) p s).1, s').
Proof.
  revert s s'; induction p as [a|w|X e k IH]; intros s s'; [done..|]. cbn [run].
  destruct (store_env other X e s) as [x s1] eqn:E. specialize (IH x s1 s').
  destruct (run (store_env other) (k x) s1) as [[tr o] s2] eqn:Er. cbn [fst snd]. intros Hf. inversion Hf as [|? ? Hh Ht]; subst.
  specialize (IH Ht). cbn [fst] in IH.
  assert (Hs : store_env other X e s' = (x, s')).
  { destruct e; try done. destruct k0; try done. cbn in E |- *. congruence. }
  rewrite Hs, IH. done.
Qed.

Section component.
Context `{External}.
Context (d : Dcr) (c : ComponentType) (base : BaseSpec) (replicas : Z).

(** A component whose claims the operator may make. *)
Record has_claims : Prop := {
  hc_component : c = Component_FE \/ c = Component_BE \/ c = Component_CN;
  hc_base : base_of d c = Some base;
  hc_replicas : bs_Replicas base = Some replicas
}.

Lemma prepare_unfold : has_claims -> PrepareReconcileResources d c =
  match bs_PersistentVolumes base with
  | [] => Ret true
  | _ => with_claims d c " GetFinalPersistentVolumes failed：" (fun _ => Ret false) (fun volumes pvcs =>
           prepare_volumes d (GenerateStatefulSetSelector d c) (GenerateComponentStatefulSetName d c) replicas
             volumes pvcs volumes true)
  end.
Proof.
  intros [Hc Hb Hr]. unfold PrepareReconcileResources, prepare_component, preparePersistentVolumeClaim, claim_replicas.
  destruct Hc as [->|[->| ->]]; rewrite Hb; cbn [deref]; destruct (bs_PersistentVolumes base); by rewrite ?Hr.
Qed.

(** A pass over the claims is the reading of the volumes, the list, and the loop. *)
Lemma claims_pass_runs other volumes s0 s tr ok s' msg fail :
  (run (store_env other) (GetFinalPersistentVolumes d c) s0).1.2 = Done (Ok volumes) ->
  runs (store_env other) (prepare_volumes d (GenerateStatefulSetSelector d c) (GenerateComponentStatefulSetName d c)
    replicas volumes s volumes true) s tr ok s' ->
  exists tr0, omap pvc_write tr0 = [] /\
    runs (store_env other) (with_claims d c msg fail (fun volumes pvcs =>
      prepare_volumes d (GenerateStatefulSetSelector d c) (GenerateComponentStatefulSetName d c) replicas
        volumes pvcs volumes true)) s (app tr0 tr) ok s'.
Proof.
  intros Hfinal Hr. pose proof (run_exec (store_env other) (GetFinalPersistentVolumes d c) s0) as Hex.
  apply (spec_exec reads_config (fun _ => True)) in Hex as [Hf _]; [|by apply GetFinal_spec].
  pose proof (reads_config_runs other _ s0 s Hf) as Hrun.
  destruct (run (store_env other) (GetFinalPersistentVolumes d c) s0) as [[trF o] sF]. cbn [fst snd] in *. subst o.
  exists (app trF [@Ev OpE _ (CList KPvc (dcr_Namespace d) (MatchingLabels (GenerateStatefulSetSelector d c))) (Ok s)]).
  split.
  { rewrite omap_app. cbn. rewrite app_nil_r. apply omap_none. eapply Forall_impl; [exact Hf|].
    by intros e (_ & _ & _ & _ & ?)%reads_config_free. }
  rewrite <- app_assoc. unfold with_claims. eapply runs_bind; [exact Hrun|]. cbn [app].
  eapply runs_call; [reflexivity|]. exact Hr.
Qed.

(** C17: against a store of claims, all with requests as the API server demands,
    that accepts what is written, the first pass
    over a component whose volumes' names are no prefixes of each other and whose
    claims are those of the first ordinals ends, and the second pass writes
    nothing and reports the component prepared. *)
Theorem claims_settle (other : forall X, OpE X -> X) (volumes : list DcrVolume) (s0 : list PersistentVolumeClaim)
    (Hc : has_claims)
    (Hfinal : (run (store_env other) (GetFinalPersistentVolumes d c) s0).1.2 = Done (Ok volumes))
    (Hnodup : NoDup volumes) (Hdistinct : distinct_volumes volumes) (Hnames : NoDup (map pvc_Name s0))
    (Hcont : forall v, v ∈ volumes -> operated v -> contiguous (GenerateComponentStatefulSetName d c) volumes v s0)
    (Hreq : Forall requesting s0) :
  exists tr1 ok s1, runs (store_env other) (PrepareReconcileResources d c) s0 tr1 ok s1 /\
    exists tr2, runs (store_env other) (PrepareReconcileResources d c) s1 tr2 true s1 /\ omap pvc_write tr2 = [].
Proof.
  rewrite prepare_unfold by done. destruct (bs_PersistentVolumes base) as [|v0 vs0].
  { exists [], true, s0. split; [apply runs_ret|]. exists []. split; [apply runs_ret | done]. }
  destruct (prepare_settles other d (GenerateStatefulSetSelector d c) (GenerateComponentStatefulSetName d c)
    replicas volumes Hdistinct s0 volumes s0 true) as (tr1 & ok & s1 & H1 & Hset & _);
    [done..| |].
  { intros v Hv Hop. split; [done|]. split; [by apply Hcont|]. apply Forall_forall. intros p [Hp _]%class_elem.
    rewrite Forall_forall in Hreq. by apply Hreq. }
  destruct (claims_pass_runs other volumes s0 s0 _ _ _ " GetFinalPersistentVolumes failed：" (fun _ => Ret false) Hfinal H1)
    as (tr0 & _ & Hr1).
  exists (app tr0 tr1), ok, s1. split; [exact Hr1|].
  destruct (claims_pass_runs other volumes s0 s1 _ _ _ " GetFinalPersistentVolumes failed：" (fun _ => Ret false) Hfinal
    (prepare_quiet other d _ _ replicas volumes s1 volumes Hset)) as (tr2 & Hw & Hr2).
  exists (app tr2 []). split; [exact Hr2|]. by rewrite app_nil_r.
Qed.
End component.

(** ** Witness *)

(** Frontends with two volumes; the claim of the first ordinal is too small. *)
Definition demo_volume (name path : string) (size : Z) : DcrVolume :=
  mkDcrVolume (mkPVCSpec [] None None {["storage" := size]}) path name ∅ PVCProvisionerOperator.
Definition demo_volumes : list DcrVolume :=
  [demo_volume "meta" "/opt/apache-doris/fe/doris-meta" 10; demo_volume "log" "/opt/apache-doris/fe/log" 5].
Definition demo_claims_base : BaseSpec :=
  emptyBase <| bs_Replicas := Some 3 |> <| bs_PersistentVolumes := demo_volumes |>.
Definition demo_claims_dcr : Dcr := set_fe_base demo_claims_base demo_dcr.
Definition demo_other (X : Type) (e : OpE X) : X := (demo_env X e (demo_world false)).1.

Local Existing Instance demo_external.
Definition demo_store : list PersistentVolumeClaim :=
  [BuildPVC (demo_volume "meta" "" 7) ∅ "ns" "c-fe" "0"].

Lemma claims_settle_witness :
  length demo_store = 1%nat /\
  exists tr1 ok s1, runs (store_env demo_other) (PrepareReconcileResources demo_claims_dcr Component_FE) demo_store tr1 ok s1 /\
    exists tr2, runs (store_env demo_other) (PrepareReconcileResources demo_claims_dcr Component_FE) s1 tr2 true s1 /\
      omap pvc_write tr2 = [].
Proof.
  split; [reflexivity|].
  apply (claims_settle demo_claims_dcr Component_FE demo_claims_base 3 demo_other demo_volumes demo_store).
  - split; [by left | reflexivity | reflexivity].
  - vm_compute. reflexivity.
  - apply (bool_decide_unpack _). vm_compute. exact I.
  - split; [repeat constructor; done|]. intros v w Hv Hw. apply list_elem_of_In in Hv, Hw.
    destruct Hv as [<-|[<-|[]]], Hw as [<-|[<-|[]]]; done.
  - apply (bool_decide_unpack _). vm_compute. exact I.
  - intros v Hv _. apply list_elem_of_In in Hv. destruct Hv as [<-|[<-|[]]]; [|by apply Forall_nil_2].
    apply Forall_cons. split; [|by apply Forall_nil_2]. exists 0. split; [done|]. split; [done | vm_compute; done].
  - by repeat constructor.
Defined.
