(* ===== verification/DcrConfigProps.v ===== *)
(** The objects of a DorisCluster's components: the objects of a component fit
    together, the place of the configuration variable alone restarts no pod, and
    what the webhook accepts is what the FE controller applies. *)

From Stdlib Require Import ZArith Lia Ascii.
From stdpp Require Import base list gmap strings.
From S2P Require Import PodTemplate.
From S2P Require Import Prelude GoStr KubeTypes DdcApi Client Traces Mysql Resource External SubDefault Demo.
From S2P Require Import DcrApi DcrResource DcrSub DcrFe DcrReconciler DcrTraces DcrFeProps.

Local Open Scope string_scope.
Local Open Scope Z_scope.
Local Open Scope dop_scope.

(** ** The configuration variable *)

Definition other_envs (envs : list EnvVar) : list EnvVar := List.filter (fun e => negb (is_config_env e)) envs.

(** Every configuration variable is the operator's. *)
Definition own_config_env (envs : list EnvVar) : Prop :=
  Forall (fun e => ev_Name e = config_env_name -> e = config_env) envs.

Lemma aligned_go pre old : own_config_env old ->
  foldl insert_config_env (app pre (other_envs old)) (config_positions (length pre) old) = app pre old.
Proof.
  intros Ho. revert pre; induction Ho as [|e old He Ho IH]; intros pre; [done|].
  cbn [other_envs List.filter config_positions]. fold (other_envs old).
  destruct (is_config_env e) eqn:Hc; cbn [negb app foldl].
  - unfold is_config_env in Hc. apply bool_decide_eq_true in Hc. rewrite (He Hc).
    assert (Hi : insert_config_env (app pre (other_envs old)) (length pre) =
      app (app pre [config_env]) (other_envs old)).
    { unfold insert_config_env. rewrite length_app. destruct (Nat.leb_spec (length pre + length (other_envs old)) (length pre)).
      - destruct (other_envs old); [by rewrite !app_nil_r | cbn in *; lia].
      - by rewrite take_app_length, drop_app_length, <- app_assoc. }
    rewrite Hi. specialize (IH (app pre [config_env])). rewrite length_app in IH. cbn in IH.
    rewrite Nat.add_comm in IH. cbn in IH. by rewrite IH, <- app_assoc.
  - specialize (IH (app pre [e])). rewrite length_app, <- !app_assoc in IH. cbn in IH.
    rewrite Nat.add_comm in IH. exact IH.
Qed.

(** The new variables with the configuration variable placed as in the old ones
    are the old ones, when they agree on the others. *)
Lemma aligned_envs_old new old : own_config_env old -> other_envs new = other_envs old -> aligned_envs new old = old.
Proof. intros Ho E. unfold aligned_envs. fold (other_envs new). rewrite E. by apply (aligned_go []). Qed.

Lemma same_envs_refl envs : same_envs envs envs = true.
Proof.
  induction envs as [|e l IH]; [done|]. cbn. rewrite (bool_decide_eq_true_2 (ev_Name e = ev_Name e)), (bool_decide_eq_true_2 (ev_Value e = ev_Value e)) by done.
  by rewrite orb_true_r, IH.
Qed.

Section restarts.
Context `{External}.

(** A StatefulSet whose main container differs from the recorded one only in
    where, and whether, it has the configuration variable compares equal, so that an
    upgrade of the operator does not restart the pods. *)
Theorem config_variable_ignored (new old : StatefulSet) (i : nat) (container : Container) (replicas : Z)
    (Hmain : main_container (pt_Containers (st_Template new)) = Some (i, container))
    (Hnew : st_Replicas new = Some replicas) (Hold : st_Replicas old = Some replicas)
    (Hown : own_config_env (main_envs (pt_Containers (st_Template old))))
    (Hothers : other_envs (c_Env container) = other_envs (main_envs (pt_Containers (st_Template old))))
    (Hrecorded : map_get (st_Annotations old) DcrComponentResourceHash =
       HashObject (statefulSetHashObject
         (set_container_envs i (main_envs (pt_Containers (st_Template old))) new) false)) :
  exists st, StatefulSetDeepEqual new old false = Some (st, true) /\ st_Template st = st_Template new.
Proof.
  unfold StatefulSetDeepEqual.
  destruct (StatefulsetDeepEqualWithKey new old DcrComponentResourceHash false) as [n eq] eqn:E.
  assert (Hn : exists a, n = set_sts_Annotations a new).
  { unfold StatefulsetDeepEqualWithKey in E. injection E as <- _. by eexists. }
  destruct Hn as [a ->]. destruct eq; [by exists (set_sts_Annotations a new)|].
  unfold clear_config_env_path_numbers_alwaysEquals. cbn [st_Template set_sts_Annotations update_field st_Replicas].
  assert (Henv : main_envs (pt_Containers (st_Template new)) = c_Env container) by (unfold main_envs; by rewrite Hmain).
  rewrite Henv, aligned_envs_old, same_envs_refl by done. cbn [negb]. rewrite Hmain. cbn [mbind option_bind].
  rewrite Hnew, Hold. cbn [mbind option_bind]. rewrite Z.eqb_refl. exists (set_sts_Annotations a new). split; [|reflexivity].
  f_equal. f_equal. apply bool_decide_eq_true. exact (eq_sym Hrecorded).
Qed.
End restarts.

(** ** Objects that fit together *)

Section objects.
Context `{External}.

(** The labels that the operator keys its own objects by. *)
Definition operator_keys : list string := [DcrOwnerReference; ComponentLabelKey; DorisClusterLabelKey].

Lemma pod_labels_key d c base labels k : base_of d c = Some base -> GetPodLabels d c = Some labels ->
  bs_PodLabels base !! k = None -> labels !! k = (getDefaultLabels d ∪ GenerateStatefulSetSelector d c) !! k.
Proof.
  intros Hb Hl Hk. assert (labels = bs_PodLabels base ∪ (getDefaultLabels d ∪ GenerateStatefulSetSelector d c)) as ->.
  { destruct c; cbn [GetPodLabels] in Hl; try (rewrite Hb in Hl; by injection Hl as <-). done. }
  by rewrite lookup_union, Hk, (left_id_L None (∪)).
Qed.

Lemma selector_nonempty d c base : base_of d c = Some base -> GenerateStatefulSetSelector d c <> ∅.
Proof. destruct c; intros Hb; try apply insert_non_empty. done. Qed.

Lemma selector_subseteq d c base (labels : strmap) : base_of d c = Some base ->
  (forall k, k ∈ operator_keys -> labels !! k = (getDefaultLabels d ∪ GenerateStatefulSetSelector d c) !! k) ->
  GenerateStatefulSetSelector d c ⊆ labels.
Proof.
  intros Hb Hk. apply map_subseteq_spec. intros k x Hx.
  assert (Hin : k ∈ [DcrOwnerReference; ComponentLabelKey]).
  { destruct c; cbn [GenerateStatefulSetSelector] in Hx; try done;
      apply lookup_insert_Some in Hx as [[<- _]|[_ Hx]]; try (by right; left); apply lookup_singleton_Some in Hx as [<- _]; left. }
  rewrite Hk by (unfold operator_keys; apply elem_of_cons in Hin as [->|Hin%list_elem_of_singleton]; [left | subst; right; left]).
  unfold getDefaultLabels.
  rewrite lookup_union_r; [exact Hx|]. apply lookup_singleton_ne. intros <-. revert Hin. clear.
  intros [E|[E|E%elem_of_nil]%elem_of_cons]%elem_of_cons; done.
Qed.

Lemma service_names_differ d c base : base_of d c = Some base ->
  GenerateInternalCommunicateServiceName d c <> GenerateExternalServiceName d c.
Proof.
  unfold GenerateInternalCommunicateServiceName, GenerateExternalServiceName.
  destruct c; intros Hb; try done; by intros E%app_inj_l_str.
Qed.

(** C24: the objects that are made for a component fit together: the StatefulSet
    names the internal service, both services select what the StatefulSet
    selects, and the pods, unless the user's labels redefine the operator's,
    are selected by it and are mapped back to the cluster by the watch; every
    object is the cluster's own and in its namespace. *)
Theorem component_objects_fit (d : Dcr) (c : ComponentType) (cfg : config) (base : BaseSpec)
    (st : StatefulSet) (internal external : Service) (labels : strmap)
    (Hname : dcr_Name d <> "") (Hbase : base_of d c = Some base)
    (Hst : NewStatefulSet d cfg c = Some st) (Hint : BuildInternalService d c cfg = Some internal)
    (Hext : BuildExternalService d c cfg = Some external) (Hlabels : GetPodLabels d c = Some labels)
    (Huser : Forall (fun k => bs_PodLabels base !! k = None) operator_keys) :
  (exists sel, st_Selector st = Some (mkLabelSelector sel []) /\ sel <> ∅ /\ sel ⊆ labels /\
     svc_Selector internal = sel /\ svc_Selector external = sel) /\
  st_ServiceName st = svc_Name internal /\ svc_Name internal <> svc_Name external /\
  (forall meta, m_Labels meta = labels -> map_pod meta = [(m_Namespace meta, dcr_Name d)]) /\
  Forall (fun m => m_Namespace m = dcr_Namespace d /\ m_OwnerReferences m = [GetDcrOwnerReference d])
    [st_Meta st; svc_Meta internal; svc_Meta external].
Proof.
  assert (Hk : forall k, k ∈ operator_keys -> labels !! k = (getDefaultLabels d ∪ GenerateStatefulSetSelector d c) !! k).
  { intros k Hin. eapply pod_labels_key; [exact Hbase | exact Hlabels|]. rewrite Forall_forall in Huser. by apply Huser. }
  assert (Hsel : svc_Selector external = GenerateServiceSelector d c /\
    svc_Name external = GenerateExternalServiceName d c /\ m_Namespace (svc_Meta external) = dcr_Namespace d /\
    m_OwnerReferences (svc_Meta external) = [GetDcrOwnerReference d]).
  { unfold BuildExternalService in Hext. destruct (match c with Component_FE => _ | _ => _ end) as [[es ports]|]; [|done].
    cbn [mbind option_bind] in Hext. injection Hext as <-.
    unfold constructServiceSpec, setServiceType. destruct es as [es|]; [|by cbn]. cbn. case_decide; by repeat split. }
  destruct Hsel as (Hs1 & Hs2 & Hs3 & Hs4).
  unfold NewStatefulSet in Hst. rewrite Hbase in Hst. cbn [mbind option_bind] in Hst.
  unfold BuildSharedVolumesAndVolumeMounts in Hst.
  destruct (GenerateEveryoneMountPathDorisPersistentVolume _ _ _ _); [|done].
  destruct (NewPodTemplateSpec _ _ _); [|done]. cbn [mbind option_bind] in Hst. injection Hst as <-.
  unfold BuildInternalService in Hint. destruct (getInternalServicePort cfg c); [|done].
  cbn [mbind option_bind] in Hint. injection Hint as <-.
  split; [|split; [done|split; [|split]]].
  - exists (GenerateStatefulSetSelector d c). split; [done|]. split; [by apply (selector_nonempty d c base)|].
    split; [|by split]. by apply (selector_subseteq d c base).
  - rewrite Hs2. by apply (service_names_differ d c base).
  - intros meta Hm. unfold map_pod. rewrite Hm. unfold map_get. rewrite (Hk DorisClusterLabelKey) by (right; right; left).
    unfold getDefaultLabels. rewrite (lookup_union_l' _ _ _ (mk_is_Some _ _ (lookup_singleton_eq _ _))), lookup_singleton_eq.
    cbn [default]. by rewrite decide_True.
  - repeat constructor; try done; apply Hs3 || apply Hs4.
Qed.
End objects.

(** ** The webhook and the controller *)

(** What the webhook accepts the FE controller applies as it is: after an
    accepted update the guard of the scale-down changes nothing, whatever the
    number of frontends, and no administrator named admin is accepted. *)
Theorem accepted_update_applied (oldObj d : Dcr) (fe : FeSpec) (replicas existing : Z)
    (Haccepted : ValidateUpdate oldObj d = inr None)
    (Hfe : FeSpec_ (dcr_Spec d) = Some fe) (Hreplicas : bs_Replicas (fe_Base fe) = Some replicas) :
  safeScaleDown d fe replicas existing = Ret d /\
  forall user, AdminUser_ (dcr_Spec d) = Some user -> EqualFold (au_Name user) "admin" = false.
Proof.
  unfold ValidateUpdate, validateManagementUser in Haccepted. rewrite Hfe, Hreplicas in Haccepted.
  assert (Hn : (replicas <? GetElectionNumber fe) = false).
  { destruct (replicas <? GetElectionNumber fe); [|done]. exfalso. revert Haccepted.
    destruct (match AdminUser_ _ with Some _ => _ | None => _ end); done. }
  rewrite Hn in Haccepted. split.
  - unfold safeScaleDown. apply Z.ltb_ge, Z.leb_le in Hn. by rewrite Hn, orb_true_r.
  - intros user Hu. rewrite Hu in Haccepted. by destruct (EqualFold (au_Name user) "admin").
Qed.

(** ** Witnesses *)

Local Existing Instance demo_external.

Definition demo_main (envs : list EnvVar) : PodTemplateSpec :=
  emptyTemplate <| pt_Containers := [emptyContainer <| c_Name := "fe" |> <| c_Image := "doris-fe" |> <| c_Env := envs |>] |>.
Definition demo_new_sts : StatefulSet := (demo_fe_sts 3) <| st_Template := demo_main [env_var "A" "1"; config_env] |>.
Definition demo_old_sts : StatefulSet :=
  set_sts_Annotations {[DcrComponentResourceHash :=
      HashObject (statefulSetHashObject ((demo_fe_sts 3) <| st_Template := demo_main [config_env; env_var "A" "1"] |>) false)]}
    ((demo_fe_sts 3) <| st_Template := demo_main [config_env; env_var "A" "1"] |>).

Lemma config_variable_ignored_witness :
  exists st, StatefulSetDeepEqual demo_new_sts demo_old_sts false = Some (st, true) /\
    st_Template st = st_Template demo_new_sts.
Proof.
  apply (config_variable_ignored demo_new_sts demo_old_sts 0 (emptyContainer <| c_Name := "fe" |> <| c_Image := "doris-fe" |> <| c_Env := [env_var "A" "1"; config_env] |>) 3);
    try (vm_compute; reflexivity).
  repeat constructor. intros E. exfalso. revert E. by vm_compute.
Defined.

Lemma component_objects_fit_witness : exists st internal external labels,
  NewStatefulSet demo_dcr ∅ Component_FE = Some st /\ BuildInternalService demo_dcr Component_FE ∅ = Some internal /\
  BuildExternalService demo_dcr Component_FE ∅ = Some external /\ GetPodLabels demo_dcr Component_FE = Some labels /\
  st_ServiceName st = svc_Name internal /\ svc_Name internal <> svc_Name external.
Proof.
  do 4 eexists. do 4 (split; [reflexivity|]).
  refine (let H := component_objects_fit demo_dcr Component_FE ∅ demo_fe_base _ _ _ _ ltac:(done) eq_refl eq_refl eq_refl
    eq_refl eq_refl _ in conj (proj1 (proj2 H)) (proj1 (proj2 (proj2 H)))).
  repeat constructor.
Defined.

Definition demo_wide_dcr : Dcr := set_fe_replicas 5 demo_dcr.
Lemma accepted_update_applied_witness :
  safeScaleDown demo_wide_dcr (mkFeSpec None (demo_fe_base <| bs_Replicas := Some 5 |>)) 5 9 = Ret demo_wide_dcr.
Proof.
  refine (proj1 (accepted_update_applied demo_dcr demo_wide_dcr (mkFeSpec None (demo_fe_base <| bs_Replicas := Some 5 |>))
    5 9 _ eq_refl eq_refl)).
  vm_compute. reflexivity.
Defined.
