(* ===== verification/RestartProps.v ===== *)
(** Restarts of a DorisCluster's components: after a change of the core
    configuration, the StatefulSet that the pass of FE or BE writes asks for a
    restart of its pods. *)

From Stdlib Require Import ZArith Lia Ascii.
From stdpp Require Import base list gmap strings.
From S2P Require Import Prelude GoStr KubeTypes DdcApi Client Traces Mysql Resource External SubDefault Demo.
From S2P Require Import DcrApi DcrResource DcrSub PodTemplate DcrPods DcrFe DcrTraces DcrFeProps PodProps.
From S2P Require DcrBe.

Local Open Scope string_scope.
Local Open Scope Z_scope.
Local Open Scope dop_scope.

(** ** What an apply keeps of the template *)

Definition template_annotations (st : StatefulSet) : strmap := pt_Annotations (st_Template st).

Lemma StatefulSetDeepEqual_template `{External} new old excl st b :
  StatefulSetDeepEqual new old excl = Some (st, b) -> template_annotations st = template_annotations new.
Proof.
  unfold StatefulSetDeepEqual.
  assert (Hk : forall key, template_annotations (StatefulsetDeepEqualWithKey new old key excl).1 = template_annotations new) by done.
  specialize (Hk DcrComponentResourceHash).
  destruct (StatefulsetDeepEqualWithKey _ _ _ _) as [n eq]; cbn in Hk. destruct eq; [by intros [= <- _]|].
  unfold clear_config_env_path_numbers_alwaysEquals. cbv zeta. destruct (negb _); [by intros [= <- _]|].
  destruct (main_container _) as [[i c]|]; [|done]. cbn [mbind option_bind].
  destruct (st_Replicas n) as [nr|]; [|done]. destruct (st_Replicas old) as [or|]; [|done].
  cbn [mbind option_bind]. destruct (nr =? or); [intros [= <- _]; congruence|].
  case_decide; intros [= <- _]; exact Hk.
Qed.

Definition keeps_template (pasf : StatefulSet -> option StatefulSet -> StatefulSet) : Prop :=
  forall s, template_annotations (pasf s None) = template_annotations s.

(** An apply writes only templates with the annotations that it was given. *)
Lemma apply_template_wp `{External} st pasfs : Forall keeps_template pasfs ->
  wp (apply_stateful_set st tt restricted_equal pasfs) (fun tr _ =>
    forall s, s ∈ omap sts_write tr -> template_annotations s = template_annotations st).
Proof.
  intros Hp. unfold apply_stateful_set. cbn [bind call]. intros got.
  assert (Hpasf : forall s, template_annotations (foldl (fun st pasf => pasf st None) s pasfs) = template_annotations s).
  { clear got. induction Hp as [|pasf pasfs Hh _ IH]; intros s; [done|]. cbn. by rewrite IH, Hh. }
  assert (Hgo : forall create est, wp (let! '(s, c, ev) := restricted_equal st est tt in
      let s := foldl (fun st pasf => pasf st None) s pasfs in
      if create : bool then let! err := CreateClientObject KSts s in Ret (c, err)
      else if ev : bool then Ret (c, None)
      else let! err := PatchClientObject KSts (set_st_ResourceVersion (m_ResourceVersion (st_Meta est)) s) in
           match err with
           | None => Ret (c, None)
           | Some e => if IsConflict e then Ret (c, None) else Ret (c, Some e)
           end) (fun tr _ => forall s, s ∈ omap sts_write tr -> template_annotations s = template_annotations st)).
  { intros create est. unfold restricted_equal.
    destruct (StatefulSetDeepEqual _ est false) as [[s ev]|] eqn:E; [|cbn; by intros s ?%elem_of_nil].
    apply StatefulSetDeepEqual_template in E.
    assert (Hr : template_annotations (RestrictConditionsEqual st est) = template_annotations st)
      by (unfold RestrictConditionsEqual; by destruct (st_VolumeClaimTemplates est)).
    rewrite Hr in E. cbn [deref bind]. destruct create; [|destruct ev; [cbn; by intros s' ?%elem_of_nil|]].
    - cbn. intros _ s' ->%list_elem_of_singleton. by rewrite Hpasf.
    - assert (Hv : template_annotations (set_st_ResourceVersion (m_ResourceVersion (st_Meta est))
          (foldl (fun st pasf => pasf st None) s pasfs)) = template_annotations st)
        by (etransitivity; [apply Hpasf | exact E]).
      cbn -[set_st_ResourceVersion template_annotations].
      intros [e|]; [destruct (IsConflict e)|]; cbn -[set_st_ResourceVersion template_annotations];
        by intros s' ->%list_elem_of_singleton. }
  destruct got as [est|err]; [apply (Hgo false est)|].
  destruct (IsNotFound err); [apply (Hgo true emptySts) | cbn; by intros s ?%elem_of_nil].
Qed.

(** ** What the builders do with the annotations of the spec *)

Lemma NewPodTemplateSpec_annotations d cfg c pts : NewPodTemplateSpec d cfg c = Some pts ->
  exists base, base_of d c = Some base /\ pt_Annotations pts = bs_Annotations base.
Proof.
  unfold NewPodTemplateSpec. intros Hp. apply bind_Some in Hp as (base & Hb & Hp). exists base. split; [done|].
  cbn iota beta in Hp. destruct (BuildSharedVolumesAndVolumeMounts _ _) as [[? ?] ?].
  apply bind_Some in Hp as (vs & _ & [= <-]). done.
Qed.

Lemma termination_annotations pts cfg n pts' : AddTerminationGracePeriodSeconds pts cfg n = Some pts' ->
  pt_Annotations pts' = pt_Annotations pts.
Proof.
  unfold AddTerminationGracePeriodSeconds. intros Hp. apply bind_Some in Hp as (s & _ & Hp). injection Hp as <-.
  by repeat case_match.
Qed.

Lemma fe_template_annotations d cfg pts : fe_template d cfg = Some pts ->
  exists base, base_of d Component_FE = Some base /\ pt_Annotations pts = bs_Annotations base.
Proof.
  unfold fe_template. intros Hp. apply bind_Some in Hp as (p1 & H1 & Hp).
  apply bind_Some in Hp as (p2 & H2 & Hp). apply bind_Some in Hp as (fe & _ & Hp).
  apply bind_Some in Hp as (c & _ & [= <-]). apply NewPodTemplateSpec_annotations in H1 as (base & Hb & Ha).
  apply termination_annotations in H2. exists base. split; [done|]. cbn. congruence.
Qed.

Lemma be_template_annotations `{External} d cfg : result (fun r =>
    (exists base, base_of d Component_BE = Some base /\ pt_Annotations r.2 = bs_Annotations base) /\
    BEStatus (dcr_Status r.1) = BEStatus (dcr_Status d)) (buildBEPodTemplateSpec d cfg).
Proof.
  unfold buildBEPodTemplateSpec. destruct (NewPodTemplateSpec d cfg Component_BE) as [p1|] eqn:H1; [|by apply spec_panic].
  cbn [assert_ok]. destruct (BeSpec_ (dcr_Spec d)) as [be|] eqn:Hbe; [|by apply spec_panic]. cbn [deref].
  apply NewPodTemplateSpec_annotations in H1 as (base & Hb & Ha).
  destruct (be_affinity be p1) as [p2 base2] eqn:H2.
  assert (Ha2 : pt_Annotations p2 = bs_Annotations base)
    by (unfold be_affinity in H2; destruct (be_EnableFeAffinity be); injection H2 as <- _; done).
  eapply spec_bind; [apply only_any|]. intros termination _.
  destruct (AddTerminationGracePeriodSeconds p2 _ _) as [p3|] eqn:H3; [|by apply spec_panic]. cbn [assert_ok].
  apply termination_annotations in H3. eapply spec_bind; [apply only_any|]. intros container _.
  apply spec_ret. split; [exists base; split; [done | cbn; congruence]|]. unfold set_be_base. by case_match.
Qed.

(** ** The clock and the configuration *)

(** What the documentation of [time] says of RFC 3339 texts, on the range of
    nanoseconds since the epoch: they keep the whole seconds. *)
Definition rfc3339_law `{External} : Prop :=
  forall t, 0 <= t < 2 ^ 63 -> time_parse_rfc3339 (local_rfc3339 t) = Ok (t - t mod 1000000000) /\ local_rfc3339 t <> "".

(** The pass reads times within ten minutes of each other, less the second
    that the text of a time loses. *)
Definition clock_steady (tr : trace) : Prop :=
  (forall t, t ∈ omap time_read tr -> 0 <= t < 2 ^ 63) /\
  forall t t', t ∈ omap time_read tr -> t' ∈ omap time_read tr -> t' - t <= restart_window - 1000000000.

(** The first config map read in a pass is the component's core configuration,
    and its hash is not [old]. *)
Definition core_config_changed `{External} (c : ComponentType) (old : string) (tr : trace) : Prop :=
  exists cm conf rest, omap config_map_get tr = Ok cm :: rest /\ ResolveConfigMaps [cm] c = (conf, None) /\
    Map2Hash conf <> "" /\ Map2Hash conf <> old.

(** The StatefulSet that the FE pass reads first does not have more replicas than wanted. *)
Definition not_shrinking (d : Dcr) (tr : trace) : Prop :=
  exists est rest existing wanted, omap sts_get tr = Ok est :: rest /\ st_Replicas est = Some existing /\
    wanted_replicas d = Some wanted /\ 0 <= existing <= wanted /\ wanted < 2 ^ 31.

(** The template of a StatefulSet carries the time [t] as that of the restart. *)
Definition restarts_at `{External} (c : ComponentType) (t : Z) (st : StatefulSet) : Prop :=
  map_get (pt_Annotations (st_Template st)) (GetRestartAnnotationKey c) = local_rfc3339 t.

Definition restarting (c : ComponentType) (d : Dcr) : Prop :=
  exists s, GetComponentStatus d c = Some s /\ cst_Phase s = Restarting.

(** The spec of the component carries the time. *)
Definition annotated `{External} (c : ComponentType) (t : Z) (d : Dcr) : Prop :=
  exists base, base_of d c = Some base /\ map_get (bs_Annotations base) (GetRestartAnnotationKey c) = local_rfc3339 t.

Section restarts.
Context `{External}.
Context (c : ComponentType) (t1 : Z).

(** What is left of the pass after the change was seen at [t1]. *)
Definition soon (tr : trace) : Prop := forall t, t ∈ omap time_read tr -> t - t1 <= restart_window - 1000000000.
Definition outcome_restarting {E} (o : outcome (Dcr * E)) : Prop := forall d' e, o = Done (d', e) -> restarting c d'.
Definition restarted {E} (d : Dcr) (tr : trace) (o : outcome (Dcr * E)) : Prop :=
  outcome_restarting o /\
  ((c = Component_FE -> not_shrinking d tr) -> soon tr -> forall st, st ∈ omap sts_write tr -> restarts_at c t1 st).

Lemma restarted_quiet {E} d tr (o : outcome (Dcr * E)) : omap sts_write tr = [] -> outcome_restarting o -> restarted d tr o.
Proof. intros Hw Ho. split; [done|]. intros _ _ st. rewrite Hw. by intros ?%elem_of_nil. Qed.

Lemma restarted_prefix {E} d tr tr' (o : outcome (Dcr * E)) : Forall no_sts_access tr -> restarted d tr' o -> restarted d (app tr tr') o.
Proof.
  intros Ht [Ho Hr]. destruct (free_no_access _ Ht) as [Hg Hw]. split; [done|]. intros Hn Hs st.
  rewrite omap_app, Hw. apply Hr.
  - intros Hc. destruct (Hn Hc) as (est & rest & e & w & Hget & Hrest). rewrite omap_app, Hg in Hget. by exists est, rest, e, w.
  - intros t Hin. apply Hs. rewrite omap_app, elem_of_app. by right.
Qed.

Lemma restarted_crash {E} d why : @restarted E d [] (Crashed why).
Proof. by apply restarted_quiet. Qed.

Lemma restarted_bind {A E} (R : A -> Prop) d (p : op A) (f : A -> op (Dcr * E)) :
  spec no_sts_access R p -> (forall a, R a -> wp (f a) (restarted d)) -> wp (bind p f) (restarted d).
Proof.
  intros Hp Hf. eapply wp_prefix; [..|exact Hp|exact Hf].
  - intros tr tr' o. apply restarted_prefix.
  - intros why. apply restarted_crash.
Qed.

Lemma restarted_fail d d' err (k : op (Dcr * option goerr)) : restarting c d' -> wp k (restarted d) -> wp (or_fail d' err k) (restarted d).
Proof.
  intros Hd Hk. destruct err; [|exact Hk]. cbn. apply restarted_quiet; [done|]. by intros d'' e [= <- _].
Qed.

Lemma restarted_services d d' cfg k : restarting c d' -> wp k (restarted d) -> wp (apply_services d' c cfg k) (restarted d).
Proof.
  intros Hd Hk. unfold apply_services. destruct (BuildExternalService _ _ _); [|apply restarted_crash].
  destruct (BuildInternalService _ _ _); [|apply restarted_crash]. cbn [assert_ok].
  eapply restarted_bind; [apply ApplyService_spec; intros; by split|]. intros e1 _. apply restarted_fail; [done|].
  eapply restarted_bind; [apply ApplyService_spec; intros; by split|]. intros e2 _. by apply restarted_fail.
Qed.

(** ** The injection *)

Lemma inject_no_access d : only no_sts_access (CheckRestartTimeAndInject d c).
Proof. unfold CheckRestartTimeAndInject, warn. spec_go. Qed.

Lemma inject_wp d : c = Component_FE \/ c = Component_BE -> rfc3339_law -> 0 <= t1 < 2 ^ 63 ->
  is_Some (base_of d c) -> map_get (dcr_Annotations d) (GetRestartAnnotationKey c) = local_rfc3339 t1 ->
  restarting c d ->
  wp (CheckRestartTimeAndInject d c) (fun tr o => forall d' inject, o = Done (d', inject) -> restarting c d' /\
    (soon tr -> inject = true /\ annotated c t1 d' /\ GetComponentStatus d' c = GetComponentStatus d c)).
Proof.
  intros Hc Hlaw Ht [base Hb] Hann Hd. destruct (Hlaw t1 Ht) as [Hp Hne]. pose proof (Z.mod_pos_bound t1 1000000000 ltac:(lia)).
  assert (Hset : forall b, base_of (set_base c b d) c = Some b /\ GetComponentStatus (set_base c b d) c = GetComponentStatus d c).
  { intros b. destruct Hc as [E|E]; rewrite E in Hb |- *; cbn in Hb |- *; [by destruct (FeSpec_ _) | by destruct (BeSpec_ _)]. }
  assert (Hrs : forall b, restarting c (set_base c b d)) by (intros b; unfold restarting; by rewrite (proj2 (Hset b))).
  assert (Hgo : wp (deref (base_of d c) (fun baseSpec =>
      let key := GetRestartAnnotationKey c in
      let restartedAt := map_get (dcr_Annotations d) key in
      if decide (restartedAt = "") then Ret (d, false)
      else match time_parse_rfc3339 restartedAt with
        | Er err => warn "RestartTimeInvalid"
              ("CheckRestartTimeAndInject error: time format is incorrect. dorisClusterName: " +:+ dcr_Name d +:+
               ", namespace: " +:+ dcr_Namespace d +:+ ", componentType " +:+ component_string c +:+
               ", wrong parse 'restartedAt': " +:+ restartedAt +:+ " , error: " +:+ err_msg err) ;;; Ret (d, false)
        | Ok parseTime =>
            let! now := call TimeNow in
            if parseTime <? now - restart_window then
              warn "RestartTimeInvalid"
                ("the " +:+ component_string c +:+ " restart time is not effective. the 'restartedAt' " +:+
                 restartedAt +:+ " can't be earlier than 10 minutes before the current time") ;;; Ret (d, false)
            else Ret (set_base c (baseSpec <| bs_Annotations := <[key := restartedAt]> (bs_Annotations baseSpec) |>) d, true)
        end)) (fun tr o => forall d' inject, o = Done (d', inject) -> restarting c d' /\
    (soon tr -> inject = true /\ annotated c t1 d' /\ GetComponentStatus d' c = GetComponentStatus d c))).
  { rewrite Hb. cbn [deref]. cbv zeta. rewrite Hann, decide_False, Hp by done. unfold warn. cbn [bind call]. intros now.
    destruct (Z.ltb_spec (t1 - t1 mod 1000000000) (now - restart_window)).
    - intros [] d' inject [= <- <-]. split; [done|]. intros Hs. specialize (Hs now ltac:(left)). lia.
    - intros d' inject [= <- <-]. split; [apply Hrs|]. intros _. split; [done|].
      split; [|apply Hset]. eexists. split; [apply Hset|]. cbn. unfold map_get. by rewrite lookup_insert_eq. }
  unfold CheckRestartTimeAndInject. destruct Hc as [E|E]; rewrite E in Hgo |- *; exact Hgo.
Qed.

(** ** The preparation of the StatefulSet *)

(** A change was seen, and nothing was injected yet. *)
Definition pending (d : Dcr) : Prop :=
  restarting c d /\ map_get (dcr_Annotations d) (GetRestartAnnotationKey c) = local_rfc3339 t1 /\ is_Some (base_of d c).

(** What a preparation leaves, when its trace has [P]. *)
Definition injected (P : trace -> Prop) (tr : trace) (o : outcome (Dcr * option goerr)) : Prop :=
  forall d' err, o = Done (d', err) -> restarting c d' /\ (P tr -> soon tr -> annotated c t1 d').

Lemma soon_app_r tr tr' : soon (app tr tr') -> soon tr'.
Proof. intros Hs t Ht. apply Hs. rewrite omap_app, elem_of_app. by right. Qed.

Lemma set_status_annotated s d : c = Component_FE \/ c = Component_BE -> annotated c t1 d ->
  annotated c t1 (set_status c s d).
Proof. intros [E|E] (base & Hb & Ha); exists base; (split; [|done]); rewrite E in *; exact Hb. Qed.
Lemma set_status_restarting s d : c = Component_FE \/ c = Component_BE ->
  restarting c (set_status c (Some (set_phase Restarting s)) d).
Proof. intros [E|E]; rewrite E; by eexists. Qed.

Lemma inject_then (P : trace -> Prop) d (f : Dcr -> op (Dcr * option goerr)) :
  c = Component_FE \/ c = Component_BE -> rfc3339_law -> 0 <= t1 < 2 ^ 63 -> pending d ->
  (forall d' s, GetComponentStatus d' c = Some s -> f d' = Ret (set_status c (Some (set_phase Restarting s)) d', None)) ->
  wp (let! '(d', inject) := CheckRestartTimeAndInject d c in if inject : bool then f d' else Ret (d', None)) (injected P).
Proof.
  intros Hc Hlaw Ht (Hr & Ha & Hb) Hf. apply wp_bind. eapply wp_mono; [by apply inject_wp|].
  intros tr [[d' inject]|why] Ho; [|by intros d' err]. destruct (Ho d' inject eq_refl) as [Hr' Hs].
  destruct inject; [destruct Hr' as (s & Hst & Hph); rewrite (Hf d' s Hst)|]; cbn [wp]; rewrite app_nil_r;
    intros d'' err [= <- <-].
  - split; [by apply set_status_restarting|]. intros _ Hsoon. apply set_status_annotated; [done|].
    by destruct (Hs Hsoon) as (_ & ? & _).
  - split; [done|]. intros _ Hsoon. by destruct (Hs Hsoon) as (? & _).
Qed.

End restarts.

(** ** The passes of BE and FE *)

Section passes.
Context `{External} (t1 : Z).

Lemma be_prepare_wp d old : rfc3339_law -> 0 <= t1 < 2 ^ 63 -> pending Component_BE t1 d -> cst_Phase old = Available ->
  wp (DcrBe.Be.prepareStatefulsetApply d old) (injected Component_BE t1 (fun _ => True)).
Proof.
  intros Hlaw Ht Hd Hph. unfold DcrBe.Be.prepareStatefulsetApply. rewrite decide_True by done.
  apply (inject_then _ _ _ _ (fun d' => deref (BEStatus (dcr_Status d')) (fun status =>
    Ret (set_be_status (Some (set_phase Restarting status)) d', None)))); [by right | done..|].
  intros d' s Hs. cbn in Hs. by rewrite Hs.
Qed.

Lemma be_prepare_no_access d old : only no_sts_access (DcrBe.Be.prepareStatefulsetApply d old).
Proof.
  unfold DcrBe.Be.prepareStatefulsetApply. case_decide; [|by apply spec_ret].
  eapply spec_bind; [apply inject_no_access|]. intros [d' []] _; [|by apply spec_ret].
  destruct (BEStatus _); [by apply spec_ret | by apply spec_panic].
Qed.

(** Replacing the replicas of the spec keeps the rest. *)
Lemma set_fe_replicas_pending n d : pending Component_FE t1 d -> pending Component_FE t1 (set_fe_replicas n d).
Proof.
  intros (Hr & Ha & [base Hb]). unfold set_fe_replicas. rewrite Hb. cbn in Hb. destruct (FeSpec_ (dcr_Spec d)) as [fe|] eqn:Hfe; [|done].
  unfold set_fe_base. rewrite Hfe. repeat split; [exact Hr | exact Ha | by eexists].
Qed.

Lemma safeScaleDown_pending d fe nr or : pending Component_FE t1 d ->
  result (fun d' => pending Component_FE t1 d' /\ (or <= nr -> d' = d)) (safeScaleDown d fe nr or).
Proof.
  intros Hd. unfold safeScaleDown, warn. destruct (Z.leb_spec or nr); [by apply spec_ret|]. cbn [orb].
  destruct (GetElectionNumber fe <=? nr); [by apply spec_ret|].
  destruct (_ <=? or); (apply spec_call; [done|]; intros _ _; apply spec_ret; split; [by apply set_fe_replicas_pending | lia]).
Qed.

Lemma fe_prepare_wp d old : rfc3339_law -> 0 <= t1 < 2 ^ 63 -> pending Component_FE t1 d -> cst_Phase old = Available ->
  wp (prepareStatefulsetApply d old) (injected Component_FE t1 (not_shrinking d)).
Proof.
  intros Hlaw Ht Hd Hph. unfold prepareStatefulsetApply. cbn [bind call]. intros [oldSt|err]; cycle 1.
  { intros d' e [= <- _]. split; [apply Hd|]. intros (? & ? & ? & ? & [=] & _). }
  destruct (FeSpec_ (dcr_Spec d)) as [fe|] eqn:Hfe; [|by intros d' e]. cbn [deref].
  destruct (match bs_Replicas (fe_Base fe) with Some n => (d, n) | None => (set_fe_replicas 0 d, 0) end) as [cl nr] eqn:Hcl.
  assert (Hclp : pending Component_FE t1 cl)
    by (destruct (bs_Replicas (fe_Base fe)); injection Hcl as <- <-; [done | by apply set_fe_replicas_pending]).
  destruct (st_Replicas oldSt) as [or|] eqn:Hor; [|by intros d' e]. cbn [deref].
  apply wp_bind. eapply wp_mono; [by apply (safeScaleDown_pending cl fe nr or)|]. intros tr [cl'|w] [_ Hcl']; [|by intros d' e].
  destruct Hcl' as [Hp' Hsame].
  assert (Hns : forall tr', not_shrinking d (Ev (CGet KSts (dcr_Namespace d) (GenerateComponentStatefulSetName d Component_FE)) (Ok oldSt) :: tr') ->
    cl' = d /\ exists wanted, base_of d Component_FE ≫= bs_Replicas = Some wanted /\ 0 <= or <= wanted /\ wanted < 2 ^ 31).
  { intros tr' (est & rest & ex & w & [= <- _] & He & Hw & Hle & Hlt). rewrite Hor in He. injection He as <-.
    pose proof Hw as Hw'. rewrite (wanted_of_fe _ _ Hfe) in Hw'. rewrite Hw' in Hcl. injection Hcl as <- <-.
    split; [apply Hsame; lia | by exists w]. }
  destruct (base_of cl' Component_FE ≫= bs_Replicas) as [nr2|] eqn:Hnr; [|by intros d' e]. cbn [deref].
  destruct (Z.ltb_spec (int32 (nr2 - or)) 0) as [Hneg|Hpos].
  - apply wp_bind. apply wp_true. intros tr2 [err|w]; [|by intros d' e]. intros d' e [= <- _]. split; [apply Hp'|].
    intros Hn. destruct (Hns _ Hn) as (-> & w & Hw & H1 & H2). exfalso. rewrite Hw in Hnr. injection Hnr as <-.
    assert (Hi : in_int 32 (w - or) = true)
      by (unfold in_int; apply andb_true_iff; split; [apply Z.leb_le | apply Z.ltb_lt]; cbn in *; lia).
    unfold int32 in Hneg. rewrite wrap_id in Hneg by done. lia.
  - rewrite decide_True by done.
    eapply wp_mono; [apply (inject_then Component_FE t1 (fun _ => True) cl' (fun d' => deref (FEStatus (dcr_Status d')) (fun status =>
      Ret (set_fe_status (Some (set_phase Restarting status)) d', None)))); [by left | done..|]|].
    { intros d' s Hs. cbn in Hs. by rewrite Hs. }
    intros tr2 o Ho d' e ->. destruct (Ho d' e eq_refl) as [Hr' Hi]. split; [done|]. intros _ Hsoon. apply Hi; [done|].
    intros t Hin. apply Hsoon. cbn [omap list_omap time_read]. rewrite omap_app, elem_of_app. by right.
Qed.

(** The StatefulSet that is built carries the annotations of the spec. *)
Lemma write_wp c d st pasfs : Forall keeps_template pasfs ->
  (annotated c t1 d -> restarts_at c t1 st) ->
  wp (apply_stateful_set st tt restricted_equal pasfs) (fun tr _ =>
    annotated c t1 d -> forall s, s ∈ omap sts_write tr -> restarts_at c t1 s).
Proof.
  intros Hp Hst. eapply wp_mono; [by apply apply_template_wp|]. intros tr o Ho Ha s Hs.
  unfold restarts_at. change (pt_Annotations (st_Template s)) with (template_annotations s).
  rewrite (Ho s Hs). by apply Hst.
Qed.

(** What the end of a pass makes of an injected cluster. *)
Lemma after_prepare c d0 (P : trace -> Prop) (prep : op (Dcr * option goerr)) (k : Dcr -> op (Dcr * option goerr)) :
  wp prep (fun tr o => injected c t1 P tr o /\ omap sts_write tr = [] /\
    forall tr', (c = Component_FE -> not_shrinking d0 (app tr tr')) -> P tr) ->
  (forall d', restarting c d' -> wp (k d') (fun tr o => outcome_restarting c o /\
     (annotated c t1 d' -> forall s, s ∈ omap sts_write tr -> restarts_at c t1 s))) ->
  wp (let! '(d', err) := prep in or_fail d' err (k d')) (restarted c t1 d0).
Proof.
  intros Hprep Hk. apply wp_bind. eapply wp_mono; [exact Hprep|].
  intros tr [[d' err]|w] (Hi & Hw & HP).
  2: { apply restarted_quiet; [exact Hw | by intros ? ?]. }
  destruct (Hi d' err eq_refl) as [Hr Ha]. destruct err as [e|]; cbn [or_fail].
  { cbn [wp]. rewrite app_nil_r. apply restarted_quiet; [exact Hw|]. by intros d'' e' [= <- _]. }
  eapply wp_mono; [by apply Hk|]. intros tr' o [Ho Hs]. split; [exact Ho|]. intros Hn Hsoon s.
  rewrite omap_app, Hw. cbn [app]. apply Hs, Ha.
  - eapply HP. exact Hn.
  - intros t Ht. apply Hsoon. rewrite omap_app, elem_of_app. by left.
Qed.

Lemma quiet_writes tr o c d : Forall no_sts_access tr -> outcome_restarting c o ->
  outcome_restarting (E := option goerr) c o /\ (annotated c t1 d -> forall s, s ∈ omap sts_write tr -> restarts_at c t1 s).
Proof.
  intros Ht Ho. split; [done|]. intros _ s. rewrite (proj2 (free_no_access _ Ht)). by intros ?%elem_of_nil.
Qed.

Lemma annotated_of c d base : base_of d c = Some base -> annotated c t1 d ->
  map_get (bs_Annotations base) (GetRestartAnnotationKey c) = local_rfc3339 t1.
Proof. intros Hb (b & Hb' & Ha). rewrite Hb in Hb'. by injection Hb' as ->. Qed.

Lemma fe_end_wp d cfg : restarting Component_FE d ->
  wp (let! st := buildFEStatefulSet buildFEPodTemplateSpec d cfg in
      let! '(_, err) := apply_stateful_set st tt restricted_equal [] in Ret (d, err))
    (fun tr o => outcome_restarting Component_FE o /\
       (annotated Component_FE t1 d -> forall s, s ∈ omap sts_write tr -> restarts_at Component_FE t1 s)).
Proof.
  intros Hr. unfold buildFEStatefulSet. destruct (NewStatefulSet d cfg Component_FE) as [st0|]; [|by split; [intros ? ?|intros _ s ?%elem_of_nil]].
  cbn [assert_ok]. unfold buildFEPodTemplateSpec. destruct (fe_template d cfg) as [pts|] eqn:Ht; [|by split; [intros ? ?|intros _ s ?%elem_of_nil]].
  cbn [assert_ok bind]. apply fe_template_annotations in Ht as (base & Hb & Ha).
  apply wp_bind. eapply wp_mono; [apply (write_wp Component_FE d (st0 <| st_Template := pts |>) [])|].
  - constructor.
  - intros Hann. unfold restarts_at. cbn [st_Template update_field]. rewrite Ha. by apply (annotated_of _ d).
  - intros tr [[u err]|w] Hs; cbn [wp]; rewrite ?app_nil_r; (split; [|exact Hs]); [by intros d' e [= <- _] | by intros d' e].
Qed.

Lemma be_end_wp d cfg : restarting Component_BE d ->
  wp (let! '(dcr, st) := DcrBe.Be.buildBEStatefulSet buildBEPodTemplateSpec d cfg in
      let! ready := PrepareReconcileResources dcr Component_BE in
      if ready : bool then
        let! '(_, err) := apply_stateful_set st tt restricted_equal [DcrBe.Be.useNewDefaultValuesInStatefulset] in
        Ret (dcr, err)
      else Ret (dcr, None))
    (fun tr o => outcome_restarting Component_BE o /\
       (annotated Component_BE t1 d -> forall s, s ∈ omap sts_write tr -> restarts_at Component_BE t1 s)).
Proof.
  intros Hr. set (Q := fun (tr : trace) (o : outcome (Dcr * option goerr)) => _).
  assert (Hpre : forall A (R : A -> Prop) (p : op A) f, spec no_sts_access R p -> (forall a, R a -> wp (f a) Q) -> wp (bind p f) Q).
  { intros A R p f Hp Hf. eapply wp_prefix; [..|exact Hp|exact Hf].
    - intros tr tr' o Ht [Ho Hs]. split; [done|]. intros Ha s. rewrite omap_app, (proj2 (free_no_access _ Ht)). by apply Hs.
    - intros w. split; [by intros ? ?|]. by intros _ s ?%elem_of_nil. }
  apply (Hpre _ (fun r => BEStatus (dcr_Status r.1) = BEStatus (dcr_Status d) /\
    (annotated Component_BE t1 d -> restarts_at Component_BE t1 r.2))).
  { unfold DcrBe.Be.buildBEStatefulSet. destruct (NewStatefulSet d cfg Component_BE) as [st0|]; [|by apply spec_panic]. cbn [assert_ok].
    eapply spec_bind.
    - eapply wp_mono; [exact (wp_and _ _ _ (build_free buildBEPodTemplateSpec no_sts_access d cfg
        (fun e He => proj1 (reads_config_free e He))) (be_template_annotations d cfg))|].
      intros tr o [[Htr _] [_ Ho]]. split; [exact Htr | exact Ho].
    - intros [d' pts] [(base & Hb & Ha) Hst]. apply spec_ret. split; [exact Hst|].
      intros Hann. unfold restarts_at. cbn [snd st_Template update_field] in *. rewrite Ha. by apply (annotated_of _ d). }
  intros [d' st] [Hst Hann]. cbn [fst snd] in *.
  assert (Hr' : restarting Component_BE d') by (unfold restarting in *; cbn in *; by rewrite Hst).
  eapply Hpre; [apply PrepareReconcileResources_spec; intros; by split|]. intros [] _; cycle 1.
  { split; [by intros d'' e [= <- _]|]. by intros _ s ?%elem_of_nil. }
  apply wp_bind. eapply wp_mono; [apply (apply_template_wp st [DcrBe.Be.useNewDefaultValuesInStatefulset])|].
  { constructor; [|constructor]. intros s. done. }
  intros tr o Hs.
  assert (Hw : annotated Component_BE t1 d -> forall s, s ∈ omap sts_write tr -> restarts_at Component_BE t1 s).
  { intros Ha s Hin. specialize (Hs s Hin). unfold restarts_at. change (pt_Annotations (st_Template s)) with (template_annotations s).
    rewrite Hs. by apply Hann. }
  destruct o as [[u err]|w]; cbn [wp]; rewrite ?app_nil_r; (split; [|exact Hw]); [by intros d'' e [= <- _] | by intros d'' e].
Qed.
End passes.

Section restart.
Context `{External}.

Lemma compare_wp d old c : (c = Component_FE \/ c = Component_BE) ->
  map_get (GetDorisCoreConfigMapNames d) (component_string c) <> "" -> cst_CoreConfigMapHashValue old <> "" ->
  cst_Phase old = Available -> is_Some (base_of d c) ->
  wp (CompareConfigmapAndTriggerRestart d old c) (fun tr o => Forall no_sts_access tr /\ forall d', o = Done d' ->
    exists r, omap config_map_get tr = [r] /\ same_spec d d' /\ forall cm conf, r = Ok cm ->
      ResolveConfigMaps [cm] c = (conf, None) -> Map2Hash conf <> "" -> Map2Hash conf <> cst_CoreConfigMapHashValue old ->
      exists t, omap time_read tr = [t] /\ pending c t d').
Proof.
  intros Hc Hname Hhash Hph Hbase. unfold CompareConfigmapAndTriggerRestart. rewrite decide_False by done.
  unfold BuildCoreConfigmapStatusHash. rewrite decide_True by done. unfold GetConfigMap, warn. cbn [bind call]. intros [cm|err].
  2: { intros []. cbn [bind]. rewrite (decide_True (P := "" = "" \/ cst_CoreConfigMapHashValue old = "")) by (by left). split; [repeat constructor|].
       intros d' [= <-]. eexists. split; [reflexivity|]. split; [done|]. by intros cm conf [=]. }
  destruct (ResolveConfigMaps _ c) as [conf [err|]] eqn:Hres.
  { cbn [bind call wp]. intros []. rewrite (decide_True (P := "" = "" \/ cst_CoreConfigMapHashValue old = "")) by (by left). split; [repeat constructor|].
    intros d' [= <-]. eexists. split; [reflexivity|]. split; [done|]. intros cm' conf' [= <-]. congruence. }
  cbn [bind]. case_decide as Hch.
  { split; [repeat constructor|]. intros d' [= <-]. eexists. split; [reflexivity|]. split; [done|].
    intros cm' conf' [= <-] Hres' Hne Hdiff. rewrite Hres in Hres'. injection Hres' as <-. by destruct Hch as [?|?]. }
  rewrite decide_True by done. cbn [bind call]. intros now. set (d1 := set_dcr_Annotations _ d).
  destruct (GetComponentStatus d1 c) as [s|] eqn:Hs; cbn [deref].
  2: { split; [repeat constructor|]. by intros d'. }
  split; [repeat constructor|]. intros d' [= <-]. eexists. split; [reflexivity|].
  split; [apply (set_status_same_spec c _ d1)|].
  intros _ _ _ _ _ _. exists now. split; [done|]. split; [by apply set_status_restarting|]. split.
  - destruct Hc as [-> | ->]; cbn; unfold map_get; by rewrite lookup_insert_eq.
  - destruct Hc as [-> | ->]; exact Hbase.
Qed.

(** The two passes. *)
Definition component_pass (c : ComponentType) (d : Dcr) : op (Dcr * option goerr) :=
  match c with
  | Component_FE => DcrFe.Sync buildFEPodTemplateSpec d
  | _ => DcrBe.Be.Sync buildBEPodTemplateSpec d
  end.

(** What a pass does after a change. *)
Definition restarts_when_changed (c : ComponentType) (d : Dcr) (hash : string) (tr : trace) (o : outcome (Dcr * option goerr)) : Prop :=
  core_config_changed c hash tr -> clock_steady tr ->
  outcome_restarting c o /\
  ((c = Component_FE -> not_shrinking d tr) ->
     forall st, st ∈ omap sts_write tr -> exists t, t ∈ omap time_read tr /\ restarts_at c t st).

Definition before_change (e : event OpE) : Prop := no_sts_access e /\ config_map_get e = None.

Lemma changed_crash c d hash why : restarts_when_changed c d hash [] (Crashed why).
Proof. intros (cm & conf & rest & [=] & _). Qed.

Lemma changed_prefix c d hash tr tr' o : Forall before_change tr ->
  restarts_when_changed c d hash tr' o -> restarts_when_changed c d hash (app tr tr') o.
Proof.
  intros Ht Hr (cm & conf & rest & Hcm & Hrest) [Hc1 Hc2].
  assert (Hcfg : omap config_map_get tr = []) by (apply omap_none; eapply Forall_impl; [exact Ht | by intros e []]).
  assert (Hno : Forall no_sts_access tr) by (eapply Forall_impl; [exact Ht | by intros e []]).
  destruct (free_no_access _ Hno) as [Hg Hw]. rewrite omap_app, Hcfg in Hcm.
  assert (Hin : forall t, t ∈ omap time_read tr' -> t ∈ omap time_read (app tr tr'))
    by (intros t Hin; rewrite omap_app, elem_of_app; by right).
  destruct Hr as [Ho Hs]; [by exists cm, conf, rest | by split; auto|]. split; [done|]. intros Hn st.
  rewrite omap_app, Hw. intros Hst. destruct (Hs) with (st := st) as (t & Ht1 & Ht2); [|done|exists t; auto].
  intros Hfe. destruct (Hn Hfe) as (est & rest' & e & w & Hget & Hr'). rewrite omap_app, Hg in Hget. by exists est, rest', e, w.
Qed.

Lemma changed_bind {A} (R : A -> Prop) c d hash (p : op A) f : spec before_change R p ->
  (forall a, R a -> wp (f a) (restarts_when_changed c d hash)) -> wp (bind p f) (restarts_when_changed c d hash).
Proof.
  intros Hp Hf. eapply wp_prefix; [..|exact Hp|exact Hf].
  - intros tr tr' o. apply changed_prefix.
  - intros why. apply changed_crash.
Qed.

(** The rest of a pass, after the comparison. *)
Lemma changed_compare c d d1 old f : c = Component_FE \/ c = Component_BE ->
  map_get (GetDorisCoreConfigMapNames d1) (component_string c) <> "" -> cst_CoreConfigMapHashValue old <> "" ->
  cst_Phase old = Available -> is_Some (base_of d1 c) ->
  (forall t d2, 0 <= t < 2 ^ 63 -> pending c t d2 -> same_spec d1 d2 -> wp (f d2) (restarted c t d)) ->
  wp (bind (CompareConfigmapAndTriggerRestart d1 old c) f)
    (restarts_when_changed c d (cst_CoreConfigMapHashValue old)).
Proof.
  intros Hc Hname Hhash Hph Hbase Hf. apply wp_bind. eapply wp_mono; [by apply compare_wp|].
  intros tr [d2|w] [Hno Hd2]; cycle 1.
  { intros _ _. split; [by intros ? ?|]. intros _ st. rewrite (proj2 (free_no_access _ Hno)). by intros ?%elem_of_nil. }
  destruct (Hd2 d2 eq_refl) as (r & Hr & Hss & Hch).
  assert (Hfalse : (forall cm conf, r = Ok cm -> ResolveConfigMaps [cm] c = (conf, None) -> Map2Hash conf <> "" ->
      Map2Hash conf <> cst_CoreConfigMapHashValue old -> False) ->
    wp (f d2) (fun tr' o => restarts_when_changed c d (cst_CoreConfigMapHashValue old) (app tr tr') o)).
  { intros Hn. apply wp_true. intros tr' o (cm & conf & rest & Hcm & H1 & H2 & H3). exfalso.
    rewrite omap_app, Hr in Hcm. injection Hcm as -> _. by eapply Hn. }
  destruct r as [cm|err]; [|by apply Hfalse].
  destruct (ResolveConfigMaps [cm] c) as [conf [err|]] eqn:Hres; [apply Hfalse; intros ? ? [= <-]; congruence|].
  destruct (decide (Map2Hash conf = "")) as [He|Hne]; [apply Hfalse; intros ? ? [= <-]; congruence|].
  destruct (decide (Map2Hash conf = cst_CoreConfigMapHashValue old)) as [He|Hdiff]; [apply Hfalse; intros ? ? [= <-]; congruence|].
  destruct (Hch cm conf eq_refl Hres Hne Hdiff) as (t & Ht & Hp).
  assert (Hin : forall tr', t ∈ omap time_read (app tr tr')) by (intros tr'; rewrite omap_app, Ht; left).
  destruct (decide (0 <= t < 2 ^ 63)) as [Hrange|Hrange]; cycle 1.
  { apply wp_true. intros tr' o _ [Hc1 _]. by destruct Hrange; apply (Hc1 t). }
  eapply wp_mono; [exact (Hf t d2 Hrange Hp Hss)|]. intros tr' o [Ho Hs] _ [_ Hc2]. split; [done|]. intros Hn st.
  destruct (free_no_access _ Hno) as [Hg Hw]. rewrite omap_app, Hw. intros Hst. exists t. split; [done|]. apply Hs; [..|exact Hst].
  - intros Hfe. destruct (Hn Hfe) as (est & rest' & e & w & Hget & Hr'). rewrite omap_app, Hg in Hget. by exists est, rest', e, w.
  - intros t' Ht'. apply Hc2; [apply Hin|]. rewrite omap_app, elem_of_app. by right.
Qed.

Lemma sts_get_first d d2 tr tr' got : wanted_replicas d2 = wanted_replicas d -> omap sts_get tr = [got] ->
  not_shrinking d (app tr tr') -> not_shrinking d2 tr.
Proof.
  intros Hw Hg (est & rest & e & w & Hget & He & Hwant & Hle). rewrite omap_app, Hg in Hget. injection Hget as -> _.
  exists est, [], e, w. split; [done|]. split; [done|]. split; [congruence | done].
Qed.

Lemma fe_rest d d2 old cfg t : rfc3339_law -> 0 <= t < 2 ^ 63 -> pending Component_FE t d2 -> same_spec d d2 ->
  cst_Phase old = Available ->
  wp (sync_statefulset buildFEPodTemplateSpec d2 old cfg) (restarted Component_FE t d).
Proof.
  intros Hlaw Ht Hp Hs Hph. unfold sync_statefulset.
  apply (after_prepare t Component_FE d (not_shrinking d2) _ (fun d' =>
    let! st := buildFEStatefulSet buildFEPodTemplateSpec d' cfg in
    let! '(_, err) := apply_stateful_set st tt restricted_equal [] in Ret (d', err))); [|intros d' Hd'; by apply fe_end_wp].
  eapply wp_mono; [exact (wp_and _ _ _ (fe_prepare_wp t d2 old Hlaw Ht Hp Hph) (prepareStatefulsetApply_wp d2 old))|].
  intros tr o [Hi (got & Hg & Hw & _)]. split; [done|]. split; [done|]. intros tr' Hn.
  eapply sts_get_first; [|exact Hg | by apply Hn]. unfold wanted_replicas. cbn. by rewrite (proj1 Hs).
Qed.

Lemma be_rest d d2 old cfg t : rfc3339_law -> 0 <= t < 2 ^ 63 -> pending Component_BE t d2 -> cst_Phase old = Available ->
  wp (let! '(dcr, err) := DcrBe.Be.prepareStatefulsetApply d2 old in
      or_fail dcr err (
      let! '(dcr, st) := DcrBe.Be.buildBEStatefulSet buildBEPodTemplateSpec dcr cfg in
      let! ready := PrepareReconcileResources dcr Component_BE in
      if ready : bool then
        let! '(_, err) := apply_stateful_set st tt restricted_equal [DcrBe.Be.useNewDefaultValuesInStatefulset] in
        Ret (dcr, err)
      else Ret (dcr, None))) (restarted Component_BE t d).
Proof.
  intros Hlaw Ht Hp Hph.
  apply (after_prepare t Component_BE d (fun _ => True) _ (fun d' =>
    let! '(dcr, st) := DcrBe.Be.buildBEStatefulSet buildBEPodTemplateSpec d' cfg in
    let! ready := PrepareReconcileResources dcr Component_BE in
    if ready : bool then
      let! '(_, err) := apply_stateful_set st tt restricted_equal [DcrBe.Be.useNewDefaultValuesInStatefulset] in
      Ret (dcr, err)
    else Ret (dcr, None))); [|intros d' Hd'; by apply be_end_wp].
  eapply wp_mono; [exact (wp_and _ _ _ (be_prepare_wp t d2 old Hlaw Ht Hp Hph) (be_prepare_no_access d2 old))|].
  intros tr o [Hi [Hno _]]. split; [done|]. split; [apply (free_no_access _ Hno) | done].
Qed.

(** C22: A changed configuration restarts FE and BE.  Take a pass of FE or BE
    with restarts on changes enabled, over a component that is available and
    whose core configuration is named and has a hash in the status.  When the
    core config map, the first that the pass reads, has another hash, and the
    times that the pass reads are within ten minutes of each other, less a
    second, then the component is restarting after the pass, failed or not, and
    every StatefulSet that the pass writes has in the annotations of its pod
    template, under the key of the restart, the text of a time that the pass
    read, which makes Kubernetes replace the pods.  The exception is a pass of FE
    that does not find the StatefulSet, or finds it with more replicas than
    wanted: what it writes need not ask for a restart.  What is asked of the clock's texts
    is that they are read back up to the second. *)
Theorem changed_config_restarts (d : Dcr) (c : ComponentType) (old : ComponentStatus)
    (Hc : c = Component_FE \/ c = Component_BE) (Hlaw : rfc3339_law)
    (Henabled : EnableRestartWhenConfigChange (dcr_Spec d) = true)
    (Hname : map_get (GetDorisCoreConfigMapNames d) (component_string c) <> "")
    (Hold : GetComponentStatus d c = Some old)
    (Hhash : cst_CoreConfigMapHashValue old <> "") (Hphase : cst_Phase old = Available) :
  wp (component_pass c d) (fun tr o =>
    core_config_changed c (cst_CoreConfigMapHashValue old) tr -> clock_steady tr ->
    (forall d' err, o = Done (d', err) -> restarting c d') /\
    ((c = Component_FE -> not_shrinking d tr) ->
       forall st, st ∈ omap sts_write tr -> exists t, t ∈ omap time_read tr /\ restarts_at c t st)).
Proof.
  change (wp (component_pass c d) (restarts_when_changed c d (cst_CoreConfigMapHashValue old))).
  assert (Hend : forall d', wp (Ret (d', @None goerr)) (restarts_when_changed c d (cst_CoreConfigMapHashValue old)))
    by (intros d' (cm & conf & rest & [=] & _)).
  assert (Hinit : spec before_change (same_spec d) (InitStatus d c)) by (apply InitStatus_spec; intros; by repeat split).
  destruct Hc as [-> | ->]; cbn [component_pass].
  - unfold DcrFe.Sync. destruct (FeSpec_ (dcr_Spec d)) as [fe|] eqn:Hfe; [|apply Hend].
    cbn in Hold. rewrite Hold. cbn [default]. eapply changed_bind; [exact Hinit|]. intros d1 Hs1.
    rewrite (proj1 Hs1), Henabled. apply changed_compare; [by left | | done..| |].
    { unfold GetDorisCoreConfigMapNames, getDorisCoreConfigMapName, base_of in *. by rewrite (proj1 Hs1). }
    { cbn. rewrite (proj1 Hs1), Hfe. by eexists. }
    intros t d2 Ht Hp Hs2. assert (Hs : same_spec d d2) by (by etransitivity).
    assert (Hr : restarting Component_FE d2) by apply Hp.
    eapply restarted_bind; [apply GetConfig_spec; intros; by split|]. intros [cfg err] Herr. apply restarted_fail; [done|].
    eapply restarted_bind; [apply check_component_spec; intros; by split|]. intros _ _.
    eapply restarted_bind; [apply CheckSharedPVC_spec; intros; by split|]. intros _ _.
    apply restarted_services; [done|]. eapply restarted_bind; [apply PrepareReconcileResources_spec; intros; by split|].
    intros [] _; [by apply fe_rest|]. apply restarted_quiet; [done|]. by intros d' e [= <- _].
  - unfold DcrBe.Be.Sync. destruct (BeSpec_ (dcr_Spec d)) as [be|] eqn:Hbe; [|apply Hend].
    cbn in Hold. rewrite Hold. cbn [default]. eapply changed_bind; [exact Hinit|]. intros d1 Hs1.
    apply (changed_bind (fun _ => True)).
    { unfold FeAvailable, endpoints_available. destruct (GetConfigFEAddrForAccess d1 Component_BE). case_decide; [by apply spec_ret|].
      repeat spec_step; by repeat split. }
    intros [] _; cbn [negb]; [|apply Hend].
    rewrite (proj1 Hs1), Henabled. apply changed_compare; [by right | | done..| |].
    { unfold GetDorisCoreConfigMapNames, getDorisCoreConfigMapName, base_of in *. by rewrite (proj1 Hs1). }
    { cbn. rewrite (proj1 Hs1), Hbe. by eexists. }
    intros t d2 Ht Hp Hs2.
    assert (Hr : restarting Component_BE d2) by apply Hp.
    eapply restarted_bind; [apply GetConfig_spec; intros; by split|]. intros [cfg err] Herr. apply restarted_fail; [done|].
    eapply restarted_bind; [apply check_component_spec; intros; by split|]. intros _ _.
    apply restarted_services; [done|]. by apply be_rest.
Qed.
End restart.

(** ** Witness *)

Local Existing Instance demo_external.

Lemma demo_clock_text : rfc3339_law.
Proof.
  intros t Ht. cbn [time_parse_rfc3339 local_rfc3339 demo_external]. split; [|apply Itoa_nonempty].
  rewrite ParseInt_Itoa.
  - f_equal. pose proof (Z.div_mod t 1000000000). lia.
  - assert (0 <= t / 1000000000 < 2 ^ 63) by (split; [apply Z.div_pos; lia | apply Z.div_lt_upper_bound; lia]).
    unfold in_int. apply andb_true_iff. split; [apply Z.leb_le; lia | apply Z.ltb_lt; lia].
Qed.

(** Five frontends, whose core configuration was another one in the status. *)
Definition demo_old_status : ComponentStatus :=
  set_phase Available (zeroComponentStatus <| cst_CoreConfigMapHashValue := "old" |>).
Definition demo_config_dcr : Dcr :=
  set_fe_status (Some demo_old_status)
    (set_fe_base (demo_fe_base <| bs_Replicas := Some 5 |> <| bs_ConfigMapInfo := mkConfigMapInfo "fe-conf" "fe.conf" [] |>)
      (demo_dcr <| dcr_Spec := (dcr_Spec demo_dcr) <| EnableRestartWhenConfigChange := true |> |>)).
Definition demo_config_env (X : Type) (e : OpE X) (w : world) : X * world :=
  match e in OpE X return X * world -> X * world with
  | CGet k _ _ =>
      match k return res (obj k) * world -> res (obj k) * world with
      | KConfigMap => fun _ => (Ok (mkConfigMap emptyMeta {["fe.conf" := "query_port=9030"]}), w)
      | _ => fun r => r
      end
  | _ => fun r => r
  end (demo_env X e w).
Definition demo_restart_run := run demo_config_env (component_pass Component_FE demo_config_dcr) demo_fe_world.

Lemma changed_config_restarts_witness : exists st t,
  omap sts_write demo_restart_run.1.1 = [st] /\ t ∈ omap time_read demo_restart_run.1.1 /\ restarts_at Component_FE t st.
Proof.
  pose proof (wp_exec _ _ (changed_config_restarts demo_config_dcr Component_FE demo_old_status (or_introl eq_refl)
    demo_clock_text eq_refl ltac:(by vm_compute) eq_refl ltac:(done) eq_refl) _ _
    (run_exec demo_config_env (component_pass Component_FE demo_config_dcr) demo_fe_world)) as Hw.
  cbv beta in Hw. fold demo_restart_run in Hw.
  assert (Ht : omap time_read demo_restart_run.1.1 = [1000000000; 2000000000; 3000000000]) by (vm_compute; reflexivity).
  assert (Hl : length (omap sts_write demo_restart_run.1.1) = 1%nat) by (vm_compute; reflexivity).
  assert (Hg : head (omap sts_get demo_restart_run.1.1) = Some (Ok (demo_fe_sts 5))) by (vm_compute; reflexivity).
  assert (Hch : core_config_changed Component_FE (cst_CoreConfigMapHashValue demo_old_status) demo_restart_run.1.1).
  { exists (mkConfigMap emptyMeta {["fe.conf" := "query_port=9030"]}), ∅. eexists. split; [vm_compute; reflexivity|].
    split; [vm_compute; reflexivity|]. split; by vm_compute. }
  revert Hw Ht Hl Hg Hch. generalize demo_restart_run.1.1 as tr, demo_restart_run.1.2 as o. intros tr o Hw Ht Hl Hg Hch.
  destruct Hw as [_ Hw]; [done|..].
  - unfold clock_steady, restart_window. rewrite Ht. split.
    + intros t Hin. apply list_elem_of_In in Hin. destruct Hin as [<-|[<-|[<-|[]]]]; lia.
    + intros t t' Hin Hin'. apply list_elem_of_In in Hin, Hin'. destruct Hin as [<-|[<-|[<-|[]]]], Hin' as [<-|[<-|[<-|[]]]]; lia.
  - destruct (omap sts_write tr) as [|st [|]]; [done| |done]. exists st.
    destruct Hw with (st := st) as (t & H1 & H2); [|left|by exists t].
    destruct (omap sts_get tr) as [|got rest] eqn:E; [done|]. injection Hg as ->.
    intros _. exists (demo_fe_sts 5), rest, 5, 5. split; [exact E|]. repeat split; lia || reflexivity.
Defined.
