(* ===== verification/Webhooks.v ===== *)
(** The certificate of the operator's admission webhooks
    ([src/pkg/common/utils/certificate], [src/pkg/controller/unnamedwatches]
    and [src/cmd/operator/conf/config.go]): a secret holds a certificate and its
    key; a pass renews them when they are missing or run out, and puts the
    certificate into the two webhook configurations.
    The parts of Go's [crypto] and [encoding/pem] that the code calls are the
    class [Crypto], or calls when they draw random numbers. *)

From Stdlib Require Import ZArith Lia.
From stdpp Require Import base list gmap strings.
From S2P Require Import Prelude GoStr KubeTypes.

Local Open Scope string_scope.
Local Open Scope Z_scope.
Local Open Scope dop_scope.

(** ** Certificates *)

(** A certificate; its public key is [None] when it is no RSA key. *)
Record Certificate (K : Type) := mkCertificate {
  crt_SerialNumber : Z;
  crt_CommonName : string;
  crt_Organization : list string;
  crt_NotBefore : Z;
  crt_NotAfter : Z;
  crt_DNSNames : list string;
  crt_PublicKey : option K
}.
Arguments mkCertificate {K}.
Arguments crt_SerialNumber {K}. Arguments crt_CommonName {K}. Arguments crt_Organization {K}.
Arguments crt_NotBefore {K}. Arguments crt_NotAfter {K}. Arguments crt_DNSNames {K}. Arguments crt_PublicKey {K}.

Class Crypto := {
  PrivateKey : Type;
  PublicKey : Type;
  Public : PrivateKey -> PublicKey;
  (** [rsa.PublicKey.Equal]. *)
  key_Equal : PublicKey -> PublicKey -> bool;
  (** [pem.Decode], type and bytes of the first block, and [pem.EncodeToMemory]. *)
  pem_Decode : string -> option (string * string);
  pem_EncodeToMemory : string -> string -> string;
  (** Package x509. *)
  ParseCertificates : string -> res (list (Certificate PublicKey));
  ParsePKCS1PrivateKey : string -> res PrivateKey;
  MarshalPKCS1PrivateKey : PrivateKey -> string;
  (** [time.Format(time.RFC3339Nano)] in the process's time zone. *)
  rfc3339_nano : Z -> string
}.

(** ** Calls *)

(** The two kinds of webhook configurations, and the fields that are touched. *)
Inductive hook := Mutating | Validating.
#[export] Instance hook_eq_dec : EqDecision hook.
Proof. solve_decision. Defined.
Record Webhook := mkWebhook { wh_Name : string; wh_CABundle : string }.
#[export] Instance Webhook_etas : Etas Webhook := fun w => mkWebhook (wh_Name w) (wh_CABundle w).
Record WebhookConfiguration := mkWebhookConfiguration { wc_Name : string; wc_Webhooks : list Webhook }.
#[export] Instance WebhookConfiguration_etas : Etas WebhookConfiguration := fun c =>
  mkWebhookConfiguration (wc_Name c) (wc_Webhooks c).

Section webhooks.
Context `{Crypto}.

(** The calls of the clientset, the clock, and the random numbers of
    [crypto/rand] and of the functions that draw them. *)
Inductive CertE : Type -> Type :=
| SecretGet (ns name : string) : CertE (res Secret)
| SecretUpdate (s : Secret) : CertE (option goerr)
| HookGet (h : hook) (name : string) : CertE (res WebhookConfiguration)
| HookUpdate (h : hook) (c : WebhookConfiguration) : CertE (option goerr)
| PodsOf (ns selector : string) : CertE (res (list Pod))
| PodGet (ns name : string) : CertE (res Pod)
| PodUpdate (p : Pod) : CertE (option goerr)
| CertNow : CertE Z
| RandInt (limit : Z) : CertE (res Z)
| GenerateKey (bits : Z) : CertE (res PrivateKey)
| CreateCertificate (template : Certificate PublicKey) (pk : PrivateKey) : CertE (res string).

Abbreviation cop := (prog CertE).

(** ** certificate.go *)

Definition minutes (n : Z) : Z := n * 60 * 1000000000.
Definition SerialNumberLimit : Z := Z.shiftl 1 128.
Definition DefaultExpireTimeout : Z := minutes (365 * 24 * 60).
Definition UpdateCABefore : Z := minutes 10.
Definition Cert_Type : string := "CERTIFICATE".
Definition PrivateKey_Type : string := "RSA PRIVATE KEY".

Record CAOptions := mkCAOptions { opt_CommonName : string; opt_Organization : list string; opt_DnsNames : list string }.

Record CA := mkCA {
  ca_privateKey : string;
  ca_cert : string;
  ca_PrivateKey : PrivateKey;
  ca_Certificate : Certificate PublicKey
}.

(** The template is returned as the certificate, without its public key. *)
Definition NewCAConfigSecret (options : CAOptions) : cop (res CA) :=
  let! serial := call (RandInt SerialNumberLimit) in
  match serial with
  | Er err => Ret (Er (errorsNew ("new CA failed, " +:+ err_msg err)))
  | Ok serial =>
      let! pk := call (GenerateKey 2048) in
      match pk with
      | Er err => Ret (Er (errorsNew ("generate key failed, " +:+ err_msg err)))
      | Ok pk =>
          let! before := call CertNow in
          let! after := call CertNow in
          let certificate := mkCertificate serial (opt_CommonName options) (opt_Organization options)
                               (before - minutes 10) (after + DefaultExpireTimeout) (opt_DnsNames options) None in
          let! cert := call (CreateCertificate certificate pk) in
          match cert with
          | Er err => Ret (Er (errorsNew ("failed to create certificate, " +:+ err_msg err)))
          | Ok cert => Ret (Ok (mkCA (pem_EncodeToMemory PrivateKey_Type (MarshalPKCS1PrivateKey pk))
                                     (pem_EncodeToMemory Cert_Type cert) pk certificate))
          end
      end
  end.

(** In its period, and not in the last ten minutes of it. *)
Definition in_period (c : Certificate PublicKey) (now : Z) : bool :=
  negb (now <? crt_NotBefore c) && negb (crt_NotAfter c - UpdateCABefore <? now).

Definition ValidCA (ca : CA) : cop bool :=
  match crt_PublicKey (ca_Certificate ca) with
  | None => Panic "interface conversion: interface {} is not *rsa.PublicKey"
  | Some k =>
      if negb (key_Equal k (Public (ca_PrivateKey ca))) then Ret false
      else let! now := call CertNow in Ret (in_period (ca_Certificate ca) now)
  end.

(** ** secret.go of the certificates *)

Definition TlsKeyName : string := "tls.key".
Definition TLsCertName : string := "tls.crt".

(** [None] is a panic: of an index out of range, when there is no certificate. *)
Definition parsePemCert (caBytes : string) : option (res (Certificate PublicKey)) :=
  match pem_Decode caBytes with
  | Some (type, b) =>
      if decide (type = Cert_Type) then
        match ParseCertificates b with
        | Er err => Some (Er err)
        | Ok (c :: _) => Some (Ok c)
        | Ok [] => None
        end
      else Some (Er (errorsNew "have not pem certificate"))
  | None => Some (Er (errorsNew "have not pem certificate"))
  end.

(** [None] is a panic: text without a block gives a nil pointer. *)
Definition parsePrivateKey (pkBytes : string) : option (res PrivateKey) :=
  match pem_Decode pkBytes with
  | Some (_, b) => Some (ParsePKCS1PrivateKey b)
  | None => None
  end.

(** The certificate's text is that of the key, as in the code. *)
Definition BuildCAFromSecret (s : Secret) : option (option CA) :=
  match sec_Data s !! TLsCertName, sec_Data s !! TlsKeyName with
  | Some caBytes, Some pkBytes =>
      if decide (caBytes = "" \/ pkBytes = "") then Some None
      else
        cert ← parsePemCert caBytes;
        match cert with
        | Er _ => Some None
        | Ok cert =>
            pk ← parsePrivateKey pkBytes;
            match pk with
            | Er _ => Some None
            | Ok pk => Some (Some (mkCA pkBytes pkBytes pk cert))
            end
        end
  | _, _ => Some None
  end.

(** ** secret.go of the watches *)

Definition certificateType : string := "HTTP".
Definition testDNSName : string := "doris.example.com".
Definition OperatorPodSelector : string := "control-plane=doris-operator".
Definition OperatorPodTimeAnnotation : string := "doris-operator/update-time".

Record WatchSecret := mkWatchSecret {
  ws_Name : string;
  ws_SecretName : string;
  ws_Namespace : string;
  ws_WebhookService : string;
  ws_MutatingWebhookConfigurationName : string;
  ws_ValidatingWebhookConfigurationName : string
}.

(** Events of every kind ask for a pass when the object has the name. *)
Definition secret_toReconcileRequest (w : WatchSecret) (object : ObjectMeta) : list (string * string) :=
  if decide (m_Name object = ws_SecretName w) then [(ws_Namespace w, ws_SecretName w)] else [].

Definition dnsNames (w : WatchSecret) : list string :=
  let name := ws_WebhookService w +:+ "." +:+ ws_Namespace w in
  [name; name +:+ ".svc"; name +:+ ".svc.cluster.local"; testDNSName].

Definition generateCASecret (w : WatchSecret) (ca : CA) : Secret :=
  mkSecret (emptyMeta <| m_Name := ws_SecretName w |> <| m_Namespace := ws_Namespace w |>)
    (<[TLsCertName := ca_cert ca]> {[TlsKeyName := ca_privateKey ca]}).

Definition set_bundles (cert : string) (c : WebhookConfiguration) : WebhookConfiguration :=
  c <| wc_Webhooks := map (fun w => w <| wh_CABundle := cert |>) (wc_Webhooks c) |>.

(** Get the configuration, set the bundles, update. *)
Definition install (h : hook) (name cert : string) : cop (option goerr) :=
  let! got := call (HookGet h name) in
  match got with
  | Er err => Ret (Some err)
  | Ok c => call (HookUpdate h (set_bundles cert c))
  end.

(** [retry.RetryOnConflict]: again while the error is a conflict, [steps] times at most. *)
Fixpoint RetryOnConflict (steps : nat) (fn : cop (option goerr)) : cop (option goerr) :=
  let! err := fn in
  match err, steps with
  | None, _ => Ret None
  | Some e, S (S _ as n) => if IsConflict e then RetryOnConflict n fn else Ret (Some e)
  | Some e, _ => Ret (Some e)
  end.

Definition touch_pod (ns name : string) : cop (option goerr) :=
  let! got := call (PodGet ns name) in
  match got with
  | Er err => Ret (Some err)
  | Ok pod =>
      let! now := call CertNow in
      let meta := p_Meta pod in
      call (PodUpdate (mkPod (meta <| m_Annotations := <[OperatorPodTimeAnnotation := rfc3339_nano now]> (m_Annotations meta) |>)
                         (p_TerminationGracePeriodSeconds pod) (p_Status pod)))
  end.

(** Failures are only logged. *)
Definition updateOperatorPods (operatorNamespace : string) : cop unit :=
  let! pods := call (PodsOf operatorNamespace OperatorPodSelector) in
  match pods with
  | Er _ => Ret tt
  | Ok pods => foldM (fun _ pod => RetryOnConflict 5 (touch_pod (m_Namespace (p_Meta pod)) (p_Name pod)) ;;; Ret tt) tt pods
  end.

(** The new certificate, into the secret first, then into the configurations. *)
Definition renew (w : WatchSecret) (secret : Secret) : cop (option goerr) :=
  let! made := NewCAConfigSecret (mkCAOptions (ws_Name w +:+ "-" +:+ certificateType) [ws_Name w] (dnsNames w)) in
  match made with
  | Er err => Ret (Some err)
  | Ok ca =>
      let! err := call (SecretUpdate (mkSecret (sec_Meta secret) (sec_Data (generateCASecret w ca)))) in
      match err with
      | Some err => Ret (Some err)
      | None =>
          let! err := install Mutating (ws_MutatingWebhookConfigurationName w) (ca_cert ca) in
          match err with
          | Some err => Ret (Some err)
          | None =>
              let! err := install Validating (ws_ValidatingWebhookConfigurationName w) (ca_cert ca) in
              match err with
              | Some err => Ret (Some err)
              | None => updateOperatorPods (ws_Namespace w) ;;; Ret None
              end
          end
      end
  end.

(** Whether the secret has a certificate that needs no renewal. *)
Definition certificate_kept (secret : Secret) : cop bool :=
  match BuildCAFromSecret secret with
  | None => Panic "invalid memory address or index out of range"
  | Some None => Ret false
  | Some (Some ca) => ValidCA ca
  end.

Definition secret_Reconcile (w : WatchSecret) : cop (option goerr) :=
  let! got := call (SecretGet (ws_Namespace w) (ws_SecretName w)) in
  match got with
  | Er err => Ret (Some err)
  | Ok secret => let! valid := certificate_kept secret in if valid : bool then Ret None else renew w secret
  end.

(** ** The watches of the configurations *)

Record WatchHook := mkWatchHook {
  wk_Hook : hook;
  wk_Name : string;
  wk_ConfigurationName : string;
  wk_SecretName : string;
  wk_SecretNamespace : string
}.

(** The object's name is compared with that of the watch. *)
Definition hook_toReconcileRequest (w : WatchHook) (object : ObjectMeta) : list (string * string) :=
  if decide (m_Name object = wk_Name w) then [(m_Namespace object, m_Name object)] else [].

Definition hook_Reconcile (w : WatchHook) : cop (option goerr) :=
  let! got := call (SecretGet (wk_SecretNamespace w) (wk_SecretName w)) in
  match got with
  | Er err => Ret (Some err)
  | Ok secret => install (wk_Hook w) (wk_ConfigurationName w) (default "" (sec_Data secret !! TLsCertName))
  end.

(** ** controller.go *)

(** The interface of a watch: the requests for an object, and the pass. *)
Record watch := mkWatch {
  w_GetName : string;
  w_requests : ObjectMeta -> list (string * string);
  w_Reconcile : cop (option goerr)
}.
Definition secret_watch (w : WatchSecret) : watch := mkWatch (ws_Name w) (secret_toReconcileRequest w) (secret_Reconcile w).
Definition hook_watch (w : WatchHook) : watch := mkWatch (wk_Name w) (hook_toReconcileRequest w) (hook_Reconcile w).

Fixpoint ReconcileResource (watches : list watch) : cop (option goerr) :=
  match watches with
  | [] => Ret None
  | w :: watches =>
      let! err := w_Reconcile w in
      match err with Some err => Ret (Some err) | None => ReconcileResource watches end
  end.

Definition WatchSecretWebhookName : string := "doris-operator-webhook-secret-watch".
Definition WatchValidatingWebhookConfigurationName : string := "doris-operator-validate-webhook-watch".
Definition WatchMutatingWebhookConfigurationName : string := "doris-operator-mutate-webhook-watch".
Definition DefaultMutatingWebhookConfigurationName : string := "doris-operator-mutate-webhook".
Definition DefaultValidatingWebhookConfigurationName : string := "doris-operator-validate-webhook".

Record Options := mkOptions {
  op_EnableWebHook : bool;
  op_Name : string;
  op_SecretName : string;
  op_Namespace : string;
  op_WebhookService : string
}.

Definition init_secret_watch (o : Options) : WatchSecret :=
  mkWatchSecret WatchSecretWebhookName (op_SecretName o) (op_Namespace o) (op_WebhookService o)
    DefaultMutatingWebhookConfigurationName DefaultValidatingWebhookConfigurationName.
Definition init_validating_watch (o : Options) : WatchHook :=
  mkWatchHook Validating WatchValidatingWebhookConfigurationName DefaultValidatingWebhookConfigurationName
    (op_SecretName o) (op_Namespace o).
Definition init_mutating_watch (o : Options) : WatchHook :=
  mkWatchHook Mutating WatchMutatingWebhookConfigurationName DefaultMutatingWebhookConfigurationName
    (op_SecretName o) (op_Namespace o).
Definition init_watches (o : Options) : list watch :=
  [secret_watch (init_secret_watch o); hook_watch (init_validating_watch o); hook_watch (init_mutating_watch o)].

(** ** config.go *)

Definition Default_Secret_Name : string := "doris-operator-secret-cert".

Record EnvVariables := mkEnvVariables {
  EnableWebhook : bool; OperatorNamespace : string; OperatorName : string; ServiceName : string
}.

Definition ParseEnvs (Getenv : string -> string) : EnvVariables :=
  let or_default name d := if decide (Getenv name = "") then d else Getenv name in
  mkEnvVariables (bool_decide (Getenv "ENABLE_WEBHOOK" = "true")) (or_default "OPERATOR_NAMESPACE" "doris")
    (or_default "OPERATOR_NAME" "doris-operator") (or_default "SERVICE_NAME" "doris-operator-service").

Definition NewControllerOptions (envs : EnvVariables) : Options :=
  mkOptions (EnableWebhook envs) (OperatorName envs) Default_Secret_Name (OperatorNamespace envs) (ServiceName envs).
End webhooks.
