(* ===== verification/WebhookProps.v ===== *)
(** The certificate of the webhooks: after a pass the secret and the two
    webhook configurations hold the same certificate, the certificate that a
    pass makes is kept by later passes for as long as it is valid, and the
    configurations are written after the secret. *)

From Stdlib Require Import ZArith Lia Ascii.
From stdpp Require Import base list gmap strings.
From S2P Require Import Prelude GoStr KubeTypes Traces Webhooks.

Local Open Scope string_scope.
Local Open Scope Z_scope.
Local Open Scope dop_scope.

Section webhooks.
Context `{Crypto}.

(** ** A store of the secret and the configurations *)

Record cstore := mkCStore {
  cs_secret : Secret;
  cs_mutating : WebhookConfiguration;
  cs_validating : WebhookConfiguration;
  cs_calls : nat
}.
Definition cs_hook (h : hook) (s : cstore) : WebhookConfiguration :=
  match h with Mutating => cs_mutating s | Validating => cs_validating s end.
Definition set_hook (h : hook) (c : WebhookConfiguration) (s : cstore) : cstore :=
  match h with
  | Mutating => mkCStore (cs_secret s) c (cs_validating s) (cs_calls s)
  | Validating => mkCStore (cs_secret s) (cs_mutating s) c (cs_calls s)
  end.
Definition set_secret (sec : Secret) (s : cstore) : cstore :=
  mkCStore sec (cs_mutating s) (cs_validating s) (cs_calls s).
Definition tick (s : cstore) : cstore :=
  mkCStore (cs_secret s) (cs_mutating s) (cs_validating s) (S (cs_calls s)).
Definition has_name (ns name : string) (m : ObjectMeta) : Prop := m_Namespace m = ns /\ m_Name m = name.
#[local] Instance has_name_dec ns name m : Decision (has_name ns name m).
Proof. unfold has_name. apply _. Defined.

(** The store answers the gets of its objects and accepts their updates; [other]
    answers the rest, by the number of the call. *)
Definition api (other : nat -> forall X, CertE X -> X) (X : Type) (e : CertE X) (s : cstore) : X * cstore :=
  match e in CertE X return X -> X * cstore with
  | SecretGet ns name => fun x =>
      (if decide (has_name ns name (sec_Meta (cs_secret s))) then Ok (cs_secret s) else x, tick s)
  | SecretUpdate sec => fun _ => (None, tick (set_secret sec s))
  | HookGet h name => fun x => (if decide (wc_Name (cs_hook h s) = name) then Ok (cs_hook h s) else x, tick s)
  | HookUpdate h c => fun _ => (None, tick (set_hook h c s))
  | _ => fun x => (x, tick s)
  end (other (cs_calls s) X e).

(** The parts of the store, without the count of the calls. *)
Definition objects (s : cstore) : Secret * WebhookConfiguration * WebhookConfiguration :=
  (cs_secret s, cs_mutating s, cs_validating s).

(** Calls that write neither the secret nor a configuration. *)
Definition reads (e : event CertE) : Prop :=
  match e with Ev (SecretUpdate _) _ | Ev (HookUpdate _ _) _ => False | _ => True end.

Lemma run_reads {A} other (p : prog CertE A) R s : spec reads R p ->
  objects (run (api other) p s).2 = objects s /\ returns R (run (api other) p s).1.2.
Proof.
  unfold spec. intros Hp. split.
  - revert s Hp; induction p as [a|w|X e k IH]; intros s Hp; [done..|]. cbn [wp] in Hp. cbn [run].
    destruct (api other X e s) as [x s'] eqn:Ha.
    assert (He : reads (Ev e x)).
    { destruct (wp_run (api other) _ s' _ (Hp x)) as [Htr _]. by apply Forall_cons in Htr as [He _]. }
    assert (Hs : objects s' = objects s).
    { destruct e; try (injection Ha as _ <-; done); done. }
    specialize (IH x s'). destruct (run (api other) (k x) s') as [[tr o] s''] eqn:Hr. cbn. rewrite <- Hs. apply IH.
    eapply wp_mono; [apply Hp|]. intros tr' o' [Htr Ho]. by apply Forall_cons in Htr as [_ Htr].
  - by apply (wp_run (api other) _ s) in Hp as [_ Hp].
Qed.

(** ** The steps of a pass *)

Lemma NewCAConfigSecret_reads opts : spec reads (fun _ => True) (NewCAConfigSecret opts).
Proof.
  unfold NewCAConfigSecret. apply spec_call; [done|]. intros [serial|err] _; [|by apply spec_ret].
  apply spec_call; [done|]. intros [pk|err] _; [|by apply spec_ret].
  apply spec_call; [done|]. intros t1 _. apply spec_call; [done|]. intros t2 _.
  apply spec_call; [done|]. intros [der|err] _; by apply spec_ret.
Qed.

Lemma ValidCA_reads ca : spec reads (fun _ => True) (ValidCA ca).
Proof.
  unfold ValidCA. destruct (crt_PublicKey _); [|by apply spec_panic]. destruct (negb _); [by apply spec_ret|].
  apply spec_call; [done|]. intros now _. by apply spec_ret.
Qed.

Lemma keeps_reads secret : spec reads (fun _ => True) (certificate_kept secret).
Proof.
  unfold certificate_kept. destruct (BuildCAFromSecret secret) as [[ca|]|]; [apply ValidCA_reads | by apply spec_ret | by apply spec_panic].
Qed.

Lemma RetryOnConflict_reads n fn : spec reads (fun _ => True) fn -> spec reads (fun _ => True) (RetryOnConflict n fn).
Proof.
  intros Hfn. induction n as [|n IH]; cbn [RetryOnConflict]; (eapply spec_bind; [exact Hfn|]);
    intros [e|] _; try (by apply spec_ret). destruct n as [|n]; [by apply spec_ret|]. destruct (IsConflict e); [exact IH | by apply spec_ret].
Qed.

Lemma updateOperatorPods_reads ns : spec reads (fun _ => True) (updateOperatorPods ns).
Proof.
  unfold updateOperatorPods. apply spec_call; [done|]. intros [pods|err] _; [|by apply spec_ret].
  apply spec_foldM; [|done]. intros _ pod _. eapply spec_bind; [|intros; by apply spec_ret].
  apply RetryOnConflict_reads. unfold touch_pod. apply spec_call; [done|]. intros [p|err] _; [|by apply spec_ret].
  apply spec_call; [done|]. intros now _. apply spec_call; [done|]. intros e _. by apply spec_ret.
Qed.

(** Installing a certificate in the stored configuration. *)
Lemma run_install other h name cert s : wc_Name (cs_hook h s) = name ->
  exists tr, run (api other) (install h name cert) s =
    (tr, Done None, tick (set_hook h (set_bundles cert (cs_hook h s)) (tick s))).
Proof. intros Hn. cbn. rewrite decide_True by exact Hn. by eexists. Qed.

Definition bundled (cert : string) (c : WebhookConfiguration) : Prop :=
  Forall (fun w => wh_CABundle w = cert) (wc_Webhooks c).
Lemma set_bundles_bundled cert c : bundled cert (set_bundles cert c).
Proof. apply Forall_forall. by intros w (w' & -> & _)%list_elem_of_fmap. Qed.

(** The objects that the options name. *)
Definition named (o : Options) (s : cstore) : Prop :=
  has_name (op_Namespace o) (op_SecretName o) (sec_Meta (cs_secret s)) /\
  wc_Name (cs_mutating s) = DefaultMutatingWebhookConfigurationName /\
  wc_Name (cs_validating s) = DefaultValidatingWebhookConfigurationName.

Lemma named_objects o s s' : objects s' = objects s -> named o s -> named o s'.
Proof. unfold named, objects. by intros [= -> -> ->]. Qed.

Definition crt (s : cstore) : string := default "" (sec_Data (cs_secret s) !! TLsCertName).

(** Creating a certificate fails only when a call for it does. *)
Definition creates (other : nat -> forall X, CertE X -> X) : Prop :=
  forall n, (forall limit, exists z, other n _ (RandInt limit) = Ok z) /\
            (forall bits, exists k, other n _ (GenerateKey bits) = Ok k) /\
            (forall t k, exists der, other n _ (CreateCertificate t k) = Ok der).
(** A secret that does not make the pass panic. *)
Definition readable (secret : Secret) : Prop :=
  match BuildCAFromSecret secret with
  | Some (Some ca) => is_Some (crt_PublicKey (ca_Certificate ca))
  | Some None => True
  | None => False
  end.

Lemma run_created other opts s : creates other ->
  exists tr ca s', run (api other) (NewCAConfigSecret opts) s = (tr, Done (Ok ca), s').
Proof.
  intros Hc. unfold NewCAConfigSecret. cbn. destruct (proj1 (Hc (cs_calls s)) SerialNumberLimit) as [z ->]. cbn.
  destruct (proj1 (proj2 (Hc (S (cs_calls s)))) 2048) as [k ->]. cbn.
  match goal with |- context [other ?n _ (CreateCertificate ?t ?k)] => destruct (proj2 (proj2 (Hc n)) t k) as [der ->] end.
  cbn. by do 3 eexists.
Qed.

Lemma run_keeps other secret s : readable secret -> exists tr b s', run (api other) (certificate_kept secret) s = (tr, Done b, s').
Proof.
  unfold readable, certificate_kept. destruct (BuildCAFromSecret secret) as [[ca|]|]; [|by do 3 eexists | done].
  unfold ValidCA. intros [k ->]. destruct (negb _); by do 3 eexists.
Qed.

Lemma run_pods other ns s : exists tr s', run (api other) (updateOperatorPods ns) s = (tr, Done tt, s').
Proof.
  assert (Hret : wp (updateOperatorPods ns) (fun _ o => o = Done tt)).
  { unfold updateOperatorPods. cbn [wp bind call]. intros [pods|err]; [|done].
    assert (Hretry : forall n fn, wp fn (fun _ o => exists e, o = Done e) -> wp (RetryOnConflict n fn) (fun _ o => exists e, o = Done e)).
    { intros n fn Hfn. induction n as [|n IH]; cbn [RetryOnConflict]; apply wp_bind; (eapply wp_mono; [exact Hfn|]);
        intros tr o [[e|] ->]; try (by eexists). destruct n as [|n]; [by eexists|]. destruct (IsConflict e); [exact IH | by eexists]. }
    induction pods as [|pod l IH]; [done|]. cbn [foldM]. apply wp_bind, wp_bind.
    eapply wp_mono; [apply Hretry|].
    - unfold touch_pod. cbn. intros [p|err]; [|by eexists]. cbn. intros now e. by eexists.
    - intros tr o [e ->]. exact IH. }
  apply (wp_run (api other) _ s) in Hret. destruct (run (api other) (updateOperatorPods ns) s) as [[tr o] s']. cbn in Hret. subst o.
  by do 2 eexists.
Qed.

(** The pass of a configuration's watch copies the stored certificate. *)
Lemma run_hook_Reconcile other o w s : named o s -> wk_SecretName w = op_SecretName o -> wk_SecretNamespace w = op_Namespace o ->
  wc_Name (cs_hook (wk_Hook w) s) = wk_ConfigurationName w ->
  exists tr s', run (api other) (hook_Reconcile w) s = (tr, Done None, s') /\
    objects s' = objects (set_hook (wk_Hook w) (set_bundles (crt s) (cs_hook (wk_Hook w) s)) s).
Proof.
  intros (Hs & _ & _) Hn Hns Hc. unfold hook_Reconcile. rewrite run_bind. cbn [run call api].
  rewrite decide_True by (unfold has_name in *; by rewrite Hn, Hns). cbn iota.
  destruct (run_install other (wk_Hook w) (wk_ConfigurationName w) (default "" (sec_Data (cs_secret s) !! TLsCertName)) (tick s))
    as [tr Hr]; [exact Hc|].
  unfold crt. rewrite Hr. do 2 eexists. split; [reflexivity|]. by destruct (wk_Hook w).
Qed.

(** The pass of the secret's watch certificate_kept the names, and does not fail when a
    certificate can be created. *)
Lemma run_secret_Reconcile other o s : named o s ->
  let '(tr, out, s') := run (api other) (secret_Reconcile (init_secret_watch o)) s in
  named o s' /\ (objects s' = objects s \/ exists ca, sec_Data (cs_secret s') = sec_Data (generateCASecret (init_secret_watch o) ca)) /\
  (creates other -> readable (cs_secret s) -> out = Done None).
Proof.
  intros Hnamed. pose proof Hnamed as (Hs & Hm & Hv). unfold secret_Reconcile. rewrite run_bind. cbn [run call api].
  rewrite decide_True by exact Hs. cbn iota. rewrite run_bind.
  destruct (run_reads other (certificate_kept (cs_secret s)) _ (tick s) (keeps_reads _)) as [Hobj _].
  pose proof (fun Hr => run_keeps other (cs_secret s) (tick s) Hr) as Hkeeps.
  destruct (run (api other) (certificate_kept (cs_secret s)) (tick s)) as [[tr1 [[|]|why]] s1]; cbn [fst snd] in Hobj.
  { cbn. split; [by eapply named_objects; [|exact Hnamed]|]. split; [by left|]. done. }
  2: { split; [by eapply named_objects; [|exact Hnamed]|]. split; [by left|]. intros _ Hr.
       destruct (Hkeeps Hr) as (? & ? & ? & [=]). }
  unfold renew. rewrite run_bind.
  set (opts := mkCAOptions _ _ _). destruct (run_reads other _ _ s1 (NewCAConfigSecret_reads opts)) as [Hobj2 _].
  pose proof (fun Hc => run_created other opts s1 Hc) as Hcreated.
  destruct (run (api other) (NewCAConfigSecret opts) s1) as [[tr2 [[ca|err]|why]] s2]; cbn [fst snd] in Hobj2;
    rewrite Hobj in Hobj2.
  2,3: split; [by eapply named_objects; [|exact Hnamed]|]; split; [by left|]; intros Hc _;
       destruct (Hcreated Hc) as (? & ? & ? & [=]).
  injection Hobj2 as E1 E2 E3. cbn [run bind call api]. set (sec := mkSecret _ _).
  set (s3 := tick (set_secret sec s2)).
  assert (Hn3 : named o s3) by (unfold named, s3; cbn; rewrite E2, E3; auto).
  rewrite run_bind.
  destruct (run_install other Mutating (ws_MutatingWebhookConfigurationName (init_secret_watch o)) (ca_cert ca) s3)
    as [tr3 ->]; [apply Hn3|].
  set (s4 := tick (set_hook _ _ _)). rewrite run_bind.
  destruct (run_install other Validating (ws_ValidatingWebhookConfigurationName (init_secret_watch o)) (ca_cert ca) s4)
    as [tr4 ->]; [apply Hn3|].
  set (s5 := tick (set_hook _ _ _)). rewrite run_bind.
  destruct (run_reads other _ _ s5 (updateOperatorPods_reads (ws_Namespace (init_secret_watch o)))) as [Hobj5 _].
  destruct (run_pods other (ws_Namespace (init_secret_watch o)) s5) as (tr5 & s6 & Hr). rewrite Hr in *. cbn [fst snd] in Hobj5.
  cbn. injection Hobj5 as F1 F2 F3. split; [unfold named; rewrite F1, F2, F3; apply Hn3|].
  split; [right; exists ca; by rewrite F1 | done].
Qed.

(** C36: A pass over the webhook resources leaves one certificate: whenever it
    ends without an error, against an API server that stores the secret and the
    two configurations and accepts their updates, every webhook of both
    configurations has the certificate of the stored secret, and the secret is
    either as it was or holds a certificate that was created.  The pass ends
    so whenever creating a certificate works and the stored secret does not
    make the pass panic. *)
Theorem certificates_agree (other : nat -> forall X, CertE X -> X) (o : Options) (s : cstore) (Hnamed : named o s) :
  let '(tr, out, s') := run (api other) (ReconcileResource (init_watches o)) s in
  (out = Done None -> bundled (crt s') (cs_mutating s') /\ bundled (crt s') (cs_validating s') /\
     (cs_secret s' = cs_secret s \/ exists ca, sec_Data (cs_secret s') = sec_Data (generateCASecret (init_secret_watch o) ca))) /\
  (creates other -> readable (cs_secret s) -> out = Done None).
Proof.
  cbn [ReconcileResource init_watches w_Reconcile secret_watch hook_watch]. rewrite run_bind.
  pose proof (run_secret_Reconcile other o s Hnamed) as Hs.
  destruct (run (api other) (secret_Reconcile (init_secret_watch o)) s) as [[tr1 out] s1].
  destruct Hs as (Hn1 & Hsec & Hdone).
  destruct out as [[err|]|why]; [cbn; split; [by intros [=] | exact Hdone] | | cbn; split; [by intros [=] | exact Hdone]].
  rewrite run_bind.
  destruct (run_hook_Reconcile other o (init_validating_watch o) s1 Hn1) as (tr2 & s2 & -> & Hobj2); [done..|apply Hn1|].
  rewrite run_bind. injection Hobj2 as E1 E2 E3.
  assert (Hn2 : named o s2) by (unfold named; rewrite E1, E2, E3; apply Hn1).
  destruct (run_hook_Reconcile other o (init_mutating_watch o) s2 Hn2) as (tr3 & s3 & -> & Hobj3); [done..|apply Hn2|].
  injection Hobj3 as F1 F2 F3. cbn. split; [|done]. intros _. unfold crt. rewrite F1, F2, F3, E3, E1. cbn.
  split; [|split].
  - unfold crt. rewrite E1. apply set_bundles_bundled.
  - apply set_bundles_bundled.
  - destruct Hsec as [[= -> _ _]|[ca Hca]]; [by left | right; by exists ca].
Qed.

(** ** What is written, and in which order *)

Definition secret_crt (s : Secret) : string := default "" (sec_Data s !! TLsCertName).

(** Every update of a configuration installs the certificate of the last
    accepted update of the secret before it; [have] is that of the past. *)
Fixpoint installs_stored (have : option string) (tr : list (event CertE)) : Prop :=
  match tr with
  | [] => True
  | Ev e x :: tr =>
      match e in CertE X return X -> Prop with
      | SecretUpdate s => fun err => installs_stored (match err with None => Some (secret_crt s) | Some _ => have end) tr
      | HookUpdate _ c => fun _ => (exists cert, have = Some cert /\ bundled cert c) /\ installs_stored have tr
      | _ => fun _ => installs_stored have tr
      end x
  end.

Lemma installs_reads have tr tr' : Forall reads tr -> installs_stored have (app tr tr') <-> installs_stored have tr'.
Proof.
  induction tr as [|[X e x] tr IH]; intros Hr; [done|]. apply Forall_cons in Hr as [He Hr]. cbn [app installs_stored].
  destruct e; by try apply IH.
Qed.

Lemma installs_reads_nil have tr : Forall reads tr -> installs_stored have tr.
Proof. intros Hr. rewrite <- (app_nil_r tr). by apply installs_reads. Qed.

(** After a part that only reads. *)
Lemma wp_after {A B} (p : prog CertE A) R (f : A -> prog CertE B) have :
  spec reads R p -> (forall a, R a -> wp (f a) (fun tr _ => installs_stored have tr)) ->
  wp (bind p f) (fun tr _ => installs_stored have tr).
Proof.
  intros Hp Hf. apply wp_bind. eapply wp_mono; [exact Hp|]. intros tr [a|w] [Htr Ho].
  - eapply wp_mono; [by apply Hf|]. intros tr' o' H'. by apply installs_reads.
  - by apply installs_reads_nil.
Qed.

Lemma wp_install {B} h name cert (f : option goerr -> prog CertE B) :
  (forall e, wp (f e) (fun tr _ => installs_stored (Some cert) tr)) ->
  wp (bind (install h name cert) f) (fun tr _ => installs_stored (Some cert) tr).
Proof.
  intros Hf. cbn. intros [c|err]; cbn; [|apply Hf]. intros e. eapply wp_mono; [apply Hf|].
  intros tr o Htr. split; [|exact Htr]. exists cert. split; [done|]. apply set_bundles_bundled.
Qed.

(** C37: A pass over the webhook secret writes a certificate into a webhook
    configuration only after the API server accepted it as the certificate of
    the secret: no configuration trusts a certificate that is not stored. *)
Theorem configurations_after_secret (w : WatchSecret) :
  wp (secret_Reconcile w) (fun tr _ => installs_stored None tr).
Proof.
  unfold secret_Reconcile. cbn [wp bind call]. intros [secret|err]; [|exact I].
  cbn [installs_stored]. eapply wp_after; [apply keeps_reads|]. intros [|] _; [exact I|]. unfold renew.
  eapply wp_after; [apply NewCAConfigSecret_reads|]. intros [ca|err] _; [|exact I].
  cbn [wp bind call]. intros [err|]; [exact I|]. cbn [installs_stored].
  replace (secret_crt _) with (ca_cert ca)
    by (unfold secret_crt; cbn [sec_Data generateCASecret]; by rewrite lookup_insert_eq).
  apply wp_install. intros [err|]; [exact I|]. apply wp_install. intros [err|]; [exact I|].
  eapply wp_after; [apply updateOperatorPods_reads|]. intros _ _. exact I.
Qed.

(** ** The period of a certificate *)

(** Times in a certificate are whole seconds. *)
Definition second (t : Z) : Z := t - t mod 1000000000.

(** What [x509.ParseCertificates] reads back of what [CreateCertificate] signed. *)
Definition issued (template : Certificate PublicKey) (pk : PrivateKey) (der : string) : Prop :=
  ParseCertificates der = Ok [mkCertificate (crt_SerialNumber template) (crt_CommonName template) (crt_Organization template)
    (second (crt_NotBefore template)) (second (crt_NotAfter template)) (crt_DNSNames template) (Some (Public pk))].
End webhooks.

(** The encodings are inverse to each other, and keys equal themselves. *)
Class CryptoLaws `(Crypto) : Prop := {
  pem_nothing : pem_Decode "" = None;
  pem_round : forall type b, pem_Decode (pem_EncodeToMemory type b) = Some (type, b);
  pkcs1_round : forall k, ParsePKCS1PrivateKey (MarshalPKCS1PrivateKey k) = Ok k;
  key_Equal_refl : forall k, key_Equal k k = true
}.

Lemma pem_nonempty `{CryptoLaws} type b : pem_EncodeToMemory type b <> "".
Proof. intros E. pose proof (pem_round type b) as Hr. rewrite E, pem_nothing in Hr. discriminate Hr. Qed.

(** C38: The certificate that a pass makes, once stored in the secret, is kept
    by the passes that follow: from the time it is made until ten minutes, and
    at most a second, before the end of its year, and it is renewed after. *)
Theorem renewed_certificate_kept `{CryptoLaws} (w : WatchSecret) (options : CAOptions) :
  wp (NewCAConfigSecret options) (fun tr o => forall ca, o = Done (Ok ca) ->
    exists n pk t1 t2 template der,
      tr = [Ev (RandInt SerialNumberLimit) (Ok n); Ev (GenerateKey 2048) (Ok pk); Ev CertNow t1; Ev CertNow t2;
            Ev (CreateCertificate template pk) (Ok der)] /\
      (issued template pk der -> exists c,
         certificate_kept (generateCASecret w ca) = Call CertNow (fun now => Ret (in_period c now)) /\
         forall now, (t1 <= now <= t2 + DefaultExpireTimeout - UpdateCABefore - 1000000000 -> in_period c now = true) /\
                     (t2 + DefaultExpireTimeout - UpdateCABefore < now -> in_period c now = false))).
Proof.
  unfold NewCAConfigSecret. cbn [wp bind call]. intros [n|err]; [|by intros ca [=]]. cbn [wp bind call].
  intros [pk|err]; [|by intros ca [=]]. cbn [wp bind call]. intros t1 t2. cbn [wp bind call].
  set (template := mkCertificate _ _ _ _ _ _ _). intros [der|err]; [|by intros ca [=]].
  cbn [wp]. intros ca [= <-]. exists n, pk, t1, t2, template, der. split; [done|].
  intros Hi. eexists. split.
  - unfold certificate_kept, BuildCAFromSecret. cbn [generateCASecret sec_Data ca_cert ca_privateKey].
    rewrite lookup_insert_eq, lookup_insert_ne by done. rewrite lookup_singleton_eq.
    rewrite decide_False by (intros [E|E]; by apply pem_nonempty in E).
    unfold parsePemCert, parsePrivateKey. rewrite !pem_round. rewrite decide_True by done. rewrite Hi.
    cbn [mbind option_bind]. rewrite pkcs1_round. unfold ValidCA. cbn [ca_Certificate ca_PrivateKey crt_PublicKey].
    rewrite key_Equal_refl. reflexivity.
  - intros now. unfold in_period. cbn [crt_NotBefore crt_NotAfter template].
    assert (Hsec : forall t, t - 1000000000 < second t <= t).
    { intros t. unfold second. pose proof (Z.mod_pos_bound t 1000000000 ltac:(lia)). lia. }
    pose proof (Hsec (t1 - minutes 10)). pose proof (Hsec (t2 + DefaultExpireTimeout)).
    assert (0 < minutes 10) by done.
    split; intros Hnow.
    + apply andb_true_intro. split; apply negb_true_iff, Z.ltb_ge; lia.
    + apply andb_false_iff. right. apply negb_false_iff, Z.ltb_lt. lia.
Qed.

(** ** Witnesses *)

(** Texts that tell where the type ends: a digit before each of its characters. *)
Fixpoint demo_encode (type b : string) : string :=
  match type with "" => "0" +:+ b | String ch type => String "1"%char (String ch (demo_encode type b)) end.
Fixpoint demo_decode (s : string) : option (string * string) :=
  match s with
  | String "0"%char b => Some ("", b)
  | String "1"%char (String ch s) => r ← demo_decode s; Some (String ch r.1, r.2)
  | _ => None
  end.

Definition demo_signed : Certificate string :=
  mkCertificate 7 "w-HTTP" ["w"] 3000000000000 (3600000000000 + 365 * 24 * 60 * 60 * 1000000000) ["host"] (Some "key").

Definition demo_crypto : Crypto := {|
  PrivateKey := string;
  PublicKey := string;
  Public := fun k => k;
  key_Equal := fun a b => bool_decide (a = b);
  pem_Decode := demo_decode;
  pem_EncodeToMemory := demo_encode;
  ParseCertificates := fun der => if bool_decide (der = "der") then Ok [demo_signed] else Er (errorsNew "malformed certificate");
  ParsePKCS1PrivateKey := Ok;
  MarshalPKCS1PrivateKey := fun k => k;
  rfc3339_nano := Itoa
|}.

Section witnesses.
Local Existing Instance demo_crypto.

Lemma demo_laws : CryptoLaws demo_crypto.
Proof.
  constructor; [done| |done|].
  - intros type b. cbn. induction type as [|ch type IH]; [done|]. cbn [demo_encode demo_decode]. by rewrite IH.
  - intros k. by apply bool_decide_eq_true.
Qed.

(** A clock that stands still, one number, one key, one certificate, and one pod. *)
Definition demo_answers (n : nat) (X : Type) (e : CertE X) : X :=
  match e in CertE X return X with
  | SecretGet _ _ | HookGet _ _ | PodGet _ _ => Er (errorsNew "not found")
  | SecretUpdate _ | HookUpdate _ _ | PodUpdate _ => None
  | PodsOf _ _ => Ok [mkPod (emptyMeta <| m_Name := "operator" |>) None (mkPodStatus "" "" None "" "")]
  | CertNow => 3600000000000
  | RandInt _ => Ok 7
  | GenerateKey _ => Ok "key"
  | CreateCertificate _ _ => Ok "der"
  end.

Definition demo_hooks (name : string) : WebhookConfiguration := mkWebhookConfiguration name [mkWebhook "v" ""; mkWebhook "u" "old"].
Definition demo_options : Options := NewControllerOptions (ParseEnvs (fun _ => "")).
Definition demo_store : cstore :=
  mkCStore (mkSecret (emptyMeta <| m_Name := Default_Secret_Name |> <| m_Namespace := "doris" |>) ∅)
    (demo_hooks DefaultMutatingWebhookConfigurationName) (demo_hooks DefaultValidatingWebhookConfigurationName) 0.

Lemma certificates_agree_witness :
  let '(_, out, s') := run (api demo_answers) (ReconcileResource (init_watches demo_options)) demo_store in
  out = Done None /\ bundled (demo_encode Cert_Type "der") (cs_mutating s') /\ bundled (demo_encode Cert_Type "der") (cs_validating s').
Proof.
  pose proof (certificates_agree demo_answers demo_options demo_store ltac:(by vm_compute)) as Hw.
  assert (Hc : crt (run (api demo_answers) (ReconcileResource (init_watches demo_options)) demo_store).2 =
               demo_encode Cert_Type "der") by (vm_compute; reflexivity).
  destruct (run (api demo_answers) (ReconcileResource (init_watches demo_options)) demo_store) as [[tr out] s'].
  destruct Hw as [Hagree Hdone].
  assert (Ho : out = Done None) by (apply Hdone; [intros n; repeat split; intros; by eexists | by vm_compute]).
  split; [exact Ho|]. destruct (Hagree Ho) as (Hm & Hv & _).
  cbn [snd] in Hc. rewrite Hc in Hm, Hv. by split.
Defined.

(** The times and the certificate of a trace that made one. *)
Definition demo_made (tr : list (event CertE)) : option (Z * Z * Certificate PublicKey * PrivateKey * string) :=
  match tr with
  | [_; _; Ev e1 x1; Ev e2 x2; Ev e x] =>
      t1 ← match e1 in CertE X return X -> option Z with CertNow => Some | _ => fun _ => None end x1;
      t2 ← match e2 in CertE X return X -> option Z with CertNow => Some | _ => fun _ => None end x2;
      match e in CertE X return X -> option (Z * Z * Certificate PublicKey * PrivateKey * string) with
      | CreateCertificate template pk => fun r => match r with Ok der => Some (t1, t2, template, pk, der) | Er _ => None end
      | _ => fun _ => None
      end x
  | _ => None
  end.

Lemma renewed_certificate_kept_witness :
  exists c, certificate_kept (generateCASecret (init_secret_watch demo_options)
                     (mkCA (demo_encode PrivateKey_Type "key") (demo_encode Cert_Type "der") "key"
                        (mkCertificate 7 "w-HTTP" ["w"] 3000000000000 (3600000000000 + DefaultExpireTimeout) ["host"] None))) =
            Call CertNow (fun now => Ret (in_period c now)) /\ in_period c 3600000000000 = true.
Proof.
  pose proof (wp_run (api demo_answers) _ demo_store _
    (renewed_certificate_kept (H0 := demo_laws) (init_secret_watch demo_options) (mkCAOptions "w-HTTP" ["w"] ["host"])) _ eq_refl)
    as (n & pk & t1 & t2 & template & der & E & Hkept).
  apply (f_equal demo_made) in E. cbn [demo_made] in E. revert E Hkept.
  match goal with |- ?l = _ -> _ => replace l with
    (Some (3600000000000, 3600000000000, @mkCertificate string 7 "w-HTTP" ["w"] 3000000000000 (3600000000000 + DefaultExpireTimeout) ["host"] None,
           "key", "der")) by (vm_compute; reflexivity) end.
  intros E Hkept. injection E as <- <- <- <- <-.
  destruct (Hkept ltac:(by vm_compute)) as (c & Hk & Hperiod). exists c. split; [exact Hk|].
  apply Hperiod. split; vm_compute; discriminate.
Defined.
End witnesses.
