(* ===== verification/Ctl.v ===== *)
(** The command line tool dorisctl ([src/pkg/common/cmd] and
    [src/cmd/dorisctl]): the command [get node], which looks a node up among
    the frontends and the backends that Doris shows and prints its record, and
    the normalization of the help texts.
    cobra, which parses the arguments, the SQL driver, gjson and the markdown
    parser are third-party: calls, and the classes [Documents] and [Gjson]. *)

From Stdlib Require Import ZArith Lia Ascii.
From stdpp Require Import base list gmap strings.
From S2P Require Import Prelude GoStr Json.

Local Open Scope string_scope.
Local Open Scope Z_scope.
Local Open Scope dop_scope.

(** ** Strings *)

Fixpoint Contains (s sub : string) : bool :=
  HasPrefix s sub || match s with "" => false | String _ s' => Contains s' sub end.
Definition CutPrefix (s prefix : string) : string * bool :=
  if HasPrefix s prefix then (str_drop (String.length prefix) s, true) else (s, false).
Fixpoint Repeat (s : string) (n : nat) : string :=
  match n with O => "" | S n => s +:+ Repeat s n end.

(** [strings.Trim] with the characters that satisfy [f]. *)
Fixpoint trim_prefix (f : ascii -> bool) (s : string) : string :=
  match s with
  | String c s' => if f c then trim_prefix f s' else s
  | "" => ""
  end.
Fixpoint trim_suffix (f : ascii -> bool) (s : string) : string :=
  match s with
  | "" => ""
  | String c s' =>
      match trim_suffix f s' with
      | "" => if f c then "" else String c ""
      | t => String c t
      end
  end.
Definition Trim (f : ascii -> bool) (s : string) : string := trim_suffix f (trim_prefix f s).
Definition newline : string := String "010" "".
Definition space_tab (c : ascii) : bool := (ch_code c =? 32) || (ch_code c =? 9).
Definition space_tab_newline (c : ascii) : bool := space_tab c || (ch_code c =? 10).

(** ** markdown.go *)

(** The nodes of blackfriday, by what the renderer does with them: [OtherNode]
    are those of its default case. *)
Inductive mdnode :=
| TextNode (literal : string)
| HorizontalRuleNode
| HardbreakNode
| CodeNode (literal : string)
| CodeBlockNode (literal : string)
| ImageNode (destination : string)
| LinkNode (destination : string)
| ParagraphNode
| ListNode
| ItemNode (ordered : bool)
| OtherNode (literal : string).

Record ASCIIRenderer := mkASCIIRenderer { Indentation_ : string; listItemCount : Z; listLevel : Z }.

(** The counters are Go [uint]s, of 64 bits. *)
Definition uint (n : Z) : Z := n mod 2 ^ 64.
Definition set_count (n : Z) (r : ASCIIRenderer) : ASCIIRenderer := mkASCIIRenderer (Indentation_ r) (uint n) (listLevel r).
Definition set_level (n : Z) (r : ASCIIRenderer) : ASCIIRenderer := mkASCIIRenderer (Indentation_ r) (listItemCount r) (uint n).

Definition normalText (text : string) : string := Trim space_tab_newline text.

Definition text_line (line : string) : string :=
  let trimmed := Trim space_tab_newline line in
  match trimmed with
  | "" => ""
  | String c _ => if ch_code c =? 95 then trimmed else " " +:+ trimmed
  end.
Definition code_lines (r : ASCIIRenderer) (literal : string) : string :=
  newline +:+ Join (map (fun line => Repeat (Indentation_ r) 4 +:+ Trim space_tab line) (Split literal newline)) newline.

(** What one visit of a node writes. *)
Definition RenderNode (r : ASCIIRenderer) (node : mdnode) (entering : bool) : ASCIIRenderer * string :=
  match node with
  | TextNode raw => (r, foldr String.append "" (map text_line (Split raw newline)))
  | HorizontalRuleNode | HardbreakNode => (r, newline +:+ "----------" +:+ newline)
  | CodeNode literal | CodeBlockNode literal => (r, code_lines r literal)
  | ImageNode destination => (r, destination)
  | LinkNode destination => (r, " " +:+ destination)
  | ParagraphNode => (r, if listLevel r =? 0 then newline else "")
  | ListNode =>
      if entering then (set_level (listLevel r + 1) r, newline)
      else (set_count 0 (set_level (listLevel r - 1) r), "")
  | ItemNode ordered =>
      if entering then
        let r := set_count (listItemCount r + 1) r in
        (r, Repeat (Indentation_ r) (Z.to_nat (listLevel r)) +:+
            (if ordered then Itoa (listItemCount r) +:+ ". " else "* "))
      else (r, newline)
  | OtherNode literal => (r, normalText literal)
  end.

Definition RenderFooter : string := newline.

(** The walk of the parsed document, header and footer around it. *)
Fixpoint render (r : ASCIIRenderer) (walk : list (mdnode * bool)) : ASCIIRenderer * string :=
  match walk with
  | [] => (r, RenderFooter)
  | (node, entering) :: walk =>
      let '(r, out) := RenderNode r node entering in
      let '(r, rest) := render r walk in (r, out +:+ rest)
  end.

(** ** normalizers.go *)

(** Package heredoc, and blackfriday's parser: the visits of its walk. *)
Class Documents := {
  heredoc_Doc : string -> string;
  blackfriday_walk : string -> list (mdnode * bool)
}.

Section normalizers.
Context `{Documents}.

Definition Indentation : string := "  ".

Definition markdown (s : string) : string := (render (mkASCIIRenderer Indentation 0 0) (blackfriday_walk s)).2.
Definition indent (s : string) : string :=
  Join (map (fun line => Indentation +:+ TrimSpace line) (Split s newline)) newline.

Definition LongDesc (s : string) : string :=
  if decide (s = "") then s else TrimSpace (markdown (heredoc_Doc s)).
Definition Examples (s : string) : string :=
  if decide (s = "") then s else indent (TrimSpace s).

(** printing.go *)
Definition SuggestAPIResources (parent : string) : string :=
  LongDesc ("Use " +:+ dquote +:+ parent +:+ " api-resources" +:+ dquote +:+ " for a complete list of supported resources.").
End normalizers.

(** ** resource.go: the rows that Doris shows *)

Module Types.
Record Frontend := mkFrontend {
  Name : string;
  Host : string;
  EditLogPort : Z;
  HttpPort : Z;
  QueryPort : Z;
  RpcPort : Z;
  ArrowFlightSqlPort : Z;
  Role : string;
  IsMaster : bool;
  ClusterId : string;
  JoinCluster : bool;
  Alive : bool;
  ReplayedJournalId : string;
  LastStartTime : option string;
  LastHeartbeat : option string;
  IsHelper : bool;
  ErrMsg : string;
  Version : option string;
  CurrentConnected : string
}.

Record Backend := mkBackend {
  b_BackendID : string;
  b_Host : string;
  b_HeartbeatPort : Z;
  b_BePort : Z;
  b_HttpPort : Z;
  b_BrpcPort : Z;
  b_ArrowFlightSqlPort : Z;
  b_LastStartTime : option string;
  b_LastHeartbeat : option string;
  b_Alive : bool;
  b_SystemDecommissioned : bool;
  b_TabletNum : Z;
  b_DataUsedCapacity : string;
  b_TrashUsedCapacity : string;
  b_TrashUsedCapcacity : string;
  b_AvailCapacity : string;
  b_TotalCapacity : string;
  b_UsedPct : string;
  b_MaxDiskUsedPct : string;
  b_RemoteUsedCapacity : string;
  b_Tag : string;
  b_ErrMsg : string;
  b_Version : option string;
  b_Status : string;
  b_HeartbeatFailureCounter : Z;
  b_NodeRole : string;
  b_CpuCores : string;
  b_Memory : string
}.

Record Tag := mkTag {
  CloudUniqueId : string;
  ComputeGroupStatus : string;
  PrivateEndpoint : string;
  ComputeGroupName : string;
  Location : string;
  PublicEndpoint : string;
  ComputeGroupId : string
}.
#[export] Instance Tag_etas : Etas Tag := fun t =>
  mkTag (CloudUniqueId t) (ComputeGroupStatus t) (PrivateEndpoint t) (ComputeGroupName t) (Location t)
    (PublicEndpoint t) (ComputeGroupId t).
Definition zeroTag : Tag := mkTag "" "" "" "" "" "" "".
End Types.
Import Types.

(** *** Encoding *)

Definition JInt (n : Z) : json := JNum (Itoa n).
Definition JPtr (s : option string) : json := match s with Some s => JStr s | None => JNull end.

Definition Frontend_members (f : Frontend) : list (string * json) :=
  [("name", JStr (Name f)); ("host", JStr (Host f)); ("edit_log_port", JInt (EditLogPort f));
   ("http_port", JInt (HttpPort f)); ("query_port", JInt (QueryPort f)); ("rpc_port", JInt (RpcPort f));
   ("arrow_flight_sql_port", JInt (ArrowFlightSqlPort f)); ("role", JStr (Role f)); ("is_master", JBool (IsMaster f));
   ("cluster_id", JStr (ClusterId f)); ("join", JBool (JoinCluster f)); ("alive", JBool (Alive f));
   ("replayed_journal_id", JStr (ReplayedJournalId f)); ("last_start_time", JPtr (LastStartTime f));
   ("last_heartbeat", JPtr (LastHeartbeat f)); ("is_helper", JBool (IsHelper f)); ("err_msg", JStr (ErrMsg f));
   ("version", JPtr (Version f)); ("current_connected", JStr (CurrentConnected f))].

Definition Backend_members (b : Backend) : list (string * json) :=
  [("backend_id", JStr (b_BackendID b)); ("host", JStr (b_Host b)); ("heartbeat_port", JInt (b_HeartbeatPort b));
   ("be_port", JInt (b_BePort b)); ("http_port", JInt (b_HttpPort b)); ("brpc_port", JInt (b_BrpcPort b));
   ("arrow_flight_sql_port", JInt (b_ArrowFlightSqlPort b)); ("last_start_time", JPtr (b_LastStartTime b));
   ("last_heartbeat", JPtr (b_LastHeartbeat b)); ("alive", JBool (b_Alive b));
   ("system_decommissioned", JBool (b_SystemDecommissioned b)); ("tablet_num", JInt (b_TabletNum b));
   ("data_used_capacity", JStr (b_DataUsedCapacity b)); ("trash_used_capacity", JStr (b_TrashUsedCapacity b));
   ("trash_used_capcacity", JStr (b_TrashUsedCapcacity b)); ("avail_capacity", JStr (b_AvailCapacity b));
   ("total_capacity", JStr (b_TotalCapacity b)); ("used_pct", JStr (b_UsedPct b));
   ("max_disk_used_pct", JStr (b_MaxDiskUsedPct b)); ("remote_used_capacity", JStr (b_RemoteUsedCapacity b));
   ("tag", JStr (b_Tag b)); ("err_msg", JStr (b_ErrMsg b)); ("version", JPtr (b_Version b)); ("status", JStr (b_Status b));
   ("heartbeat_failure_counter", JInt (b_HeartbeatFailureCounter b)); ("node_role", JStr (b_NodeRole b));
   ("cpu_cores", JStr (b_CpuCores b)); ("memory", JStr (b_Memory b))].

Definition Tag_members (t : Tag) : list (string * json) :=
  [("cloud_unique_id", JStr (CloudUniqueId t)); ("compute_group_status", JStr (ComputeGroupStatus t));
   ("private_endpoint", JStr (PrivateEndpoint t)); ("compute_group_name", JStr (ComputeGroupName t));
   ("location", JStr (Location t)); ("public_endpoint", JStr (PublicEndpoint t)); ("compute_group_id", JStr (ComputeGroupId t))].

(** *** Decoding of a tag: keys up to case, [null] leaves a field, unknown keys
    are skipped. *)

Definition dec_text (j : json) (cur : string) : option string :=
  match j with JStr s => Some s | JNull => Some cur | _ => None end.
Definition decode_tag_member (t : Tag) (k : string) (j : json) : option Tag :=
  if EqualFold k "cloud_unique_id" then s ← dec_text j (CloudUniqueId t); Some (t <| CloudUniqueId := s |>)
  else if EqualFold k "compute_group_status" then s ← dec_text j (ComputeGroupStatus t); Some (t <| ComputeGroupStatus := s |>)
  else if EqualFold k "private_endpoint" then s ← dec_text j (PrivateEndpoint t); Some (t <| PrivateEndpoint := s |>)
  else if EqualFold k "compute_group_name" then s ← dec_text j (ComputeGroupName t); Some (t <| ComputeGroupName := s |>)
  else if EqualFold k "location" then s ← dec_text j (Location t); Some (t <| Location := s |>)
  else if EqualFold k "public_endpoint" then s ← dec_text j (PublicEndpoint t); Some (t <| PublicEndpoint := s |>)
  else if EqualFold k "compute_group_id" then s ← dec_text j (ComputeGroupId t); Some (t <| ComputeGroupId := s |>)
  else Some t.
Fixpoint decode_tag_members (t : Tag) (l : list (string * json)) : option Tag :=
  match l with
  | [] => Some t
  | (k, j) :: l => t ← decode_tag_member t k j; decode_tag_members t l
  end.
Definition Unmarshal_Tag (s : string) : option Tag :=
  match parse_json s with
  | Some (JObj l) => decode_tag_members zeroTag l
  | Some JNull => Some zeroTag
  | _ => None
  end.

(** ** [json.MarshalIndent] with four blanks and no prefix *)

Definition line_at (depth : nat) : string := newline +:+ Repeat "    " depth.

Fixpoint indent_json (depth : nat) (j : json) : string :=
  match j with
  | JArr ((_ :: _) as l) =>
      "[" +:+ line_at (S depth) +:+
      (fix elems (l : list json) : string :=
         match l with
         | [] => ""
         | [x] => indent_json (S depth) x +:+ line_at depth +:+ "]"
         | x :: l' => indent_json (S depth) x +:+ "," +:+ line_at (S depth) +:+ elems l'
         end) l
  | JObj ((_ :: _) as l) =>
      "{" +:+ line_at (S depth) +:+
      (fix members (l : list (string * json)) : string :=
         match l with
         | [] => ""
         | [(k, x)] => encode_str k +:+ ": " +:+ indent_json (S depth) x +:+ line_at depth +:+ "}"
         | (k, x) :: l' => encode_str k +:+ ": " +:+ indent_json (S depth) x +:+ "," +:+ line_at (S depth) +:+ members l'
         end) l
  | j => print_json j
  end.

(** ** client.go and doris_conf.go *)

Record DorisConfig := mkDorisConfig {
  dc_FeHost : string;
  dc_QueryPort : Z;
  dc_User : string;
  dc_Password : string;
  dc_SSLCrtPath : string;
  dc_SSLCaPath : string;
  dc_SSLKeyPath : string
}.

(** The calls of the driver, of files and of TLS, and the output.  A pool is
    known by its data source name. *)
Inductive CtlE : Type -> Type :=
| ReadFile (path : string) : CtlE (res string)
| AppendCertsFromPEM (pem : string) : CtlE bool
| LoadX509KeyPair (crt key : string) : CtlE (option goerr)
| RegisterTLSConfig (name : string) : CtlE (option goerr)
| SqlOpen (dsn : string) : CtlE (option goerr)
| Ping (dsn : string) : CtlE (option goerr)
| SelectFrontends (dsn statement : string) : CtlE (res (list Frontend))
| SelectBackends (dsn statement : string) : CtlE (res (list Backend))
| Fprintf (text : string) : CtlE unit.
Abbreviation ctl := (prog CtlE).

(** The certificates of TLS when a path of the root certificate is given. *)
Definition load_tls (dc : DorisConfig) : ctl (option goerr) :=
  let! pem := call (ReadFile (dc_SSLCaPath dc)) in
  match pem with
  | Er err => Ret (Some (errorsNew ("read root ca cert failed," +:+ err_msg err)))
  | Ok pem =>
      let! ok := call (AppendCertsFromPEM pem) in
      if negb ok then Ret (Some (errorsNew "Failed to append ca cert or pem failed."))
      else
        let! err := call (LoadX509KeyPair (dc_SSLCrtPath dc) (dc_SSLKeyPath dc)) in
        match err with
        | Some err => Ret (Some (errorsNew ("load x509 key pair failed," +:+ err_msg err)))
        | None =>
            let! err := call (RegisterTLSConfig "doris") in
            Ret (match err with
                 | Some err => Some (errorsNew ("register tls config failed," +:+ err_msg err))
                 | None => None
                 end)
        end
  end.

Definition data_source (dc : DorisConfig) : string :=
  dc_User dc +:+ ":" +:+ dc_Password dc +:+ "@tcp(" +:+ dc_FeHost dc +:+ ":" +:+ Itoa (dc_QueryPort dc) +:+ ")/mysql".

Definition NewDorisClient (dc : DorisConfig) : ctl (res string) :=
  let! err := (if decide (dc_SSLCaPath dc <> "") then load_tls dc else Ret None) in
  match err with
  | Some err => Ret (Er err)
  | None =>
      let dsn := if decide (dc_SSLCaPath dc <> "") then data_source dc +:+ "?tls=doris" else data_source dc in
      let! err := call (SqlOpen dsn) in
      Ret (match err with
           | Some err => Er (errorsNew ("NewDorisSqlDB sqlx.Open failed open doris sql client connection, err: " +:+ err_msg err))
           | None => Ok dsn
           end)
  end.

Definition ShowFrontends (db : string) : ctl (res (list Frontend)) :=
  let! err := call (Ping db) in
  match err with Some err => Ret (Er err) | None => call (SelectFrontends db "show frontends") end.
Definition ShowBackends (db : string) : ctl (res (list Backend)) :=
  let! err := call (Ping db) in
  match err with Some err => Ret (Er err) | None => call (SelectBackends db "show backends") end.

(** ** get.go *)

Inductive node := NodeFE (f : Frontend) | NodeBE (b : Backend).
Definition node_members (n : node) : list (string * json) :=
  match n with NodeFE f => Frontend_members f | NodeBE b => Backend_members b end.

(** [gjson.GetBytes] as text, and the text of an error of [json.Unmarshal]. *)
Class Gjson := { gjson_Get : string -> string -> string; unmarshal_err : string -> string }.

Section get.
Context `{Documents} `{Gjson}.

Definition say (text : string) : ctl unit := call (Fprintf (text +:+ newline)).

(** The column of [-o custom-columns=...]. *)
Definition print_column (n : node) (column : string) : ctl unit :=
  if Contains column "tag" then
    match n with
    | NodeFE _ => Panic "interface conversion: interface {} is *cmdtypes.Frontend, not *cmdtypes.Backend"
    | NodeBE b =>
        match Unmarshal_Tag (b_Tag b) with
        | None => say ("unmarshal tag failed," +:+ unmarshal_err (b_Tag b))
        | Some t =>
            let subColumn := (CutPrefix column "tag.").1 in
            if decide (subColumn <> "") then say (gjson_Get (print_json (JObj (Tag_members t))) subColumn) else Ret tt
        end
    end
  else say (gjson_Get (print_json (JObj (node_members n))) column).

Definition print_node (OutputFormat : string) (n : node) : ctl unit :=
  if Contains OutputFormat "custom-columns" then
    match Split OutputFormat "=" with
    | [_; column] => print_column n column
    | _ => say ("custom-columns not follow the format " +:+ dquote +:+ "custom-columns=tags.compute_group_name" +:+
                dquote +:+ OutputFormat)
    end
  else say (indent_json 0 (JObj (node_members n))).

Definition getNode (dc : DorisConfig) (OutputFormat host : string) : ctl unit :=
  let! c := NewDorisClient dc in
  match c with
  | Er err => say (err_msg err)
  | Ok c =>
      let! frontends := ShowFrontends c in
      match frontends with
      | Er err => say (err_msg err)
      | Ok frontends =>
          match List.find (fun f => bool_decide (Host f = host)) frontends with
          | Some f => print_node OutputFormat (NodeFE f)
          | None =>
              let! backends := ShowBackends c in
              match backends with
              | Er err => say (err_msg err)
              | Ok backends =>
                  match List.find (fun b => bool_decide (b_Host b = host)) backends with
                  | Some b => print_node OutputFormat (NodeBE b)
                  | None => Ret tt
                  end
              end
          end
      end
  end.

Definition Run (CmdParent : string) (dc : DorisConfig) (OutputFormat : string) (args : list string) : ctl unit :=
  match args with
  | [metaType; node] =>
      if decide (metaType = "node") then getNode dc OutputFormat node
      else if decide (metaType = "computegroup") then Ret tt
      else say ("The type " +:+ metaType +:+ " not supported.")
  | _ => say ("You must specify the type of resource to get. " +:+ SuggestAPIResources CmdParent)
  end.

(** ** The commands *)

(** A command of cobra: its texts, the flags with their defaults, and what it
    runs, given the values of the flags. *)
Record Command := mkCommand {
  cmd_Use : string;
  cmd_Short : string;
  cmd_Long : string;
  cmd_Example : string;
  cmd_Flags : list (string * string);
  cmd_Commands : list (DorisConfig -> string -> list string -> ctl unit)
}.

Definition getLong : string :=
  LongDesc (newline +:+ "        Display one or many resource's meta information." +:+ newline +:+ newline +:+
            "        Prints a table of the most information  about the specified resources. " +:+ newline +:+ "    ").
Definition getExample : string :=
  Examples (newline +:+ "        # get compute group name." +:+ newline +:+
            "        dorisctl get backend xxx  -o custom-columns=tags.compute_group_name" +:+ newline +:+ "    ").

Definition NewCmdGet (parent : string) : Command :=
  mkCommand "get [(-o|--output=)json|yaml] (TYPE[.GROUP][.VERSION] [NAME| -l label]) [flags]"
    "Display one or many resources." (getLong +:+ newline +:+ newline +:+ SuggestAPIResources parent) getExample
    [("output", "")] [Run parent].

Definition NewDorisctlCommand : Command :=
  mkCommand "dorisctl" "dorisctl controls the doris cluster manager"
    (LongDesc (newline +:+ "        dorisctl controls the doris cluster manager." +:+ newline +:+ "        ")) ""
    [("fe-host", ""); ("user", ""); ("password", ""); ("query-port", "9030"); ("ssl-ca", ""); ("ssl-cert", ""); ("ssl-key", "")]
    (cmd_Commands (NewCmdGet "dorisctl")).
End get.
