(* ===== verification/CtlProps.v ===== *)
(** What dorisctl prints: the indented JSON of a record decodes to the record,
    and [get node] prints one line, the record of the node or an error, or
    nothing when Doris shows no such node. *)

From Stdlib Require Import ZArith Lia Ascii.
From stdpp Require Import base list gmap strings.
From S2P Require Import Prelude GoStr Json Ctl.

Local Open Scope string_scope.
Local Open Scope Z_scope.
Local Open Scope dop_scope.

(** ** White space and the decoder *)

Definition is_ws (c : ascii) : bool :=
  (ch_code c =? 32) || (ch_code c =? 9) || (ch_code c =? 10) || (ch_code c =? 13).
Definition blank (w : string) : Prop := str_forallb is_ws w = true.

Lemma skip_ws_blank w s : blank w -> skip_ws (w +:+ s) = skip_ws s.
Proof.
  unfold blank. induction w as [|c w IH]; [done|]. cbn [str_forallb]. intros [Hc Hw]%andb_true_iff.
  cbn [String.append skip_ws]. unfold is_ws in Hc. rewrite Hc. by apply IH.
Qed.

Lemma parse_value_blank f w s : blank w -> parse_value f (w +:+ s) = parse_value f s.
Proof. intros Hw. destruct f; [done|]. cbn [parse_value]. by rewrite skip_ws_blank. Qed.

Lemma parse_members_blank f w s : blank w -> parse_members f (w +:+ s) = parse_members f s.
Proof. intros Hw. destruct f; [done|]. cbn [parse_members]. by rewrite skip_ws_blank. Qed.

Lemma parse_elems_blank f w s : blank w -> parse_elems f (w +:+ s) = parse_elems f s.
Proof. intros Hw. destruct f; [done|]. cbn [parse_elems]. by rewrite parse_value_blank. Qed.

Lemma blank_line d : blank (line_at d).
Proof. unfold blank, line_at. cbn. induction d; [done | exact IHd]. Qed.
#[local] Hint Resolve blank_line : dop.

Lemma ends_value_line d r : ends_value (line_at d +:+ r).
Proof. done. Qed.

(** ** The text of [MarshalIndent] *)

Definition indent_elems d := fix elems (l : list json) : string :=
  match l with
  | [] => ""
  | [x] => indent_json (S d) x +:+ line_at d +:+ "]"
  | x :: l' => indent_json (S d) x +:+ "," +:+ line_at (S d) +:+ elems l'
  end.
Definition indent_members d := fix members (l : list (string * json)) : string :=
  match l with
  | [] => ""
  | [(k, x)] => encode_str k +:+ ": " +:+ indent_json (S d) x +:+ line_at d +:+ "}"
  | (k, x) :: l' => encode_str k +:+ ": " +:+ indent_json (S d) x +:+ "," +:+ line_at (S d) +:+ members l'
  end.

Lemma indent_arr d l : l <> [] -> indent_json d (JArr l) = "[" +:+ line_at (S d) +:+ indent_elems d l.
Proof. destruct l; [intros H; by destruct H | reflexivity]. Qed.
Lemma indent_obj d l : l <> [] -> indent_json d (JObj l) = "{" +:+ line_at (S d) +:+ indent_members d l.
Proof. destruct l; [intros H; by destruct H | reflexivity]. Qed.

Definition iparses (j : json) : Prop := wf_json j ->
  forall d f r, (need j <= f)%nat -> ends_value r -> parse_value f (indent_json d j +:+ r) = Some (coerce_json j, r).

Lemma parse_elems_indent d l : l <> [] -> Forall iparses l -> wf_json (JArr l) ->
  forall f r, (need_elems l <= f)%nat -> parse_elems f (indent_elems d l +:+ r) = Some (List.map coerce_json l, r).
Proof.
  induction l as [|x l IH]; [done|]. intros _ [Hx Hl]%Forall_cons [Hwx Hwl] f r Hf.
  cbn [need_elems] in Hf. destruct f as [|f]; [lia|]. cbn [parse_elems]. destruct l as [|y l].
  - cbn [indent_elems]. rewrite !app_assoc_str, (Hx Hwx (S d) f) by (lia || apply ends_value_line).
    by rewrite skip_ws_blank by auto with dop.
  - change (indent_elems d (x :: y :: l)) with (indent_json (S d) x +:+ "," +:+ line_at (S d) +:+ indent_elems d (y :: l)).
    rewrite !app_assoc_str, (Hx Hwx (S d) f) by (done || lia).
    cbn [String.append skip_ws]. change (ch_code ",") with 44. cbn [Z.eqb orb Pos.eqb].
    rewrite parse_elems_blank by auto with dop. by rewrite (IH ltac:(done) Hl Hwl f) by lia.
Qed.

Lemma parse_members_indent d l : l <> [] -> Forall (fun kv => iparses kv.2) l -> wf_json (JObj l) ->
  forall f r, (need_members l <= f)%nat -> parse_members f (indent_members d l +:+ r) = Some (coerce_members l, r).
Proof.
  induction l as [|[k x] l IH]; [done|]. intros _ [Hx Hl]%Forall_cons [Hwx Hwl] f r Hf.
  cbn [need_members snd] in *. destruct f as [|f]; [lia|]. cbn [parse_members].
  assert (Hkey : forall t, skip_ws ((encode_str k +:+ ": " +:+ t) +:+ r) =
                           String "034" (encode_body k +:+ dquote +:+ ": " +:+ t +:+ r)).
  { intros t. by rewrite app_assoc_str, encode_str_app, !app_assoc_str. }
  assert (Hval : forall t, ends_value t -> parse_value f (String " " (indent_json (S d) x +:+ t)) = Some (coerce_json x, t)).
  { intros t Ht. change (String " " (indent_json (S d) x +:+ t)) with (" " +:+ indent_json (S d) x +:+ t).
    rewrite parse_value_blank by done. apply (Hx Hwx); [lia | done]. }
  destruct l as [|y l].
  - cbn [indent_members]. rewrite Hkey. change (ch_code "034" =? 34) with true; cbv beta iota. rewrite parse_body_encode.
    cbn [String.append skip_ws]. change (ch_code ":") with 58. cbn [Z.eqb orb Pos.eqb].
    rewrite app_assoc_str. change (" " +:+ ?t) with (String " " t) in *. rewrite app_assoc_str, Hval by apply ends_value_line.
    by rewrite skip_ws_blank by auto with dop.
  - change (indent_members d ((k, x) :: y :: l))
      with (encode_str k +:+ ": " +:+ indent_json (S d) x +:+ "," +:+ line_at (S d) +:+ indent_members d (y :: l)).
    rewrite Hkey. change (ch_code "034" =? 34) with true; cbv beta iota. rewrite parse_body_encode.
    cbn [String.append skip_ws]. change (ch_code ":") with 58. cbn [Z.eqb orb Pos.eqb].
    rewrite app_assoc_str, Hval by done.
    cbn [String.append skip_ws]. change (ch_code ",") with 44. cbn [Z.eqb orb Pos.eqb].
    rewrite app_assoc_str, parse_members_blank by auto with dop. by rewrite (IH ltac:(done) Hl Hwl f) by lia.
Qed.

Lemma encode_str_head k : exists t, encode_str k = String "034" t.
Proof. by eexists. Qed.

Lemma indent_head d j : wf_json j -> exists c t, indent_json d j = String c t /\ is_ws c = false /\ (ch_code c =? 93) = false.
Proof.
  intros Hwf. destruct j as [|b|lit|s|[|x l]|[|x l]]; try by apply print_head.
  - rewrite indent_arr by done. by eexists "["%char, _.
  - rewrite indent_obj by done. by eexists "{"%char, _.
Qed.

Lemma parse_value_indent j : iparses j.
Proof.
  induction j as [|b|lit|s|l IH|l IH] using json_nested_ind; intros Hwf d f r Hf Hr;
    try exact (parse_value_print _ Hwf f r Hf Hr).
  - destruct l as [|x l]; [exact (parse_value_print _ Hwf f r Hf Hr)|]. destruct f as [|f]; [cbn in Hf; lia|].
    pose proof (parse_elems_indent d (x :: l) ltac:(done) IH Hwf f r (le_S_n _ _ Hf)) as Hp.
    rewrite indent_arr, !app_assoc_str by done. destruct (indent_head (S d) x (proj1 Hwf)) as (c & t & Hc & Hws & H93).
    assert (exists u, indent_elems d (x :: l) +:+ r = String c u) as [u Hu].
    { destruct l; eexists; cbn [indent_elems]; rewrite Hc, ?app_assoc_str; reflexivity. }
    cbn [String.append parse_value]. rewrite skip_ws_cons by done. cbv beta iota.
    change (ch_code "[" =? 123) with false; change (ch_code "[" =? 91) with true. cbv beta iota.
    rewrite skip_ws_blank by auto with dop. rewrite Hu in *. rewrite skip_ws_cons by done. by rewrite H93, Hp.
  - destruct l as [|[k x] l]; [exact (parse_value_print _ Hwf f r Hf Hr)|]. destruct f as [|f]; [cbn in Hf; lia|].
    pose proof (parse_members_indent d ((k, x) :: l) ltac:(done) IH Hwf f r (le_S_n _ _ Hf)) as Hp.
    rewrite indent_obj, !app_assoc_str by done.
    assert (exists u, indent_members d ((k, x) :: l) +:+ r = String "034" u) as [u Hu].
    { destruct l; eexists; cbn [indent_members]; rewrite ?app_assoc_str, encode_str_app; reflexivity. }
    cbn [String.append parse_value]. rewrite skip_ws_cons by done. cbv beta iota.
    change (ch_code "{" =? 123) with true. cbv beta iota.
    rewrite skip_ws_blank by auto with dop. rewrite Hu in *. rewrite skip_ws_cons by done. by rewrite Hp.
Qed.

(** The indented text is no shorter, so that the decoder's fuel covers it. *)
Lemma indent_longer j : forall d, (String.length (print_json j) <= String.length (indent_json d j))%nat.
Proof.
  induction j as [|b|lit|s|l IH|l IH] using json_nested_ind; intros d; try reflexivity.
  - destruct l as [|x l]; [reflexivity|]. rewrite indent_arr, print_arr by done. rewrite !length_app_str. cbn [String.length].
    enough (String.length (print_elems (x :: l)) <= String.length (indent_elems d (x :: l)))%nat by lia.
    revert x IH; induction l as [|y l IHl]; intros x [Hx Hl]%Forall_cons; specialize (Hx (S d)).
    + cbn [indent_elems print_elems]. rewrite !length_app_str. cbn [String.length]. lia.
    + specialize (IHl y Hl). change (print_elems (x :: y :: l)) with (print_json x +:+ "," +:+ print_elems (y :: l)).
      change (indent_elems d (x :: y :: l)) with (indent_json (S d) x +:+ "," +:+ line_at (S d) +:+ indent_elems d (y :: l)).
      rewrite !length_app_str. cbn [String.length]. lia.
  - destruct l as [|kx l]; [reflexivity|]. rewrite indent_obj, print_obj by done. rewrite !length_app_str. cbn [String.length].
    enough (String.length (print_members (kx :: l)) <= String.length (indent_members d (kx :: l)))%nat by lia.
    revert kx IH; induction l as [|y l IHl]; intros [k x] [Hx Hl]%Forall_cons; specialize (Hx (S d)); cbn [snd] in Hx.
    + cbn [indent_members print_members]. rewrite !length_app_str. cbn [String.length]. lia.
    + specialize (IHl y Hl).
      change (print_members ((k, x) :: y :: l)) with (encode_str k +:+ ":" +:+ print_json x +:+ "," +:+ print_members (y :: l)).
      change (indent_members d ((k, x) :: y :: l))
        with (encode_str k +:+ ": " +:+ indent_json (S d) x +:+ "," +:+ line_at (S d) +:+ indent_members d (y :: l)).
      rewrite !length_app_str. cbn [String.length]. lia.
Qed.

(** Decoding the indented text, with white space after it, gives the value back,
    its strings coerced to UTF-8. *)
Lemma parse_json_indent j w : wf_json j -> blank w -> ends_value w ->
  parse_json (indent_json 0 j +:+ w) = Some (coerce_json j).
Proof.
  intros Hwf Hw He. unfold parse_json. pose proof (need_print j Hwf). pose proof (indent_longer j 0%nat).
  rewrite length_app_str. rewrite (parse_value_indent j Hwf 0%nat) by (done || lia).
  rewrite <- (app_nil_str w), skip_ws_blank by done. done.
Qed.

Lemma wf_node n : wf_json (JObj (node_members n)).
Proof.
  assert (HI : forall z, wf_json (JInt z)) by (intros; apply wf_Itoa).
  assert (HP : forall s, wf_json (JPtr s)) by (by intros [s|]).
  destruct n; cbn [node_members Frontend_members Backend_members wf_json];
    repeat (split; [first [apply HI | apply HP | exact I]|]); exact I.
Qed.

(** ** What the command asks and gets *)

Notation ctl_trace := (list (event CtlE)).

(** The text that is printed as a line. *)
Definition prints (text : string) : ctl_trace := [Ev (Fprintf (text +:+ newline)) tt].

(** The certificates: the answers, and the error if there is one. *)
Inductive loads (dc : DorisConfig) : ctl_trace -> option goerr -> Prop :=
| loads_nothing : dc_SSLCaPath dc = "" -> loads dc [] None
| loads_unread err : dc_SSLCaPath dc <> "" ->
    loads dc [Ev (ReadFile (dc_SSLCaPath dc)) (Er err)] (Some (errorsNew ("read root ca cert failed," +:+ err_msg err)))
| loads_unparsed pem : dc_SSLCaPath dc <> "" ->
    loads dc [Ev (ReadFile (dc_SSLCaPath dc)) (Ok pem); Ev (AppendCertsFromPEM pem) false]
      (Some (errorsNew "Failed to append ca cert or pem failed."))
| loads_no_pair pem err : dc_SSLCaPath dc <> "" ->
    loads dc [Ev (ReadFile (dc_SSLCaPath dc)) (Ok pem); Ev (AppendCertsFromPEM pem) true;
              Ev (LoadX509KeyPair (dc_SSLCrtPath dc) (dc_SSLKeyPath dc)) (Some err)]
      (Some (errorsNew ("load x509 key pair failed," +:+ err_msg err)))
| loads_tls pem err : dc_SSLCaPath dc <> "" ->
    loads dc [Ev (ReadFile (dc_SSLCaPath dc)) (Ok pem); Ev (AppendCertsFromPEM pem) true;
              Ev (LoadX509KeyPair (dc_SSLCrtPath dc) (dc_SSLKeyPath dc)) None; Ev (RegisterTLSConfig "doris") err]
      ((fun err => errorsNew ("register tls config failed," +:+ err_msg err)) <$> err).

(** The pool of connections. *)
Definition pool_name (dc : DorisConfig) : string :=
  data_source dc +:+ (if decide (dc_SSLCaPath dc = "") then "" else "?tls=doris").
Inductive connects (dc : DorisConfig) : ctl_trace -> res string -> Prop :=
| connects_unloaded tr err : loads dc tr (Some err) -> connects dc tr (Er err)
| connects_closed tr err : loads dc tr None -> connects dc (app tr [Ev (SqlOpen (pool_name dc)) (Some err)])
    (Er (errorsNew ("NewDorisSqlDB sqlx.Open failed open doris sql client connection, err: " +:+ err_msg err)))
| connects_open tr : loads dc tr None -> connects dc (app tr [Ev (SqlOpen (pool_name dc)) None]) (Ok (pool_name dc)).

(** The node of a host: the first frontend that Doris shows with it, else the
    first backend; each query after a ping of its own. *)
Definition fe_of (host : string) : list Types.Frontend -> option Types.Frontend :=
  List.find (fun f => bool_decide (Types.Host f = host)).
Definition be_of (host : string) : list Types.Backend -> option Types.Backend :=
  List.find (fun b => bool_decide (Types.b_Host b = host)).
Inductive shows (db host : string) : ctl_trace -> res (option node) -> Prop :=
| shows_no_ping err : shows db host [Ev (Ping db) (Some err)] (Er err)
| shows_no_frontends err :
    shows db host [Ev (Ping db) None; Ev (SelectFrontends db "show frontends") (Er err)] (Er err)
| shows_frontend fs f : fe_of host fs = Some f ->
    shows db host [Ev (Ping db) None; Ev (SelectFrontends db "show frontends") (Ok fs)] (Ok (Some (NodeFE f)))
| shows_no_second_ping fs err : fe_of host fs = None ->
    shows db host [Ev (Ping db) None; Ev (SelectFrontends db "show frontends") (Ok fs); Ev (Ping db) (Some err)] (Er err)
| shows_no_backends fs err : fe_of host fs = None ->
    shows db host [Ev (Ping db) None; Ev (SelectFrontends db "show frontends") (Ok fs); Ev (Ping db) None;
                   Ev (SelectBackends db "show backends") (Er err)] (Er err)
| shows_backend fs bs : fe_of host fs = None ->
    shows db host [Ev (Ping db) None; Ev (SelectFrontends db "show frontends") (Ok fs); Ev (Ping db) None;
                   Ev (SelectBackends db "show backends") (Ok bs)] (Ok (NodeBE <$> be_of host bs)).

(** What is printed of an answer. *)
Definition reports (answer : res (option node)) (tr : ctl_trace) : Prop :=
  match answer with
  | Er err => tr = prints (err_msg err)
  | Ok None => tr = []
  | Ok (Some n) => exists text, tr = prints text /\
      parse_json (text +:+ newline) = Some (coerce_json (JObj (node_members n)))
  end.

Section get.
Context `{Documents} `{Gjson}.

Lemma load_tls_loads dc : dc_SSLCaPath dc <> "" -> wp (load_tls dc) (fun tr o => exists err, o = Done err /\ loads dc tr err).
Proof.
  intros Hca. unfold load_tls. intros [pem|err]; [|eexists; split; [done | by constructor]].
  intros []; [|eexists; split; [done | by constructor]]. intros [err|]; [eexists; split; [done | by constructor]|].
  intros err. exists ((fun err => errorsNew ("register tls config failed," +:+ err_msg err)) <$> err).
  split; [by destruct err | by constructor].
Qed.

Lemma NewDorisClient_connects dc : wp (NewDorisClient dc) (fun tr o => exists r, o = Done r /\ connects dc tr r).
Proof.
  assert (Hpool : (if decide (dc_SSLCaPath dc <> "") then data_source dc +:+ "?tls=doris" else data_source dc) = pool_name dc).
  { unfold pool_name. destruct (decide (dc_SSLCaPath dc = "")) as [E|E];
      [rewrite decide_False by (by intros ?) | by rewrite decide_True]. by rewrite app_nil_str. }
  unfold NewDorisClient. cbv zeta. rewrite Hpool. apply wp_bind.
  apply (wp_mono _ (fun tr o => exists err, o = Done err /\ loads dc tr err)).
  - destruct (decide (dc_SSLCaPath dc <> "")) as [Hca|Hca]; [by apply load_tls_loads|].
    exists None. split; [done|]. apply loads_nothing. by destruct (decide (dc_SSLCaPath dc = "")).
  - intros tr o (err & -> & Hl). destruct err as [err|]; cbn.
    + exists (Er err). split; [done|]. rewrite app_nil_r. by constructor.
    + intros [err|]; eexists; (split; [reflexivity|]); by constructor.
Qed.

Lemma print_node_reports format n : Contains format "custom-columns" = false ->
  wp (print_node format n) (fun tr o => o = Done tt /\ reports (Ok (Some n)) tr).
Proof.
  intros Hf. unfold print_node, say. rewrite Hf. cbn [call wp]. intros []. split; [done|]. eexists. split; [reflexivity|].
  apply parse_json_indent; [apply wf_node | done | done].
Qed.

(** C40: `get node` prints what Doris shows of the node: whatever the files, the
    driver and Doris answer, call by call, and without an output format of
    columns, the command ends normally; it asks for connections, the frontends
    and, when none has the host, the backends, each query after a ping; it
    prints one line with the error when connecting, a ping or a query fails;
    one JSON text when a frontend, or else a backend, has the host, which decodes
    to every column of its first record (U+FFFD where a column is not UTF-8);
    and nothing when none has it. *)
Theorem node_record_printed (parent : string) (dc : DorisConfig) (format host : string)
    (Hformat : Contains format "custom-columns" = false) :
  wp (Run parent dc format ["node"; host]) (fun tr out => out = Done tt /\
    exists asked r, connects dc asked r /\
      match r with
      | Er err => tr = app asked (prints (err_msg err))
      | Ok db => exists queries answer said, shows db host queries answer /\ reports answer said /\
          tr = app asked (app queries said)
      end).
Proof.
  cbn [Run]. rewrite decide_True by done. unfold getNode. apply wp_bind. eapply wp_mono; [apply NewDorisClient_connects|].
  intros asked o (r & -> & Hr). destruct r as [db|err].
  2:{ intros []. split; [done|]. exists asked, (Er err). by split. }
  cut (wp (let! frontends := ShowFrontends db in
       match frontends with
       | Er err => say (err_msg err)
       | Ok frontends =>
           match fe_of host frontends with
           | Some f => print_node format (NodeFE f)
           | None =>
               let! backends := ShowBackends db in
               match backends with
               | Er err => say (err_msg err)
               | Ok backends => match be_of host backends with Some b => print_node format (NodeBE b) | None => Ret tt end
               end
           end
       end) (fun tr out => out = Done tt /\ exists queries answer said, shows db host queries answer /\ reports answer said /\
          tr = app queries said)).
  { intros Hw. eapply wp_mono; [exact Hw|]. intros tr out (-> & queries & answer & said & H1 & H2 & ->).
    split; [done|]. exists asked, (Ok db). split; [done|]. by exists queries, answer, said. }
  assert (Hsay : forall err pre, shows db host pre (Er err) ->
    Done tt = Done tt /\ exists queries answer said, shows db host queries answer /\ reports answer said /\
      app pre (prints (err_msg err)) = app queries said).
  { intros err pre Hs. split; [done|]. by exists pre, (Er err), (prints (err_msg err)). }
  assert (Hnode : forall n pre, shows db host pre (Ok (Some n)) ->
    wp (print_node format n) (fun tr out => out = Done tt /\ exists queries answer said, shows db host queries answer /\
      reports answer said /\ app pre tr = app queries said)).
  { intros n pre Hs. eapply wp_mono; [by apply print_node_reports|]. intros said out [-> Hsaid].
    split; [done|]. by exists pre, (Ok (Some n)), said. }
  unfold ShowFrontends, say. cbn [bind call wp]. intros [err|]; cbn [bind wp].
  { intros []. by apply (Hsay err [_]); constructor. }
  intros [fs|err]; cbn [bind wp].
  2:{ intros []. by apply (Hsay err [_; _]); constructor. }
  destruct (fe_of host fs) as [f|] eqn:Hfe; [by apply (Hnode (NodeFE f) [_; _]); constructor|].
  unfold ShowBackends. cbn [bind call wp]. intros [err|]; cbn [bind wp].
  { intros []. by apply (Hsay err [_; _; _]); constructor. }
  intros [bs|err]; cbn [bind wp].
  2:{ intros []. by apply (Hsay err [_; _; _; _]); constructor. }
  pose proof (shows_backend db host fs bs Hfe) as Hs. destruct (be_of host bs) as [b|].
  - by apply (Hnode (NodeBE b) [_; _; _; _]).
  - split; [done|]. by eexists _, (Ok None), [].
Qed.
End get.

(** Packages that leave the texts as they are. *)
Definition demo_documents : Documents := {| heredoc_Doc s := s; blackfriday_walk s := [(TextNode s, true)] |}.
Definition demo_gjson : Gjson := {| gjson_Get _ _ := ""; unmarshal_err _ := "" |}.
Lemma node_record_printed_witness :
  Contains "" "custom-columns" = false /\
  wp (@Run demo_documents demo_gjson "dorisctl" (mkDorisConfig "fe" 9030 "root" "" "" "" "") "" ["node"; "be-0"])
    (fun tr out => out = Done tt /\ exists asked r, connects (mkDorisConfig "fe" 9030 "root" "" "" "" "") asked r /\
      match r with
      | Er err => tr = app asked (prints (err_msg err))
      | Ok db => exists queries answer said, shows db "be-0" queries answer /\ reports answer said /\
          tr = app asked (app queries said)
      end).
Proof.
  split; [vm_compute; reflexivity|].
  exact (@node_record_printed demo_documents demo_gjson "dorisctl" (mkDorisConfig "fe" 9030 "root" "" "" "" "") "" "be-0"
    ltac:(vm_compute; reflexivity)).
Defined.
