(* ===== verification/Operator.v ===== *)
(** The process of the operator ([src/cmd/operator]): its flags and its
    environment, the controllers that it registers with their watches
    ([Init] and [SetupWithManager] of [src/pkg/controller] and of
    [unnamedwatches]), the wait for the certificate of the webhooks, and the
    debug server of a component's pod ([src/cmd/doris-debug]).
    controller-runtime, its flags and the pollers of apimachinery are
    third-party: calls, and the class [OtherFlags]. *)

From Stdlib Require Import ZArith Lia Ascii.
From stdpp Require Import base list gmap strings.
From S2P Require Import Prelude GoStr KubeTypes DdcApi DcrApi Client Resource External PodTemplate DdcPods Webhooks.
From S2P Require ComputeGroups CgLifecycle DisFe MetaService DdcReconciler DcrReconciler.

Local Open Scope string_scope.
Local Open Scope Z_scope.
Local Open Scope dop_scope.

(** ** Package flag of Go *)

Module Flags.
(** The flags of a set: whether a flag is boolean, and the change of the
    settings by a value, [None] when the flag does not accept it. *)
Record FlagSet (S : Type) := mkFlagSet {
  formal : string -> option bool;
  fs_Set : S -> string -> string -> option S
}.
Arguments mkFlagSet {S}. Arguments formal {S}. Arguments fs_Set {S}.

Inductive parsed (S : Type) := Parsed (settings : S) (rest : list string) | Help | BadFlag.
Arguments Parsed {S}. Arguments Help {S}. Arguments BadFlag {S}.

Fixpoint cut_equals (name : string) : string * option string :=
  match name with
  | "" => ("", None)
  | String c s =>
      if Ascii.eqb c "=" then ("", Some s)
      else let '(name, value) := cut_equals s in (String c name, value)
  end.

(** The name in an argument, with one or two dashes: [None] when it is not a
    flag, [Some ""] when it is malformed. *)
Definition flag_text (s : string) : option string :=
  match s with
  | String "-" (String "-" name) => Some name
  | String "-" (String _ _ as name) => Some name
  | _ => None
  end.

Fixpoint parse {S} (fs : FlagSet S) (settings : S) (args : list string) : parsed S :=
  match args with
  | [] => Parsed settings []
  | s :: args' =>
      if decide (s = "--") then Parsed settings args'
      else match flag_text s with
      | None => Parsed settings args
      | Some "" => BadFlag
      | Some (String c _ as text) =>
          if Ascii.eqb c "-" || Ascii.eqb c "=" then BadFlag
          else
            let '(name, value) := cut_equals text in
            match formal fs name, value with
            | None, _ => if decide (name = "help" \/ name = "h") then Help else BadFlag
            | Some true, _ =>
                match fs_Set fs settings name (default "true" value) with
                | Some settings => parse fs settings args'
                | None => BadFlag
                end
            | Some false, Some value =>
                match fs_Set fs settings name value with Some settings => parse fs settings args' | None => BadFlag end
            | Some false, None =>
                match args' with
                | [] => BadFlag
                | value :: args'' =>
                    match fs_Set fs settings name value with Some settings => parse fs settings args'' | None => BadFlag end
                end
            end
      end
  end.

(** [strconv.ParseBool]. *)
Definition ParseBool (s : string) : option bool :=
  if bool_decide (s ∈ ["1"; "t"; "T"; "TRUE"; "true"; "True"]) then Some true
  else if bool_decide (s ∈ ["0"; "f"; "F"; "FALSE"; "false"; "False"]) then Some false
  else None.
End Flags.

(** ** flag.go *)

Record Flag := mkFlag {
  MetricsAddr : string;
  ProbeAddr : string;
  FlagNamespace : string;
  EnableLeaderElection : bool;
  PrintVar : bool;
  FlagEnableWebhook : bool
}.
#[export] Instance Flag_etas : Etas Flag := fun f =>
  mkFlag (MetricsAddr f) (ProbeAddr f) (FlagNamespace f) (EnableLeaderElection f) (PrintVar f) (FlagEnableWebhook f).

(** The flags of zap and controller-runtime: whether one is boolean, and the
    values that it accepts. *)
Class OtherFlags := {
  other_flag : string -> option bool;
  other_accepts : string -> string -> bool
}.

Section flags.
Context `{OtherFlags}.

Definition operator_formal (name : string) : option bool :=
  if decide (name = "metrics-bind-address" \/ name = "health-probe-bind-address" \/ name = "namespace") then Some false
  else if decide (name = "leader-elect" \/ name = "version" \/ name = "enable-unnamedwatches") then Some true
  else other_flag name.
Definition operator_set (f : Flag) (name value : string) : option Flag :=
  if decide (name = "metrics-bind-address") then Some (f <| MetricsAddr := value |>)
  else if decide (name = "health-probe-bind-address") then Some (f <| ProbeAddr := value |>)
  else if decide (name = "namespace") then Some (f <| FlagNamespace := value |>)
  else if decide (name = "leader-elect") then b ← Flags.ParseBool value; Some (f <| EnableLeaderElection := b |>)
  else if decide (name = "version") then b ← Flags.ParseBool value; Some (f <| PrintVar := b |>)
  else if decide (name = "enable-unnamedwatches") then b ← Flags.ParseBool value; Some (f <| FlagEnableWebhook := b |>)
  else if other_accepts name value then Some f else None.
Definition default_flag : Flag := mkFlag ":8080" ":8081" "" false false true.

Definition ParseFlags (args : list string) : Flags.parsed Flag :=
  Flags.parse (Flags.mkFlagSet operator_formal operator_set) default_flag args.
End flags.

(** ** Registration of the controllers *)

(** What a controller watches: its own objects, the objects that they own, and
    pods and config maps with the requests and the predicates of their events;
    the requests of config maps depend on those that the reconciler watches. *)
Record PodWatch := mkPodWatch {
  pod_requests : ObjectMeta -> list (string * string);
  pod_accepts : DdcReconciler.pod_event -> bool
}.
Record ConfigMapWatch := mkConfigMapWatch {
  cm_requests : strmap -> ObjectMeta -> list (string * string);
  cm_accepts : strmap -> ObjectMeta -> bool
}.
Record Builder := mkBuilder {
  b_For : string;
  b_Owns : list string;
  b_Pods : option PodWatch;
  b_ConfigMaps : option ConfigMapWatch
}.
#[export] Instance Builder_etas : Etas Builder := fun b => mkBuilder (b_For b) (b_Owns b) (b_Pods b) (b_ConfigMaps b).

Definition NewControllerManagedBy : Builder := mkBuilder "" [] None None.

Definition dcr_resourceBuilder (b : Builder) : Builder :=
  b <| b_For := "DorisCluster" |> <| b_Owns := ["StatefulSet"; "Service"] |>.
Definition dcr_watchPodBuilder (b : Builder) : Builder :=
  b <| b_Pods := Some (mkPodWatch DcrReconciler.map_pod DcrReconciler.dcr_pod_predicate) |>.
Definition watchConfigMapBuilder (b : Builder) : Builder :=
  b <| b_ConfigMaps := Some (mkConfigMapWatch DcrReconciler.map_config_map DcrReconciler.config_map_predicate) |>.
Definition dcr_SetupWithManager : Builder :=
  watchConfigMapBuilder (dcr_watchPodBuilder (dcr_resourceBuilder NewControllerManagedBy)).

Definition ddc_resourceBuilder (b : Builder) : Builder :=
  b <| b_For := "DorisDisaggregatedCluster" |> <| b_Owns := ["StatefulSet"; "Service"] |>.
Definition ddc_watchPodBuilder (b : Builder) : Builder :=
  b <| b_Pods := Some (mkPodWatch DdcReconciler.map_pod DdcReconciler.pod_predicate) |>.
Definition ddc_SetupWithManager : Builder := ddc_watchPodBuilder (ddc_resourceBuilder NewControllerManagedBy).

(** The sub-controllers of a disaggregated cluster, with the builders of their
    pods; the operator gives the groups a REST configuration. *)
Definition ddc_Scs `{External} : list DdcReconciler.SubController :=
  [DdcReconciler.mkSubController (MetaService.Sync ms_NewPodTemplateSpec)
     (fun ddc => let! '(_, err) := MetaService.ClearResources ddc in Ret (ddc, err)) MetaService.UpdateComponentStatus;
   DdcReconciler.mkSubController (DisFe.Sync fe_NewPodTemplateSpec)
     (fun ddc => let! '(_, err) := DisFe.ClearResources ddc in Ret (ddc, err)) DisFe.UpdateComponentStatus;
   DdcReconciler.mkSubController (ComputeGroups.Sync cg_NewPodTemplateSpec true)
     (fun ddc => let! '(ddc, _, err) := CgLifecycle.ClearResources ddc in Ret (ddc, err)) CgLifecycle.UpdateComponentStatus].

(** ** Calls *)

Record ManagerOptions := mkManagerOptions {
  mgr_MetricsAddr : string;
  mgr_ProbeAddr : string;
  mgr_DefaultNamespaces : list string;
  mgr_LeaderElection : bool;
  mgr_LeaderElectionID : string;
  mgr_RecoverPanic : bool
}.
Inductive stat := Found | NotExist | StatFailed (err : goerr).

Section operator.
Context `{Crypto} `{OtherFlags}.

(** [CertCall] performs a call of the webhooks' certificate. *)
Inductive ProcE : Type -> Type :=
| Stdout (text : string) : ProcE unit
| NewManager (o : ManagerOptions) : ProcE (option goerr)
| Complete (b : Builder) : ProcE (option goerr)
| SetupWebhook (kind : string) : ProcE (option goerr)
| NewForConfig : ProcE (option goerr)
| NewController (name : string) : ProcE (option goerr)
| Watch (name : string) : ProcE (option goerr)
| AddHealthzCheck (name : string) : ProcE (option goerr)
| AddReadyzCheck (name : string) : ProcE (option goerr)
| Stat (path : string) : ProcE stat
| MgrStart : ProcE (option goerr)
| CertCall {X : Type} (e : CertE X) : ProcE X.

(** The poller of apimachinery's package wait: the interval, the timeout, whether
    the first look is at once, and the condition. *)
Class Poller := {
  PollUntilContextTimeout : Z -> Z -> bool -> prog ProcE (res bool) -> prog ProcE (option goerr)
}.

(** A process exits with a code, or goes on with a value. *)
Inductive exit (A : Type) := Exit (code : Z) | Go (a : A).
Arguments Exit {A}. Arguments Go {A}.
Abbreviation proc A := (prog ProcE (exit A)).

Definition go {A B} (p : proc A) (f : A -> proc B) : proc B :=
  let! r := p in match r with Exit code => Ret (Exit code) | Go a => f a end.

(** A call whose error ends the process. *)
Definition must (e : ProcE (option goerr)) : proc unit :=
  let! err := call e in Ret (match err with Some _ => Exit 1 | None => Go tt end).

Fixpoint lift {A} (p : prog CertE A) : prog ProcE A :=
  match p with
  | Ret a => Ret a
  | Panic why => Panic why
  | Call e k => Call (CertCall e) (fun x => lift (k x))
  end.

(** ** Init of the controllers *)

Definition dcr_Init (o : Options) : proc unit :=
  go (must (Complete dcr_SetupWithManager)) (fun _ =>
  if op_EnableWebHook o then must (SetupWebhook "DorisCluster") else Ret (Go tt)).

Definition ddc_Init (o : Options) : proc unit :=
  go (must (Complete ddc_SetupWithManager)) (fun _ =>
  if op_EnableWebHook o then must (SetupWebhook "DorisDisaggregatedCluster") else Ret (Go tt)).

Fixpoint watch_all (watches : list watch) : proc unit :=
  match watches with
  | [] => Ret (Go tt)
  | w :: watches => go (must (Watch (w_GetName w))) (fun _ => watch_all watches)
  end.

(** The errors of the first pass and of the new controller are only logged;
    without a controller the first watch is a nil pointer. *)
Definition wr_Init (o : Options) : proc unit :=
  if negb (op_EnableWebHook o) then Ret (Go tt)
  else
    go (must NewForConfig) (fun _ =>
    let watches := init_watches o in
    lift (ReconcileResource watches) ;;;
    let! err := call (NewController (op_Name o)) in
    match err with
    | Some _ => Panic "nil pointer dereference"
    | None => watch_all watches
    end).

(** ** main.go *)

Inductive Controller := DorisClusterReconciler | WResource | DisaggregatedClusterReconciler.
Definition Init (o : Options) (c : Controller) : proc unit :=
  match c with
  | DorisClusterReconciler => dcr_Init o
  | WResource => wr_Init o
  | DisaggregatedClusterReconciler => ddc_Init o
  end.

(** The controllers that [init] registers. *)
Definition Controllers (Getenv : string -> string) : list Controller :=
  app [DorisClusterReconciler; WResource]
    (if decide (Getenv "START_DISAGGREGATED_OPERATOR" = "true") then [DisaggregatedClusterReconciler] else []).

Fixpoint init_all (o : Options) (cs : list Controller) : proc unit :=
  match cs with
  | [] => Ret (Go tt)
  | c :: cs => go (Init o c) (fun _ => init_all o cs)
  end.

(** [printVar] is a variable of the package that nothing sets. *)
Definition printVar : bool := false.
Definition Print (version goversion commit build_date : string) : proc unit :=
  if printVar then
    call (Stdout ("version=" +:+ version +:+ String "010" ("commit=" +:+ commit +:+ String "010" ("build_date=" +:+ build_date +:+ String "010" "")))) ;;;
    Ret (Go tt)
  else Ret (Go tt).
Definition printVersionInfos (version goversion commit build_date : string) (print : bool) : proc unit :=
  if print then go (Print version goversion commit build_date) (fun _ => Ret (Exit 0)) else Ret (Go tt).

(** [filepath.Join] of a directory and a name, cleaned. *)
Fixpoint clean_parts (rooted : bool) (parts stack : list string) : list string :=
  match parts with
  | [] => rev stack
  | part :: parts =>
      if decide (part = "" \/ part = ".") then clean_parts rooted parts stack
      else if decide (part = "..") then
        match stack with
        | top :: stack' => if decide (top = "..") then clean_parts rooted parts (part :: stack)
                           else clean_parts rooted parts stack'
        | [] => clean_parts rooted parts (if rooted then [] else [part])
        end
      else clean_parts rooted parts (part :: stack)
  end.
Definition Clean (path : string) : string :=
  let rooted := HasPrefix path "/" in
  let body := Join (clean_parts rooted (Split path "/") []) "/" in
  if rooted then "/" +:+ body else if decide (body = "") then "." else body.
Definition path_Join (dir name : string) : string :=
  match List.filter (fun s => bool_decide (s <> "")) [dir; name] with
  | [] => ""
  | parts => Clean (Join parts "/")
  end.

(** The file of the certificate is there. *)
Definition certificate_present (certDir : string) : prog ProcE (res bool) :=
  let! s := call (Stat (path_Join certDir TLsCertName)) in
  Ret (match s with Found => Ok true | NotExist => Ok false | StatFailed err => Er err end).

Section process.
Context `{Poller}.

(** One second, for thirty seconds, in nanoseconds. *)
Definition interval : Z := 1000000000 * 1.
Definition timeout : Z := 1000000000 * 30.
Definition wait_certificate (certDir : string) : proc unit :=
  let! err := PollUntilContextTimeout interval timeout true (certificate_present certDir) in
  Ret (match err with Some _ => Exit 1 | None => Go tt end).

Definition manager_options (f : Flag) : ManagerOptions :=
  mkManagerOptions (MetricsAddr f) (ProbeAddr f)
    (if decide (FlagNamespace f <> "") then [FlagNamespace f] else [])
    (EnableLeaderElection f) "e1370669.selectdb.com" true.

(** The exit code; a failed parse of the flags exits with 2, their help with 0.
    [certDir] is the directory of certificates of the webhook server. *)
Definition main (version goversion commit build_date certDir : string) (Getenv : string -> string) (args : list string)
    : prog ProcE Z :=
  match ParseFlags args with
  | Flags.BadFlag => Ret 2
  | Flags.Help => Ret 0
  | Flags.Parsed f _ =>
      let options := NewControllerOptions (ParseEnvs Getenv) in
      let! r :=
        go (printVersionInfos version goversion commit build_date (PrintVar f)) (fun _ =>
        go (must (NewManager (manager_options f))) (fun _ =>
        go (init_all options (Controllers Getenv)) (fun _ =>
        go (must (AddHealthzCheck "healthz")) (fun _ =>
        go (must (AddReadyzCheck "readyz")) (fun _ =>
        go (if op_EnableWebHook options then wait_certificate certDir else Ret (Go tt)) (fun _ =>
        must MgrStart)))))) in
      Ret (match r with Exit code => code | Go _ => 0 end)
  end.
End process.
End operator.

(** ** The debug server *)

Module Debug.
(** The calls of the process; [viper_GetString] reads a key of a properties
    file, of nothing when the file could not be read. *)
Inductive DebugE : Type -> Type :=
| LookupEnv (key : string) : DebugE string
| StatFile (path : string) : DebugE stat
| ReadFile (path : string) : DebugE (option string)
| Println (text : string) : DebugE unit
| ListenAndServe (address : string) : DebugE goerr.

Class Viper := { viper_GetString : option string -> string -> string }.

Section debug.
Context `{Viper}.

Definition AnnotationDebugKey : string := "selectdb.com.doris/runmode".
Definition AnnotationDebugDorisKey : string := "apache.org.doris/runmode".
Definition AnnotationDebugValue : string := "debug".

Definition envParse : prog DebugE string :=
  let! dorisRootPath := call (LookupEnv "DORIS_ROOT") in
  Ret (if decide (dorisRootPath = "") then "/opt/apache-doris" else dorisRootPath).

(** The annotations of the pod ask for debugging: a quoted value, as the
    downward API writes it, under one of the two keys. *)
Definition debug_value (annotations : option string) : bool :=
  bool_decide (viper_GetString annotations AnnotationDebugKey = dquote +:+ AnnotationDebugValue +:+ dquote) ||
  bool_decide (viper_GetString annotations AnnotationDebugDorisKey = dquote +:+ AnnotationDebugValue +:+ dquote).

Definition kickOffDebug : prog DebugE bool :=
  let annotationFileName := POD_INFO_PATH +:+ "/annotations" in
  let! s := call (StatFile annotationFileName) in
  match s with
  | NotExist => call (Println (annotationFileName +:+ "is not exists.")) ;;; Ret false
  | _ =>
      let! annotations := call (ReadFile annotationFileName) in
      (if annotations is Some _ then Ret tt else call (Println (annotationFileName +:+ "can't open"))) ;;;
      call (Println ("the annotations value:" +:+ viper_GetString annotations AnnotationDebugKey)) ;;;
      if debug_value annotations then Ret true
      else call (Println "No debug flag matched") ;;; Ret false
  end.

(** The configuration file of a component and the name of its port. *)
Definition debug_config (dorisRootPath componentType : string) : option (string * string) :=
  if decide (componentType = "fe") then Some (dorisRootPath +:+ "/fe/conf/fe.conf", QUERY_PORT)
  else if decide (componentType = "be") then Some (dorisRootPath +:+ "/be/conf/be.conf", HEARTBEAT_SERVICE_PORT)
  else if decide (componentType = "ms") then Some (dorisRootPath +:+ "/ms/conf/doris_cloud.conf", BRPC_LISTEN_PORT)
  else None.

Definition readConfigListenPort (dorisRootPath componentType : string) : prog DebugE (exit string) :=
  match debug_config dorisRootPath componentType with
  | None => call (Println ("the componentType is not supported:" +:+ componentType)) ;;; Ret (Exit string 1)
  | Some (configFileName, listenPortName) =>
      let! s := call (StatFile configFileName) in
      match s with
      | Found =>
          let! file := call (ReadFile configFileName) in
          let configured := viper_GetString file listenPortName in
          let listenPort := if decide (configured = "") then Itoa (GetDefaultPort listenPortName) else configured in
          call (Println ("component listen port " +:+ listenPort)) ;;; Ret (Go string listenPort)
      | _ => call (Println "the config file is not exist, stat error") ;;; Ret (Exit string 1)
      end
  end.

(** The exit code; [componentType] is the flag [component], [fe] by default. *)
Definition debug_main (componentType : string) : prog DebugE Z :=
  let! dorisRootPath := envParse in
  let! debug := kickOffDebug in
  if negb debug then Ret 0
  else
    call (Println ("start component " +:+ componentType +:+ " for debugging.....")) ;;;
    let! port := readConfigListenPort dorisRootPath componentType in
    match port with
    | Exit _ code => Ret code
    | Go _ listenPort =>
        let! err := call (ListenAndServe (":" +:+ listenPort)) in
        call (Println ("listenAndServe failed," +:+ err_msg err)) ;;; Ret 1
    end.
End debug.
End Debug.
