(* ===== verification/OperatorProps.v ===== *)
(** The process of the operator starts its manager only when every controller
    is registered and, with webhooks, the certificate is there; and the flags
    that a process is started with are the flags that it reads. *)

From Stdlib Require Import ZArith Lia Ascii.
From stdpp Require Import base list gmap strings.
From S2P Require Import Prelude GoStr KubeTypes Client Traces Webhooks WebhookProps Operator.
From S2P Require DdcReconciler DcrReconciler.

Local Open Scope string_scope.
Local Open Scope Z_scope.
Local Open Scope dop_scope.

(** ** Starting *)

Section start.
Context `{CR : Crypto} `{OF : OtherFlags} `{PO : !Poller}.












Lemma elem_of_both {A} (x : A) l l' : x ∈ l \/ x ∈ l' -> x ∈ app l l'.
Proof. apply elem_of_app. Qed.
#[local] Hint Resolve elem_of_both : dop.






(** ** The end of a process *)












End start.

(** ** Flags *)

(** A name that the parser reads up to its equals sign. *)
Definition plain_name (name : string) : Prop :=
  has_char "=" name = false /\ match name with String c _ => Ascii.eqb c "-" = false | "" => False end.
Definition render_flag (nv : string * string) : string := "--" +:+ nv.1 +:+ "=" +:+ nv.2.

Lemma cut_equals_render name value : has_char "=" name = false ->
  Flags.cut_equals (name +:+ "=" +:+ value) = (name, Some value).
Proof.
  induction name as [|c name IH]; [done|]. cbn [has_char]. destruct (ascii_dec "=" c) as [|Hc]; [done|]. intros Hn.
  change (String c name +:+ ?t) with (String c (name +:+ t)). cbn [Flags.cut_equals].
  rewrite (IH Hn). by destruct (Ascii.eqb_spec c "=") as [->|].
Qed.

(** Rendered flags are set in their order. *)
Lemma parse_rendered {S} (fs : Flags.FlagSet S) nvs : forall (s : S) (s' : S),
  Forall (fun nv => plain_name nv.1 /\ is_Some (Flags.formal fs nv.1)) nvs ->
  foldl (fun o nv => s ← o; Flags.fs_Set fs s nv.1 nv.2) (Some s) nvs = Some s' ->
  Flags.parse fs s (map render_flag nvs) = Flags.Parsed s' [].
Proof.
  induction nvs as [|[name value] nvs IH]; intros s s' Hn Hs; cbn [map foldl] in *; [by injection Hs as ->|].
  apply Forall_cons in Hn as [[[Heq Hname] [b Hb]] Hn]. cbn [fst snd mbind option_bind] in *.
  destruct (Flags.fs_Set fs s name value) as [s1|] eqn:Hset.
  2: { exfalso. clear -Hs. induction nvs; [done | by apply IHnvs]. }
  cbn [Flags.parse]. destruct name as [|c name]; [done|]. rewrite decide_False by done.
  unfold render_flag. cbn [fst snd].
  change (Flags.flag_text ("--" +:+ String c name +:+ "=" +:+ value)) with (Some (String c name +:+ "=" +:+ value)).
  cbn [String.append]. rewrite Hname. pose proof Heq as Hc. cbn [has_char] in Hc. destruct (ascii_dec "=" c) as [|Hne]; [done|].
  replace (Ascii.eqb c "=") with false by (symmetry; apply Ascii.eqb_neq; congruence).
  cbn [orb]. pose proof (cut_equals_render (String c name) value Heq) as Hcut. cbn [String.append] in Hcut. rewrite Hcut.
  rewrite Hb. destruct b; cbn [default from_option id]; rewrite Hset; by apply IH.
Qed.

Section flags.
Context `{OtherFlags}.

Definition render (f : Flag) : list string :=
  map render_flag [("metrics-bind-address", MetricsAddr f); ("health-probe-bind-address", ProbeAddr f);
    ("namespace", FlagNamespace f); ("leader-elect", fmt_bool (EnableLeaderElection f));
    ("version", fmt_bool (PrintVar f)); ("enable-unnamedwatches", fmt_bool (FlagEnableWebhook f))].

(** The flags of the operator are read back from the arguments that give them,
    whatever the texts. *)
Theorem flags_read_back (f : Flag) : ParseFlags (render f) = Flags.Parsed f [].
Proof.
  apply parse_rendered.
  - repeat (constructor; [split; [by split | by eexists]|]). constructor.
  - destruct f as [m p n [] [] []]; reflexivity.
Qed.
End flags.



