(* ===== verification/Namespace.v ===== *)
(** The namespace of a pass: [within n R p] says that every call of the API
    server that [p] makes concerns the namespace [n] (but for config maps that
    are read), and that every value that
    it returns satisfies [R], as long as the API server answers with objects of
    the namespace that it is asked for.  Here are the rules of [within] and the
    steps that the controllers share. *)

From Stdlib Require Import ZArith Lia.
From stdpp Require Import base list gmap strings.
From S2P Require Import Prelude GoStr KubeTypes DdcApi DcrApi Client Traces Mysql Resource External SubDefault.
From S2P Require Import PrepareModify Observers.
From S2P Require DisFe.

Local Open Scope string_scope.
Local Open Scope Z_scope.
Local Open Scope dop_scope.

(** ** Calls and answers *)

(** The metadata of an object; those of endpoints and config maps are not read. *)
Definition meta_of (k : kind) : obj k -> option ObjectMeta :=
  match k return obj k -> option ObjectMeta with
  | KPod => fun o => Some (p_Meta o)
  | KSts => fun o => Some (st_Meta o)
  | KSvc => fun o => Some (svc_Meta o)
  | KPvc => fun o => Some (pvc_Meta o)
  | KEndpoints | KConfigMap => fun _ => None
  | KSecret => fun o => Some (sec_Meta o)
  | KDdc => fun o => Some (ddc_Meta o)
  | KDcr => fun o => Some (dcr_Meta o)
  | KHpaV1 | KHpaV2 => fun o => Some (hpa_Meta o)
  end.
Definition lives (n : string) (k : kind) (o : obj k) : Prop :=
  match meta_of k o with Some m => m_Namespace m = n | None => True end.

(** A call of the API server, or into a container, concerns the namespace; a
    config map may be read in any. *)
Definition call_within (n : string) {X} (e : OpE X) : Prop :=
  match e with
  | CGet k ns _ => match k with KConfigMap => True | _ => ns = n end
  | CList _ ns _ | CPatchRaw _ ns _ _ | NewSPDYExecutor ns _ _ _ | StreamExec ns _ _ _ _ => ns = n
  | CCreate k o | CUpdate k o | CPatchMerge k o | CDelete k o => lives n k o
  | CUpdateDdc d | CStatusUpdate d => ddc_Namespace d = n
  | DcrPatch d | DcrStatusUpdate d => dcr_Namespace d = n
  | _ => True
  end.
Definition event_within (n : string) (e : event OpE) : Prop := let (_, e, _) := e in call_within n e.

(** The API server answers with objects of the namespace. *)
Definition answer_within (n : string) {X} (e : OpE X) : X -> Prop :=
  match e in OpE X return X -> Prop with
  | CGet k _ _ => fun r => match r with Ok o => lives n k o | Er _ => True end
  | CList k _ _ => fun r => match r with Ok l => Forall (lives n k) l | Er _ => True end
  | CUpdateDdc _ | CStatusUpdate _ => fun r => match r with Ok d => ddc_Namespace d = n | Er _ => True end
  | DcrPatch _ => fun r => match r with Ok d => dcr_Namespace d = n | Er _ => True end
  | _ => fun _ => True
  end.
Definition answered (n : string) (e : event OpE) : Prop := let (_, e, x) := e in answer_within n e x.

(** The answers of the API server are about the namespace that a call asks for;
    a list call without a namespace lists those of all. *)
Definition lawful (e : event OpE) : Prop := forall n, n <> "" -> event_within n e -> answered n e.

(** Whether the answer of a call is in the namespace asked for: this makes an event lawful. *)
Definition in_namespace (n : string) (k : kind) (o : obj k) : bool :=
  match meta_of k o with Some m => bool_decide (m_Namespace m = n) | None => true end.
Definition answers_asked (e : event OpE) : bool :=
  let (X, e, x) := e in
  match e in OpE X return X -> bool with
  | CGet k ns _ => fun r => match r with Ok o => in_namespace ns k o | Er _ => true end
  | CList k ns _ => fun r => match r with Ok l => forallb (in_namespace ns k) l | Er _ => true end
  | CUpdateDdc d | CStatusUpdate d =>
      fun r => match r with Ok d' => bool_decide (ddc_Namespace d' = ddc_Namespace d) | Er _ => true end
  | DcrPatch d => fun r => match r with Ok d' => bool_decide (dcr_Namespace d' = dcr_Namespace d) | Er _ => true end
  | _ => fun _ => true
  end x.

Lemma in_namespace_lives n k o : in_namespace n k o = true -> lives n k o.
Proof. unfold in_namespace, lives. destruct (meta_of k o); [apply bool_decide_eq_true | done]. Qed.

Lemma answers_asked_lawful e : answers_asked e = true -> lawful e.
Proof.
  intros Ha n _ He. destruct e as [X e x]. destruct e; cbn in *; try exact I; destruct x as [r|err]; try exact I.
  - apply in_namespace_lives in Ha. destruct k; cbn in *; congruence || exact I.
  - subst ns. rewrite List.forallb_forall in Ha. apply Forall_forall. intros o Ho%list_elem_of_In.
    by apply in_namespace_lives, Ha.
  - apply bool_decide_eq_true in Ha. congruence.
  - apply bool_decide_eq_true in Ha. congruence.
  - apply bool_decide_eq_true in Ha. congruence.
Qed.

(** A trace whose answers are checked is lawful. *)
Lemma answers_lawful tr : forallb answers_asked tr = true -> Forall lawful tr.
Proof.
  rewrite List.forallb_forall. intros Ha. apply Forall_forall. intros e He%list_elem_of_In. by apply answers_asked_lawful, Ha.
Qed.

(** ** Programs within a namespace *)

Section within.
Context (n : string).

Fixpoint within {A} (R : A -> Prop) (p : op A) : Prop :=
  match p with
  | Ret a => R a
  | Panic _ => True
  | Call e k => call_within n e /\ forall x, answer_within n e x -> within R (k x)
  end.

(** Every execution with lawful answers stays in the namespace. *)
Lemma within_exec {A} (R : A -> Prop) (p : op A) tr o : n <> "" ->
  within R p -> exec p tr o -> Forall lawful tr -> Forall (event_within n) tr /\ returns R o.
Proof.
  intros Hn Hp Hex. induction Hex as [a|why|X e k x tr o Hex IH]; cbn [within] in Hp; [by split..|].
  destruct Hp as [He Hk]. intros [Hx Htr]%Forall_cons.
  destruct (IH (Hk x (Hx n Hn He)) Htr) as [HF HR]. split; [by constructor | done].
Qed.

Lemma within_bind {A B} (R1 : A -> Prop) (R : B -> Prop) (p : op A) (f : A -> op B) :
  within R1 p -> (forall a, R1 a -> within R (f a)) -> within R (bind p f).
Proof.
  intros Hp Hf. induction p as [a|why|X e k IH]; cbn [within bind] in *; [by apply Hf | done|].
  destruct Hp as [He Hk]. split; [done|]. intros x Hx. by apply IH, Hk.
Qed.

Lemma within_mono {A} (R R' : A -> Prop) (p : op A) : within R p -> (forall a, R a -> R' a) -> within R' p.
Proof.
  intros Hp HR. induction p as [a|why|X e k IH]; cbn [within] in *; [by apply HR | done|].
  destruct Hp as [He Hk]. split; [done|]. intros x Hx. by apply IH, Hk.
Qed.

Lemma within_ret {A} (R : A -> Prop) a : R a -> within R (Ret a).
Proof. done. Qed.

Lemma within_call {A X} (R : A -> Prop) (e : OpE X) (k : X -> op A) :
  call_within n e -> (forall x, answer_within n e x -> within R (k x)) -> within R (Call e k).
Proof. by split. Qed.

Lemma within_foldM {A B} (R : A -> Prop) (f : A -> B -> op A) l a :
  (forall a b, R a -> b ∈ l -> within R (f a b)) -> R a -> within R (foldM f a l).
Proof.
  revert a; induction l as [|b l IH]; intros a Hf Ha; cbn; [done|].
  eapply within_bind; [apply Hf; [done | left]|]. intros a' Ha'. apply IH; [|done]. intros; apply Hf; [done | by right].
Qed.
End within.
Arguments within : simpl never.
Abbreviation inside n p := (within n (fun _ => True) p).

(** [same_ns] settles that a record update keeps the namespace. *)
Ltac same_ns := solve [ exact I | reflexivity | assumption | symmetry; assumption | congruence | etransitivity; [|eassumption]; reflexivity ].
Create HintDb ns discriminated.
#[export] Hint Constants Opaque : ns.
#[export] Hint Variables Opaque : ns.
#[export] Hint Transparent step_error obj : ns.
#[export] Hint Extern 1 (call_within _ _) => progress cbn [call_within] : ns.

(** [ns_step] takes one step through a program, as [spec_step] does. *)
Ltac ns_step :=
  lazymatch goal with
  | |- within _ _ (Ret _) => apply within_ret
  | |- within _ _ (Panic _) => exact I
  | |- within _ _ (call _) => apply within_call; [cbn [call_within] | cbn [answer_within]; intros ? ?]
  | |- within _ _ (Call _ _) => apply within_call; [cbn [call_within] | cbn [answer_within]; intros ? ?]
  | |- within _ _ (bind (call _) _) => apply within_call; [cbn [call_within] | cbn [answer_within bind]; intros ? ?]
  | |- within _ _ (bind (GetPods _ _) _) => unfold GetPods
  | |- within _ _ (DisFe.or_fail ?r _ _) => destruct r as [[? ?]|]; cbn [DisFe.or_fail]
  | |- within _ _ (deref ?o _) => destruct o; cbn [deref]
  | |- within _ _ (assert_ok ?o _) => destruct o; cbn [assert_ok]
  | |- within _ _ (bind _ _) =>
      first [ eapply within_bind; [solve [eauto 4 with ns] | intros ? ?]
            | apply (within_bind _ (fun _ => True)); [ | intros ? _] ]
  | |- within _ _ (match ?x with _ => _ end) => first [ is_var x; destruct x | destruct x eqn:? ]
  | |- within _ _ _ => cbv beta zeta
  end.
Ltac ns_go :=
  repeat first [ progress cbv beta zeta | same_ns | match goal with H : _ /\ _ |- _ => destruct H end | solve [eauto 4 with ns] | progress ns_step ].

(** A program without calls of the API server. *)
Lemma inside_mono n {A} (R : A -> Prop) (p : op A) : within n R p -> inside n p.
Proof. intros Hp. by eapply within_mono. Qed.

(** ** client.go *)

Section shared.
Context (n : string).

Lemma emit_within ev : inside n (emit ev).
Proof. unfold emit. ns_go. Qed.

Lemma DeleteService_within name : inside n (DeleteService n name).
Proof. unfold DeleteService. ns_go. Qed.
Lemma DeleteStatefulset_within name : inside n (DeleteStatefulset n name).
Proof. unfold DeleteStatefulset. ns_go. Qed.
Lemma DeletePVC_within name labels : inside n (DeletePVC n name labels).
Proof. unfold DeletePVC. ns_go. Qed.
Lemma ExecInPod_within pod c cmd t : inside n (ExecInPod n pod c cmd t).
Proof. unfold ExecInPod. ns_go. Qed.

Lemma ApplyService_within svc equal : svc_Namespace svc = n ->
  (forall s e, svc_Namespace (equal s e).1 = svc_Namespace s) -> inside n (ApplyService svc equal).
Proof.
  intros Hs He. unfold ApplyService, CreateClientObject, PatchClientObject.
  assert (Hc : forall esvc, inside n (let '(svc, eq) := equal (svc <| svc_ClusterIPs := [] |>) esvc in
      if eq : bool then Ret None else call (CPatchMerge KSvc (set_svc_ResourceVersion (m_ResourceVersion (svc_Meta esvc)) svc)))).
  { intros esvc. specialize (He (svc <| svc_ClusterIPs := [] |>) esvc).
    destruct (equal _ esvc) as [svc' []]; cbn [fst] in He; ns_go. change (svc_Namespace svc' = n). rewrite He. exact Hs. }
  ns_go.
Qed.

Lemma apply_stateful_set_within {C} (RC : C -> Prop) st (c : C) equal pasfs : st_Namespace st = n -> RC c ->
  (forall s e c, RC c -> st_Namespace s = n ->
     within n (fun r => st_Namespace r.1.1 = n /\ RC r.1.2) (equal s e c)) ->
  Forall (fun f => forall s o, st_Namespace (f s o) = st_Namespace s) pasfs ->
  within n (fun r => RC r.1) (apply_stateful_set st c equal pasfs).
Proof.
  intros Hst Hc He Hp. unfold apply_stateful_set, CreateClientObject, PatchClientObject.
  assert (Hf : forall s, st_Namespace s = n -> st_Namespace (foldl (fun st (f : StatefulSet -> option StatefulSet -> StatefulSet) => f st None) s pasfs) = n).
  { clear -Hp. induction Hp as [|f pasfs Hf _ IH]; intros s Hs; cbn [foldl]; [done|]. apply IH. by rewrite Hf. }
  apply within_call; [exact Hst|]. intros [est|err] _; cbn [bind].
  2: destruct (IsNotFound err); [|exact Hc].
  all: eapply within_bind; [by apply He|]; intros [[st' c'] ev] [H1 H2]; cbn [fst snd] in *; specialize (Hf _ H1).
  - destruct ev; [exact H2|]. apply within_call; [exact Hf|]. intros [e|] _; cbn [bind]; [by destruct (IsConflict e) | exact H2].
  - apply within_call; [exact Hf|]. intros x _. exact H2.
Qed.
End shared.
#[export] Hint Resolve emit_within DeleteService_within DeleteStatefulset_within DeletePVC_within ExecInPod_within : ns.
#[export] Hint Extern 0 (_ = _) => same_ns : ns.
#[export] Hint Extern 0 True => exact I : ns.

(** ** Doris and the shared steps *)

Section steps.
Context `{External} (n : string).

Lemma with_close_within {A} (R : A -> Prop) db (body : op A) : within n R body -> within n R (with_close db body).
Proof.
  induction body as [a|why|X e k IH]; cbn; [by intros ? | by intros ? |]. intros [He Hk].
  split; [exact He|]. intros x Hx. by apply IH, Hk.
Qed.

Lemma open_and_ping_within dsn : inside n (open_and_ping dsn).
Proof. unfold open_and_ping. ns_go. Qed.
#[local] Hint Resolve open_and_ping_within : ns.
Lemma NewDorisSqlDB_within cfg tls sec : inside n (NewDorisSqlDB cfg tls sec).
Proof. unfold NewDorisSqlDB. ns_go. Qed.
#[local] Hint Resolve NewDorisSqlDB_within : ns.
Lemma GetFollowers_within db : inside n (GetFollowers db).
Proof. unfold GetFollowers, ShowFrontends. ns_go. Qed.
Lemma GetObservers_within db : inside n (GetObservers db).
Proof. unfold GetObservers, ShowFrontends. ns_go. Qed.
#[local] Hint Resolve GetFollowers_within : ns.
Lemma NewDorisMasterSqlDB_within cfg tls sec : inside n (NewDorisMasterSqlDB cfg tls sec).
Proof. unfold NewDorisMasterSqlDB, Close. ns_go. Qed.
#[local] Hint Resolve NewDorisMasterSqlDB_within : ns.
Lemma DecommissionBE_within db nodes : inside n (DecommissionBE db nodes).
Proof. unfold DecommissionBE, Exec. ns_go. Qed.
Lemma DropBE_within db nodes : inside n (DropBE db nodes).
Proof. unfold DropBE, Exec. ns_go. Qed.
Lemma DropObserver_within db nodes : inside n (DropObserver db nodes).
Proof. unfold DropObserver, Exec. ns_go. Qed.
Lemma GetBackendsByComputeGroupId_within f je db cgid : inside n (GetBackendsByComputeGroupId f je db cgid).
Proof. unfold GetBackendsByComputeGroupId, ShowBackends. ns_go. Qed.
#[local] Hint Resolve DecommissionBE_within DropBE_within GetBackendsByComputeGroupId_within : ns.

Lemma BuildSeqNumberToFrontendMap_go_within ipMap t fes m : inside n (BuildSeqNumberToFrontendMap_go ipMap t fes m).
Proof.
  revert m; induction fes as [|fe fes IH]; intros m; cbn [BuildSeqNumberToFrontendMap_go]; unfold nth_piece; ns_go.
Qed.

#[local] Hint Resolve GetObservers_within DropObserver_within BuildSeqNumberToFrontendMap_go_within : ns.

Lemma drop_surplus_within sts labels wanted election cfg db : inside n (drop_surplus sts n labels wanted election cfg db).
Proof. unfold drop_surplus, place_observers, BuildSeqNumberToFrontendMap. ns_go. Qed.

Lemma GetConfigValuesFromConfigMaps_within key cms : inside n (GetConfigValuesFromConfigMaps n key cms).
Proof. induction cms as [|cm cms IH]; cbn [GetConfigValuesFromConfigMaps]; unfold GetConfigMap; ns_go. Qed.

Lemma GetManagementAdminUserAndPWD_within ddc : ddc_Namespace ddc = n -> inside n (GetManagementAdminUserAndPWD ddc).
Proof. intros Hd. unfold GetManagementAdminUserAndPWD, GetSecret. ns_go. Qed.
#[local] Hint Resolve GetConfigValuesFromConfigMaps_within GetManagementAdminUserAndPWD_within : ns.

Lemma getMasterSqlClient_within ddc : ddc_Namespace ddc = n -> inside n (getMasterSqlClient ddc).
Proof. intros Hd. unfold getMasterSqlClient, GetSecret. rewrite Hd. ns_go. Qed.
#[local] Hint Resolve getMasterSqlClient_within : ns.

Lemma getScaledOutBENode_within db cgid k : inside n (getScaledOutBENode db cgid k).
Proof. unfold getScaledOutBENode. ns_go. Qed.
#[local] Hint Resolve getScaledOutBENode_within : ns.
Lemma scaledOutBENodesByDrop_within db cgid k : inside n (scaledOutBENodesByDrop db cgid k).
Proof. unfold scaledOutBENodesByDrop. ns_go. Qed.
#[local] Hint Resolve scaledOutBENodesByDrop_within : ns.
Lemma scaleOut_within s ddc cg : ddc_Namespace ddc = n -> inside n (scaleOut s ddc cg).
Proof.
  intros Hd. unfold scaleOut. ns_step. ns_step; [|ns_go]. apply with_close_within.
  unfold scaledOutBENodesByDecommission, decommissionProgressCheck, decommissionBENodes. ns_go.
Qed.
#[local] Hint Resolve scaleOut_within : ns.

Lemma preApplyStatefulSet_within st est ddc cg : ddc_Namespace ddc = n ->
  within n (fun r => ddc_Namespace r.1 = n) (preApplyStatefulSet st est ddc cg).
Proof. intros Hd. unfold preApplyStatefulSet, getOperationType. ns_go. Qed.
Lemma skipApplyStatefulset_within ddc cg : inside n (skipApplyStatefulset ddc cg).
Proof. unfold skipApplyStatefulset. ns_go. Qed.

(** *** disaggregated_subcontroller.go *)

Lemma CheckSecretMountPath_within ddc ss : inside n (CheckSecretMountPath ddc ss).
Proof.
  unfold CheckSecretMountPath. generalize (∅ : gmap string SecretMount).
  induction ss as [|s ss IH]; intros m; cbn [CheckSecretMountPath_go]; [done|]. ns_go.
Qed.
Lemma missing_secrets_within ss m : inside n (missing_secrets n ss m).
Proof. revert m; induction ss as [|s ss IH]; intros m; cbn [missing_secrets]; ns_go. Qed.
#[local] Hint Resolve missing_secrets_within : ns.
Lemma CheckSecretExist_within ddc ss : ddc_Namespace ddc = n -> inside n (CheckSecretExist ddc ss).
Proof. intros Hd. unfold CheckSecretExist. rewrite Hd. ns_go. Qed.
Lemma endpoints_available_within name : inside n (endpoints_available n name).
Proof. unfold endpoints_available. ns_go. Qed.

Lemma DefaultReconcileService_within svc : svc_Namespace svc = n -> inside n (DefaultReconcileService svc).
Proof.
  intros Hs. unfold DefaultReconcileService. eapply within_bind; [apply ApplyService_within; [done | reflexivity]|intros [e|] _; ns_go].
Qed.

Lemma until_error_within steps : Forall (fun p => inside n p) steps -> inside n (until_error steps).
Proof.
  induction 1 as [|p steps Hp _ IH]; cbn [until_error]; [done|]. eapply within_bind; [exact Hp|]. intros [e|] _; [done | exact IH].
Qed.

Lemma reconcile_claim_within ddc old pvc : match old with Some o => lives n KPvc o | None => lives n KPvc pvc end ->
  inside n (reconcile_claim ddc old pvc).
Proof.
  intros Ho. unfold reconcile_claim, into_requests. destruct old; [|ns_go].
  destruct (_ <? _); [case_decide; [exact I|] |]; ns_go.
Qed.

Lemma find_Forall {A} (P : A -> Prop) f (l : list A) x : Forall P l -> List.find f l = Some x -> P x.
Proof. intros Hl Hx. apply List.find_some in Hx as [Hx _]. rewrite Forall_forall in Hl. apply Hl, list_elem_of_In, Hx. Qed.

Lemma ReconcilePVC_within ddc cm t sts cg : ddc_Namespace ddc = n -> inside n (ReconcilePVC ddc cm t sts cg).
Proof.
  intros Hd. unfold ReconcilePVC. ns_step; [|exact I]. destruct (BuildVolumesVolumeMountsAndPVCs _ _ _) as [[[v vm] ts]|]; [|exact I].
  ns_step; [|exact I]. cbv zeta. ns_step; [exact Hd|]. destruct x as [pvcs|e]; [|exact I].
  destruct (List.filter _ ts) as [|t1 tr] eqn:Ht; [exact I|]. ns_step; [|exact I]. apply until_error_within.
  rewrite Forall_map. apply Forall_forall. intros pvc Hin. apply reconcile_claim_within.
  destruct (getPvc pvcs (pvc_Name pvc)) as [o|] eqn:Ho; [subst n; exact (find_Forall _ _ _ _ H0 Ho)|].
  apply list_elem_of_In, List.in_concat in Hin as (ll & Hl & Hin). apply List.in_map_iff in Hl as (tmpl & <- & _).
  unfold template_claims in Hin. apply List.in_map_iff in Hin as (ord & <- & _). exact Hd.
Qed.
End steps.
#[export] Hint Resolve scaledOutBENodesByDrop_within NewDorisMasterSqlDB_within NewDorisSqlDB_within GetBackendsByComputeGroupId_within with_close_within GetFollowers_within drop_surplus_within
  GetConfigValuesFromConfigMaps_within GetManagementAdminUserAndPWD_within getMasterSqlClient_within
  preApplyStatefulSet_within skipApplyStatefulset_within CheckSecretMountPath_within CheckSecretExist_within
  endpoints_available_within DefaultReconcileService_within ReconcilePVC_within : ns.
