(* ===== verification/NamespaceProps.v ===== *)
(** A pass over a disaggregated cluster stays in the namespace of the cluster:
    the controllers of the meta service, FE and the groups, with the builders of
    their pods, composed as the reconciler composes them. *)

From Stdlib Require Import ZArith Lia.
From stdpp Require Import base list gmap strings.
From S2P Require Import Prelude GoStr KubeTypes DdcApi DcrApi Client Traces Mysql Resource External SubDefault Claims PrepareModify Observers.
From S2P Require Import PodTemplate DdcPods Namespace GracefulCodec Graceful Demo.
From S2P Require ComputeGroups CgLifecycle DisFe MetaService DdcReconciler Operator.

Local Open Scope string_scope.
Local Open Scope Z_scope.
Local Open Scope dop_scope.

Section pass.
Context `{External} (n : string).

(** A step that returns the cluster, or a pair that starts with it. *)
Definition same (ddc : Ddc) : Prop := ddc_Namespace ddc = n.
Definition same1 {B} (r : Ddc * B) : Prop := ddc_Namespace r.1 = n.
#[local] Hint Extern 0 (same _) => assumption : ns.

(** ** Builders of pods *)

Lemma cg_NewPodTemplateSpec_within ddc sel cvs cg : same ddc -> inside n (cg_NewPodTemplateSpec ddc sel cvs cg).
Proof.
  intros Hd. unfold cg_NewPodTemplateSpec, NewCGContainer, cg_newSpecificEnvs. rewrite Hd. ns_go.
Qed.

Lemma fe_NewPodTemplateSpec_within ddc cvs : same ddc -> within n same1 (fe_NewPodTemplateSpec ddc cvs).
Proof.
  intros Hd. unfold fe_NewPodTemplateSpec, NewFEContainer, fe_newSpecificEnvs.
  destruct (NewPodTemplateSpecWithCommonSpec _ _ _) as [pts cs]. cbv zeta.
  change (ddc_Namespace (set_fe_common cs ddc)) with (ddc_Namespace ddc). rewrite Hd. ns_go.
Qed.

Lemma ms_NewPodTemplateSpec_within ddc sel cvs : same ddc -> within n same1 (ms_NewPodTemplateSpec ddc sel cvs).
Proof.
  intros Hd. unfold ms_NewPodTemplateSpec, NewMSContainer, ms_newSpecificEnvs, fdb_event, GetConfigMap. ns_go.
Qed.

(** ** Claims, services and StatefulSets *)

Lemma delete_claims_within labels names err : inside n (delete_claims n labels names err).
Proof. revert err; induction names as [|name names IH]; intros err; cbn [delete_claims]; ns_go. Qed.
#[local] Hint Resolve delete_claims_within : ns.

Lemma delete_or_event_within reason p : inside n p -> inside n (DisFe.delete_or_event reason p).
Proof. intros Hp. unfold DisFe.delete_or_event. eapply within_bind; [exact Hp|]. intros [e|] _; ns_go. Qed.
#[local] Hint Resolve delete_or_event_within : ns.

Lemma generation_equal_namespace name st est c : 
  st_Namespace (generation_equal name st est c).1.1 = st_Namespace st /\ 
  ddc_Namespace (generation_equal name st est c).1.2 = ddc_Namespace c.
Proof.
  unfold generation_equal, StatefulsetDeepEqualWithKey, RestrictConditionsEqual.
  destruct (st_VolumeClaimTemplates est); match goal with |- context [if ?b then _ else _] => destruct b end; done.
Qed.

Lemma apply_within name st (ddc : Ddc) : st_Namespace st = n -> same ddc ->
  within n same1 (ApplyStatefulSet st ddc (generation_equal name) []).
Proof.
  intros Hst Hd. apply (apply_stateful_set_within n same); [done | done | | constructor].
  intros s e c Hc Hs. apply within_ret. destruct (generation_equal_namespace name s e c) as [E1 E2].
  unfold same. by rewrite E1, E2.
Qed.
#[local] Hint Resolve apply_within : ns.

(** ** The meta service *)

Lemma ms_newStatefulset_within ddc cvs : same ddc ->
  within n (fun r => ddc_Namespace r.1 = n /\ st_Namespace r.2 = n) (MetaService.newStatefulset ms_NewPodTemplateSpec ddc cvs).
Proof.
  intros Hd. unfold MetaService.newStatefulset. destruct (BuildVolumesVolumeMountsAndPVCs _ _ _) as [[[? ?] vcts]|]; [|exact I].
  cbn [assert_ok].
  eapply within_bind; [by apply ms_NewPodTemplateSpec_within|]. intros [ddc' pts] Hd'. split; exact Hd'.
Qed.

Lemma ms_reconcileStatefulset_within st ddc : st_Namespace st = n -> same ddc ->
  within n same1 (MetaService.reconcileStatefulset st ddc).
Proof. intros Hst Hd. unfold MetaService.reconcileStatefulset, CreateClientObject. ns_go. Qed.

Lemma newMSService_namespace ddc cvs svc : MetaService.newMSService ddc cvs = Some svc -> svc_Namespace svc = ddc_Namespace ddc.
Proof.
  unfold MetaService.newMSService. intros Hs. repeat (case_match; simplify_option_eq); done.
Qed.

Lemma ms_Sync_within ddc : same ddc -> within n same1 (MetaService.Sync ms_NewPodTemplateSpec ddc).
Proof.
  intros Hd. unfold MetaService.Sync. rewrite Hd. cbv zeta. eapply within_bind; [eauto with ns|]. intros cvs _.
  destruct (MetaService.newMSService ddc cvs) as [svc|] eqn:Hsvc; [|exact I]. apply newMSService_namespace in Hsvc.
  assert (Hsn : svc_Namespace svc = n) by (rewrite Hsvc; exact Hd). cbn [assert_ok].
  eapply within_bind; [by apply ms_newStatefulset_within|]. intros [ddc' st] [Hd' Hst]. cbn [fst snd] in *.
  assert (Hi : same (MetaService.initMSStatus ddc')) by exact Hd'. generalize dependent (MetaService.initMSStatus ddc'). intros ddc1 Hd1.
  pose proof (ms_reconcileStatefulset_within st ddc1 Hst Hd1). ns_go.
Qed.

Lemma ms_ClearResources_within ddc : same ddc -> inside n (MetaService.ClearResources ddc).
Proof. intros Hd. unfold MetaService.ClearResources. rewrite Hd. ns_go. Qed.

Lemma ms_status_of_pods_namespace ddc sts pods : ddc_Namespace (MetaService.ms_status_of_pods ddc sts pods) = ddc_Namespace ddc.
Proof. unfold MetaService.ms_status_of_pods. by destruct (classify_pods pods) as [[? ?] ?]. Qed.

Lemma ms_UpdateComponentStatus_within ddc : same ddc -> within n same1 (MetaService.UpdateComponentStatus ddc).
Proof.
  intros Hd. unfold MetaService.UpdateComponentStatus, GetStatefulSet. rewrite Hd. ns_go.
  unfold same1. cbn [fst]. rewrite ms_status_of_pods_namespace. exact Hd.
Qed.

(** ** FE *)

Lemma fe_NewStatefulset_within ddc cvs : same ddc ->
  within n (fun r => ddc_Namespace r.1 = n /\ st_Namespace r.2 = n) (DisFe.NewStatefulset fe_NewPodTemplateSpec ddc cvs).
Proof.
  intros Hd. unfold DisFe.NewStatefulset. destruct (BuildVolumesVolumeMountsAndPVCs _ _ _) as [[[? ?] vcts]|]; [|exact I].
  cbn [assert_ok]. eapply within_bind; [by apply fe_NewPodTemplateSpec_within|]. intros [ddc' pts] Hd'. split; exact Hd'.
Qed.

Lemma newService_namespace ddc cvs svc : DisFe.newService ddc cvs = Some svc -> svc_Namespace svc = ddc_Namespace ddc.
Proof. unfold DisFe.newService. intros Hs. repeat (case_match; simplify_option_eq); done. Qed.
Lemma newInternalService_namespace ddc cvs svc : DisFe.newInternalService ddc cvs = Some svc -> svc_Namespace svc = ddc_Namespace ddc.
Proof. unfold DisFe.newInternalService. intros Hs. simplify_option_eq. done. Qed.

Lemma drop_observers_within ddc cvs db : same ddc -> inside n (DisFe.drop_observers ddc cvs db).
Proof.
  intros Hd. unfold DisFe.drop_observers. rewrite Hd. ns_go.
Qed.
#[local] Hint Resolve drop_observers_within : ns.

Lemma dropFEBySQLClient_within ddc : same ddc -> inside n (DisFe.dropFEBySQLClient ddc).
Proof. intros Hd. unfold DisFe.dropFEBySQLClient, GetSecret. rewrite Hd. ns_go. Qed.
#[local] Hint Resolve dropFEBySQLClient_within : ns.

Lemma apply_fe_within st ddc : st_Namespace st = n -> same ddc -> within n same1 (DisFe.apply_fe st ddc).
Proof. intros Hst Hd. unfold DisFe.apply_fe. ns_go. Qed.
#[local] Hint Resolve apply_fe_within : ns.

Lemma fe_reconcileStatefulset_within st ddc : st_Namespace st = n -> same ddc -> within n same1 (DisFe.reconcileStatefulset st ddc).
Proof.
  intros Hst Hd. unfold DisFe.reconcileStatefulset, CreateClientObject. ns_step; [exact Hst|]. destruct x as [est|err]; [|ns_go].
  cbv zeta. eapply (within_bind _ (fun r => st_Namespace r.1 = n /\ same r.2)); [ns_go|].
  intros [st' ddc'] [Hst' Hd']. cbn [fst snd] in *. ns_go.
Qed.

Lemma correct_replicas_within ddc : same ddc -> within n same (DisFe.correct_replicas ddc).
Proof. intros Hd. unfold DisFe.correct_replicas. eapply (within_bind _ same); [ns_go|]. intros ddc' Hd'. ns_go. Qed.
#[local] Hint Resolve correct_replicas_within fe_reconcileStatefulset_within fe_NewStatefulset_within : ns.

Lemma fe_Sync_within ddc : same ddc -> within n same1 (DisFe.Sync fe_NewPodTemplateSpec ddc).
Proof.
  intros Hd. unfold DisFe.Sync, DisFe.msAvailable. rewrite Hd. ns_step. ns_step; [|ns_go].
  eapply within_bind; [eauto with ns|]. intros _ _. eapply within_bind; [eauto with ns|]. intros _ _.
  eapply within_bind; [by apply correct_replicas_within|]. intros ddc1 Hd1. rewrite Hd1.
  eapply within_bind; [eauto with ns|]. intros cvs _.
  destruct (DisFe.newInternalService ddc1 cvs) as [isvc|] eqn:Hi; [|exact I]. apply newInternalService_namespace in Hi.
  destruct (DisFe.newService ddc1 cvs) as [svc|] eqn:Hs; [|exact I]. apply newService_namespace in Hs. cbn [assert_ok].
  assert (svc_Namespace isvc = n) by congruence. assert (svc_Namespace svc = n) by congruence.
  eapply within_bind; [by apply fe_NewStatefulset_within|]. intros [ddc2 st] [Hd2 Hst]. cbn [fst snd] in *.
  assert (Hi2 : same (DisFe.initialFEStatus ddc2)) by (unfold DisFe.initialFEStatus; by case_decide).
  generalize dependent (DisFe.initialFEStatus ddc2). intros ddc3 Hd3. ns_go.
Qed.

Lemma fe_ClearResources_within ddc : same ddc -> inside n (DisFe.ClearResources ddc).
Proof.
  intros Hd. unfold DisFe.ClearResources, DisFe.recycleResources, DisFe.listAndDeletePersistentVolumeClaim. rewrite Hd. ns_go.
Qed.

Lemma fe_UpdateComponentStatus_within ddc : same ddc -> within n same1 (DisFe.UpdateComponentStatus ddc).
Proof.
  intros Hd. unfold DisFe.UpdateComponentStatus, GetStatefulSet. rewrite Hd. ns_step; [reflexivity|]. destruct x as [sts|e]; [|ns_go].
  ns_step; [ns_go|]. ns_step; [reflexivity|]. destruct x as [pods|e]; [|ns_go].
  eapply (within_bind _ same); [|intros; ns_go]. unfold DisFe.fe_status_of_pods. cbv zeta.
  destruct (classify_pods pods) as [[? ?] ?]. destruct (0 <? _); ns_go; match goal with |- context [if ?b then _ else _] => destruct b end; exact Hd.
Qed.

(** ** The graceful rollout *)

Lemma selectNextRollingUpdatePod_within est ga : st_Namespace est = n -> inside n (selectNextRollingUpdatePod est ga).
Proof. intros He. unfold selectNextRollingUpdatePod. ns_go. Qed.
#[local] Hint Resolve selectNextRollingUpdatePod_within : ns.
Lemma selectNextPod_within s est ga : st_Namespace est = n -> inside n (selectNextPod s est ga).
Proof. intros He. unfold selectNextPod. ns_go. Qed.
#[local] Hint Resolve selectNextPod_within : ns.
Lemma detectGracefulAction_within st est s : st_Namespace est = n -> inside n (detectGracefulAction st est s).
Proof. intros He. unfold detectGracefulAction. ns_go. Qed.
Lemma supportsTerminatingSentinel_within ddc s est ga : same ddc -> st_Namespace est = n ->
  inside n (supportsTerminatingSentinel ddc s est ga).
Proof. intros Hd He. unfold supportsTerminatingSentinel. rewrite Hd. ns_go. Qed.
Lemma getBackendByPodName_within ddc s pod : same ddc -> inside n (getBackendByPodName ddc s pod).
Proof. intros Hd. unfold getBackendByPodName. ns_go. apply with_close_within. ns_go. Qed.
#[local] Hint Resolve detectGracefulAction_within supportsTerminatingSentinel_within getBackendByPodName_within : ns.

Lemma handleTriggerDrain_within ddc s est ga : same ddc -> st_Namespace est = n -> inside n (handleTriggerDrain ddc s est ga).
Proof.
  intros Hd He. unfold handleTriggerDrain, select_current, record_generation, drain_pod, getPod. rewrite Hd. ns_go.
Qed.
Lemma handleWaitDrain_within ddc ga : same ddc -> inside n (handleWaitDrain ddc ga).
Proof. intros Hd. unfold handleWaitDrain, getPod. rewrite Hd. ns_go. Qed.
Lemma afterPodDeleted_within est ga : st_Namespace est = n -> inside n (afterPodDeleted est ga).
Proof. intros He. unfold afterPodDeleted, updateStatefulSetReplicas. ns_go. Qed.
#[local] Hint Resolve afterPodDeleted_within : ns.
Lemma handleDeletePod_within ddc est ga : same ddc -> st_Namespace est = n -> inside n (handleDeletePod ddc est ga).
Proof. intros Hd He. unfold handleDeletePod, getPod. rewrite Hd. ns_go. Qed.
Lemma ensure_timer_within t ga : inside n (ensure_timer t ga).
Proof. unfold ensure_timer, start_timer. ns_go. Qed.
Lemma wait_replacement_within what ga : inside n (wait_replacement what ga).
Proof. unfold wait_replacement, start_timer. ns_go. Qed.
#[local] Hint Resolve ensure_timer_within wait_replacement_within : ns.
Lemma handleWaitPodReady_within ddc ga : same ddc -> inside n (handleWaitPodReady ddc ga).
Proof. intros Hd. unfold handleWaitPodReady, getPod. rewrite Hd. ns_go. Qed.
Lemma force_or_wait_within t w ga : inside n (force_or_wait t w ga).
Proof. unfold force_or_wait. ns_go. Qed.
#[local] Hint Resolve force_or_wait_within : ns.
Lemma handleWaitBEAlive_within ddc s ga : same ddc -> inside n (handleWaitBEAlive ddc s ga).
Proof. intros Hd. unfold handleWaitBEAlive. ns_go. Qed.
#[local] Hint Resolve handleTriggerDrain_within handleWaitDrain_within handleDeletePod_within handleWaitPodReady_within
  handleWaitBEAlive_within : ns.

Lemma runGracefulStateMachine_within ddc s est ga : same ddc -> st_Namespace est = n ->
  inside n (runGracefulStateMachine ddc s est ga).
Proof. intros Hd He. unfold runGracefulStateMachine. ns_go. Qed.
#[local] Hint Resolve runGracefulStateMachine_within : ns.

Lemma hold_namespace st est ga : st_Namespace (hold st est ga) = st_Namespace st.
Proof. unfold hold, setGracefulAction, prepareGracefulStatefulSet. repeat case_match; done. Qed.

Definition same_rollout (r : rollout_result) : Prop := st_Namespace r.1.1.1 = n.

Lemma gracefulRolloutReconcile_within st est ddc cg s : same ddc -> st_Namespace st = n -> st_Namespace est = n ->
  within n same_rollout (gracefulRolloutReconcile st est ddc cg s).
Proof.
  intros Hd Hst He.
  assert (Hh : forall ga s b e, same_rollout (hold st est ga, s, b, e)) by (intros; unfold same_rollout; cbn [fst]; by rewrite hold_namespace).
  unfold gracefulRolloutReconcile, start_graceful, finish_graceful, shouldFinalizeGracefulAction, finalizeGracefulAction.
  ns_step. ns_step; [|ns_go]. ns_step; [|ns_step; [|ns_go]; eapply within_bind; [eauto 4 with ns|]; intros [[] reason] _; ns_go; apply Hh].
  eapply within_bind; [eauto 4 with ns|]. intros [ga [e|]] _; [ns_go|]. ns_step; [|ns_go; apply Hh].
  eapply (within_bind _ (fun _ => True)); [ns_go|]. intros [] _; [|ns_go; apply Hh].
  ns_step; [exact I|]. eapply (within_bind _ (fun r => st_Namespace r.1 = n)); [ns_go|]. intros [st' e'] Hst'. exact Hst'.
Qed.
#[local] Hint Resolve gracefulRolloutReconcile_within : ns.

(** ** The compute groups *)

Lemma cg_NewStatefulset_within ddc cg cvs : same ddc ->
  within n (fun r => st_Namespace r.2 = n) (ComputeGroups.NewStatefulset cg_NewPodTemplateSpec ddc cg cvs).
Proof.
  intros Hd. unfold ComputeGroups.NewStatefulset. destruct (BuildVolumesVolumeMountsAndPVCs _ _ _) as [[[? ?] vcts]|]; [|exact I].
  cbn [assert_ok]. eapply within_bind; [by apply cg_NewPodTemplateSpec_within|]. intros [cg' pts] _. exact Hd.
Qed.

Lemma cg_newInternalService_namespace ddc cg cvs svc : ComputeGroups.newInternalService ddc cg cvs = Some svc ->
  svc_Namespace svc = ddc_Namespace ddc.
Proof. unfold ComputeGroups.newInternalService. intros Hs. simplify_option_eq. done. Qed.
Lemma cg_newExternalService_namespace ddc cg cvs svc : ComputeGroups.newExternalService ddc cg cvs = Some svc ->
  svc_Namespace svc = ddc_Namespace ddc.
Proof. unfold ComputeGroups.newExternalService. intros Hs. repeat (case_match; simplify_option_eq); done. Qed.

Lemma reconcileInternalService_within svc : svc_Namespace svc = n -> inside n (ComputeGroups.reconcileInternalService svc).
Proof. intros Hs. unfold ComputeGroups.reconcileInternalService, CreateClientObject. rewrite Hs. ns_go. Qed.
#[local] Hint Resolve reconcileInternalService_within : ns.

Lemma apply_equal_namespace cg st est ddc :
  st_Namespace (ComputeGroups.apply_equal cg st est ddc).1.1 = st_Namespace st /\
  ddc_Namespace (ComputeGroups.apply_equal cg st est ddc).1.2 = ddc_Namespace ddc.
Proof.
  unfold ComputeGroups.apply_equal, ComputeGroups.businessStatefulSetEqual, RestrictConditionsEqual.
  destruct (st_VolumeClaimTemplates est); destruct (StatefulsetDeepEqualWithKey _ _ _ _) as [nst []]; case_decide; done.
Qed.

Lemma apply_statefulset_within st ddc cg : st_Namespace st = n -> same ddc -> within n same1 (ComputeGroups.apply_statefulset st ddc cg).
Proof.
  intros Hst Hd. unfold ComputeGroups.apply_statefulset, ComputeGroups.clearStatefulSetRollingUpdate.
  eapply (within_bind _ (fun _ => True)); [ns_go|]. intros _ _. eapply (within_bind _ same1); [|intros [ddc' err] Hd'; exact Hd'].
  apply (apply_stateful_set_within n same); [done | done | | by repeat constructor].
  intros s e c Hc Hs. apply within_ret. destruct (apply_equal_namespace cg s e c) as [E1 E2]. unfold same. by rewrite E1, E2.
Qed.
#[local] Hint Resolve apply_statefulset_within : ns.

Lemma graceful_step_within rc st est ddc cg : st_Namespace st = n -> st_Namespace est = n -> same ddc ->
  within n (fun r => st_Namespace r.1 = n /\ same r.2) (ComputeGroups.graceful_step rc st est ddc cg).
Proof.
  intros Hst He Hd. unfold ComputeGroups.graceful_step. destruct (if rc then _ else None) as [[i s]|]; [|by split].
  eapply within_bind; [by apply gracefulRolloutReconcile_within|]. intros [[[st' s'] skip] e] Hr.
  apply within_ret. split; [destruct skip; exact Hr | exact Hd].
Qed.
#[local] Hint Resolve graceful_step_within : ns.

Lemma cg_reconcileStatefulset_within rc st ddc cg : st_Namespace st = n -> same ddc ->
  within n same1 (ComputeGroups.reconcileStatefulset rc st ddc cg).
Proof.
  intros Hst Hd. unfold ComputeGroups.reconcileStatefulset. ns_step; [exact Hst|]. destruct x as [est|err].
  - ns_step; [|ns_go]. eapply within_bind; [by apply preApplyStatefulSet_within|]. intros [ddc1 [e|]] Hd1; [exact Hd1|].
    cbn [fst] in Hd1. eapply within_bind; [apply skipApplyStatefulset_within|]. intros [] _; [exact Hd1|].
    eapply within_bind; [by apply graceful_step_within|]. intros [st2 ddc2] [Hst2 Hd2]. by apply apply_statefulset_within.
  - ns_step; [|ns_go]. eapply (within_bind _ (fun _ => True)); [|intros [[] ?] _; exact Hd].
    eapply inside_mono, (apply_stateful_set_within n (fun _ => True)); [done | exact I | | by repeat constructor].
    intros s e c _ Hs. apply within_ret. unfold StatefulsetDeepEqualWithKey, RestrictConditionsEqual.
    split; [|exact I]. destruct (st_VolumeClaimTemplates e); match goal with |- context [if ?b then _ else _] => destruct b end; exact Hs.
Qed.
#[local] Hint Resolve cg_reconcileStatefulset_within : ns.

Lemma initialCGStatus_within ddc cg : same ddc -> within n same (ComputeGroups.initialCGStatus ddc cg).
Proof. intros Hd. unfold ComputeGroups.initialCGStatus. ns_go. Qed.

Lemma computeGroupSync_within rc ddc i cg : same ddc ->
  within n same1 (ComputeGroups.computeGroupSync cg_NewPodTemplateSpec rc ddc i cg).
Proof.
  intros Hd. unfold ComputeGroups.computeGroupSync. cbv zeta.
  assert (Hs : forall cg, same (ComputeGroups.set_cg i cg ddc)) by (intros; exact Hd).
  generalize dependent (ComputeGroups.default_replicas cg). clear cg. intros cg.
  pose proof (Hs cg) as H1. rewrite H1. eapply within_bind; [eauto with ns|]. intros cvs _.
  eapply within_bind; [by apply cg_NewStatefulset_within|]. intros [cg' st] Hst. cbn [snd] in Hst. cbv zeta.
  assert (H2 : same (ComputeGroups.set_cg i cg' (ComputeGroups.set_cg i cg ddc))) by exact Hd.
  generalize dependent (ComputeGroups.set_cg i cg' (ComputeGroups.set_cg i cg ddc)). intros ddc1 Hd1.
  destruct (ComputeGroups.newInternalService ddc1 cg' cvs) as [isvc|] eqn:Hi; [|exact I]. apply cg_newInternalService_namespace in Hi.
  destruct (ComputeGroups.newExternalService ddc1 cg' cvs) as [svc|] eqn:Hx; [|exact I]. apply cg_newExternalService_namespace in Hx.
  cbn [assert_ok]. assert (svc_Namespace isvc = n) by congruence. assert (svc_Namespace svc = n) by congruence.
  eapply within_bind; [by apply initialCGStatus_within|]. intros ddc2 Hd2. ns_go.
Qed.

Lemma cg_Sync_within rc ddc : same ddc -> within n same1 (ComputeGroups.Sync cg_NewPodTemplateSpec rc ddc).
Proof.
  intros Hd. unfold ComputeGroups.Sync, ComputeGroups.feAvailable. rewrite Hd. ns_step; [ns_go|].
  assert (Hg : forall cgs ddc i errs, same ddc -> within n same1 (ComputeGroups.sync_groups cg_NewPodTemplateSpec rc ddc i cgs errs)).
  { clear. induction cgs as [|cg cgs IH]; intros ddc i errs Hd; cbn [ComputeGroups.sync_groups]; [exact Hd|].
    eapply within_bind; [by apply computeGroupSync_within|]. intros [ddc' r] Hd'. cbn [fst] in Hd'.
    destruct r as [[ev err]|]; [|by apply IH]. eapply within_bind; [apply emit_within|]. intros _ _. by apply IH. }
  ns_step. ns_step; [|ns_go].
  destruct (ComputeGroups.validateComputeGroup _) as [[ev|] []]; [| ns_go | |exact I].
  all: eapply within_bind; [by apply Hg|]; intros [ddc' [|e errs]] Hd'; exact Hd'.
Qed.

Lemma each_name_within f names : (forall name, inside n (f name)) -> inside n (CgLifecycle.each_name f names).
Proof.
  intros Hf. induction names as [|name names IH]; cbn [CgLifecycle.each_name]; [exact I|].
  eapply within_bind; [apply Hf|]. intros [e|] _; [exact I | exact IH].
Qed.

Lemma clear_pvcs_within ddc ids : same ddc -> inside n (CgLifecycle.clear_pvcs ddc ids).
Proof.
  intros Hd. induction ids as [|u ids IH]; cbn [CgLifecycle.clear_pvcs]; [exact I|].
  eapply (within_bind _ (fun _ => True)); [|intros _ _; exact IH].
  unfold CgLifecycle.ClearStatefulsetUnusedPVCs, GetStatefulSet. rewrite Hd. ns_go.
Qed.
#[local] Hint Resolve clear_pvcs_within : ns.

Lemma clearCGInDorisMeta_within ids ddc : same ddc -> inside n (CgLifecycle.clearCGInDorisMeta ids ddc).
Proof.
  intros Hd. unfold CgLifecycle.clearCGInDorisMeta, CgLifecycle.dropCG_failed. ns_step; [exact I|]. ns_step. ns_step; [|ns_go].
  apply with_close_within, each_name_within. intros cgid. ns_go.
Qed.

Lemma cg_ClearResources_within ddc : same ddc -> within n (fun r => ddc_Namespace r.1.1 = n) (CgLifecycle.ClearResources ddc).
Proof.
  intros Hd. unfold CgLifecycle.ClearResources, ListServicesInNamespace, ListStatefulsetInNamespace,
    CgLifecycle.clearSvcs, CgLifecycle.clearStatefulsets. rewrite Hd.
  ns_step; [reflexivity|]. ns_step; [|exact Hd]. ns_step; [reflexivity|]. ns_step; [|exact Hd].
  destruct (CgLifecycle.findUnusedStssAndUniqueIds _ _) as [names ids].
  eapply within_bind; [by apply clearCGInDorisMeta_within|]. intros [e|] _; [exact Hd|].
  eapply within_bind; [apply each_name_within; intros; apply DeleteService_within|]. intros [e|] _; [exact Hd|].
  eapply within_bind; [apply each_name_within; intros; apply DeleteStatefulset_within|]. intros [e|] _; [exact Hd|]. ns_go.
Qed.

Lemma group_ids_within backends m : inside n (CgLifecycle.group_ids backends m).
Proof. revert m; induction backends as [|b backends IH]; intros m; cbn [CgLifecycle.group_ids]; ns_go. Qed.
#[local] Hint Resolve group_ids_within : ns.

Lemma cg_UpdateComponentStatus_within ddc : same ddc -> within n same1 (CgLifecycle.UpdateComponentStatus ddc).
Proof.
  intros Hd. unfold CgLifecycle.UpdateComponentStatus. destruct (ComputeGroupStatuses _) as [|c cs]; [exact Hd|].
  eapply (within_bind _ (fun _ => True)).
  - generalize "". generalize (c :: cs). induction l as [|s l IH]; intros ms; cbn [CgLifecycle.update_statuses]; [exact I|].
    eapply (within_bind _ (fun _ => True)).
    + unfold CgLifecycle.updateCGStatus, GetStatefulSet. rewrite Hd. ns_go.
    + intros [c' e] _. cbv zeta. eapply within_bind; [apply IH|]. by intros [? ?] _.
  - intros [cs' ms] _. cbv zeta. eapply (within_bind _ same); [|intros ddc' Hd'; exact Hd'].
    ns_step; [|exact Hd]. eapply (within_bind _ same1); [|intros [? ?] Hd'; exact Hd'].
    unfold CgLifecycle.recordComputeGroupIds, GetSecret, ShowBackends.
    match goal with |- context [ddc_Namespace ?d] => assert (Hd' : same d) by exact Hd; generalize dependent d end.
    intros ddc' Hd'. rewrite Hd'. ns_go. apply with_close_within. ns_go.
Qed.

(** ** The reconciler *)

(** A sub-controller whose operations stay in the namespace. *)
Record stays (c : DdcReconciler.SubController) : Prop := {
  stays_Sync : forall ddc, same ddc -> within n same1 (DdcReconciler.sc_Sync c ddc);
  stays_ClearResources : forall ddc, same ddc -> within n same1 (DdcReconciler.sc_ClearResources c ddc);
  stays_UpdateComponentStatus : forall ddc, same ddc -> within n same1 (DdcReconciler.sc_UpdateComponentStatus c ddc)
}.

Lemma controllers_stay : Forall stays Operator.ddc_Scs.
Proof.
  unfold Operator.ddc_Scs. repeat (apply Forall_cons_2; [constructor|]); [..|apply Forall_nil_2];
    cbn [DdcReconciler.sc_Sync DdcReconciler.sc_ClearResources DdcReconciler.sc_UpdateComponentStatus]; intros ddc Hd.
  - by apply ms_Sync_within.
  - eapply within_bind; [by apply ms_ClearResources_within|]. intros [? ?] _. exact Hd.
  - by apply ms_UpdateComponentStatus_within.
  - by apply fe_Sync_within.
  - eapply within_bind; [by apply fe_ClearResources_within|]. intros [? ?] _. exact Hd.
  - by apply fe_UpdateComponentStatus_within.
  - by apply cg_Sync_within.
  - eapply within_bind; [by apply cg_ClearResources_within|]. intros [[? ?] ?] Hd'. exact Hd'.
  - by apply cg_UpdateComponentStatus_within.
Qed.

Lemma each_sub_within f subs ddc errs : Forall (fun c => forall ddc, same ddc -> within n same1 (f c ddc)) subs -> same ddc ->
  within n same1 (DdcReconciler.each_sub f subs ddc errs).
Proof.
  intros Hs. revert ddc errs; induction Hs as [|c subs Hc _ IH]; intros ddc errs Hd; cbn [DdcReconciler.each_sub]; [exact Hd|].
  eapply within_bind; [by apply Hc|]. intros [ddc' e] Hd'. by apply IH.
Qed.

Lemma status_attempts_within k ddc eddc : same ddc -> inside n (DdcReconciler.status_attempts k ddc eddc).
Proof.
  intros Hd. revert eddc; induction k as [|k IH]; intros eddc; cbn [DdcReconciler.status_attempts]; [exact I|]. ns_go.
Qed.
#[local] Hint Resolve status_attempts_within : ns.

Lemma updateObjectORStatus_within ddc hv : same ddc -> inside n (DdcReconciler.updateObjectORStatus ddc hv).
Proof.
  intros Hd. unfold DdcReconciler.updateObjectORStatus, DdcReconciler.updateDorisDisaggregatedClusterStatus, DdcReconciler.update_cluster.
  assert (Hc : same (DdcReconciler.clearReconcileAnnotations ddc)) by exact Hd.
  generalize dependent (DdcReconciler.clearReconcileAnnotations ddc). intros ddc1 Hd1. rewrite Hd1.
  eapply (within_bind _ (fun _ => True)); [|intros; ns_go]. ns_step; [|exact I]. ns_step; [reflexivity|].
  cbv zeta. ns_step; [|ns_go]. destruct x as [eddc|]; [|exact Hd1].
  cbn [call_within]. match goal with |- ddc_Namespace (if ?b then _ else _) = _ => by destruct b end.
Qed.

Lemma pass_within order1 order2 order3 ddc : Forall stays order1 -> Forall stays order2 -> Forall stays order3 -> same ddc ->
  inside n (let hv := HashObject (ddc_Spec ddc) in
    let! '(ddc, reconErr) := DdcReconciler.reconcileSub order1 ddc in
    let! ddc := DdcReconciler.clearUnusedResources order2 ddc in
    let! '(ddc, _) := DdcReconciler.reorganizeStatus order3 ddc in
    let! res := DdcReconciler.updateObjectORStatus ddc hv in
    Ret (res, match reconErr with
              | Some e => if decide (err_msg e = "") then None else Some (errorsNew (err_msg e))
              | None => None
              end)).
Proof.
  intros H1 H2 H3 Hd. cbv zeta.
  unfold DdcReconciler.reconcileSub, DdcReconciler.clearUnusedResources, DdcReconciler.reorganizeStatus.
  eapply (within_bind _ same1).
  { eapply within_bind; [apply each_sub_within; [|exact Hd]; eapply Forall_impl; [exact H1 | apply stays_Sync]|].
    intros [ddc1 errs] Hd1. destruct errs; exact Hd1. }
  intros [ddc1 e1] Hd1. eapply (within_bind _ same).
  { eapply within_bind; [apply each_sub_within; [|exact Hd1]; eapply Forall_impl; [exact H2 | apply stays_ClearResources]|].
    intros [ddc2 errs] Hd2. exact Hd2. }
  intros ddc2 Hd2. eapply (within_bind _ same1).
  { eapply within_bind; [apply each_sub_within; [|exact Hd2]; eapply Forall_impl; [exact H3 | apply stays_UpdateComponentStatus]|].
    intros [ddc3 errs] Hd3. exact Hd3. }
  intros [ddc3 r] Hd3. eapply within_bind; [apply updateObjectORStatus_within; exact Hd3|]. by intros.
Qed.
End pass.

(** C11: A pass over a disaggregated cluster stays in the namespace of the
    cluster: with the three controllers of the operator in whatever orders the
    loops take, every object that the pass reads, lists, creates, updates,
    patches or deletes, and every container that it runs a command in, is in
    the namespace of the request; only config maps are read elsewhere.  It
    holds as long as the API server answers with objects of the namespace that
    it is asked for, and unless the first fetch fails with another error than
    not-found, after which the code goes on with an empty cluster. *)
Theorem pass_stays_in_namespace `{External} (order1 order2 order3 : list DdcReconciler.SubController) (ns name : string)
    (Hns : ns <> "") (H1 : order1 ≡ₚ Operator.ddc_Scs) (H2 : order2 ≡ₚ Operator.ddc_Scs) (H3 : order3 ≡ₚ Operator.ddc_Scs) :
  wp (DdcReconciler.Reconcile order1 order2 order3 ns name) (fun tr _ => Forall lawful tr ->
    Forall (event_within ns) tr \/
    exists err rest, tr = Ev (CGet KDdc ns name) (Er err) :: rest /\ IsNotFound err = false).
Proof.
  assert (Hall : forall order, order ≡ₚ Operator.ddc_Scs -> Forall (stays ns) order)
    by (intros order ->; apply controllers_stay).
  unfold DdcReconciler.Reconcile. cbn [bind call]. intros [ddc|err].
  - apply exec_wp. intros tr o Hex [Hx Hl]%Forall_cons. left.
    assert (Hd : ddc_Namespace ddc = ns) by exact (Hx ns Hns eq_refl).
    destruct (within_exec ns _ _ tr o Hns (pass_within ns order1 order2 order3 ddc (Hall _ H1) (Hall _ H2) (Hall _ H3) Hd) Hex Hl) as [HF _].
    by constructor.
  - destruct (IsNotFound err) eqn:Herr; cbn [bind wp].
    + intros _. left. by repeat constructor.
    + apply wp_true. intros tr o _. right. by exists err, tr.
Qed.

(** ** Witnesses *)

(** The environment of the demonstration with one disaggregated cluster. *)
Definition ddc_env (d : Ddc) (X : Type) (e : OpE X) (w : world) : X * world :=
  match e in OpE X return X * world -> X * world with
  | CGet k _ _ =>
      match k return res (obj k) * world -> res (obj k) * world with
      | KDdc => fun _ => (Ok d, w)
      | _ => fun r => r
      end
  | _ => fun r => r
  end (demo_env X e w).

Local Existing Instance demo_external.

Definition demo_trace : trace :=
  (run (ddc_env demo_ddc) (DdcReconciler.Reconcile Operator.ddc_Scs Operator.ddc_Scs Operator.ddc_Scs "ns" "c")
     (demo_world true)).1.1.

Lemma pass_stays_in_namespace_witness :
  length demo_trace = 24%nat /\ (Forall (event_within "ns") demo_trace \/
    exists err rest, demo_trace = Ev (CGet KDdc "ns" "c") (Er err) :: rest /\ IsNotFound err = false).
Proof.
  split; [vm_compute; reflexivity|].
  refine (wp_exec _ _ (pass_stays_in_namespace Operator.ddc_Scs Operator.ddc_Scs Operator.ddc_Scs "ns" "c"
    ltac:(done) ltac:(reflexivity) ltac:(reflexivity) ltac:(reflexivity)) _ _
    (run_exec (ddc_env demo_ddc) _ (demo_world true)) _).
  apply answers_lawful. vm_compute. reflexivity.
Defined.
