(* ===== verification/DcrNamespaceProps.v ===== *)
(** A pass over a DorisCluster stays in the namespace of the cluster: the
    controllers of FE, BE, compute nodes and broker, with the builders of their
    pods, composed as the reconciler composes them.  The rules are those of
    [Namespace]. *)

From Stdlib Require Import ZArith Lia.
From stdpp Require Import base list gmap strings.
From S2P Require Import PodTemplate.
From S2P Require Import Prelude GoStr KubeTypes DdcApi DcrApi Client Traces Mysql Resource External SubDefault Observers.
From S2P Require Import DcrResource DcrSub DcrPods DcrFe Namespace Demo DcrFeProps DcrReconcilerProps.
From S2P Require DcrBe DcrCn DdcReconciler DcrReconciler.

Local Open Scope string_scope.
Local Open Scope Z_scope.
Local Open Scope dop_scope.

Section pass.
Context `{External} (n : string).

(** A step that returns the cluster, or a pair that starts with it. *)
Definition here (dcr : Dcr) : Prop := dcr_Namespace dcr = n.
Definition here1 {B} (r : Dcr * B) : Prop := dcr_Namespace r.1 = n.
#[local] Hint Extern 0 (here _) => assumption : ns.

(** ** Shared steps *)

Lemma warn_within reason message : inside n (warn reason message).
Proof. unfold warn. ns_go. Qed.
#[local] Hint Resolve warn_within : ns.

Lemma k8s_GetConfig_within info ns c : inside n (k8s_GetConfig info ns c).
Proof.
  unfold k8s_GetConfig. destruct (GetMountConfigMapInfo info) as [|cm cms]; [exact I|]. unfold GetConfigMaps.
  eapply (within_bind _ (fun _ => True)); [|intros [? ?] _; ns_go].
  eapply (within_bind _ (fun _ => True)); [|intros [? ?] _; ns_go].
  generalize (cm :: cms) (@nil ConfigMap) "". clear cm cms.
  induction l as [|cm cms IH]; intros l s; cbn [get_config_maps]; [exact I|]. ns_step; [exact I|]. destruct x; apply IH.
Qed.
#[local] Hint Resolve k8s_GetConfig_within : ns.

Lemma GetConfig_within info ns c : inside n (GetConfig info ns c).
Proof. unfold GetConfig. ns_go. Qed.
#[local] Hint Resolve GetConfig_within : ns.

Lemma with_base_within {A} (R : A -> Prop) dcr c f : (forall b, within n R (f b)) -> within n R (with_base dcr c f).
Proof. intros Hf. unfold with_base. destruct c; first [apply Hf | destruct (base_of dcr _); [apply Hf | exact I]]. Qed.

Lemma check_component_within dcr c : here dcr -> inside n (check_component dcr c).
Proof.
  intros Hd. unfold check_component, CheckConfigMountPath, DcrCheckSecretMountPath, DcrCheckSecretExist.
  repeat first [eapply (within_bind _ (fun _ => True)); [|intros ? _] | apply with_base_within; intros b].
  - generalize (∅ : gmap string ConfigMapMount). induction (GetMountConfigMapInfo _) as [|cm cms IH]; intros m;
      cbn [CheckConfigMountPath_go]; ns_go.
  - generalize (∅ : gmap string SecretMount). induction (bs_Secrets b) as [|s ss IH]; intros m;
      cbn [CheckSecretMountPath_go]; ns_go.
  - rewrite Hd. apply missing_secrets_within.
  - ns_go.
Qed.
#[local] Hint Resolve check_component_within : ns.

Lemma CheckSharedPVC_within dcr : here dcr -> inside n (CheckSharedPVC dcr).
Proof.
  intros Hd. unfold CheckSharedPVC. rewrite Hd. induction (SharedPersistentVolumeClaims _) as [|s ss IH];
    cbn [check_shared_claims]; unfold GetPVC; ns_go.
Qed.
#[local] Hint Resolve CheckSharedPVC_within : ns.

Lemma set_base_namespace c b dcr : dcr_Namespace (set_base c b dcr) = dcr_Namespace dcr.
Proof. by destruct c. Qed.
Lemma set_status_namespace c s dcr : dcr_Namespace (set_status c s dcr) = dcr_Namespace dcr.
Proof. by destruct c. Qed.

Lemma CheckRestartTimeAndInject_within dcr c : here dcr -> within n here1 (CheckRestartTimeAndInject dcr c).
Proof.
  intros Hd. unfold CheckRestartTimeAndInject. ns_go. all: unfold here1; cbn [fst]; by rewrite ?set_base_namespace.
Qed.
#[local] Hint Resolve CheckRestartTimeAndInject_within : ns.

Lemma InitStatus_within dcr c : here dcr -> within n here (InitStatus dcr c).
Proof. intros Hd. unfold InitStatus. ns_go. all: unfold here; by rewrite ?set_status_namespace. Qed.
#[local] Hint Resolve InitStatus_within : ns.

Lemma BuildCoreConfigmapStatusHash_within dcr c : inside n (BuildCoreConfigmapStatusHash dcr c).
Proof. unfold BuildCoreConfigmapStatusHash, GetConfigMap. ns_go. Qed.
#[local] Hint Resolve BuildCoreConfigmapStatusHash_within : ns.

Lemma CompareConfigmapAndTriggerRestart_within dcr s c : here dcr ->
  within n here (CompareConfigmapAndTriggerRestart dcr s c).
Proof.
  intros Hd. unfold CompareConfigmapAndTriggerRestart. ns_go. all: unfold here; by rewrite ?set_status_namespace.
Qed.
#[local] Hint Resolve CompareConfigmapAndTriggerRestart_within : ns.

Lemma FeAvailable_within dcr : here dcr -> inside n (FeAvailable dcr).
Proof. intros Hd. unfold FeAvailable. rewrite Hd. ns_go. Qed.
#[local] Hint Resolve FeAvailable_within : ns.

Lemma ClearCommonResources_within dcr c : here dcr -> inside n (ClearCommonResources dcr c).
Proof. intros Hd. unfold ClearCommonResources. rewrite Hd. ns_go. Qed.
#[local] Hint Resolve ClearCommonResources_within : ns.

Lemma ClassifyPodsByStatus_within s labels r c : inside n (ClassifyPodsByStatus n s labels r c).
Proof. unfold ClassifyPodsByStatus. ns_go. Qed.
#[local] Hint Resolve ClassifyPodsByStatus_within : ns.

(** ** Claims *)

Lemma set_capacity_namespace z pvc : m_Namespace (pvc_Meta (set_capacity z pvc)) = m_Namespace (pvc_Meta pvc).
Proof. done. Qed.

Lemma patch_claims_within z pvcs prepared : Forall (lives n KPvc) pvcs -> inside n (patch_claims z pvcs prepared).
Proof.
  intros Hp. revert prepared; induction Hp as [|pvc pvcs Hpvc _ IH]; intros prepared; cbn [patch_claims]; [exact I|].
  ns_step; [apply IH|]. unfold into_requests. case_decide; [exact I|]. ns_step; [exact Hpvc|]. eapply (within_bind _ (fun _ => True)); [destruct x; ns_go|]. intros _ _. apply IH.
Qed.

Lemma create_claims_within dcr sel sts v k left : here dcr -> inside n (create_claims dcr sel sts v k left).
Proof.
  intros Hd. revert k; induction left as [|left IH]; intros k; cbn [create_claims]; [exact I|]. cbv zeta. ns_step; [exact Hd|].
  eapply (within_bind _ (fun _ => True)); [ns_go|]. intros _ _. apply IH.
Qed.

Lemma prepare_volumes_within dcr sel sts r all pvcs vs prepared : here dcr -> Forall (lives n KPvc) pvcs ->
  inside n (prepare_volumes dcr sel sts r all pvcs vs prepared).
Proof.
  intros Hd Hp. revert prepared; induction vs as [|v vs IH]; intros prepared; cbn [prepare_volumes]; [exact I|].
  destruct (decide _); [|apply IH]. eapply (within_bind _ (fun _ => True)); [|intros ? _; apply IH]. unfold patchPVCs.
  eapply (within_bind _ (fun _ => True)); [apply patch_claims_within; rewrite Forall_forall in Hp; apply Forall_forall; intros pvc Hin%list_elem_of_In%List.filter_In; by apply Hp, list_elem_of_In, Hin|]. intros ok _. cbv zeta.
  eapply (within_bind _ (fun _ => True)); [ns_go|]. intros ok' _.
  eapply (within_bind _ (fun _ => True)); [by apply create_claims_within|]. by intros.
Qed.

Lemma delete_from_within dcr sel sts v k left err : here dcr -> inside n (delete_from dcr sel sts v k left err).
Proof.
  intros Hd. revert k err; induction left as [|left IH]; intros k err; cbn [delete_from]; [exact I|]. cbv zeta. rewrite Hd.
  eapply (within_bind _ (fun _ => True)); [apply DeletePVC_within|]. intros [e|] _; [|apply IH]. eapply (within_bind _ (fun _ => True)); [ns_go|]. intros _ _. apply IH.
Qed.
#[local] Hint Resolve delete_from_within : ns.

Lemma delete_surplus_within dcr sel sts r all pvcs vs err : here dcr -> inside n (delete_surplus dcr sel sts r all pvcs vs err).
Proof.
  intros Hd. revert err; induction vs as [|v vs IH]; intros err; cbn [delete_surplus]; [exact I|]. unfold deletePVCs. ns_go.
Qed.

Lemma with_claims_within {A} (R : A -> Prop) dcr c explain fail f : here dcr ->
  (forall e, within n R (fail e)) -> (forall vs pvcs, Forall (lives n KPvc) pvcs -> within n R (f vs pvcs)) ->
  within n R (with_claims dcr c explain fail f).
Proof.
  intros Hd Hfail Hf. unfold with_claims, GetFinalPersistentVolumes.
  assert (Hw : forall s m e, within n R (warn s m ;;; fail e)).
  { intros. eapply (within_bind _ (fun _ => True)); [ns_go|]. by intros. }
  eapply (within_bind _ (fun _ => True)).
  - apply with_base_within. intros b. ns_go.
  - intros [vs|e] _; [|apply Hw]. ns_step; [exact Hd|]. destruct x as [pvcs|e]; [by apply Hf | apply Hw].
Qed.

Lemma claim_replicas_within {A} (R : A -> Prop) dcr c f : (forall z, within n R (f z)) -> within n R (claim_replicas dcr c f).
Proof.
  intros Hf. unfold claim_replicas. destruct c; try apply Hf; destruct (base_of dcr _) as [b|]; try exact I; cbn [deref];
    destruct (bs_Replicas b); try exact I; apply Hf.
Qed.

Lemma PrepareReconcileResources_within dcr c : here dcr -> inside n (PrepareReconcileResources dcr c).
Proof.
  intros Hd.
  assert (Hp : inside n (prepare_component dcr c)).
  { unfold prepare_component. destruct (base_of dcr c) as [b|]; [cbn [deref]|exact I].
    destruct (bs_PersistentVolumes b); [exact I|]. apply claim_replicas_within. intros z.
    apply with_claims_within; [done..|]. intros vs pvcs Hl. by apply prepare_volumes_within. }
  by destruct c.
Qed.
#[local] Hint Resolve PrepareReconcileResources_within : ns.

Lemma RecycleResources_within dcr c : here dcr -> inside n (RecycleResources dcr c).
Proof.
  intros Hd. unfold RecycleResources, recycleFEResources. destruct c; try exact I.
  destruct (base_of dcr _) as [b|]; [cbn [deref]|exact I]. destruct (bs_PersistentVolumes b); [exact I|].
  apply claim_replicas_within. intros z. apply with_claims_within; [done..|]. intros vs pvcs _. by apply delete_surplus_within.
Qed.
#[local] Hint Resolve RecycleResources_within : ns.

(** ** Services and StatefulSets *)

Lemma BuildInternalService_namespace dcr c cfg svc :
  BuildInternalService dcr c cfg = Some svc -> svc_Namespace svc = dcr_Namespace dcr.
Proof. unfold BuildInternalService. intros Hs. simplify_option_eq. done. Qed.

Lemma BuildExternalService_namespace dcr c cfg svc :
  BuildExternalService dcr c cfg = Some svc -> svc_Namespace svc = dcr_Namespace dcr.
Proof.
  unfold BuildExternalService. intros Hs.
  destruct (match c with Component_FE => _ | _ => _ end) as [[es ports]|]; [|done]. injection Hs as <-.
  unfold constructServiceSpec, setServiceType. destruct es; cbn; repeat case_match; done.
Qed.

Lemma ServiceDeepEqual_namespace s e : svc_Namespace (ServiceDeepEqual s e).1 = svc_Namespace s.
Proof. done. Qed.

Lemma apply_service_within svc : svc_Namespace svc = n -> inside n (ApplyService svc ServiceDeepEqual).
Proof. intros Hs. apply ApplyService_within; [done | apply ServiceDeepEqual_namespace]. Qed.

Lemma apply_services_within dcr c cfg k : here dcr -> within n here1 k -> within n here1 (apply_services dcr c cfg k).
Proof.
  intros Hd Hk. unfold apply_services.
  destruct (BuildExternalService _ _ _) as [svc|] eqn:He; [cbn [assert_ok]|exact I]. apply BuildExternalService_namespace in He.
  destruct (BuildInternalService _ _ _) as [isvc|] eqn:Hi; [cbn [assert_ok]|exact I]. apply BuildInternalService_namespace in Hi.
  eapply within_bind; [apply apply_service_within; congruence|]. intros [e|] _; [exact Hd|].
  eapply within_bind; [apply apply_service_within; congruence|]. intros [e|] _; [exact Hd | exact Hk].
Qed.

Lemma NewStatefulSet_namespace dcr cfg c st : NewStatefulSet dcr cfg c = Some st -> st_Namespace st = dcr_Namespace dcr.
Proof. unfold NewStatefulSet. intros Hs. simplify_option_eq. repeat case_match; simplify_option_eq; done. Qed.

Lemma RestrictConditionsEqual_namespace st est : st_Namespace (RestrictConditionsEqual st est) = st_Namespace st.
Proof. unfold RestrictConditionsEqual. repeat case_match; done. Qed.

Lemma StatefulSetDeepEqual_namespace st est b r : StatefulSetDeepEqual st est b = Some r -> st_Namespace r.1 = st_Namespace st.
Proof.
  unfold StatefulSetDeepEqual. destruct (StatefulsetDeepEqualWithKey st est _ b) as [new equal] eqn:Hq.
  assert (Hn : st_Namespace new = st_Namespace st) by (unfold StatefulsetDeepEqualWithKey in Hq; by injection Hq as <- _).
  unfold clear_config_env_path_numbers_alwaysEquals. intros Hr. repeat (case_match; simplify_option_eq); done.
Qed.

Lemma apply_dcr_statefulset_within st equal pasfs : st_Namespace st = n ->
  (forall s e u, st_Namespace s = n -> within n (fun r => st_Namespace r.1.1 = n) (equal s e u)) ->
  Forall (fun f : StatefulSet -> option StatefulSet -> StatefulSet => forall s o, st_Namespace (f s o) = st_Namespace s) pasfs ->
  inside n (apply_stateful_set st tt equal pasfs).
Proof.
  intros Hst He Hp. eapply inside_mono, (apply_stateful_set_within n (fun _ => True)); [done..| |done].
  intros s e u _ Hs. eapply within_mono; [by apply He|]. intros r Hr. by split.
Qed.

Lemma restricted_equal_within s e u : st_Namespace s = n -> within n (fun r => st_Namespace r.1.1 = n) (restricted_equal s e u).
Proof.
  intros Hs. unfold restricted_equal. destruct (StatefulSetDeepEqual _ _ _) as [[s' b]|] eqn:Hq; [|exact I].
  apply StatefulSetDeepEqual_namespace in Hq. cbn in Hq |- *. rewrite RestrictConditionsEqual_namespace in Hq.
  apply within_ret. cbn. congruence.
Qed.
Lemma plain_equal_within s e u : st_Namespace s = n -> within n (fun r => st_Namespace r.1.1 = n) (DcrBe.Broker.plain_equal s e u).
Proof.
  intros Hs. unfold DcrBe.Broker.plain_equal. destruct (StatefulSetDeepEqual _ _ _) as [[s' b]|] eqn:Hq; [|exact I].
  apply StatefulSetDeepEqual_namespace in Hq. apply within_ret. cbn in *. congruence.
Qed.

(** ** Builders of pods *)

Lemma fe_access_within dcr c : inside n (fe_access dcr c).
Proof. unfold fe_access. ns_go. Qed.
#[local] Hint Resolve fe_access_within : ns.
Lemma member_container_within dcr cfg c name last : inside n (member_container dcr cfg c name last).
Proof. unfold member_container. ns_go. Qed.
#[local] Hint Resolve member_container_within : ns.
Lemma component_config_within dcr b c : inside n (component_config dcr b c).
Proof. unfold component_config. ns_go. Qed.
#[local] Hint Resolve component_config_within : ns.

Lemma buildFEPodTemplateSpec_within dcr cfg : inside n (buildFEPodTemplateSpec dcr cfg).
Proof. unfold buildFEPodTemplateSpec. ns_go. Qed.
Lemma buildBEPodTemplateSpec_within dcr cfg : here dcr -> within n here1 (buildBEPodTemplateSpec dcr cfg).
Proof.
  intros Hd. unfold buildBEPodTemplateSpec, beContainer. ns_step; [|exact I]. ns_step; [|exact I].
  destruct (be_affinity _ _). ns_go.
Qed.
Lemma buildCnPodTemplateSpec_within dcr cfg : inside n (buildCnPodTemplateSpec dcr cfg).
Proof. unfold buildCnPodTemplateSpec, cnContainer. ns_go. Qed.
Lemma buildBrokerPodTemplateSpec_within dcr cfg : here dcr -> within n here1 (buildBrokerPodTemplateSpec dcr cfg).
Proof.
  intros Hd. unfold buildBrokerPodTemplateSpec, brokerContainer. ns_step; [|exact I]. ns_step; [|exact I].
  destruct (addDefaultBorkerPodAffinity _ _). ns_go.
Qed.
#[local] Hint Resolve buildFEPodTemplateSpec_within buildBEPodTemplateSpec_within buildCnPodTemplateSpec_within
  buildBrokerPodTemplateSpec_within : ns.

(** ** FE *)

Lemma set_fe_replicas_namespace z dcr : dcr_Namespace (set_fe_replicas z dcr) = dcr_Namespace dcr.
Proof. unfold set_fe_replicas. by destruct (base_of dcr _). Qed.

Lemma safeScaleDown_within dcr fe nr or : here dcr -> within n here (safeScaleDown dcr fe nr or).
Proof. intros Hd. unfold safeScaleDown. ns_go. all: unfold here; by rewrite set_fe_replicas_namespace. Qed.
#[local] Hint Resolve safeScaleDown_within : ns.

Lemma dropObserverBySqlClient_within dcr : here dcr -> inside n (DcrFe.dropObserverBySqlClient dcr).
Proof.
  intros Hd. unfold DcrFe.dropObserverBySqlClient, GetSecret. rewrite Hd. ns_go.
Qed.
#[local] Hint Resolve dropObserverBySqlClient_within : ns.

Lemma prepareStatefulsetApply_within dcr s : here dcr -> within n here1 (DcrFe.prepareStatefulsetApply dcr s).
Proof.
  intros Hd. unfold DcrFe.prepareStatefulsetApply. ns_step; [exact Hd|]. destruct x as [old|e]; [|exact Hd].
  ns_step; [|exact I].
  match goal with |- context [match ?o with Some n0 => (dcr, n0) | None => _ end] =>
    assert (Hr : here (match o with Some n0 => (dcr, n0) | None => (set_fe_replicas 0 dcr, 0) end).1)
      by (destruct o; [exact Hd | unfold here; cbn; by rewrite set_fe_replicas_namespace]);
    generalize dependent (match o with Some n0 => (dcr, n0) | None => (set_fe_replicas 0 dcr, 0) end) end.
  intros [dcr1 nr] Hd1. cbn [fst] in Hd1. ns_step; [|exact I].
  eapply within_bind; [by apply safeScaleDown_within|]. intros dcr2 Hd2. ns_step; [|exact I]. ns_step.
  - ns_go.
  - ns_step; [|exact Hd2]. eapply within_bind; [by apply CheckRestartTimeAndInject_within|]. intros [dcr3 inject] Hd3.
    cbn in Hd3. ns_go.
Qed.

Lemma dcr_fe_Sync_within dcr : here dcr -> within n here1 (DcrFe.Sync buildFEPodTemplateSpec dcr).
Proof.
  intros Hd. unfold DcrFe.Sync. destruct (FeSpec_ (dcr_Spec dcr)) as [fe|]; [|exact Hd]. cbv zeta.
  eapply within_bind; [by apply InitStatus_within|]. intros dcr1 Hd1.
  eapply (within_bind _ here); [ns_go|]. intros dcr2 Hd2.
  eapply (within_bind _ (fun _ => True)); [ns_go|]. intros [cfg [e|]] _; [exact Hd2|]. cbn [or_fail].
  eapply (within_bind _ (fun _ => True)); [ns_go|]. intros _ _.
  eapply (within_bind _ (fun _ => True)); [ns_go|]. intros _ _.
  apply apply_services_within; [done|].
  eapply (within_bind _ (fun _ => True)); [ns_go|]. intros [] _; [|exact Hd2]. unfold DcrFe.sync_statefulset.
  eapply within_bind; [by apply prepareStatefulsetApply_within|]. intros [dcr3 [e|]] Hd3; [exact Hd3|]. cbn [or_fail].
  unfold DcrFe.buildFEStatefulSet. destruct (NewStatefulSet _ _ _) as [st|] eqn:Hst; [|exact I]. apply NewStatefulSet_namespace in Hst.
  cbn in Hd3. eapply (within_bind _ (fun st => st_Namespace st = n)).
  - eapply (within_bind _ (fun _ => True)); [ns_go|]. intros t _. apply within_ret. cbn. unfold here in *. by rewrite <- Hd3.
  - intros st' Hst'. eapply (within_bind _ (fun _ => True)).
    + apply apply_dcr_statefulset_within; [done | apply restricted_equal_within | constructor].
    + intros [? ?] _. exact Hd3.
Qed.

Lemma dcr_fe_ClearResources_within dcr : here dcr -> within n here1 (DcrFe.ClearResources dcr).
Proof. intros Hd. unfold DcrFe.ClearResources. ns_go. Qed.

Lemma dcr_fe_UpdateComponentStatus_within dcr : here dcr -> within n here1 (DcrFe.UpdateComponentStatus dcr).
Proof. intros Hd. unfold DcrFe.UpdateComponentStatus. rewrite Hd. ns_go. Qed.

(** ** BE and broker *)

Lemma clear_when_removed_within {A} dcr (s : option A) c : here dcr -> within n here1 (DcrBe.clear_when_removed dcr s c).
Proof. intros Hd. unfold DcrBe.clear_when_removed. ns_go. Qed.

(** A StatefulSet of the cluster with the template of its pods. *)
Lemma build_statefulset_within dcr cfg c (template : op (Dcr * PodTemplateSpec)) : here dcr -> within n here1 template ->
  within n (fun r => here r.1 /\ st_Namespace r.2 = n)
    (assert_ok (NewStatefulSet dcr cfg c) (fun st =>
     let! '(dcr, template) := template in Ret (dcr, st <| st_Template := template |>))).
Proof.
  intros Hd Ht. destruct (NewStatefulSet _ _ _) as [st|] eqn:Hst; [cbn [assert_ok]|exact I]. apply NewStatefulSet_namespace in Hst.
  eapply within_bind; [exact Ht|]. intros [dcr' t] Hd'. split; [exact Hd'|]. by transitivity (dcr_Namespace dcr).
Qed.

Lemma be_prepareStatefulsetApply_within dcr s : here dcr -> within n here1 (DcrBe.Be.prepareStatefulsetApply dcr s).
Proof.
  intros Hd. unfold DcrBe.Be.prepareStatefulsetApply. destruct (decide _); [|exact Hd].
  eapply within_bind; [by apply CheckRestartTimeAndInject_within|]. intros [dcr' inject] Hd'. cbn in Hd'. ns_go.
Qed.

Lemma be_Sync_within dcr : here dcr -> within n here1 (DcrBe.Be.Sync buildBEPodTemplateSpec dcr).
Proof.
  intros Hd. unfold DcrBe.Be.Sync. destruct (BeSpec_ (dcr_Spec dcr)) as [be|]; [|exact Hd]. cbv zeta.
  eapply within_bind; [by apply InitStatus_within|]. intros dcr1 Hd1.
  eapply (within_bind _ (fun _ => True)); [ns_go|]. intros [] _; [|exact Hd1]. cbn [negb].
  eapply (within_bind _ here); [ns_go|]. intros dcr2 Hd2.
  eapply (within_bind _ (fun _ => True)); [ns_go|]. intros [cfg [e|]] _; [exact Hd2|]. cbn [or_fail].
  eapply (within_bind _ (fun _ => True)); [ns_go|]. intros _ _.
  apply apply_services_within; [done|].
  eapply within_bind; [by apply be_prepareStatefulsetApply_within|]. intros [dcr3 [e|]] Hd3; [exact Hd3|]. cbn [or_fail].
  eapply within_bind; [apply build_statefulset_within; [exact Hd3 | by apply buildBEPodTemplateSpec_within]|].
  intros [dcr4 st] [Hd4 Hst]. cbn in Hd4, Hst.
  eapply (within_bind _ (fun _ => True)); [ns_go|]. intros [] _; [|exact Hd4].
  eapply (within_bind _ (fun _ => True)); [|intros [? ?] _; exact Hd4].
  apply apply_dcr_statefulset_within; [done | apply restricted_equal_within | by repeat constructor].
Qed.

Lemma be_UpdateComponentStatus_within dcr : here dcr -> within n here1 (DcrBe.Be.UpdateComponentStatus dcr).
Proof. intros Hd. unfold DcrBe.Be.UpdateComponentStatus. rewrite Hd. ns_go. Qed.

Lemma broker_Sync_within dcr : here dcr -> within n here1 (DcrBe.Broker.Sync buildBrokerPodTemplateSpec dcr).
Proof.
  intros Hd. unfold DcrBe.Broker.Sync. destruct (BrokerSpec_ (dcr_Spec dcr)) as [broker|]; [|exact Hd].
  eapply (within_bind _ (fun _ => True)); [ns_go|]. intros [] _; [|exact Hd]. cbn [negb].
  eapply (within_bind _ (fun _ => True)); [ns_go|]. intros [cfg [e|]] _; [exact Hd|]. cbn [or_fail].
  eapply (within_bind _ (fun _ => True)); [ns_go|]. intros _ _.
  destruct (BuildInternalService _ _ _) as [svc|] eqn:Hs; [cbn [assert_ok]|exact I]. apply BuildInternalService_namespace in Hs.
  eapply within_bind; [apply apply_service_within; unfold here in Hd; congruence|]. intros [e|] _; [exact Hd|]. cbn [or_fail].
  eapply within_bind; [apply build_statefulset_within; [exact Hd | by apply buildBrokerPodTemplateSpec_within]|].
  intros [dcr4 st] [Hd4 Hst]. cbn in Hd4, Hst.
  eapply (within_bind _ (fun _ => True)); [|intros [? ?] _; exact Hd4].
  apply apply_dcr_statefulset_within; [done | apply plain_equal_within | constructor].
Qed.

Lemma broker_UpdateComponentStatus_within dcr : here dcr -> within n here1 (DcrBe.Broker.UpdateComponentStatus dcr).
Proof. intros Hd. unfold DcrBe.Broker.UpdateComponentStatus. rewrite Hd. ns_go. Qed.

(** ** Compute nodes *)

Lemma MergeStatefulSets_namespace st est : st_Namespace (MergeStatefulSets st est) = st_Namespace st.
Proof. done. Qed.

Lemma cn_applyStatefulSet_within st b : st_Namespace st = n -> inside n (DcrCn.applyStatefulSet st b).
Proof.
  intros Hst. unfold DcrCn.applyStatefulSet, CreateClientObject, UpdateClientObject. ns_step; [exact Hst|].
  destruct x as [est|e]; [|ns_go]. destruct (StatefulSetDeepEqual _ _ _) as [[s' eq]|] eqn:Hq; [cbn [deref]|exact I].
  apply StatefulSetDeepEqual_namespace in Hq. cbn in Hq. rewrite RestrictConditionsEqual_namespace in Hq.
  assert (Hs' : st_Namespace s' = n) by congruence. ns_go.
Qed.

Lemma deployAutoScaler_within policy st dcr v : st_Namespace st = n -> inside n (DcrCn.deployAutoScaler policy st dcr v).
Proof.
  intros Hst. unfold DcrCn.deployAutoScaler, CreateOrUpdateClientObject. cbv zeta. cbn [pap_AutoscalerType DcrCn.buildCnAutoscalerParams].
  destruct v; [..|exact I]; (apply within_call; [exact Hst|]; intros [e|] _; cbn [bind]; [|exact I];
    destruct (IsNotFound e); [|exact I]; apply within_call; [exact Hst | done]).
Qed.

Lemma DeleteAutoscaler_within name v : inside n (Client.DeleteAutoscaler n name v).
Proof. unfold Client.DeleteAutoscaler. ns_go. Qed.
#[local] Hint Resolve DeleteAutoscaler_within : ns.

Lemma cn_DeleteAutoscaler_within dcr : here dcr -> within n here1 (DcrCn.DeleteAutoscaler_ dcr).
Proof. intros Hd. unfold DcrCn.DeleteAutoscaler_. rewrite Hd. ns_go. Qed.

Lemma cn_ClearResources_within dcr : here dcr -> within n here1 (DcrCn.ClearResources dcr).
Proof.
  intros Hd. unfold DcrCn.ClearResources. ns_step; [|exact Hd]. ns_step; [|exact I].
  eapply (within_bind _ here).
  - ns_step; [exact Hd|]. eapply within_bind; [by apply cn_DeleteAutoscaler_within|]. intros [dcr' [e|]] Hd'; cbn in Hd'; ns_go.
  - intros dcr' Hd'. ns_go.
Qed.

Lemma cn_Sync_within dcr : here dcr -> within n here1 (DcrCn.Sync buildCnPodTemplateSpec dcr).
Proof.
  intros Hd. unfold DcrCn.Sync. destruct (CnSpec_ (dcr_Spec dcr)) as [cn|].
  2:{ eapply within_bind; [by apply cn_ClearResources_within|]. intros [dcr' [? ?]] Hd'. exact Hd'. }
  eapply (within_bind _ (fun _ => True)); [ns_go|]. intros [] _; [|exact Hd]. cbn [negb]. unfold DcrCn.cn_GetConfig.
  eapply (within_bind _ (fun _ => True)); [ns_go|]. intros [cfg [e|]] _; [exact Hd|]. cbn [or_fail].
  eapply (within_bind _ (fun _ => True)); [ns_go|]. intros _ _.
  apply apply_services_within; [done|]. unfold DcrCn.buildCnStatefulSet.
  destruct (NewStatefulSet _ _ _) as [st|] eqn:Hst; [cbn [assert_ok]|exact I]. apply NewStatefulSet_namespace in Hst.
  eapply (within_bind _ (fun st => st_Namespace st = n)).
  { eapply (within_bind _ (fun _ => True)); [ns_go|]. intros t _. apply within_ret. by transitivity (dcr_Namespace dcr). }
  intros st' Hst'. eapply (within_bind _ (fun _ => True)); [ns_go|]. intros [] _; [|exact Hd]. cbn [negb].
  eapply within_bind; [by apply cn_applyStatefulSet_within|]. intros [e|] _; [exact Hd|]. cbn [or_fail].
  destruct (cn_AutoScalingPolicy cn); [|exact Hd].
  eapply within_bind; [by apply deployAutoScaler_within|]. intros _ _. exact Hd.
Qed.

Lemma cn_UpdateComponentStatus_within dcr : here dcr -> within n here1 (DcrCn.UpdateComponentStatus dcr).
Proof. intros Hd. unfold DcrCn.UpdateComponentStatus. rewrite Hd. ns_go. Qed.

(** ** The reconciler *)

(** A sub-controller whose operations stay in the namespace. *)
Record dcr_stays (c : DcrReconciler.SubController) : Prop := {
  dcr_stays_Sync : forall dcr, here dcr -> within n here1 (DcrReconciler.sc_Sync c dcr);
  dcr_stays_ClearResources : forall dcr, here dcr -> within n here1 (DcrReconciler.sc_ClearResources c dcr);
  dcr_stays_UpdateComponentStatus : forall dcr, here dcr -> within n here1 (DcrReconciler.sc_UpdateComponentStatus c dcr)
}.

Lemma dcr_controllers_stay : Forall dcr_stays DcrReconciler.Scs.
Proof.
  unfold DcrReconciler.Scs. repeat (apply Forall_cons_2; [constructor|]); [..|apply Forall_nil_2];
    cbn [DcrReconciler.sc_Sync DcrReconciler.sc_ClearResources DcrReconciler.sc_UpdateComponentStatus DcrReconciler.feController
         DcrReconciler.beController DcrReconciler.cnController DcrReconciler.brokerController]; intros dcr Hd.
  - by apply dcr_fe_Sync_within.
  - by apply dcr_fe_ClearResources_within.
  - by apply dcr_fe_UpdateComponentStatus_within.
  - by apply be_Sync_within.
  - by apply clear_when_removed_within.
  - by apply be_UpdateComponentStatus_within.
  - by apply cn_Sync_within.
  - by apply cn_ClearResources_within.
  - by apply cn_UpdateComponentStatus_within.
  - by apply broker_Sync_within.
  - by apply clear_when_removed_within.
  - by apply broker_UpdateComponentStatus_within.
Qed.

Lemma until_failure_within f scs dcr : Forall (fun c => forall dcr, here dcr -> within n here1 (f c dcr)) scs -> here dcr ->
  within n here1 (DcrReconciler.until_failure f scs dcr).
Proof.
  intros Hs. revert dcr; induction Hs as [|c scs Hc _ IH]; intros dcr Hd; cbn [DcrReconciler.until_failure]; [exact Hd|].
  eapply within_bind; [by apply Hc|]. intros [dcr' [e|]] Hd'; [exact Hd' | by apply IH].
Qed.

Lemma clear_all_within scs dcr : Forall dcr_stays scs -> here dcr -> within n here (DcrReconciler.clear_all scs dcr).
Proof.
  intros Hs. revert dcr; induction Hs as [|c scs Hc _ IH]; intros dcr Hd; cbn [DcrReconciler.clear_all]; [exact Hd|].
  eapply within_bind; [by apply (dcr_stays_ClearResources c Hc)|]. intros [dcr' r] Hd'. by apply IH.
Qed.

Lemma revert_within old dcr : here dcr -> within n here1 (DcrReconciler.revertDorisClusterSomeFields old dcr).
Proof. intros Hd. unfold DcrReconciler.revertDorisClusterSomeFields, ApplyDorisCluster. ns_go. Qed.

Lemma updateDorisClusterStatus_within dcr : here dcr -> inside n (DcrReconciler.updateDorisClusterStatus dcr).
Proof.
  intros Hd. unfold DcrReconciler.updateDorisClusterStatus. ns_step; [exact Hd|]. destruct x as [edcr|e]; [|exact I].
  destruct (DcrReconciler.inconsistentStatus _ _) as [status differs]. cbv zeta.
  assert (Hw : forall k d, here d -> inside n (DcrReconciler.update_attempts k d)).
  { induction k as [|k IH]; intros d Hd'; cbn [DcrReconciler.update_attempts]; [exact I|]. ns_step; [exact Hd'|].
    destruct x; [|exact I]. destruct (IsConflict _); [|exact I]. destruct k; [exact I | by apply IH]. }
  assert (Hs : forall d, here d -> inside n (let! err := DcrReconciler.update_attempts 4 d in Ret (DdcReconciler.noResult, err))).
  { intros d Hd'. eapply within_bind; [by apply Hw|]. by intros. }
  destruct differs; [by apply Hs|]. destruct (DcrReconciler.reconcile _) as [[]|]; [exact I | by apply Hs | exact I].
Qed.

Lemma dcr_pass_within order1 order2 order3 edcr (watched : strmap) :
  Forall dcr_stays order1 -> Forall dcr_stays order2 -> Forall dcr_stays order3 -> here edcr ->
  inside n (
    let! '(dcr, err) := DcrReconciler.until_failure DcrReconciler.sc_Sync order1 edcr in
    match err with
    | Some e => Ret (watched, (DdcReconciler.noResult, Some e))
    | None =>
        let! dcr := DcrReconciler.clearNoEffectResources order2 dcr in
        let! '(dcr, err) := DcrReconciler.until_failure DcrReconciler.sc_UpdateComponentStatus order3 dcr in
        match err with
        | Some e => Ret (watched, (DdcReconciler.noResult, Some e))
        | None =>
            let! '(dcr, err) := DcrReconciler.revertDorisClusterSomeFields edcr dcr in
            match err with
            | Some e => Ret (watched, (DdcReconciler.noResult, Some e))
            | None => let! r := DcrReconciler.updateDorisClusterStatus dcr in Ret (watched, r)
            end
        end
    end).
Proof.
  intros H1 H2 H3 Hd. eapply within_bind.
  { apply until_failure_within; [|exact Hd]. eapply Forall_impl; [exact H1 | intros c Hc; apply (dcr_stays_Sync c Hc)]. }
  intros [dcr1 [e|]] Hd1; [exact I|]. eapply within_bind; [apply (clear_all_within _ _ H2 Hd1)|]. intros dcr2 Hd2.
  eapply within_bind.
  { apply until_failure_within; [|exact Hd2].
    eapply Forall_impl; [exact H3 | intros c Hc; apply (dcr_stays_UpdateComponentStatus c Hc)]. }
  intros [dcr3 [e|]] Hd3; [exact I|]. eapply within_bind; [by apply revert_within|]. intros [dcr4 [e|]] Hd4; [exact I|].
  eapply within_bind; [by apply updateDorisClusterStatus_within|]. by intros.
Qed.
End pass.

(** C12: A pass over a DorisCluster stays in the namespace of the cluster: with
    the four controllers of the operator in whatever orders the loops take,
    every object that the pass reads, lists, creates, updates, patches or
    deletes, autoscalers and claims included, is in the namespace of the
    request; only config maps are read elsewhere.  It holds as long as the API
    server answers with objects of the namespace that it is asked for; a first
    fetch that fails ends the pass. *)
Theorem doris_pass_stays_in_namespace `{External} (order1 order2 order3 : list DcrReconciler.SubController) (ns name : string)
    (watched : strmap) (Hns : ns <> "") (H1 : order1 ≡ₚ DcrReconciler.Scs) (H2 : order2 ≡ₚ DcrReconciler.Scs)
    (H3 : order3 ≡ₚ DcrReconciler.Scs) :
  wp (DcrReconciler.Reconcile order1 order2 order3 ns name watched)
    (fun tr _ => Forall lawful tr -> Forall (event_within ns) tr).
Proof.
  assert (Hall : forall order, order ≡ₚ DcrReconciler.Scs -> Forall (dcr_stays ns) order)
    by (intros order ->; apply dcr_controllers_stay).
  apply exec_wp. intros tr o Hex Hl. refine (proj1 (within_exec ns (fun _ => True) _ tr o Hns _ Hex Hl)).
  unfold DcrReconciler.Reconcile. apply within_call; [reflexivity|]. intros [edcr|err] Hd; cbn [bind].
  - change (dcr_Namespace edcr = ns) in Hd. destruct (m_DeletionTimestamp _).
    + eapply within_bind; [apply (clear_all_within ns _ _ (Hall _ H2) Hd)|]. by intros.
    + apply dcr_pass_within; [by apply Hall..|exact Hd].
  - by destruct (IsNotFound err).
Qed.

(** ** Witnesses *)

Local Existing Instance demo_external.

Definition demo_dcr_trace : trace :=
  (run (dcr_env demo_dcr) (DcrReconciler.Reconcile DcrReconciler.Scs DcrReconciler.Scs DcrReconciler.Scs "ns" "c" ∅)
     demo_fe_world).1.1.

Lemma doris_pass_stays_in_namespace_witness :
  length demo_dcr_trace = 21%nat /\ Forall (event_within "ns") demo_dcr_trace.
Proof.
  split; [vm_compute; reflexivity|].
  refine (wp_exec _ _ (doris_pass_stays_in_namespace DcrReconciler.Scs DcrReconciler.Scs DcrReconciler.Scs "ns" "c" ∅
    ltac:(done) ltac:(reflexivity) ltac:(reflexivity) ltac:(reflexivity)) _ _
    (run_exec (dcr_env demo_dcr) _ demo_fe_world) _).
  apply answers_lawful. vm_compute. reflexivity.
Defined.
