(* ===== verification/Converge.v ===== *)
(** Passes that converge: a shelf of services and StatefulSets that accepts
    what is written, and programs whose second pass over it, once their objects
    exist, changes nothing.  Here are the shelf, the notion of a converging
    program with its rules of composition, and the steps that apply one object;
    [ConvergeProps] composes them to the passes of the controllers. *)

From Stdlib Require Import ZArith Lia.
From stdpp Require Import base list gmap strings.
From S2P Require Import Prelude GoStr KubeTypes DdcApi Client Traces Mysql Resource External SubDefault Demo.
From S2P Require Import DcrApi DcrResource DcrSub DcrFe DcrTraces.

Local Open Scope string_scope.
Local Open Scope Z_scope.
Local Open Scope dop_scope.

(** ** A shelf of objects *)

(** The API server: what it stores for an object that is created or patched,
    its defaults included, and its answers to the other calls. *)
Record Server := mkServer {
  sv_answer : forall X, OpE X -> X;
  sv_service_created : Service -> Service;
  sv_service_patched : Service -> Service -> Service;
  sv_sts_created : StatefulSet -> StatefulSet;
  sv_sts_patched : StatefulSet -> StatefulSet -> StatefulSet
}.

(** What it keeps of the object that is written: its annotations, its namespace
    and its replicas; the claim templates of a StatefulSet are immutable. *)
Class Keeps (sv : Server) : Prop := {
  service_patched_annotations old s : svc_Annotations s ⊆ svc_Annotations (sv_service_patched sv old s);
  service_patched_namespace old s : svc_Namespace (sv_service_patched sv old s) = svc_Namespace s;
  sts_created_replicas s r : st_Replicas s = Some r -> st_Replicas (sv_sts_created sv s) = Some r;
  sts_patched_annotations old s : st_Annotations s ⊆ st_Annotations (sv_sts_patched sv old s);
  sts_patched_namespace old s : st_Namespace (sv_sts_patched sv old s) = st_Namespace s;
  sts_patched_replicas old s r : st_Replicas s = Some r -> st_Replicas (sv_sts_patched sv old s) = Some r;
  sts_patched_claims old s : st_VolumeClaimTemplates (sv_sts_patched sv old s) = st_VolumeClaimTemplates old
}.

(** A service or a StatefulSet, by its name. *)
Inductive cell := ServiceCell (name : string) | StsCell (name : string).
#[export] Instance cell_eq_dec : EqDecision cell.
Proof. solve_decision. Defined.
#[export] Instance cell_countable : Countable cell.
Proof.
  refine (inj_countable' (fun c => match c with ServiceCell n => inl n | StsCell n => inr n end)
            (fun x => match x with inl n => ServiceCell n | inr n => StsCell n end) _). by intros [].
Defined.
Inductive stored := StoredService (s : Service) | StoredSts (s : StatefulSet).
Abbreviation shelf := (gmap cell stored).

Definition absent : goerr := mkErr ReasonNotFound "not found".
Definition present : goerr := mkErr ReasonAlreadyExists "already exists".

Definition service_at (name : string) (s : shelf) : option Service :=
  match s !! ServiceCell name with Some (StoredService o) => Some o | _ => None end.
Definition sts_at (name : string) (s : shelf) : option StatefulSet :=
  match s !! StsCell name with Some (StoredSts o) => Some o | _ => None end.
Definition found {A} (o : option A) : res A := match o with Some a => Ok a | None => Er absent end.

Definition create_service (sv : Server) (o : Service) (s : shelf) : option goerr * shelf :=
  match service_at (svc_Name o) s with
  | Some _ => (Some present, s)
  | None => (None, <[ServiceCell (svc_Name o) := StoredService (sv_service_created sv o)]> s)
  end.
Definition patch_service (sv : Server) (o : Service) (s : shelf) : option goerr * shelf :=
  match service_at (svc_Name o) s with
  | Some old => (None, <[ServiceCell (svc_Name o) := StoredService (sv_service_patched sv old o)]> s)
  | None => (Some absent, s)
  end.
Definition create_sts (sv : Server) (o : StatefulSet) (s : shelf) : option goerr * shelf :=
  match sts_at (st_Name o) s with
  | Some _ => (Some present, s)
  | None => (None, <[StsCell (st_Name o) := StoredSts (sv_sts_created sv o)]> s)
  end.
Definition patch_sts (sv : Server) (o : StatefulSet) (s : shelf) : option goerr * shelf :=
  match sts_at (st_Name o) s with
  | Some old => (None, <[StsCell (st_Name o) := StoredSts (sv_sts_patched sv old o)]> s)
  | None => (Some absent, s)
  end.

(** The shelf answers the calls on services and StatefulSets but deletions,
    which no pass makes on its way to apply them; the server answers the rest. *)
Definition shelf_env (sv : Server) (X : Type) (e : OpE X) (s : shelf) : X * shelf :=
  match e in OpE X return X -> X * shelf with
  | CGet k _ name =>
      match k return res (obj k) -> res (obj k) * shelf with
      | KSvc => fun _ => (found (service_at name s), s)
      | KSts => fun _ => (found (sts_at name s), s)
      | _ => fun x => (x, s)
      end
  | CCreate k o =>
      match k return obj k -> option goerr -> option goerr * shelf with
      | KSvc => fun o _ => create_service sv o s
      | KSts => fun o _ => create_sts sv o s
      | _ => fun _ x => (x, s)
      end o
  | CPatchMerge k o | CUpdate k o =>
      match k return obj k -> option goerr -> option goerr * shelf with
      | KSvc => fun o _ => patch_service sv o s
      | KSts => fun o _ => patch_sts sv o s
      | _ => fun _ x => (x, s)
      end o
  | _ => fun x => (x, s)
  end (sv_answer sv X e).

(** ** Calls that write on the shelf *)

Definition writes_shelf (e : event OpE) : bool :=
  match e with
  | Ev (CCreate k _) _ | Ev (CPatchMerge k _) _ | Ev (CUpdate k _) _ | Ev (CDelete k _) _ => on_shelf k
  | _ => false
  end.
Definition unwritten (e : event OpE) : Prop := writes_shelf e = false.

Abbreviation pass := (op (Dcr * option goerr)).

#[local] Arguments apply_stateful_set : simpl never.
#[local] Arguments ApplyService : simpl never.

Section shelf.
Context `{Hext : External}.
Context (sv : Server).
Local Abbreviation env := (shelf_env sv).

(** A program that does not touch the shelf does the same on every shelf. *)
Lemma free_runs {A} (p : op A) : only shelf_free p -> exists tr o, Forall shelf_free tr /\ forall s, run env p s = (tr, o, s).
Proof.
  intros Hp. pose proof (run_exec env p ∅) as Hex. apply (spec_exec _ _ _ _ _ Hp) in Hex as [Hf _].
  enough (Hs : forall s s', Forall shelf_free (run env p s).1.1 -> run env p s' = ((run env p s).1, s')).
  { exists (run env p ∅).1.1, (run env p ∅).1.2. split; [exact Hf|]. intros s. rewrite (Hs ∅ s Hf). by destruct (run env p ∅) as [[? ?] ?]. }
  clear Hp Hf. induction p as [a|w|X e k IH]; intros s s'; cbn [run]; [done..|].
  destruct (env X e s) as [x s1] eqn:Hx. intros Hf.
  assert (He : shelf_free (Ev e x) /\ Forall shelf_free (run env (k x) s1).1.1).
  { destruct (run env (k x) s1) as [[tr o] s2]. cbn in *. by apply Forall_cons in Hf. }
  destruct He as [He Hk].
  assert (Hs : s1 = s /\ env X e s' = (x, s')).
  { destruct e; cbn in Hx |- *; try (injection Hx as <- <-; by split); destruct k0; try done; by injection Hx as <- <-. }
  destruct Hs as [-> ->]. rewrite (IH x s s' Hk). by destruct (run env (k x) s) as [[? ?] ?].
Qed.

(** ** Converging programs *)

(** [p] writes nothing on the shelf [s]. *)
Definition calm {A} (p : op A) (s : shelf) : Prop := Forall unwritten (run env p s).1.1 /\ (run env p s).2 = s.
(** [p] ends without an error. *)
Definition succeeds (p : pass) (s : shelf) : Prop := exists d, (run env p s).1.2 = Done (d, None).
Definition agree (W : gset cell) (s s' : shelf) : Prop := forall c, c ∈ W -> s !! c = s' !! c.
Definition filled (s : shelf) (c : cell) : Prop :=
  match c with ServiceCell n => is_Some (service_at n s) | StsCell n => is_Some (sts_at n s) end.

(** Whatever else is on the shelf: nothing is written, or it is so after one
    more pass that succeeds. *)
Definition steady (W : gset cell) (p : pass) (s : shelf) : Prop := forall s', agree W s s' -> calm p s'.
Definition warm (W : gset cell) (p : pass) (s : shelf) : Prop :=
  forall s', agree W s s' -> succeeds p s' -> steady W p (run env p s').2.

(** The pass writes on the cells of [W] alone; it is warm once it succeeded or
    once its objects exist. *)
Record converges (W : gset cell) (p : pass) : Prop := {
  converges_frame s c : c ∉ W -> (run env p s).2 !! c = s !! c;
  converges_first s : succeeds p s -> warm W p (run env p s).2;
  converges_filled s : (forall c, c ∈ W -> filled s c) -> warm W p s
}.

#[export] Instance agree_sym W : Symmetric (agree W).
Proof. intros s s' H c Hc. symmetry. by apply H. Qed.
#[export] Instance agree_trans W : Transitive (agree W).
Proof. intros s1 s2 s3 H1 H2 c Hc. by rewrite (H1 c Hc), (H2 c Hc). Qed.
Lemma agree_mono W W' s s' : W ⊆ W' -> agree W' s s' -> agree W s s'.
Proof. intros HW H c Hc. apply H. by apply HW. Qed.

(** A program that does as another one after a prefix without writes. *)
Lemma converges_prefix W (p q : pass) tr0 : Forall unwritten tr0 ->
  (forall s, run env p s = (app tr0 (run env q s).1.1, (run env q s).1.2, (run env q s).2)) ->
  converges W q -> converges W p.
Proof.
  intros Ht Hr [Hf H1 H2].
  assert (Ho : forall s, succeeds p s -> succeeds q s) by (intros s [d Hd]; exists d; by rewrite Hr in Hd).
  assert (Hw : forall s, warm W q s -> warm W p s).
  { intros s Hs s' Ha Hok s'' Ha'. rewrite Hr in Ha'. cbn in Ha'. destruct (Hs s' Ha (Ho _ Hok) s'' Ha') as [Hc He].
    split; rewrite Hr; cbn; [by apply Forall_app | exact He]. }
  split.
  - intros s c Hc. rewrite Hr. cbn. by apply Hf.
  - intros s Hok. rewrite Hr. cbn. by apply Hw, H1, Ho.
  - intros s Hs. by apply Hw, H2.
Qed.

Lemma converges_quiet W (p : pass) o : (forall s, run env p s = ([], o, s)) -> converges W p.
Proof.
  intros Hr.
  assert (Hc : forall s, calm p s) by (intros s; split; by rewrite Hr).
  split; [intros s c _; by rewrite Hr | intros s _ s' _ _ s'' _; apply Hc..].
Qed.
Lemma converges_ret W r : converges W (Ret r).
Proof. by apply (converges_quiet _ _ (Done r)). Qed.
Lemma converges_panic W w : converges W (Panic w).
Proof. by apply (converges_quiet _ _ (Crashed w)). Qed.

Lemma free_unwritten e : shelf_free e -> unwritten e.
Proof. destruct e as [X e x]. by destruct e. Qed.

(** A prefix that does not touch the shelf. *)
Lemma converges_free {A} W (R : A -> Prop) (p : op A) (f : A -> pass) :
  spec shelf_free R p -> (forall a, R a -> converges W (f a)) -> converges W (bind p f).
Proof.
  intros Hp Hf.
  assert (Hp' : only shelf_free p) by (eapply spec_weaken; [exact Hp | done | done]).
  destruct (free_runs p Hp') as (tr & o & Ht & Hr).
  assert (Ht' : Forall unwritten tr) by (eapply Forall_impl; [exact Ht | apply free_unwritten]).
  assert (HR : returns R o).
  { pose proof (run_exec env p ∅) as Hex. rewrite Hr in Hex. by apply (spec_exec _ _ _ _ _ Hp) in Hex as [_ ?]. }
  destruct o as [a|w].
  - apply (converges_prefix W _ (f a) tr Ht'); [|by apply Hf]. intros s. rewrite run_bind, Hr.
    by destruct (run env (f a) s) as [[? ?] ?].
  - apply (converges_prefix W _ (Panic w) tr Ht'); [|apply converges_panic]. intros s. rewrite run_bind, Hr. cbn.
    by rewrite app_nil_r.
Qed.

(** ** The step of a service *)

Lemma service_at_insert n o (s : shelf) : service_at n (<[ServiceCell n := StoredService o]> s) = Some o.
Proof. unfold service_at. by rewrite lookup_insert_eq. Qed.
Lemma sts_at_insert n o (s : shelf) : sts_at n (<[StsCell n := StoredSts o]> s) = Some o.
Proof. unfold sts_at. by rewrite lookup_insert_eq. Qed.

Context `{!Keeps sv}.

Definition service_hash (svc : Service) : string :=
  match svc_Annotations svc !! ComponentResourceHash with
  | Some v => v
  | None => HashObject (serviceHashObject svc (NewSetString [ComponentResourceHash]))
  end.

Lemma ServiceDeepEqual_eq new old :
  (ServiceDeepEqual new old).2 =
    bool_decide (service_hash new = service_hash old) && bool_decide (svc_Namespace new = svc_Namespace old) /\
  svc_Name (ServiceDeepEqual new old).1 = svc_Name new /\ svc_Namespace (ServiceDeepEqual new old).1 = svc_Namespace new /\
  svc_Annotations (ServiceDeepEqual new old).1 !! ComponentResourceHash = Some (service_hash new).
Proof.
  repeat split. unfold ServiceDeepEqual, ServiceDeepEqualWithAnnoKey. cbn.
  change (if decide (ComponentResourceHash = "") then _ else _) with ComponentResourceHash.
  unfold mergeMaps, mergeMapsByPrefix, service_hash.
  destruct (svc_Annotations new !! ComponentResourceHash) as [v|] eqn:Ev.
  - apply lookup_union_Some_l. apply map_lookup_filter_Some. by split.
  - rewrite lookup_union_r by (apply map_lookup_filter_None; by left). apply lookup_singleton_eq.
Qed.

(** Once it is there, a service is as the step leaves it. *)
Definition service_settled (svc : Service) (s : shelf) : Prop :=
  exists o, service_at (svc_Name svc) s = Some o /\ (ServiceDeepEqual (svc <| svc_ClusterIPs := [] |>) o).2 = true.

Local Abbreviation apply_service svc := (ApplyService svc ServiceDeepEqual).

(** What the step does on a shelf. *)
Lemma apply_service_run svc s :
  exists tr s', run env (apply_service svc) s = (tr, Done None, s') /\
  match service_at (svc_Name svc) s with
  | Some o =>
      let '(svc', eq) := ServiceDeepEqual (svc <| svc_ClusterIPs := [] |>) o in
      if eq : bool then Forall unwritten tr /\ s' = s
      else s' = <[ServiceCell (svc_Name svc) :=
                  StoredService (sv_service_patched sv o (set_svc_ResourceVersion (m_ResourceVersion (svc_Meta o)) svc'))]> s
  | None => exists o, s' = <[ServiceCell (svc_Name svc) := StoredService o]> s
  end.
Proof.
  unfold ApplyService. set (svc0 := svc <| svc_ClusterIPs := [] |>).
  assert (Hn0 : svc_Name svc0 = svc_Name svc) by done. cbn [run bind call shelf_env]. rewrite Hn0.
  destruct (service_at (svc_Name svc) s) as [o|] eqn:Ho; cbn [found].
  - destruct (ServiceDeepEqual_eq svc0 o) as (_ & Hn & _).
    destruct (ServiceDeepEqual svc0 o) as [svc' eq]. cbn [fst] in Hn. destruct eq.
    + cbn. do 2 eexists. split; [reflexivity|]. by repeat constructor.
    + cbn [run shelf_env PatchClientObject call]. unfold patch_service.
      change (svc_Name (set_svc_ResourceVersion _ svc')) with (svc_Name svc'). rewrite Hn, Hn0, Ho.
      do 2 eexists. by split.
  - cbn [run shelf_env bind call CreateClientObject absent IsNotFound]. change (IsNotFound absent) with true. cbv iota.
    cbn [run shelf_env bind call CreateClientObject]. unfold create_service.
    change (svc_Name (set_svc_ResourceVersion _ svc0)) with (svc_Name svc). rewrite Ho.
    cbn [run]. do 2 eexists. split; [reflexivity|]. by eexists.
Qed.

Lemma apply_service_settled svc s : service_settled svc s ->
  calm (apply_service svc) s /\ (run env (apply_service svc) s).1.2 = Done None.
Proof.
  intros (o & Ho & Heq). destruct (apply_service_run svc s) as (tr & s' & Hr & Hs). rewrite Ho in Hs.
  destruct (ServiceDeepEqual _ o) as [svc' eq]. cbn in Heq. subst eq. destruct Hs as [Ht ->]. unfold calm. rewrite Hr. by split.
Qed.

Lemma apply_service_frame svc s c : c <> ServiceCell (svc_Name svc) -> (run env (apply_service svc) s).2 !! c = s !! c.
Proof.
  intros Hc. destruct (apply_service_run svc s) as (tr & s' & -> & Hs). cbn [snd]. destruct (service_at _ s) as [o|].
  - destruct (ServiceDeepEqual _ o) as [svc' []]; [by destruct Hs as [_ ->]|]. rewrite Hs. by rewrite lookup_insert_ne.
  - destruct Hs as [o ->]. by rewrite lookup_insert_ne.
Qed.

Lemma apply_service_fills svc s : filled (run env (apply_service svc) s).2 (ServiceCell (svc_Name svc)).
Proof.
  destruct (apply_service_run svc s) as (tr & s' & -> & Hs). cbn [snd filled]. destruct (service_at _ s) as [o|] eqn:Ho.
  - destruct (ServiceDeepEqual _ o) as [svc' []]; [destruct Hs as [_ ->]; by rewrite Ho|]. rewrite Hs, service_at_insert. by eexists.
  - destruct Hs as [o ->]. rewrite service_at_insert. by eexists.
Qed.

Lemma apply_service_done svc s : (run env (apply_service svc) s).1.2 = Done None.
Proof. by destruct (apply_service_run svc s) as (tr & s' & -> & _). Qed.

Lemma apply_service_settles svc s : filled s (ServiceCell (svc_Name svc)) ->
  service_settled svc (run env (apply_service svc) s).2.
Proof.
  intros [o Ho]. destruct (apply_service_run svc s) as (tr & s' & -> & Hs). cbn [snd]. rewrite Ho in Hs.
  destruct (ServiceDeepEqual_eq (svc <| svc_ClusterIPs := [] |>) o) as (Heq & _ & Hns & Ha).
  destruct (ServiceDeepEqual _ o) as [svc' eq] eqn:Hd. cbn [fst snd] in *. destruct eq.
  { destruct Hs as [_ ->]. exists o. split; [exact Ho|]. by rewrite Hd. }
  subst s'. eexists. rewrite service_at_insert. split; [reflexivity|].
  set (w := set_svc_ResourceVersion _ svc').
  destruct (ServiceDeepEqual_eq (svc <| svc_ClusterIPs := [] |>) (sv_service_patched sv o w)) as (-> & _).
  assert (Hh : svc_Annotations (sv_service_patched sv o w) !! ComponentResourceHash =
               Some (service_hash (svc <| svc_ClusterIPs := [] |>))).
  { eapply lookup_weaken; [|apply service_patched_annotations]. exact Ha. }
  rewrite (bool_decide_true (service_hash _ = _)) by (unfold service_hash at 2; by rewrite Hh).
  rewrite service_patched_namespace. change (svc_Namespace w) with (svc_Namespace svc'). by rewrite Hns, bool_decide_true.
Qed.

Lemma run_service_then svc d (k : pass) s :
  let p := let! err := apply_service svc in or_fail d err k in
  let s1 := (run env (apply_service svc) s).2 in
  run env p s = (app (run env (apply_service svc) s).1.1 (run env k s1).1.1, (run env k s1).1.2, (run env k s1).2).
Proof.
  cbv zeta. rewrite run_bind. pose proof (apply_service_done svc s) as Hd.
  destruct (run env (apply_service svc) s) as [[tr o] s1]. cbn in Hd |- *. subst o. cbn [or_fail].
  by destruct (run env k s1) as [[? ?] ?].
Qed.

Lemma agree_at (W : gset cell) n s s' : agree W s s' -> ServiceCell n ∈ W -> service_at n s = service_at n s'.
Proof. intros Ha Hn. unfold service_at. by rewrite (Ha _ Hn). Qed.

Lemma agree_filled W c s s' : agree W s s' -> c ∈ W -> filled s c -> filled s' c.
Proof. intros Ha Hc. destruct c; unfold filled, service_at, sts_at; by rewrite (Ha _ Hc). Qed.

(** Applying a service before a pass that does not write on it. *)
Lemma converges_service W svc d (k : pass) : ServiceCell (svc_Name svc) ∉ W -> converges W k ->
  converges ({[ServiceCell (svc_Name svc)]} ∪ W) (let! err := apply_service svc in or_fail d err k).
Proof.
  intros Hnot Hk. set (c := ServiceCell (svc_Name svc)) in *. set (p := (let! err := _ in _)).
  set (s1 := fun s => (run env (apply_service svc) s).2).
  assert (Hrun : forall s, run env p s = (app (run env (apply_service svc) s).1.1 (run env k (s1 s)).1.1,
    (run env k (s1 s)).1.2, (run env k (s1 s)).2)) by (intros s; apply run_service_then).
  assert (Hs1 : forall s, agree W s (s1 s)).
  { intros s c' Hc'. symmetry. apply apply_service_frame. intros ->. contradiction. }
  assert (Hc1 : forall s, (run env k (s1 s)).2 !! c = s1 s !! c) by (intros s; by apply (converges_frame _ _ Hk)).
  assert (Hok : forall s, succeeds p s -> succeeds k (s1 s)) by (intros s [d' Hd']; exists d'; by rewrite Hrun in Hd').
  (* warm once the service is there and the rest is warm *)
  assert (Hwarm : forall s, filled s c -> (forall s', agree W s s' -> succeeds k s' -> steady W k (run env k s').2) ->
    warm ({[c]} ∪ W) p s).
  { intros s Hf Hw s' Ha Hs' s'' Ha''. rewrite Hrun in Ha''. cbn [snd] in Ha''.
    pose proof (agree_filled _ c _ _ Ha ltac:(set_solver) Hf) as Hf'. pose proof (apply_service_settles svc s' Hf') as Hset.
    assert (HaW : agree W s (s1 s')).
    { etransitivity; [eapply agree_mono; [|exact Ha]; set_solver | apply Hs1]. }
    assert (Hset' : service_settled svc s'').
    { destruct Hset as (o & Ho & Heq). exists o. split; [|exact Heq]. rewrite <- (agree_at _ _ _ _ Ha'') by set_solver.
      unfold service_at in Ho |- *. fold c in Ho |- *. by rewrite Hc1. }
    destruct (apply_service_settled svc s'' Hset') as [[Ht He] _].
    destruct (Hw (s1 s') HaW (Hok _ Hs') s'') as [Ht2 He2]; [eapply agree_mono; [|exact Ha'']; set_solver|].
    split; rewrite Hrun; unfold s1; rewrite He; cbn; [by apply Forall_app | exact He2]. }
  split.
  - intros s c' Hc'. rewrite Hrun. cbn. rewrite (converges_frame _ _ Hk) by set_solver.
    apply apply_service_frame. set_solver.
  - intros s Hs. rewrite Hrun. cbn [snd]. apply Hwarm; [|exact (converges_first _ _ Hk _ (Hok _ Hs))].
    pose proof (apply_service_fills svc s) as Hf. unfold c, filled, service_at in *. by rewrite Hc1.
  - intros s Hf. apply Hwarm; [apply Hf; set_solver|]. apply (converges_filled _ _ Hk). intros c' Hc'. apply Hf. set_solver.
Qed.

(** ** Passes over one StatefulSet *)

Section applier.
Context {X : Type} (apply : StatefulSet -> op X) (failure : X -> option goerr) (equal : StatefulSet -> StatefulSet -> Prop).

(** The step goes through. *)
Definition applies (st : StatefulSet) (s : shelf) : Prop := exists x, (run env (apply st) s).1.2 = Done x /\ failure x = None.

(** A step that applies a StatefulSet: what it leaves for an existing one is
    equal to the new one, and what is equal is left as it is. *)
Class Applier : Prop := {
  applier_frame st s c : c <> StsCell (st_Name st) -> (run env (apply st) s).2 !! c = s !! c;
  applier_calm st s est : sts_at (st_Name st) s = Some est -> equal st est -> calm (apply st) s;
  applier_settles st s est : sts_at (st_Name st) s = Some est -> applies st s ->
    exists est', sts_at (st_Name st) (run env (apply st) s).2 = Some est' /\ equal st est' /\
      (st_Replicas est' = st_Replicas est \/ forall r, st_Replicas st = Some r -> st_Replicas est' = Some r);
  applier_fills st s : applies st s -> filled (run env (apply st) s).2 (StsCell (st_Name st))
}.
Context `{!Applier}.

(** A pass that applies, besides steps that leave the shelf alone, the
    StatefulSet that [plan] gives for the one that exists, or fails where there
    is no plan. *)
Record planned (name : string) (plan : option StatefulSet -> option StatefulSet) (p : pass) : Prop := {
  planned_fails s : plan (sts_at name s) = None -> calm p s /\ ~ succeeds p s;
  planned_run s st : plan (sts_at name s) = Some st -> st_Name st = name /\
    (run env p s).2 = (run env (apply st) s).2 /\ (succeeds p s -> applies st s) /\
    (Forall unwritten (run env (apply st) s).1.1 -> Forall unwritten (run env p s).1.1);
  (* the plan is the same for the StatefulSet that the pass leaves, if there is one *)
  planned_again est st est' : plan (Some est) = Some st ->
    st_Replicas est' = st_Replicas est \/ (forall r, st_Replicas st = Some r -> st_Replicas est' = Some r) ->
    plan (Some est') = Some st \/ plan (Some est') = None
}.

Lemma converges_planned name plan p : planned name plan p -> converges {[StsCell name]} p.
Proof.
  intros [Hfails Hrun Hagain].
  assert (Hwarm : forall s, filled s (StsCell name) -> warm {[StsCell name]} p s).
  { intros s Hf s' Ha Hok s'' Ha''. destruct (agree_filled _ (StsCell name) _ _ Ha ltac:(set_solver) Hf) as [est Hest].
    destruct (plan (Some est)) as [st|] eqn:Hp.
    2:{ by destruct (Hfails s') as [_ []]; [rewrite Hest|]. }
    destruct (Hrun s' st) as (Hn & Hr & Happ & _); [by rewrite Hest|]. rewrite Hr in Ha''. rewrite <- Hn in Hest.
    destruct (applier_settles st s' est Hest (Happ Hok)) as (est' & Hest' & Heq & Hrep).
    assert (Hat : sts_at (st_Name st) s'' = Some est')
      by (unfold sts_at in *; rewrite Hn in *; by rewrite <- (Ha'' (StsCell name)) by set_solver).
    destruct (Hagain est st est' Hp Hrep) as [Hp'|Hp'].
    - destruct (Hrun s'' st) as (_ & Hr2 & _ & Ht2); [by rewrite <- Hn, Hat|].
      destruct (applier_calm st s'' est' Hat Heq) as [Hq1 Hq2]. split; [by apply Ht2 | by rewrite Hr2].
    - apply Hfails. by rewrite <- Hn, Hat. }
  split.
  - intros s c Hc. destruct (plan (sts_at name s)) as [st|] eqn:Hp.
    + destruct (Hrun s st Hp) as (Hn & -> & _). apply applier_frame. rewrite Hn. set_solver.
    + by destruct (Hfails s Hp) as [[_ ->] _].
  - intros s Hok. apply Hwarm. destruct (plan (sts_at name s)) as [st|] eqn:Hp.
    2:{ by destruct (Hfails s Hp) as [_ []]. }
    destruct (Hrun s st Hp) as (Hn & -> & Happ & _). rewrite <- Hn. by apply applier_fills, Happ.
  - intros s Hf. apply Hwarm, Hf. set_solver.
Qed.

(** A pass that applies the same StatefulSet, whatever exists. *)
Lemma converges_applied st (tail : X -> pass) : (forall x, only shelf_free (tail x)) ->
  (forall x s, succeeds (tail x) s -> failure x = None) -> converges {[StsCell (st_Name st)]} (bind (apply st) tail).
Proof.
  intros Hfree Hfail. apply (converges_planned (st_Name st) (fun _ => Some st)). split.
  - done.
  - intros s st' [= <-]. split; [done|]. unfold succeeds. rewrite run_bind.
    destruct (run env (apply st) s) as [[tr [x|w]] s1] eqn:Hr; cbn [fst snd].
    + destruct (free_runs (tail x) (Hfree x)) as (tr2 & o & Ht2 & Hr2). rewrite Hr2. cbn [fst snd]. split; [done|]. split.
      * intros [d Hd]. exists x. rewrite Hr. split; [done|]. apply (Hfail x s1). exists d. by rewrite Hr2.
      * intros Ht. apply Forall_app. split; [done|]. eapply Forall_impl; [exact Ht2 | apply free_unwritten].
    + split; [done|]. split; [by intros [d [=]] | done].
  - intros est st' est' [= <-] _. by left.
Qed.
End applier.

(** ** The step of a StatefulSet *)

(** A comparison: the new StatefulSet as it leaves it, and the verdict; [None] is a panic. *)
Abbreviation comparison := (StatefulSet -> StatefulSet -> option (StatefulSet * bool)).

(** What is written after a comparison that found a difference is found equal to the new one. *)
Class Settling (cmp : comparison) : Prop := {
  cmp_keeps new old p e : cmp new old = Some (p, e) ->
    st_Name p = st_Name new /\ st_Namespace p = st_Namespace new /\ st_Replicas p = st_Replicas new;
  cmp_settles new old p old' : cmp new old = Some (p, false) ->
    st_Annotations p ⊆ st_Annotations old' -> st_Namespace old' = st_Namespace new ->
    st_VolumeClaimTemplates old' = st_VolumeClaimTemplates old -> exists p', cmp new old' = Some (p', true)
}.

Definition compare_by (cmp : comparison) (new old : StatefulSet) (u : unit) : op (StatefulSet * unit * bool) :=
  deref (cmp new old) (fun '(new, equal) => Ret (new, u, equal)).

(** A function applied before the write that leaves the object's metadata and replicas. *)
Definition template_only (f : StatefulSet -> option StatefulSet -> StatefulSet) : Prop :=
  forall s o, st_Meta (f s o) = st_Meta s /\ st_Replicas (f s o) = st_Replicas s.

Lemma template_only_all pasfs p : Forall template_only pasfs ->
  st_Meta (foldl (fun st pasf => pasf st None) p pasfs) = st_Meta p /\
  st_Replicas (foldl (fun st pasf => pasf st None) p pasfs) = st_Replicas p.
Proof.
  intros Hp. revert p; induction Hp as [|f pasfs Hf _ IH]; intros p; cbn [foldl]; [done|].
  destruct (IH (f p None)) as [-> ->]. apply Hf.
Qed.

Section statefulset.
Context (cmp : comparison) `{!Settling cmp} (pasfs : list (StatefulSet -> option StatefulSet -> StatefulSet)).
Hypothesis Hpasfs : Forall template_only pasfs.

Local Abbreviation apply_sts st := (apply_stateful_set st tt (compare_by cmp) pasfs).

(** What is stored carries the annotations, the namespace and the replicas of the comparison's result. *)
Definition stored_of (est : option StatefulSet) (p est' : StatefulSet) : Prop :=
  (forall r, st_Replicas p = Some r -> st_Replicas est' = Some r) /\
  match est with
  | Some old => st_Annotations p ⊆ st_Annotations est' /\ st_Namespace est' = st_Namespace p /\
                st_VolumeClaimTemplates est' = st_VolumeClaimTemplates old
  | None => True
  end.

Lemma apply_sts_run st s :
  let old := sts_at (st_Name st) s in
  match cmp st (default emptySts old) with
  | None => exists tr w, Forall unwritten tr /\ run env (apply_sts st) s = (tr, Crashed w, s)
  | Some (p, equal) =>
      exists tr s', run env (apply_sts st) s = (tr, Done (tt, None), s') /\
      if equal && bool_decide (is_Some old) then Forall unwritten tr /\ s' = s
      else exists est', s' = <[StsCell (st_Name st) := StoredSts est']> s /\ stored_of old p est'
  end.
Proof.
  cbv zeta. unfold apply_stateful_set. cbn [run bind call shelf_env].
  destruct (sts_at (st_Name st) s) as [est|] eqn:Ho; cbn [found from_option id];
    change (IsNotFound absent) with true; unfold compare_by; cbv iota.
  - destruct (cmp st est) as [[p equal]|] eqn:Hc; cbn [deref bind run].
    2:{ do 2 eexists. split; [|reflexivity]. by repeat constructor. }
    rewrite (bool_decide_true (is_Some (Some est))) by done. rewrite andb_true_r. destruct equal; cbn [run].
    + do 2 eexists. split; [reflexivity|]. by repeat constructor.
    + destruct (cmp_keeps _ _ _ _ Hc) as (Hn & Hns & Hr). destruct (template_only_all pasfs p Hpasfs) as [Hm Hrr].
      set (w := foldl _ p pasfs) in *. cbn [run bind call shelf_env PatchClientObject]. unfold patch_sts.
      assert (Hname : st_Name (set_st_ResourceVersion (m_ResourceVersion (st_Meta est)) w) = st_Name st).
      { change (m_Name (st_Meta w) = st_Name st). by rewrite Hm. }
      rewrite Hname, Ho. cbn [run bind]. do 2 eexists. split; [reflexivity|]. eexists. split; [reflexivity|].
      split; [|split; [|split]].
      * intros r Hpr. apply sts_patched_replicas. change (st_Replicas w = Some r). congruence.
      * etransitivity; [|apply sts_patched_annotations]. change (m_Annotations (st_Meta p) ⊆ m_Annotations (st_Meta w)). by rewrite Hm.
      * rewrite sts_patched_namespace. change (m_Namespace (st_Meta w) = m_Namespace (st_Meta p)). by rewrite Hm.
      * apply sts_patched_claims.
  - destruct (cmp st emptySts) as [[p equal]|] eqn:Hc; cbn [deref bind run].
    2:{ do 2 eexists. split; [|reflexivity]. by repeat constructor. }
    rewrite (bool_decide_false (is_Some None)) by (by intros []). rewrite andb_false_r.
    destruct (cmp_keeps _ _ _ _ Hc) as (Hn & _ & Hr). destruct (template_only_all pasfs p Hpasfs) as [Hm Hrr].
    set (w := foldl _ p pasfs) in *. cbn [run bind call shelf_env CreateClientObject]. unfold create_sts.
    assert (Hname : st_Name w = st_Name st) by (change (m_Name (st_Meta w) = st_Name st); by rewrite Hm).
    rewrite Hname, Ho. cbn [run bind]. do 2 eexists. split; [reflexivity|]. eexists. split; [reflexivity|].
    split; [|done]. intros r Hpr. apply sts_created_replicas. congruence.
Qed.

Lemma apply_sts_frame st s c : c <> StsCell (st_Name st) -> (run env (apply_sts st) s).2 !! c = s !! c.
Proof.
  intros Hc. pose proof (apply_sts_run st s) as Hr. cbv zeta in Hr. destruct (cmp st _) as [[p equal]|].
  - destruct Hr as (tr & s' & -> & Hs). cbn [snd]. destruct (equal && _); [by destruct Hs as [_ ->]|].
    destruct Hs as (est' & -> & _). by rewrite lookup_insert_ne.
  - by destruct Hr as (tr & w & _ & ->).
Qed.

Lemma apply_sts_calm st s est p : sts_at (st_Name st) s = Some est -> cmp st est = Some (p, true) -> calm (apply_sts st) s.
Proof.
  intros Ho Hc. pose proof (apply_sts_run st s) as Hr. cbv zeta in Hr. rewrite Ho in Hr. cbn [from_option id] in Hr. rewrite Hc in Hr.
  destruct Hr as (tr & s' & Hr & Ht & ->). unfold calm. by rewrite Hr.
Qed.

#[export] Instance apply_sts_applier : Applier (fun st => apply_sts st) snd
  (fun st est => exists p, cmp st est = Some (p, true)).
Proof.
  split.
  - intros st s c Hc. by apply apply_sts_frame.
  - intros st s est Hest [p Hp]. by eapply apply_sts_calm.
  - intros st s est Hest (x & Hx & _). pose proof (apply_sts_run st s) as Hs. cbv zeta in Hs. rewrite Hest in Hs.
    cbn [from_option id] in Hs. destruct (cmp st est) as [[p0 equal]|] eqn:Hc.
    2:{ destruct Hs as (? & w & _ & Hs). by rewrite Hs in Hx. }
    destruct Hs as (tr1 & s1 & -> & Hs). cbn [snd]. rewrite andb_true_r in Hs. destruct equal.
    + destruct Hs as [_ ->]. exists est. split; [exact Hest|]. split; [by eexists | by left].
    + destruct Hs as (est' & -> & Hrep & Hann & Hns & Hvct). destruct (cmp_keeps _ _ _ _ Hc) as (_ & Hns' & Hrep').
      exists est'. rewrite sts_at_insert. split; [done|]. split.
      * eapply cmp_settles; [exact Hc | done | congruence | done].
      * right. intros r Hstr. apply Hrep. congruence.
  - intros st s (x & Hx & _). pose proof (apply_sts_run st s) as Hs. cbv zeta in Hs. destruct (cmp st _) as [[p0 equal]|].
    2:{ destruct Hs as (? & w & _ & Hs). by rewrite Hs in Hx. }
    destruct Hs as (tr1 & s1 & -> & Hs). cbn [snd filled]. destruct (equal && _) eqn:He.
    + apply andb_true_iff in He as [_ He]. apply bool_decide_eq_true in He. by destruct Hs as [_ ->].
    + destruct Hs as (est' & -> & _). rewrite sts_at_insert. by eexists.
Qed.
End statefulset.
End shelf.

(** ** The comparisons of the controllers *)

Section comparisons.
Context `{External}.

(** The hash that a StatefulSet has or is given. *)
Definition sts_hash (excludeReplicas : bool) (st : StatefulSet) : string :=
  match st_Annotations st !! DcrComponentResourceHash with
  | Some v => v
  | None => HashObject (statefulSetHashObject st excludeReplicas)
  end.

Lemma hash_compared new old excl :
  StatefulsetDeepEqualWithKey new old DcrComponentResourceHash excl =
  (set_sts_Annotations (<[DcrComponentResourceHash := sts_hash excl new]> (AddAnnotation ∅ (st_Annotations new))) new,
   bool_decide (sts_hash excl new = sts_hash excl old) && bool_decide (st_Namespace new = st_Namespace old)).
Proof. done. Qed.

(** What the comparison leaves carries the hash. *)
Lemma deep_equal_left new old excl p e : StatefulSetDeepEqual new old excl = Some (p, e) ->
  (st_Name p = st_Name new /\ st_Namespace p = st_Namespace new /\ st_Replicas p = st_Replicas new) /\
  st_Annotations p !! DcrComponentResourceHash = Some (sts_hash excl new).
Proof.
  unfold StatefulSetDeepEqual. rewrite hash_compared. set (n := set_sts_Annotations _ new).
  assert (Hn : (st_Name n = st_Name new /\ st_Namespace n = st_Namespace new /\ st_Replicas n = st_Replicas new) /\
    st_Annotations n !! DcrComponentResourceHash = Some (sts_hash excl new)).
  { split; [done|]. apply lookup_insert_eq. }
  clearbody n. destruct (_ && _); [by intros [= <- <-]|]. unfold clear_config_env_path_numbers_alwaysEquals. cbv zeta.
  destruct (negb _); [by intros [= <- <-]|]. destruct (main_container _) as [[i c]|]; [cbn [mbind option_bind]|done].
  destruct (st_Replicas n) as [nr|] eqn:Er; [cbn [mbind option_bind]|done].
  destruct (st_Replicas old) as [or|]; [cbn [mbind option_bind]|done].
  rewrite <- Er in *. destruct (nr =? or); [intros [= <- <-]; exact Hn|]. case_decide; intros [= <- <-]; exact Hn.
Qed.

Lemma deep_equal_settles new old excl p old' : StatefulSetDeepEqual new old excl = Some (p, false) ->
  st_Annotations p ⊆ st_Annotations old' -> st_Namespace old' = st_Namespace new ->
  exists p', StatefulSetDeepEqual new old' excl = Some (p', true).
Proof.
  intros Hp Ha Hn. destruct (deep_equal_left _ _ _ _ _ Hp) as [_ Hh]. pose proof (lookup_weaken _ _ _ _ Hh Ha) as Hh'.
  unfold StatefulSetDeepEqual. rewrite hash_compared.
  assert (Hs : sts_hash excl old' = sts_hash excl new) by (unfold sts_hash at 1; by rewrite Hh').
  rewrite Hs, Hn, !bool_decide_true by done. by eexists.
Qed.

#[export] Instance plain_settling : Settling (fun new old => StatefulSetDeepEqual new old false).
Proof.
  split.
  - intros new old p e Hp. by apply deep_equal_left in Hp as [? _].
  - intros new old p old' Hp Ha Hn _. by eapply deep_equal_settles.
Qed.

#[export] Instance restricted_settling (excl : StatefulSet -> bool) :
  Settling (fun new old => StatefulSetDeepEqual (RestrictConditionsEqual new old) old (excl new)).
Proof.
  assert (Hr : forall new old, st_Name (RestrictConditionsEqual new old) = st_Name new /\
    st_Namespace (RestrictConditionsEqual new old) = st_Namespace new /\
    st_Replicas (RestrictConditionsEqual new old) = st_Replicas new).
  { intros new old. unfold RestrictConditionsEqual. by destruct (st_VolumeClaimTemplates old). }
  split.
  - intros new old p e Hp. apply deep_equal_left in Hp as [(-> & -> & ->) _]. apply Hr.
  - intros new old p old' Hp Ha Hn Hv.
    assert (Hsame : RestrictConditionsEqual new old' = RestrictConditionsEqual new old)
      by (unfold RestrictConditionsEqual; by rewrite Hv).
    rewrite Hsame. eapply deep_equal_settles; [exact Hp | exact Ha|]. rewrite Hn. symmetry. apply Hr.
Qed.
End comparisons.
