(* ===== verification/ConvergeProps.v ===== *)
(** The passes of FE, BE and broker over the services and the StatefulSet of
    their component converge: what one pass applies, the next finds equal. *)

From Stdlib Require Import ZArith Lia.
From stdpp Require Import base list gmap strings.
From S2P Require Import Prelude GoStr KubeTypes DdcApi Client Traces Mysql Resource External SubDefault Observers Demo.
From S2P Require Import DcrApi DcrResource DcrSub PodTemplate DcrPods DcrFe DcrTraces DcrFeProps PodProps DcrConfigProps Converge.
From S2P Require DcrBe.

Local Open Scope string_scope.
Local Open Scope Z_scope.
Local Open Scope dop_scope.

(** The objects of a component: its internal service, its external service,
    which broker has none of, and its StatefulSet. *)
Definition internal_cell (d : Dcr) (c : ComponentType) : cell := ServiceCell (GenerateInternalCommunicateServiceName d c).
Definition external_cell (d : Dcr) (c : ComponentType) : cell := ServiceCell (GenerateExternalServiceName d c).
Definition sts_cell (d : Dcr) (c : ComponentType) : cell := StsCell (GenerateComponentStatefulSetName d c).
Definition component_cells (d : Dcr) (c : ComponentType) : gset cell :=
  {[internal_cell d c]} ∪
  (match c with Component_Broker => ∅ | _ => {[external_cell d c]} end ∪ {[sts_cell d c]}).

Lemma cells_of_name d d' c : dcr_Name d' = dcr_Name d ->
  internal_cell d' c = internal_cell d c /\ external_cell d' c = external_cell d c /\ sts_cell d' c = sts_cell d c.
Proof.
  intros Hn. unfold internal_cell, external_cell, sts_cell, GenerateInternalCommunicateServiceName,
    GenerateExternalServiceName, GenerateComponentStatefulSetName. by rewrite Hn.
Qed.

Lemma BuildInternalService_name d c cfg svc : BuildInternalService d c cfg = Some svc ->
  svc_Name svc = GenerateInternalCommunicateServiceName d c.
Proof. unfold BuildInternalService. intros Hs. simplify_option_eq. done. Qed.
Lemma BuildExternalService_name d c cfg svc : BuildExternalService d c cfg = Some svc ->
  svc_Name svc = GenerateExternalServiceName d c.
Proof.
  unfold BuildExternalService. intros Hs.
  destruct (match c with Component_FE => _ | _ => _ end) as [[es ports]|]; [|done]. injection Hs as <-.
  unfold constructServiceSpec, setServiceType. destruct es; cbn; repeat case_match; done.
Qed.
Lemma NewStatefulSet_name `{External} d cfg c st : NewStatefulSet d cfg c = Some st ->
  st_Name st = GenerateComponentStatefulSetName d c /\ exists base, base_of d c = Some base /\ st_Replicas st = bs_Replicas base.
Proof.
  unfold NewStatefulSet. destruct (base_of d c) as [base|]; [|done]. cbn [mbind option_bind].
  destruct (BuildSharedVolumesAndVolumeMounts _ _) as [[? ?] ?].
  destruct (GenerateEveryoneMountPathDorisPersistentVolume _ _ _ _); [|done].
  destruct (NewPodTemplateSpec _ _ _); [|done]. intros [= <-]. split; [done|]. by eexists.
Qed.

Section passes.
Context `{Hext : External} (sv : Server) `{!Keeps sv}.
Local Abbreviation env := (shelf_env sv).

(** ** Shared steps *)

Lemma converges_services d c cfg base (k : pass) : base_of d c = Some base -> converges sv {[sts_cell d c]} k ->
  converges sv ({[internal_cell d c]} ∪ ({[external_cell d c]} ∪ {[sts_cell d c]})) (apply_services d c cfg k).
Proof.
  intros Hb Hk. unfold apply_services.
  destruct (BuildExternalService d c cfg) as [svc|] eqn:He; [cbn [assert_ok]|apply converges_panic].
  destruct (BuildInternalService d c cfg) as [isvc|] eqn:Hi; [cbn [assert_ok]|apply converges_panic].
  apply BuildExternalService_name in He. apply BuildInternalService_name in Hi.
  unfold internal_cell, external_cell, sts_cell in *. rewrite <- He, <- Hi.
  apply converges_service; [exact _| |].
  - pose proof (service_names_differ d c base Hb) as Hd. rewrite <- He, <- Hi in Hd. set_solver.
  - apply converges_service; [exact _ | set_solver | exact Hk].
Qed.

(** A StatefulSet that does not depend on the one that exists. *)
Lemma converges_statefulset cmp `{!Settling cmp} pasfs st (d : Dcr) : Forall template_only pasfs ->
  converges sv {[StsCell (st_Name st)]}
    (let! '(_, err) := apply_stateful_set st tt (compare_by cmp) pasfs in Ret (d, err)).
Proof.
  intros Hp. pose proof (apply_sts_applier sv cmp pasfs Hp).
  apply (converges_applied sv (fun st => apply_stateful_set st tt (compare_by cmp) pasfs) snd
    (fun st est => exists p, cmp st est = Some (p, true))).
  - intros [u err]. by apply spec_ret.
  - intros [u err] s [d' Hd']. by injection Hd' as _ ->.
Qed.

(** A status that is set leaves the spec and the name. *)
Lemma InitStatus_free d c : spec shelf_free (same_spec d) (InitStatus d c).
Proof. apply InitStatus_spec; intros; exact eq_refl. Qed.
Lemma Compare_free d old c : spec shelf_free (same_spec d) (CompareConfigmapAndTriggerRestart d old c).
Proof. apply Compare_spec; intros; exact eq_refl. Qed.
Lemma GetConfig_free cmi ns c : only shelf_free (GetConfig cmi ns c).
Proof. eapply spec_weaken; [apply (GetConfig_spec shelf_free); intros; exact eq_refl | done | done]. Qed.
Lemma check_free d c : only shelf_free (check_component d c).
Proof. apply check_component_spec; intros; exact eq_refl. Qed.
Lemma ready_free d c : only shelf_free (PrepareReconcileResources d c).
Proof. apply PrepareReconcileResources_spec; intros; exact eq_refl. Qed.
Lemma FeAvailable_free d : only shelf_free (FeAvailable d).
Proof.
  unfold FeAvailable, endpoints_available. destruct (GetConfigFEAddrForAccess _ _). case_decide; spec_go.
Qed.
Lemma inject_free d c : spec shelf_free (fun r => dcr_Name r.1 = dcr_Name d) (CheckRestartTimeAndInject d c).
Proof.
  unfold CheckRestartTimeAndInject, warn. destruct c; repeat (spec_step; auto); done.
Qed.
Lemma builder_free {A} (build : Dcr -> config -> op A) `{!TemplateBuilder build} d cfg : only shelf_free (build d cfg).
Proof. apply build_free; [done|]. intros e He. destruct e as [X e x]. destruct e; try done. by destruct k. Qed.

(** ** BE and broker *)

Section be.
Context (build : Dcr -> config -> op (Dcr * PodTemplateSpec)) `{!TemplateBuilder build}.

Lemma be_prepare_free d old : spec shelf_free (fun r => dcr_Name r.1 = dcr_Name d) (DcrBe.Be.prepareStatefulsetApply d old).
Proof.
  unfold DcrBe.Be.prepareStatefulsetApply. case_decide; [|by apply spec_ret].
  eapply spec_bind; [apply inject_free|]. intros [d' inject] Hd'. cbn in Hd'. repeat (spec_step; auto).
Qed.

Lemma build_sts_free d cfg c : spec shelf_free (fun r => StsCell (st_Name r.2) = sts_cell d c)
  (assert_ok (NewStatefulSet d cfg c) (fun st =>
   let! '(d', template) := build d cfg in Ret (d', st <| st_Template := template |>))).
Proof.
  destruct (NewStatefulSet d cfg c) as [st|] eqn:Hst; [cbn [assert_ok]|by apply spec_panic].
  apply NewStatefulSet_name in Hst as [Hn _]. eapply spec_bind; [by apply builder_free|]. intros [d' t] _.
  apply spec_ret. unfold sts_cell. by rewrite <- Hn.
Qed.

Lemma be_converges d : converges sv (component_cells d Component_BE) (DcrBe.Be.Sync build d).
Proof.
  unfold DcrBe.Be.Sync. destruct (BeSpec_ (dcr_Spec d)) as [be|] eqn:Hbe; [|apply converges_ret].
  eapply converges_free; [apply InitStatus_free|]. intros d1 Hd1.
  eapply converges_free; [apply FeAvailable_free|]. intros [] _; [cbn [negb]|apply converges_ret].
  eapply (converges_free _ _ (same_spec d)).
  { destruct (EnableRestartWhenConfigChange _); [|by apply spec_ret].
    eapply spec_weaken; [apply Compare_free | done|]. intros d2 Hd2. by etransitivity. }
  intros d2 Hd2. eapply converges_free; [apply GetConfig_free|]. intros [cfg [e|]] _; [apply converges_ret|]. cbn [or_fail].
  eapply converges_free; [apply check_free|]. intros _ _.
  destruct Hd2 as (Hs2 & Hn2 & _). destruct (cells_of_name d d2 Component_BE Hn2) as (E1 & E2 & E3).
  unfold component_cells. rewrite <- E1, <- E2, <- E3. apply (converges_services _ _ _ (be_Base be)).
  { unfold base_of. by rewrite Hs2, Hbe. }
  eapply converges_free; [apply be_prepare_free|]. intros [d3 [e|]] Hd3; [apply converges_ret|]. cbn [or_fail fst] in Hd3 |- *.
  eapply converges_free; [apply build_sts_free|]. intros [d4 st] Hst. cbn [snd] in Hst.
  eapply converges_free; [apply ready_free|]. intros [] _; [|apply converges_ret].
  destruct (cells_of_name d2 d3 Component_BE Hd3) as (_ & _ & E). rewrite <- E, <- Hst.
  apply (converges_statefulset _ _ st d4). repeat constructor.
Qed.

Lemma broker_converges d : converges sv (component_cells d Component_Broker) (DcrBe.Broker.Sync build d).
Proof.
  unfold DcrBe.Broker.Sync. destruct (BrokerSpec_ (dcr_Spec d)) as [broker|]; [|apply converges_ret].
  eapply converges_free; [apply FeAvailable_free|]. intros [] _; [cbn [negb]|apply converges_ret].
  eapply converges_free; [apply GetConfig_free|]. intros [cfg [e|]] _; [apply converges_ret|]. cbn [or_fail].
  eapply converges_free; [apply check_free|]. intros _ _.
  destruct (BuildInternalService _ _ _) as [svc|] eqn:Hs; [cbn [assert_ok]|apply converges_panic].
  unfold component_cells. rewrite (left_id_L ∅ (∪)).
  unfold internal_cell at 1. rewrite <- (BuildInternalService_name _ _ _ _ Hs). apply converges_service; [exact _ | unfold sts_cell; set_solver|].
  eapply converges_free; [apply build_sts_free|]. intros [d4 st] Hst. cbn [snd] in Hst. rewrite <- Hst.
  apply (converges_statefulset _ _ st d4). constructor.
Qed.
End be.

(** ** FE *)

Lemma set_fe_replicas_same d fe n : FeSpec_ (dcr_Spec d) = Some fe -> bs_Replicas (fe_Base fe) = Some n -> set_fe_replicas n d = d.
Proof.
  intros Hfe Hn. unfold set_fe_replicas, set_fe_base. cbn [base_of]. rewrite Hfe. cbn [fmap option_fmap option_map].
  destruct fe as [el base], d as [dm da dk sp stt], sp, base. cbn in *. by subst.
Qed.

(** The scale-down guard writes the guarded replicas. *)
Lemma safeScaleDown_free d fe nr or : FeSpec_ (dcr_Spec d) = Some fe -> bs_Replicas (fe_Base fe) = Some nr ->
  spec shelf_free (fun d' => d' = set_fe_replicas (guarded fe nr or) d) (safeScaleDown d fe nr or).
Proof.
  intros Hfe Hr. pose proof (set_fe_replicas_same d fe nr Hfe Hr) as Hs. unfold safeScaleDown, guarded, warn.
  destruct (Z.leb_spec or nr); cbn [orb]; [apply spec_ret; by rewrite Z.max_l, Hs by lia|].
  destruct (Z.leb_spec (GetElectionNumber fe) nr); cbn [orb]; [apply spec_ret; by rewrite Z.max_l, Hs by lia|].
  destruct (Z.leb_spec (GetElectionNumber fe) or); (apply spec_call; [intros; exact eq_refl|]); intros _ _;
    apply spec_ret; f_equal; lia.
Qed.

Lemma drop_free d : only shelf_free (dropObserverBySqlClient d).
Proof. eapply spec_weaken; [apply dropObserver_beside | by intros e (_ & _ & ?) | done]. Qed.

(** Without a restart that is asked for, the preparation only guards the replicas. *)
Definition no_restart (d : Dcr) : Prop := map_get (dcr_Annotations d) (GetRestartAnnotationKey Component_FE) = "".

Lemma prepare_reads d fe n old : FeSpec_ (dcr_Spec d) = Some fe -> bs_Replicas (fe_Base fe) = Some n -> no_restart d ->
  exists rest : res StatefulSet -> pass,
    prepareStatefulsetApply d old =
      bind (call (CGet KSts (dcr_Namespace d) (GenerateComponentStatefulSetName d Component_FE))) rest /\
    (forall err, rest (Er err) = Ret (d, None)) /\
    (forall est, spec shelf_free (fun r => r.2 = None -> exists or, st_Replicas est = Some or /\
       r.1 = set_fe_replicas (guarded fe n or) d) (rest (Ok est))).
Proof.
  intros Hfe Hn Hno. unfold prepareStatefulsetApply. eexists. split; [reflexivity|]. split; [done|]. intros est. cbn beta iota.
  rewrite Hfe. cbn [deref]. rewrite Hn. destruct (st_Replicas est) as [or|]; [cbn [deref]|by apply spec_panic].
  eapply spec_bind; [by apply safeScaleDown_free|]. intros d' ->. set (d' := set_fe_replicas _ d).
  assert (Hgoal : forall err, spec shelf_free (fun r : Dcr * option goerr => r.2 = None -> exists or0, Some or = Some or0 /\
    r.1 = set_fe_replicas (guarded fe n or0) d) (Ret (d', err))) by (intros err; apply spec_ret; intros _; by exists or).
  destruct (base_of d' Component_FE ≫= bs_Replicas) as [nr|]; [cbn [deref]|by apply spec_panic].
  destruct (_ <? 0).
  { eapply spec_bind; [apply drop_free|]. intros err _. apply Hgoal. }
  case_decide; [|apply Hgoal]. unfold CheckRestartTimeAndInject.
  assert (Ha : map_get (dcr_Annotations d') (GetRestartAnnotationKey Component_FE) = "").
  { unfold no_restart in Hno. rewrite <- Hno. unfold d', set_fe_replicas. by destruct (base_of d _). }
  destruct (base_of d' Component_FE); [cbn [deref]|by apply spec_panic]. rewrite decide_True by exact Ha. cbn [bind]. apply Hgoal.
Qed.

Section fe.
Context (build : Dcr -> config -> op PodTemplateSpec) `{!TemplateBuilder build}.

Lemma build_fe_free d cfg : spec shelf_free (fun st => st_Name st = GenerateComponentStatefulSetName d Component_FE /\
    exists base, base_of d Component_FE = Some base /\ st_Replicas st = bs_Replicas base) (buildFEStatefulSet build d cfg).
Proof.
  unfold buildFEStatefulSet. destruct (NewStatefulSet d cfg _) as [st|] eqn:Hst; [cbn [assert_ok]|by apply spec_panic].
  apply NewStatefulSet_name in Hst. eapply spec_bind; [by apply builder_free|]. intros t _. by apply spec_ret.
Qed.

(** The StatefulSet that the pass applies, given the one that exists. *)
Definition outcome_of {A} (p : op A) : option A := match (run env p ∅).1.2 with Done a => Some a | Crashed _ => None end.
Definition fe_plan (rest : res StatefulSet -> pass) (cfg : config) (est : option StatefulSet) : option StatefulSet :=
  match outcome_of (rest (found est)) with
  | Some (d', None) => outcome_of (buildFEStatefulSet build d' cfg)
  | _ => None
  end.

(** A program beside the shelf has one trace and one outcome. *)
Lemma free_outcome {A} (R : A -> Prop) (p : op A) : spec shelf_free R p -> exists tr o, Forall unwritten tr /\
  (forall s, run env p s = (tr, o, s)) /\ outcome_of p = match o with Done a => Some a | Crashed _ => None end /\ returns R o.
Proof.
  intros Hp. destruct (free_runs sv p) as (tr & o & Ht & Hr); [eapply spec_weaken; [exact Hp | done | done]|].
  exists tr, o. split; [eapply Forall_impl; [exact Ht | apply free_unwritten]|]. split; [exact Hr|].
  split; [unfold outcome_of; by rewrite Hr|].
  pose proof (run_exec env p ∅) as Hex. rewrite Hr in Hex. by apply (spec_exec _ _ _ _ _ Hp) in Hex as [_ ?].
Qed.

Lemma fe_plan_run d old cfg rest (est : option StatefulSet) s :
  prepareStatefulsetApply d old =
    bind (call (CGet KSts (dcr_Namespace d) (GenerateComponentStatefulSetName d Component_FE))) rest ->
  (forall got, only shelf_free (rest got)) -> sts_at (GenerateComponentStatefulSetName d Component_FE) s = est ->
  exists tr d', Forall unwritten tr /\
  match fe_plan rest cfg est with
  | Some st =>
      let applied := run env (apply_stateful_set st tt restricted_equal []) s in
      run env (sync_statefulset build d old cfg) s =
        (app tr applied.1.1, match applied.1.2 with Done r => Done (d', r.2) | Crashed w => Crashed w end, applied.2)
  | None => exists o, run env (sync_statefulset build d old cfg) s = (tr, o, s) /\ forall d', o <> Done (d', None)
  end.
Proof.
  intros Hprep Hfree Hest. unfold sync_statefulset, fe_plan. rewrite Hprep.
  destruct (free_outcome _ _ (Hfree (found est))) as (tr1 & o1 & Ht1 & Hr1 & -> & _).
  set (get := Ev (CGet KSts (dcr_Namespace d) (GenerateComponentStatefulSetName d Component_FE)) (found est)).
  assert (Hp : run env (bind (call (CGet KSts (dcr_Namespace d) (GenerateComponentStatefulSetName d Component_FE))) rest) s =
    (get :: tr1, o1, s)).
  { rewrite run_bind. cbn [run call shelf_env]. by rewrite Hest, Hr1. }
  assert (Hg : Forall unwritten (get :: tr1)) by (by constructor).
  rewrite run_bind, Hp. destruct o1 as [[d' [e|]]|w]; cbn [or_fail].
  - exists (get :: tr1), d'. split; [exact Hg|]. eexists. cbn [run]. rewrite app_nil_r. split; [reflexivity | done].
  - rewrite run_bind. destruct (free_outcome _ _ (build_fe_free d' cfg)) as (tr2 & o2 & Ht2 & Hr2 & -> & _). rewrite Hr2.
    exists (app (get :: tr1) tr2), d'. split; [by apply Forall_app|]. destruct o2 as [st|w].
    + cbv zeta. rewrite run_bind. destruct (run env (apply_stateful_set _ _ _ _) s) as [[tr3 [[u err]|w]] s'];
        cbn [run fst snd]; by rewrite ?app_nil_r, app_assoc.
    + eexists. split; [reflexivity | done].
  - exists (get :: tr1), d. split; [exact Hg|]. by eexists.
Qed.

Lemma guarded_guarded fe n or : guarded fe n (guarded fe n or) = guarded fe n or.
Proof. unfold guarded. lia. Qed.

Lemma fe_statefulset_converges d fe n old cfg : FeSpec_ (dcr_Spec d) = Some fe -> bs_Replicas (fe_Base fe) = Some n ->
  no_restart d -> converges sv {[sts_cell d Component_FE]} (sync_statefulset build d old cfg).
Proof.
  intros Hfe Hn Hno. destruct (prepare_reads d fe n old Hfe Hn Hno) as (rest & Hprep & Her & Hok).
  assert (Hfree : forall got, only shelf_free (rest got)).
  { intros [est|err]; [eapply spec_weaken; [apply Hok | done | done]|]. rewrite Her. by apply spec_ret. }
  (* the StatefulSet is built for the guarded replicas *)
  assert (Hplan : forall est st, fe_plan rest cfg est = Some st ->
    st_Name st = GenerateComponentStatefulSetName d Component_FE /\
    forall e, est = Some e -> exists or, st_Replicas e = Some or /\ st_Replicas st = Some (guarded fe n or) /\
      outcome_of (buildFEStatefulSet build (set_fe_replicas (guarded fe n or) d) cfg) = Some st).
  { intros est st. unfold fe_plan. destruct est as [e|]; cbn [found].
    - destruct (free_outcome _ _ (Hok e)) as (_ & o & _ & _ & -> & HR). destruct o as [[d' [?|]]|]; [done| |done].
      cbn [returns fst snd] in HR. destruct (HR eq_refl) as (or & Hor & ->). intros Hst.
      destruct (free_outcome _ _ (build_fe_free (set_fe_replicas (guarded fe n or) d) cfg)) as (_ & o2 & _ & _ & E & HR2).
      rewrite E in Hst. destruct o2 as [st'|]; [|done]. injection Hst as ->. destruct HR2 as (Hname & base & Hb & Hrep).
      split.
      + rewrite Hname. unfold set_fe_replicas. by destruct (base_of d Component_FE).
      + intros e' [= <-]. exists or. split; [done|]. split; [|exact E].
        rewrite Hrep. pose proof (set_fe_replicas_wanted d fe (guarded fe n or) Hfe) as Hw. unfold wanted_replicas in Hw.
        by rewrite Hb in Hw.
    - rewrite Her. unfold outcome_of at 1. cbn [run fst snd]. intros Hst.
      destruct (free_outcome _ _ (build_fe_free d cfg)) as (_ & o2 & _ & _ & E & HR2). rewrite E in Hst.
      destruct o2 as [st'|]; [|done]. injection Hst as ->. by destruct HR2 as [Hname _]. }
  pose proof (apply_sts_applier sv (fun new old => StatefulSetDeepEqual (RestrictConditionsEqual new old) old false) []
    (Forall_nil_2 _)).
  apply (converges_planned sv (fun st => apply_stateful_set st tt restricted_equal []) snd
    (fun st est => exists p, StatefulSetDeepEqual (RestrictConditionsEqual st est) est false = Some (p, true)) _
    (fe_plan rest cfg)). split.
  - intros s Hp. destruct (fe_plan_run d old cfg rest _ s Hprep Hfree eq_refl) as (tr & d' & Ht & Hr).
    rewrite Hp in Hr. destruct Hr as (o & Hr & Ho). split; [unfold calm; by rewrite Hr|].
    intros [d2 Hd2]. rewrite Hr in Hd2. by apply (Ho d2).
  - intros s st Hp. split; [by apply (Hplan _ _ Hp)|].
    destruct (fe_plan_run d old cfg rest _ s Hprep Hfree eq_refl) as (tr & d' & Ht & Hr).
    rewrite Hp in Hr. cbv zeta in Hr. unfold succeeds, applies. rewrite Hr. cbn [fst snd]. split; [done|]. split.
    + intros [d2 Hd2]. destruct (run env (apply_stateful_set _ _ _ _) s).1.2 as [x|w]; [|done].
      exists x. split; [done|]. by injection Hd2.
    + intros Ht2. by apply Forall_app.
  - intros est st est' Hp Hrep. destruct (Hplan _ _ Hp) as [_ Hp']. destruct (Hp' est eq_refl) as (or & Hor & Hst & Hb).
    assert (Hg : exists or', st_Replicas est' = Some or' /\ guarded fe n or' = guarded fe n or).
    { destruct Hrep as [Hrep|Hrep]; [by exists or; rewrite Hrep|].
      exists (guarded fe n or). split; [by apply Hrep | apply guarded_guarded]. }
    destruct Hg as (or' & Hor' & Hg). destruct (fe_plan rest cfg (Some est')) as [st'|] eqn:Hp2; [|by right].
    destruct (Hplan _ _ Hp2) as [_ Hp2']. destruct (Hp2' est' eq_refl) as (or2 & Hor2 & _ & Hb2).
    rewrite Hor' in Hor2. injection Hor2 as <-. rewrite Hg, Hb in Hb2. injection Hb2 as <-. by left.
Qed.

Lemma fe_converges d fe n : FeSpec_ (dcr_Spec d) = Some fe -> bs_Replicas (fe_Base fe) = Some n ->
  EnableRestartWhenConfigChange (dcr_Spec d) = false -> no_restart d ->
  converges sv (component_cells d Component_FE) (DcrFe.Sync build d).
Proof.
  intros Hfe Hn He Hno. unfold DcrFe.Sync. rewrite Hfe.
  eapply (converges_free sv _ (fun d1 => same_spec d d1 /\ no_restart d1)).
  { unfold InitStatus. apply spec_call; [intros; exact eq_refl|]. intros now _. by apply spec_ret. }
  intros d1 [Hd1 Hno1]. destruct Hd1 as (Hs1 & Hn1 & _). rewrite Hs1, He. cbn [bind].
  eapply converges_free; [apply GetConfig_free|]. intros [cfg [e|]] _; [apply converges_ret|]. cbn [or_fail].
  eapply converges_free; [apply check_free|]. intros _ _.
  eapply converges_free; [apply CheckSharedPVC_spec; intros; exact eq_refl|]. intros _ _.
  destruct (cells_of_name d d1 Component_FE Hn1) as (E1 & E2 & E3).
  unfold component_cells. rewrite <- E1, <- E2, <- E3. apply (converges_services _ _ _ (fe_Base fe)).
  { unfold base_of. by rewrite Hs1, Hfe. }
  eapply converges_free; [apply ready_free|]. intros [] _; [|apply converges_ret].
  apply (fe_statefulset_converges d1 fe n); [by rewrite Hs1 | done..].
Qed.
End fe.

(** ** Passes that settle *)

(** The next pass writes no service and no StatefulSet, whatever else the shelf
    holds, once a pass succeeded over existing objects, and in any case once two
    passes succeeded. *)
Definition settles (W : gset cell) (p : pass) (s : shelf) : Prop :=
  let s1 := (run env p s).2 in
  let s2 := (run env p s1).2 in
  ((forall c, c ∈ W -> filled s c) -> succeeds sv p s -> steady sv W p s1) /\
  (succeeds sv p s -> succeeds sv p s1 -> steady sv W p s2).

Lemma converges_settles W p s : converges sv W p -> settles W p s.
Proof.
  intros Hc. split.
  - intros Hf Hs. by apply (converges_filled _ _ _ Hc s Hf s).
  - intros Hs Hs1. by apply (converges_first _ _ _ Hc s Hs _).
Qed.
End passes.

(** C13: The passes of FE, BE and broker settle: with a cluster that stays the
    same and an API server that keeps the annotations, the namespace and the
    replicas of what is written, whatever defaults it adds, a pass that succeeds
    over existing objects leaves nothing for the next one to write on its
    services and its StatefulSet, and from nothing at all two passes are enough.
    This is so of FE as long as no restart is asked for, the wanted replicas
    below the election number included. *)
Theorem passes_settle `{External} (sv : Server) (Hkeeps : Keeps sv) (d : Dcr) (s : shelf) :
  settles sv (component_cells d Component_BE) (DcrBe.Be.Sync buildBEPodTemplateSpec d) s /\
  settles sv (component_cells d Component_Broker) (DcrBe.Broker.Sync buildBrokerPodTemplateSpec d) s /\
  (forall fe n, FeSpec_ (dcr_Spec d) = Some fe -> bs_Replicas (fe_Base fe) = Some n ->
     EnableRestartWhenConfigChange (dcr_Spec d) = false -> no_restart d ->
     settles sv (component_cells d Component_FE) (DcrFe.Sync buildFEPodTemplateSpec d) s).
Proof.
  split; [|split].
  - apply converges_settles, be_converges; exact _.
  - apply converges_settles, broker_converges; exact _.
  - intros fe n Hfe Hn He Hno. by apply converges_settles, (fe_converges sv _ d fe n Hfe Hn He Hno).
Qed.

(** ** Witness *)

(** A server that fills in nothing, and answers the rest as the demonstration does. *)
Definition demo_server : Server :=
  mkServer (fun X e => (demo_env X e demo_fe_world).1) (fun s => s) (fun _ s => s) (fun s => s)
    (fun old s => s <| st_VolumeClaimTemplates := st_VolumeClaimTemplates old |>).
Lemma demo_server_keeps : Keeps demo_server.
Proof. by split. Qed.

Local Existing Instance demo_external.

(** The frontends of the demonstration, made from nothing. *)
Definition demo_fe_pass : pass := DcrFe.Sync buildFEPodTemplateSpec demo_dcr.
Definition demo_shelf : shelf := (run (shelf_env demo_server) demo_fe_pass ∅).2.

Definition pass_succeeds (o : outcome (Dcr * option goerr)) : bool :=
  match o with Done (_, None) => true | _ => false end.
Lemma pass_succeeds_true sv p s : pass_succeeds (run (shelf_env sv) p s).1.2 = true -> succeeds sv p s.
Proof. unfold succeeds. destruct (run _ _ _).1.2 as [[d [e|]]|w]; [done| |done]. intros _. by exists d. Qed.

Lemma passes_settle_witness :
  size demo_shelf = 3%nat /\
  steady demo_server (component_cells demo_dcr Component_FE) demo_fe_pass (run (shelf_env demo_server) demo_fe_pass demo_shelf).2.
Proof.
  split; [vm_compute; reflexivity|].
  destruct (passes_settle demo_server demo_server_keeps demo_dcr ∅) as (_ & _ & Hfe).
  apply (Hfe (mkFeSpec None demo_fe_base) 1); try reflexivity;
    (apply pass_succeeds_true; vm_compute; reflexivity).
Defined.
