(* ===== verification/ConvergeCluster.v ===== *)
(** A whole pass over a DorisCluster converges: the passes of its components,
    that of the compute nodes included, one after another in whatever order the
    reconciler takes, and the steps of the reconciler that follow them. *)

From Stdlib Require Import ZArith Lia.
From stdpp Require Import base list gmap strings.
From S2P Require Import Prelude GoStr KubeTypes DdcApi Client Traces Mysql Resource External SubDefault Observers Demo.
From S2P Require Import DcrApi DcrResource DcrSub PodTemplate DcrPods DcrFe DcrTraces DcrFeProps PodProps DcrConfigProps DcrReconcilerProps.
From S2P Require Import Converge ConvergeProps.
From S2P Require DcrBe DcrCn DdcReconciler DcrReconciler.

Local Open Scope string_scope.
Local Open Scope Z_scope.
Local Open Scope dop_scope.

(** ** The cluster during a pass *)

(** The cluster that the controllers hand on: of [d0] they keep the metadata,
    the FE and compute node specs and which components there are, and they give
    no status to a component that has no spec. *)
Record alike (d0 d : Dcr) : Prop := {
  alike_meta : dcr_Meta d = dcr_Meta d0;
  alike_restart : EnableRestartWhenConfigChange (dcr_Spec d) = EnableRestartWhenConfigChange (dcr_Spec d0);
  alike_fe : FeSpec_ (dcr_Spec d) = FeSpec_ (dcr_Spec d0);
  alike_be : is_Some (BeSpec_ (dcr_Spec d)) <-> is_Some (BeSpec_ (dcr_Spec d0));
  alike_cn : CnSpec_ (dcr_Spec d) = CnSpec_ (dcr_Spec d0);
  alike_broker : is_Some (BrokerSpec_ (dcr_Spec d)) <-> is_Some (BrokerSpec_ (dcr_Spec d0));
  alike_be_status : is_Some (BEStatus (dcr_Status d)) -> is_Some (BeSpec_ (dcr_Spec d0));
  alike_broker_status : is_Some (BrokerStatus (dcr_Status d)) -> is_Some (BrokerSpec_ (dcr_Spec d0))
}.

(** A cluster that asks for no restart, is not being deleted, has as many
    frontends as elect the master, and no status of a component that was removed. *)
Record at_rest (d : Dcr) : Prop := {
  rest_restart : EnableRestartWhenConfigChange (dcr_Spec d) = false /\ no_restart d;
  rest_kept : m_DeletionTimestamp (dcr_Meta d) = None;
  rest_fe fe : FeSpec_ (dcr_Spec d) = Some fe ->
    exists n, bs_Replicas (fe_Base fe) = Some n /\ GetElectionNumber fe <= n;
  rest_be : is_Some (BEStatus (dcr_Status d)) -> is_Some (BeSpec_ (dcr_Spec d));
  rest_broker : is_Some (BrokerStatus (dcr_Status d)) -> is_Some (BrokerSpec_ (dcr_Spec d))
}.

Lemma alike_refl d : at_rest d -> alike d d.
Proof. intros []. by split. Qed.

Lemma alike_name d0 d : alike d0 d -> dcr_Name d = dcr_Name d0.
Proof. intros []. unfold dcr_Name. congruence. Qed.

Lemma alike_no_restart d0 d : alike d0 d -> no_restart d0 -> no_restart d.
Proof. intros []. unfold no_restart, dcr_Annotations. congruence. Qed.

Lemma alike_fe_status d0 d s : alike d0 d -> alike d0 (set_fe_status s d).
Proof. intros []. by split. Qed.
Lemma alike_cn_status d0 d s : alike d0 d -> alike d0 (set_cn_status s d).
Proof. intros []. by split. Qed.
Lemma alike_be_status_set d0 d s : alike d0 d -> is_Some (BeSpec_ (dcr_Spec d)) -> alike d0 (set_be_status s d).
Proof. intros [] Hb. split; cbn; try done. intros _. by apply alike_be0. Qed.
Lemma alike_be_base d0 d b : alike d0 d -> alike d0 (set_be_base b d).
Proof. intros []. split; cbn; try done. by rewrite fmap_is_Some. Qed.
Lemma alike_broker_base d0 d b : alike d0 d -> alike d0 (set_broker_base b d).
Proof. intros []. split; cbn; try done. by rewrite fmap_is_Some. Qed.

(** ** What a component sees of the cluster *)

(** The part of the cluster that the pass of a component depends on: BE's spec
    for another component is the FE address configured there. *)
Definition be_seen (be : BeSpec) : BeSpec := be <| be_Base := emptyBase <| bs_FeAddress := bs_FeAddress (be_Base be) |> |>.
Definition view (c : ComponentType) (d : Dcr) : Dcr :=
  let sp := dcr_Spec d in
  let st := dcr_Status d in
  d <| dcr_Spec := sp <| BeSpec_ := match c with Component_BE => BeSpec_ sp | _ => be_seen <$> BeSpec_ sp end |>
                      <| BrokerSpec_ := match c with Component_Broker => BrokerSpec_ sp | _ => None end |> |>
    <| dcr_Status := st <| FEStatus := match c with Component_FE => FEStatus st | _ => None end |>
                        <| BEStatus := match c with Component_BE => BEStatus st | _ => None end |> |>.

(** A component's pass leaves what the others see. *)
Definition others_see (c : ComponentType) (d d' : Dcr) : Prop := forall c', c' <> c -> view c' d' = view c' d.
#[export] Instance others_see_preorder c : PreOrder (others_see c).
Proof. split; [by intros d c' _ | intros d1 d2 d3 H1 H2 c' Hc]. by rewrite (H2 c' Hc), (H1 c' Hc). Qed.

Lemma others_see_fe_status s d : others_see Component_FE d (set_fe_status s d).
Proof. by intros []. Qed.
Lemma others_see_be_status s d : others_see Component_BE d (set_be_status s d).
Proof. by intros []. Qed.
Lemma others_see_broker_base b d : others_see Component_Broker d (set_broker_base b d).
Proof. by intros []. Qed.
Lemma others_see_be_base b d be : BeSpec_ (dcr_Spec d) = Some be -> bs_FeAddress b = bs_FeAddress (be_Base be) ->
  others_see Component_BE d (set_be_base b d).
Proof.
  intros Hbe Hb c' Hc. assert (Hs : be_seen <$> BeSpec_ (dcr_Spec (set_be_base b d)) = be_seen <$> BeSpec_ (dcr_Spec d)).
  { cbn. rewrite Hbe. cbn. unfold be_seen. cbn. by rewrite Hb. }
  destruct c'; [| done |..]; unfold view; by rewrite Hs.
Qed.

Section cluster.
Context `{Hext : External} (sv : Server) `{!Keeps sv} (d0 : Dcr).
Local Abbreviation env := (shelf_env sv).

Lemma prepare_result d fe n old : FeSpec_ (dcr_Spec d) = Some fe -> bs_Replicas (fe_Base fe) = Some n ->
  GetElectionNumber fe <= n -> no_restart d -> result (fun r => r.2 = None -> r.1 = d) (prepareStatefulsetApply d old).
Proof.
  intros Hfe Hn Hel Hno. destruct (prepare_reads d fe n old Hfe Hn Hno) as (rest & -> & Her & Hok).
  apply spec_call; [done|]. intros [est|err] _; [|rewrite Her; by apply spec_ret].
  eapply spec_weaken; [apply Hok | done|]. intros r Hr He. destruct (Hr He) as (or & _ & ->).
  unfold guarded. rewrite Z.max_l by lia. by eapply set_fe_replicas_same.
Qed.

(** The cluster that the pass of a component hands on. *)
Definition hands (c : ComponentType) (d d' : Dcr) : Prop := (alike d0 d -> alike d0 d') /\ others_see c d d'.
#[local] Instance hands_preorder c : PreOrder (hands c).
Proof.
  split; [intros d; split; [done | reflexivity]|]. intros d1 d2 d3 [A1 V1] [A2 V2]. split; [auto | by transitivity d2].
Qed.
Definition hands_on (c : ComponentType) (d : Dcr) (p : pass) : Prop := result (fun r => r.2 = None -> hands c d r.1) p.

Lemma hands_fe_status s d : hands Component_FE d (set_fe_status s d).
Proof. split; [apply alike_fe_status | apply others_see_fe_status]. Qed.
Lemma hands_be_status s d : is_Some (BeSpec_ (dcr_Spec d)) -> hands Component_BE d (set_be_status s d).
Proof. intros Hb. split; [intros Ha; by apply alike_be_status_set | apply others_see_be_status]. Qed.
Lemma hands_be_base b d be : BeSpec_ (dcr_Spec d) = Some be -> bs_FeAddress b = bs_FeAddress (be_Base be) ->
  hands Component_BE d (set_be_base b d).
Proof. intros Hbe Hb. split; [apply alike_be_base | by eapply others_see_be_base]. Qed.
Lemma hands_broker_base b d : hands Component_Broker d (set_broker_base b d).
Proof. split; [apply alike_broker_base | apply others_see_broker_base]. Qed.

Lemma hands_on_same c d err : hands_on c d (Ret (d, err)).
Proof. apply spec_ret. intros _. reflexivity. Qed.
Lemma hands_on_after c d d' (p : pass) : hands c d d' -> hands_on c d' p -> hands_on c d p.
Proof. intros Hd Hp. eapply spec_weaken; [exact Hp | done|]. intros r Hr He. etransitivity; [exact Hd | by apply Hr]. Qed.
Lemma hands_on_any {A} c d (p : op A) (f : A -> pass) : (forall a, hands_on c d (f a)) -> hands_on c d (bind p f).
Proof. intros Hf. eapply (spec_bind _ (fun _ => True)); [apply only_any|]. intros a _. apply Hf. Qed.
Lemma hands_on_fail c d d' err (k : pass) : hands_on c d k -> hands_on c d (or_fail d' err k).
Proof. intros Hk. destruct err; [by apply spec_ret | exact Hk]. Qed.
Lemma hands_on_services c d d' c' cfg (k : pass) : hands_on c d k -> hands_on c d (apply_services d' c' cfg k).
Proof.
  intros Hk. unfold apply_services. destruct (BuildExternalService _ _ _); [cbn [assert_ok]|by apply spec_panic].
  destruct (BuildInternalService _ _ _); [cbn [assert_ok]|by apply spec_panic].
  apply hands_on_any. intros e1. apply hands_on_fail, hands_on_any. intros e2. by apply hands_on_fail.
Qed.

Lemma fe_hands d : at_rest d0 -> alike d0 d -> hands_on Component_FE d (DcrFe.Sync buildFEPodTemplateSpec d).
Proof.
  intros Hr Ha. pose proof (alike_no_restart _ _ Ha (proj2 (rest_restart _ Hr))) as Hno.
  pose proof (eq_trans (alike_restart _ _ Ha) (proj1 (rest_restart _ Hr))) as He.
  unfold DcrFe.Sync. destruct (FeSpec_ (dcr_Spec d)) as [fe|] eqn:Hfe; [|apply hands_on_same].
  destruct (rest_fe _ Hr fe) as (n & Hn & Hel); [by rewrite <- (alike_fe _ _ Ha)|].
  unfold InitStatus. apply spec_call; [done|]. intros now _. cbn [bind set_status].
  generalize (Some (init_status (GetComponentStatus d Component_FE) d Component_FE now)). intros s.
  apply (hands_on_after _ _ _ _ (hands_fe_status s d)). set (d1 := set_fe_status s d).
  change (EnableRestartWhenConfigChange (dcr_Spec d1)) with (EnableRestartWhenConfigChange (dcr_Spec d)). rewrite He. cbn [bind].
  apply hands_on_any. intros [cfg err]. apply hands_on_fail, hands_on_any. intros _. apply hands_on_any. intros _.
  apply hands_on_services, hands_on_any. intros []; [|apply hands_on_same]. unfold sync_statefulset.
  eapply spec_bind; [by apply (prepare_result d1 fe n)|]. intros [d2 [e|]] Hd2; cbn [or_fail fst snd] in *; [by apply spec_ret|].
  rewrite (Hd2 eq_refl). apply hands_on_any. intros st. apply hands_on_any. intros [u err2]. apply hands_on_same.
Qed.

(** The restart of BE writes the annotations of its base spec. *)
Lemma inject_hands d be : BeSpec_ (dcr_Spec d) = Some be ->
  result (fun r => hands Component_BE d r.1 /\ is_Some (BeSpec_ (dcr_Spec r.1))) (CheckRestartTimeAndInject d Component_BE).
Proof.
  intros Hbe. unfold CheckRestartTimeAndInject, warn. cbn [base_of]. rewrite Hbe. cbn [fmap option_fmap option_map deref].
  assert (Hd : forall ok, result (fun r : Dcr * bool => hands Component_BE d r.1 /\ is_Some (BeSpec_ (dcr_Spec r.1))) (Ret (d, ok) : op (Dcr * bool))).
  { intros ok. apply spec_ret. split; [done | exact (mk_is_Some _ _ Hbe)]. }
  case_decide; [apply Hd|]. destruct (time_parse_rfc3339 _); [|apply spec_call; [done | intros; apply Hd]].
  apply spec_call; [done|]. intros now _. destruct (_ <? _); [apply spec_call; [done | intros; apply Hd]|].
  apply spec_ret. split; [by eapply hands_be_base|]. cbn. by rewrite Hbe.
Qed.

(** Building the templates of BE and broker writes a base spec. *)
Lemma be_template_hands d cfg : result (fun r => hands Component_BE d r.1) (buildBEPodTemplateSpec d cfg).
Proof.
  unfold buildBEPodTemplateSpec. destruct (NewPodTemplateSpec _ _ _); [cbn [assert_ok]|by apply spec_panic].
  destruct (BeSpec_ _) as [be|] eqn:Hbe; [cbn [deref]|by apply spec_panic]. destruct (be_affinity be _) as [pts' base] eqn:Hbase.
  eapply (spec_bind _ (fun _ => True)); [apply only_any|]. intros t _.
  destruct (AddTerminationGracePeriodSeconds _ _ _); [cbn [assert_ok]|by apply spec_panic].
  eapply (spec_bind _ (fun _ => True)); [apply only_any|]. intros container _. apply spec_ret. cbn [fst].
  apply (hands_be_base _ _ _ Hbe). assert (Ha : bs_FeAddress base = bs_FeAddress (be_Base be)).
  { unfold be_affinity, prefer_in_spec in Hbase. repeat case_match; by simplify_eq. }
  by destruct (be_EnableWorkloadGroup be).
Qed.
Lemma broker_template_hands d cfg : result (fun r => hands Component_Broker d r.1) (buildBrokerPodTemplateSpec d cfg).
Proof.
  unfold buildBrokerPodTemplateSpec. destruct (NewPodTemplateSpec _ _ _); [cbn [assert_ok]|by apply spec_panic].
  destruct (BrokerSpec_ _) as [broker|]; [cbn [deref]|by apply spec_panic].
  destruct (addDefaultBorkerPodAffinity broker _) as [pts' base].
  eapply (spec_bind _ (fun _ => True)); [apply only_any|]. intros container _. apply spec_ret. apply hands_broker_base.
Qed.

Lemma be_hands d : at_rest d0 -> alike d0 d -> hands_on Component_BE d (DcrBe.Be.Sync buildBEPodTemplateSpec d).
Proof.
  intros Hr Ha. unfold DcrBe.Be.Sync. destruct (BeSpec_ (dcr_Spec d)) as [be|] eqn:Hbe; [|apply hands_on_same].
  unfold InitStatus. apply spec_call; [done|]. intros now _. cbn [bind set_status].
  generalize (Some (init_status (GetComponentStatus d Component_BE) d Component_BE now)). intros s.
  apply (hands_on_after _ _ _ _ (hands_be_status s d (mk_is_Some _ _ Hbe))). set (d1 := set_be_status s d).
  change (EnableRestartWhenConfigChange (dcr_Spec d1)) with (EnableRestartWhenConfigChange (dcr_Spec d)).
  rewrite (alike_restart _ _ Ha), (proj1 (rest_restart _ Hr)). cbn [bind].
  apply hands_on_any. intros []; [cbn [negb]|apply hands_on_same].
  apply hands_on_any. intros [cfg err]. apply hands_on_fail, hands_on_any. intros _. apply hands_on_services.
  eapply (spec_bind _ (fun r => hands Component_BE d1 r.1)).
  { unfold DcrBe.Be.prepareStatefulsetApply. case_decide; [|by apply spec_ret].
    eapply spec_bind; [by apply (inject_hands d1 be)|]. intros [d2 inject] [Hd2 Hb2]. destruct inject; [|by apply spec_ret].
    destruct (BEStatus (dcr_Status d2)); [cbn [deref]|by apply spec_panic]. apply spec_ret. etransitivity; [exact Hd2 | by apply hands_be_status]. }
  intros [d2 err2] Hd2. apply (hands_on_after _ _ _ _ Hd2), hands_on_fail. cbn [fst].
  eapply (spec_bind _ (fun r => hands Component_BE d2 r.1)).
  { unfold DcrBe.Be.buildBEStatefulSet. destruct (NewStatefulSet _ _ _); [cbn [assert_ok]|by apply spec_panic].
    eapply spec_bind; [apply be_template_hands|]. intros [d3 t] Hd3. by apply spec_ret. }
  intros [d3 st] Hd3. apply (hands_on_after _ _ _ _ Hd3), hands_on_any. intros []; [|apply hands_on_same].
  apply hands_on_any. intros [u err3]. apply hands_on_same.
Qed.

Lemma broker_hands d : hands_on Component_Broker d (DcrBe.Broker.Sync buildBrokerPodTemplateSpec d).
Proof.
  unfold DcrBe.Broker.Sync. destruct (BrokerSpec_ (dcr_Spec d)) as [broker|]; [|apply hands_on_same].
  apply hands_on_any. intros []; [cbn [negb]|apply hands_on_same].
  apply hands_on_any. intros [cfg err]. apply hands_on_fail, hands_on_any. intros _.
  destruct (BuildInternalService _ _ _); [cbn [assert_ok]|by apply spec_panic].
  apply hands_on_any. intros err1. apply hands_on_fail.
  eapply (spec_bind _ (fun r => hands Component_Broker d r.1)).
  { unfold DcrBe.Broker.buildBKStatefulSet. destruct (NewStatefulSet _ _ _); [cbn [assert_ok]|by apply spec_panic].
    eapply spec_bind; [apply broker_template_hands|]. intros [d3 t] Hd3. by apply spec_ret. }
  intros [d3 st] Hd3. apply (hands_on_after _ _ _ _ Hd3), hands_on_any. intros [u err3]. apply hands_on_same.
Qed.

(** ** The compute nodes *)

(** An autoscaler that owns the replicas leaves them out of the comparison. *)
Definition cn_excludes (b : bool) (st : StatefulSet) : bool :=
  match st_Replicas st with None => negb b | Some _ => false end.
Definition cn_compare (b : bool) (new old : StatefulSet) : option (StatefulSet * bool) :=
  StatefulSetDeepEqual (RestrictConditionsEqual new old) old (cn_excludes b new).
Instance cn_settling b : Settling (cn_compare b).
Proof. apply (restricted_settling (cn_excludes b)). Qed.

Lemma mergeMaps_new (new old : strmap) : new ⊆ mergeMaps new old.
Proof.
  unfold mergeMaps, mergeMapsByPrefix. rewrite map_filter_id by done. apply map_union_subseteq_l.
Qed.

(** What is written after a difference: the merged object, or the new one. *)
Definition cn_update (p est : StatefulSet) : StatefulSet :=
  match st_Replicas p with
  | Some _ => MergeStatefulSets p est
  | None => set_st_ResourceVersion (m_ResourceVersion (st_Meta est)) p
  end.
Lemma cn_update_keeps p est : st_Name (cn_update p est) = st_Name p /\ st_Namespace (cn_update p est) = st_Namespace p /\
  st_Replicas (cn_update p est) = st_Replicas p /\ st_Annotations p ⊆ st_Annotations (cn_update p est).
Proof.
  unfold cn_update. destruct (st_Replicas p) as [r|] eqn:Hr; (split; [done|]; split; [done|]; split; [exact Hr|]); [|done].
  apply mergeMaps_new.
Qed.

Lemma cn_apply_run b st s :
  match sts_at (st_Name st) s with
  | None => exists tr est', run env (DcrCn.applyStatefulSet st b) s =
      (tr, Done None, <[StsCell (st_Name st) := StoredSts est']> s)
  | Some est => match cn_compare b st est with
    | None => exists tr w, Forall unwritten tr /\ run env (DcrCn.applyStatefulSet st b) s = (tr, Crashed w, s)
    | Some (p, true) => exists tr, Forall unwritten tr /\ run env (DcrCn.applyStatefulSet st b) s = (tr, Done None, s)
    | Some (p, false) => exists tr, run env (DcrCn.applyStatefulSet st b) s =
        (tr, Done None, <[StsCell (st_Name st) := StoredSts (sv_sts_patched sv est (cn_update p est))]> s)
    end
  end.
Proof.
  unfold DcrCn.applyStatefulSet. cbn [run bind call shelf_env].
  destruct (sts_at (st_Name st) s) as [est|] eqn:Ho; cbn [found].
  - change (StatefulSetDeepEqual _ est _) with (cn_compare b st est). destruct (cn_compare b st est) as [[p eq]|] eqn:Hc; cbn [deref].
    2:{ do 2 eexists. split; [|reflexivity]. by repeat constructor. }
    destruct eq; [eexists; split; [|reflexivity]; by repeat constructor|].
    destruct (cmp_keeps _ _ _ _ Hc) as (Hn & _ & _). destruct (cn_update_keeps p est) as (Hu & _).
    assert (Hw : match st_Replicas p with
      | Some _ => UpdateClientObject KSts (MergeStatefulSets p est)
      | None => UpdateClientObject KSts (set_st_ResourceVersion (m_ResourceVersion (st_Meta est)) p)
      end = UpdateClientObject KSts (cn_update p est)) by (unfold cn_update; by destruct (st_Replicas p)).
    rewrite Hw. cbn [run UpdateClientObject call shelf_env]. unfold patch_sts. rewrite Hu, Hn, Ho. by eexists.
  - change (IsNotFound absent) with true. cbv iota. cbn [run CreateClientObject call shelf_env]. unfold create_sts.
    rewrite Ho. by do 2 eexists.
Qed.

Instance cn_applier b : Applier sv (fun st => DcrCn.applyStatefulSet st b) id
  (fun st est => exists p, cn_compare b st est = Some (p, true)).
Proof.
  split.
  - intros st s c Hc. pose proof (cn_apply_run b st s) as Hr. destruct (sts_at _ s) as [est|].
    + destruct (cn_compare b st est) as [[p []]|].
      * by destruct Hr as (tr & _ & ->).
      * destruct Hr as (tr & ->). by apply lookup_insert_ne.
      * by destruct Hr as (tr & w & _ & ->).
    + destruct Hr as (tr & est' & ->). by apply lookup_insert_ne.
  - intros st s est Hest [p Hp]. pose proof (cn_apply_run b st s) as Hr. rewrite Hest, Hp in Hr.
    destruct Hr as (tr & Ht & Hr). unfold calm. by rewrite Hr.
  - intros st s est Hest (x & Hx & _). pose proof (cn_apply_run b st s) as Hr. rewrite Hest in Hr.
    destruct (cn_compare b st est) as [[p []]|] eqn:Hc.
    + destruct Hr as (tr & _ & ->). exists est. split; [exact Hest|]. split; [by eexists | by left].
    + destruct Hr as (tr & ->). destruct (cn_update_keeps p est) as (_ & Hns & Hrep & Hann).
      destruct (cmp_keeps _ _ _ _ Hc) as (_ & Hns' & Hrep'). cbn [snd]. rewrite sts_at_insert. eexists. split; [done|]. split.
      * eapply cmp_settles; [exact Hc | | rewrite sts_patched_namespace; congruence | apply sts_patched_claims].
        etransitivity; [exact Hann | apply sts_patched_annotations].
      * right. intros r Hst. apply sts_patched_replicas. congruence.
    + destruct Hr as (tr & w & _ & Hr). by rewrite Hr in Hx.
  - intros st s (x & Hx & _). pose proof (cn_apply_run b st s) as Hr. destruct (sts_at _ s) as [est|] eqn:Hest.
    + destruct (cn_compare b st est) as [[p []]|].
      * destruct Hr as (tr & _ & ->). cbn. rewrite Hest. by eexists.
      * destruct Hr as (tr & ->). cbn [snd filled]. rewrite sts_at_insert. by eexists.
      * destruct Hr as (tr & w & _ & Hr). by rewrite Hr in Hx.
    + destruct Hr as (tr & est' & ->). cbn [snd filled]. rewrite sts_at_insert. by eexists.
Qed.

Lemma cn_config_free cmi ns : only shelf_free (DcrCn.cn_GetConfig cmi ns).
Proof. apply k8s_GetConfig_spec; intros; exact eq_refl. Qed.

Lemma build_cn_free d cfg : spec shelf_free (fun st => StsCell (st_Name st) = sts_cell d Component_CN)
  (DcrCn.buildCnStatefulSet buildCnPodTemplateSpec d cfg).
Proof.
  unfold DcrCn.buildCnStatefulSet. destruct (NewStatefulSet d cfg _) as [st|] eqn:Hst; [cbn [assert_ok]|by apply spec_panic].
  apply NewStatefulSet_name in Hst as [Hn _]. eapply spec_bind; [apply builder_free; exact _|]. intros t _. apply spec_ret.
  unfold sts_cell. by rewrite <- Hn.
Qed.

(** The step after the StatefulSet: the autoscaler, whose error is dropped. *)
Definition cn_tail (d : Dcr) (policy : option AutoScalingPolicy) (st : StatefulSet) (err : option goerr) : pass :=
  or_fail d err (
  match policy with
  | Some policy => let! _ := DcrCn.deployAutoScaler policy st d (asp_Version policy) in Ret (d, None)
  | None => Ret (d, None)
  end).
Lemma cn_tail_free d policy st err : only shelf_free (cn_tail d policy st err).
Proof.
  unfold cn_tail, or_fail. destruct err as [e|]; [by apply spec_ret|]. destruct policy as [p|]; [|by apply spec_ret].
  eapply (spec_bind _ (fun _ => True)); [|intros; by apply spec_ret]. unfold DcrCn.deployAutoScaler, CreateOrUpdateClientObject.
  destruct (pap_AutoscalerType _); try (by apply spec_panic);
    (apply spec_call; [intros; exact eq_refl|]; intros [e|] _; [|by apply spec_ret]; destruct (IsNotFound e); [|by apply spec_ret];
     apply spec_call; [intros; exact eq_refl|]; intros; by apply spec_ret).
Qed.
Lemma cn_tail_result d policy st err : result (fun r => r.1 = d /\ (r.2 = None -> err = None)) (cn_tail d policy st err).
Proof.
  unfold cn_tail, or_fail. destruct err as [e|]; [by apply spec_ret|]. destruct policy as [p|]; [|by apply spec_ret].
  eapply (spec_bind _ (fun _ => True)); [apply only_any|]. intros err _. by apply spec_ret.
Qed.

Lemma cn_converges d : converges sv (component_cells d Component_CN) (DcrCn.Sync buildCnPodTemplateSpec d).
Proof.
  unfold DcrCn.Sync. destruct (CnSpec_ (dcr_Spec d)) as [cn|] eqn:Hcn.
  2:{ unfold DcrCn.ClearResources. rewrite Hcn. destruct (CnStatus_ _); [apply converges_panic | apply converges_ret]. }
  eapply converges_free; [apply FeAvailable_free|]. intros [] _; [cbn [negb]|apply converges_ret].
  eapply converges_free; [apply cn_config_free|]. intros [cfg [e|]] _; [apply converges_ret|]. cbn [or_fail].
  eapply converges_free; [apply check_free|]. intros _ _.
  apply (converges_services _ _ _ _ (cn_Base cn)); [cbn; by rewrite Hcn|].
  eapply converges_free; [apply build_cn_free|]. intros st Hst.
  eapply converges_free; [apply ready_free|]. intros [] _; [cbn [negb]|apply converges_ret]. rewrite <- Hst.
  apply (converges_applied sv (fun st => DcrCn.applyStatefulSet st _) id _ st (cn_tail d (cn_AutoScalingPolicy cn) st)).
  - apply cn_tail_free.
  - intros err s [d' Hd']. pose proof (run_exec env (cn_tail d (cn_AutoScalingPolicy cn) st err) s) as Hex. rewrite Hd' in Hex.
    by apply (spec_exec _ _ _ _ _ (cn_tail_result _ _ _ _)) in Hex as [_ [_ Hx]]; apply Hx.
Qed.

Lemma cn_hands d : hands_on Component_CN d (DcrCn.Sync buildCnPodTemplateSpec d).
Proof.
  unfold DcrCn.Sync. destruct (CnSpec_ (dcr_Spec d)) as [cn|] eqn:Hcn.
  2:{ unfold DcrCn.ClearResources. rewrite Hcn. destruct (CnStatus_ _); [by apply spec_panic | apply (hands_on_same _ d)]. }
  apply hands_on_any. intros []; [cbn [negb]|apply hands_on_same].
  apply hands_on_any. intros [cfg err]. apply hands_on_fail, hands_on_any. intros _. apply hands_on_services, hands_on_any.
  intros st. apply hands_on_any. intros []; [cbn [negb]|apply hands_on_same]. apply hands_on_any. intros err2.
  eapply spec_weaken; [apply (cn_tail_result d (cn_AutoScalingPolicy cn) st err2) | done|]. by intros r [-> _].
Qed.

(** ** A pass depends on what its component sees *)

(** Two programs that make the same calls, with related results. *)
Definition likewise {A} (R : A -> A -> Prop) (p q : op A) : Prop := forall s,
  (run env p s).1.1 = (run env q s).1.1 /\ (run env p s).2 = (run env q s).2 /\
  match (run env p s).1.2, (run env q s).1.2 with
  | Done a, Done b => R a b
  | Crashed _, Crashed _ => True
  | _, _ => False
  end.

Lemma likewise_ret {A} (R : A -> A -> Prop) a b : R a b -> likewise R (Ret a) (Ret b).
Proof. intros HR s. by split. Qed.
Lemma likewise_panic {A} (R : A -> A -> Prop) w w' : likewise R (Panic w) (Panic w').
Proof. intros s. by split. Qed.
Lemma likewise_same {A} (R : A -> A -> Prop) p : (forall a, R a a) -> likewise R p p.
Proof. intros HR s. split; [done|]. split; [done|]. by destruct (run env p s).1.2. Qed.

Lemma likewise_bind {A B} (R : A -> A -> Prop) (R' : B -> B -> Prop) p q f g :
  likewise R p q -> (forall a b, R a b -> likewise R' (f a) (g b)) -> likewise R' (bind p f) (bind q g).
Proof.
  intros Hp Hf s. destruct (Hp s) as (Ht & Hs & Ho). rewrite !run_bind.
  destruct (run env p s) as [[tr o] s1], (run env q s) as [[tr' o'] s1']. cbn in Ht, Hs, Ho. subst tr' s1'.
  destruct o as [a|w], o' as [b|w']; [|done..]. destruct (Hf a b Ho s1) as (Ht & Hs & Ho').
  destruct (run env (f a) s1) as [[tr2 o2] s2], (run env (g b) s1) as [[tr2' o2'] s2']. cbn in *. by subst.
Qed.
(** The common case: the same program first. *)
Lemma likewise_then {A B} (R : B -> B -> Prop) (p : op A) f g :
  (forall a, likewise R (f a) (g a)) -> likewise R (bind p f) (bind p g).
Proof. intros Hf. apply (likewise_bind eq); [by apply likewise_same|]. by intros a b ->. Qed.

Definition same_error (r r' : Dcr * option goerr) : Prop := r.2 = r'.2.
Lemma likewise_fail d d' err (k k' : pass) : likewise same_error k k' -> likewise same_error (or_fail d err k) (or_fail d' err k').
Proof. intros Hk. destruct err; [by apply likewise_ret | exact Hk]. Qed.

(** What they do to the shelf is the same. *)
Lemma likewise_succeeds p q s : likewise same_error p q -> succeeds sv p s -> succeeds sv q s.
Proof.
  intros Hr [d Hd]. destruct (Hr s) as (_ & _ & Ho). rewrite Hd in Ho. unfold succeeds.
  destruct (run env q s).1.2 as [[d' e]|]; [|done].
  unfold same_error in Ho. cbn in Ho. subst e. by exists d'.
Qed.
Lemma likewise_calm p q s : likewise same_error p q -> calm sv p s -> calm sv q s.
Proof. intros Hr [Ht Hs]. destruct (Hr s) as (Et & Es & _). split; congruence. Qed.
Lemma likewise_steady W p q s : likewise same_error p q -> steady sv W p s -> steady sv W q s.
Proof. intros Hr Hs s' Ha. by apply (likewise_calm p), Hs. Qed.
Lemma likewise_sym p q : likewise same_error p q -> likewise same_error q p.
Proof.
  intros Hr s. destruct (Hr s) as (Ht & Hs & Ho). split; [done|]. split; [done|].
  by destruct (run env p s).1.2, (run env q s).1.2.
Qed.
Lemma likewise_trans p q r : likewise same_error p q -> likewise same_error q r -> likewise same_error p r.
Proof.
  intros H1 H2 s. destruct (H1 s) as (Ht & Hs & Ho), (H2 s) as (Ht' & Hs' & Ho').
  split; [congruence|]. split; [congruence|]. destruct (run env p s).1.2, (run env q s).1.2, (run env r s).1.2; try done.
  unfold same_error in *. congruence.
Qed.

Lemma likewise_services d d' c c' cfg (k k' : pass) : BuildExternalService d' c' cfg = BuildExternalService d c cfg ->
  BuildInternalService d' c' cfg = BuildInternalService d c cfg ->
  likewise same_error k k' -> likewise same_error (apply_services d c cfg k) (apply_services d' c' cfg k').
Proof.
  intros He Hi Hk. unfold apply_services. rewrite He, Hi.
  destruct (BuildExternalService d c cfg); [cbn [assert_ok]|apply likewise_panic].
  destruct (BuildInternalService d c cfg); [cbn [assert_ok]|apply likewise_panic].
  apply likewise_then. intros e1. apply likewise_fail, likewise_then. intros e2. by apply likewise_fail.
Qed.

(** The FE address that the other components find. *)
Lemma FeAvailable_view c d : FeAvailable (view c d) = FeAvailable d.
Proof. unfold FeAvailable. cbn [GetConfigFEAddrForAccess base_of view]. destruct c; cbn; by destruct (BeSpec_ (dcr_Spec d)). Qed.

(** The claims. *)
Lemma create_claims_likewise d d' sel sts v n left : dcr_Namespace d' = dcr_Namespace d ->
  likewise eq (create_claims d sel sts v n left) (create_claims d' sel sts v n left).
Proof.
  intros Hn. revert n; induction left as [|left IH]; intros n; cbn [create_claims]; [by apply likewise_ret|]. rewrite Hn.
  apply likewise_then. intros err. apply likewise_then. intros _. apply IH.
Qed.
Lemma prepare_volumes_likewise d d' sel sts r all pvcs vs b : dcr_Namespace d' = dcr_Namespace d ->
  likewise eq (prepare_volumes d sel sts r all pvcs vs b) (prepare_volumes d' sel sts r all pvcs vs b).
Proof.
  intros Hn. revert b; induction vs as [|v vs IH]; intros b; cbn [prepare_volumes]; [by apply likewise_ret|].
  case_decide; [|apply IH]. apply (likewise_bind eq); [|intros ok ? <-; apply IH]. unfold patchPVCs.
  apply likewise_then. intros ok. apply likewise_then. intros ok2.
  apply (likewise_bind eq); [by apply create_claims_likewise|]. intros _ _ _. by apply likewise_ret.
Qed.
Lemma ready_view c d : likewise eq (PrepareReconcileResources d c) (PrepareReconcileResources (view c d) c).
Proof.
  unfold PrepareReconcileResources. destruct c; try (by apply likewise_ret); unfold prepare_component;
    (match goal with |- context [base_of (view ?c d) ?c] => change (base_of (view c d) c) with (base_of d c) end);
    (destruct (base_of d _) as [b|] eqn:Hb; [cbn [deref]|apply likewise_panic]); (destruct (bs_PersistentVolumes b); [by apply likewise_ret|]);
    unfold preparePersistentVolumeClaim, claim_replicas;
    (match goal with |- context [base_of (view ?c d) ?c] => change (base_of (view c d) c) with (base_of d c) end);
    rewrite Hb; cbn [deref]; (destruct (bs_Replicas b); [cbn [deref]|apply likewise_panic]);
    apply likewise_then; (intros [vs|err]; [|apply likewise_then; intros _; by apply likewise_ret]);
    apply likewise_then; (intros [pvcs|err]; [|apply likewise_then; intros _; by apply likewise_ret]); by apply prepare_volumes_likewise.
Qed.

Lemma cn_view d : likewise same_error (DcrCn.Sync buildCnPodTemplateSpec d) (DcrCn.Sync buildCnPodTemplateSpec (view Component_CN d)).
Proof.
  unfold DcrCn.Sync. cbn [CnSpec_ dcr_Spec view]. rewrite FeAvailable_view. set (d' := view Component_CN d).
  change (CnSpec_ (dcr_Spec d')) with (CnSpec_ (dcr_Spec d)). destruct (CnSpec_ (dcr_Spec d)) as [cn|] eqn:Hcn.
  2:{ unfold DcrCn.ClearResources. change (CnStatus_ (dcr_Status d')) with (CnStatus_ (dcr_Status d)).
      change (CnSpec_ (dcr_Spec d')) with (CnSpec_ (dcr_Spec d)). rewrite Hcn.
      destruct (CnStatus_ _); [apply likewise_panic | by apply likewise_ret]. }
  apply likewise_then. intros []; cbn [negb]; [|by apply likewise_ret].
  apply likewise_then. intros [cfg err]. apply likewise_fail.
  change (check_component d' Component_CN) with (check_component d Component_CN). apply likewise_then. intros _.
  apply likewise_services; [reflexivity..|].
  change (DcrCn.buildCnStatefulSet buildCnPodTemplateSpec d' cfg) with (DcrCn.buildCnStatefulSet buildCnPodTemplateSpec d cfg).
  apply likewise_then. intros st.
  apply (likewise_bind eq); [apply ready_view|]. intros [] ? <-; cbn [negb]; [|by apply likewise_ret].
  apply likewise_then. intros err2. apply likewise_fail. destruct (cn_AutoScalingPolicy cn); [|by apply likewise_ret].
  apply likewise_then. intros _. by apply likewise_ret.
Qed.

(** The same result over the cluster as the component sees it. *)
Definition seen {A} (c : ComponentType) (r r' : Dcr * A) : Prop := r' = (view c r.1, r.2).

Lemma inject_view c d : c = Component_FE \/ c = Component_BE ->
  likewise (seen c) (CheckRestartTimeAndInject d c) (CheckRestartTimeAndInject (view c d) c).
Proof.
  intros Hc. unfold CheckRestartTimeAndInject, warn.
  destruct Hc as [-> | ->]; (match goal with |- context [base_of (view ?c d) ?c] => change (base_of (view c d) c) with (base_of d c) end);
    (destruct (base_of d _); [cbn [deref]|apply likewise_panic]);
    (match goal with |- context [dcr_Annotations (view ?c d)] => change (dcr_Annotations (view c d)) with (dcr_Annotations d) end);
    (case_decide; [by apply likewise_ret|]); (destruct (time_parse_rfc3339 _); [|apply likewise_then; intros _; by apply likewise_ret]);
    apply likewise_then; intros now; (destruct (_ <? _); [apply likewise_then; intros _|]); by apply likewise_ret.
Qed.

Lemma be_build_view d cfg : likewise (seen Component_BE) (DcrBe.Be.buildBEStatefulSet buildBEPodTemplateSpec d cfg)
  (DcrBe.Be.buildBEStatefulSet buildBEPodTemplateSpec (view Component_BE d) cfg).
Proof.
  unfold DcrBe.Be.buildBEStatefulSet. change (NewStatefulSet (view Component_BE d) cfg Component_BE) with (NewStatefulSet d cfg Component_BE).
  destruct (NewStatefulSet _ _ _) as [st|]; [cbn [assert_ok]|apply likewise_panic].
  apply (likewise_bind (seen Component_BE)); [|intros [d1 t] ? ->; by apply likewise_ret]. unfold buildBEPodTemplateSpec.
  change (NewPodTemplateSpec (view Component_BE d) cfg Component_BE) with (NewPodTemplateSpec d cfg Component_BE).
  destruct (NewPodTemplateSpec _ _ _) as [pts|]; [cbn [assert_ok]|apply likewise_panic].
  change (BeSpec_ (dcr_Spec (view Component_BE d))) with (BeSpec_ (dcr_Spec d)).
  destruct (BeSpec_ _) as [be|]; [cbn [deref]|apply likewise_panic]. destruct (be_affinity be pts) as [pts' base].
  apply likewise_then. intros t. destruct (AddTerminationGracePeriodSeconds _ _ _); [cbn [assert_ok]|apply likewise_panic].
  change (beContainer (view Component_BE d) be) with (beContainer d be). apply likewise_then. intros container. by apply likewise_ret.
Qed.

Lemma be_view d : EnableRestartWhenConfigChange (dcr_Spec d) = false ->
  likewise same_error (DcrBe.Be.Sync buildBEPodTemplateSpec d) (DcrBe.Be.Sync buildBEPodTemplateSpec (view Component_BE d)).
Proof.
  intros He. unfold DcrBe.Be.Sync. change (BeSpec_ (dcr_Spec (view Component_BE d))) with (BeSpec_ (dcr_Spec d)).
  destruct (BeSpec_ (dcr_Spec d)) as [be|]; [|by apply likewise_ret].
  change (BEStatus (dcr_Status (view Component_BE d))) with (BEStatus (dcr_Status d)). set (old := default _ (BEStatus _)). clearbody old.
  apply (likewise_bind (fun d1 d1' => d1' = view Component_BE d1 /\ EnableRestartWhenConfigChange (dcr_Spec d1) = false)).
  { unfold InitStatus. apply likewise_then. intros now. by apply likewise_ret. }
  clear He. intros d1 ? [-> He]. rewrite FeAvailable_view. apply likewise_then. intros []; [cbn [negb]|by apply likewise_ret].
  change (EnableRestartWhenConfigChange (dcr_Spec (view Component_BE d1))) with (EnableRestartWhenConfigChange (dcr_Spec d1)).
  rewrite He. cbn [bind]. apply likewise_then. intros [cfg err]. apply likewise_fail.
  change (check_component (view Component_BE d1) Component_BE) with (check_component d1 Component_BE). apply likewise_then. intros _.
  apply likewise_services; [reflexivity..|]. apply (likewise_bind (seen Component_BE)).
  { unfold DcrBe.Be.prepareStatefulsetApply. case_decide; [|by apply likewise_ret].
    apply (likewise_bind (seen Component_BE)); [apply inject_view; auto|]. intros [d2 inject] ? ->. cbn [fst snd].
    destruct inject; [|by apply likewise_ret].
    change (BEStatus (dcr_Status (view Component_BE d2))) with (BEStatus (dcr_Status d2)).
    destruct (BEStatus (dcr_Status d2)); [cbn [deref]|apply likewise_panic]. by apply likewise_ret. }
  intros [d2 err2] ? ->. cbn [fst snd]. apply likewise_fail.
  apply (likewise_bind (seen Component_BE)); [apply be_build_view|]. intros [d3 st] ? ->. cbn [fst snd].
  apply (likewise_bind eq); [apply ready_view|]. intros [] ? <-; [|by apply likewise_ret].
  apply likewise_then. intros [u err3]. by apply likewise_ret.
Qed.

Lemma broker_view d : likewise same_error (DcrBe.Broker.Sync buildBrokerPodTemplateSpec d)
  (DcrBe.Broker.Sync buildBrokerPodTemplateSpec (view Component_Broker d)).
Proof.
  unfold DcrBe.Broker.Sync. change (BrokerSpec_ (dcr_Spec (view Component_Broker d))) with (BrokerSpec_ (dcr_Spec d)).
  destruct (BrokerSpec_ (dcr_Spec d)) as [broker|]; [|by apply likewise_ret].
  rewrite FeAvailable_view. apply likewise_then. intros []; [cbn [negb]|by apply likewise_ret].
  apply likewise_then. intros [cfg err]. apply likewise_fail.
  change (check_component (view Component_Broker d) Component_Broker) with (check_component d Component_Broker). apply likewise_then. intros _.
  change (BuildInternalService (view Component_Broker d) Component_Broker cfg) with (BuildInternalService d Component_Broker cfg).
  destruct (BuildInternalService _ _ _); [cbn [assert_ok]|apply likewise_panic]. apply likewise_then. intros err2. apply likewise_fail.
  apply (likewise_bind (seen Component_Broker)).
  2:{ intros [d3 st] ? ->. apply likewise_then. intros [u err3]. by apply likewise_ret. }
  unfold DcrBe.Broker.buildBKStatefulSet.
  change (NewStatefulSet (view Component_Broker d) cfg Component_Broker) with (NewStatefulSet d cfg Component_Broker).
  destruct (NewStatefulSet _ _ _) as [st|]; [cbn [assert_ok]|apply likewise_panic].
  apply (likewise_bind (seen Component_Broker)); [|intros [d1 t] ? ->; by apply likewise_ret]. unfold buildBrokerPodTemplateSpec.
  change (NewPodTemplateSpec (view Component_Broker d) cfg Component_Broker) with (NewPodTemplateSpec d cfg Component_Broker).
  destruct (NewPodTemplateSpec _ _ _) as [pts|]; [cbn [assert_ok]|apply likewise_panic].
  change (BrokerSpec_ (dcr_Spec (view Component_Broker d))) with (BrokerSpec_ (dcr_Spec d)).
  destruct (BrokerSpec_ _) as [broker'|]; [cbn [deref]|apply likewise_panic].
  destruct (addDefaultBorkerPodAffinity broker' pts) as [pts' base].
  change (brokerContainer (view Component_Broker d) broker') with (brokerContainer d broker').
  apply likewise_then. intros container. by apply likewise_ret.
Qed.

Lemma safeScaleDown_view d fe nr or : likewise (fun d1 d1' => d1' = view Component_FE d1) (safeScaleDown d fe nr or)
  (safeScaleDown (view Component_FE d) fe nr or).
Proof.
  unfold safeScaleDown, warn. destruct (_ || _); [by apply likewise_ret|].
  assert (Hv : forall n, set_fe_replicas n (view Component_FE d) = view Component_FE (set_fe_replicas n d)).
  { intros n. unfold set_fe_replicas. change (base_of (view Component_FE d) Component_FE) with (base_of d Component_FE).
    by destruct (base_of d _). }
  destruct (_ <=? or); apply likewise_then; intros _; apply likewise_ret, Hv.
Qed.

Lemma fe_prepare_view d fe n old : FeSpec_ (dcr_Spec d) = Some fe -> bs_Replicas (fe_Base fe) = Some n ->
  likewise (seen Component_FE) (prepareStatefulsetApply d old) (prepareStatefulsetApply (view Component_FE d) old).
Proof.
  intros Hfe Hn. unfold prepareStatefulsetApply. apply likewise_then. intros [est|err]; [|by apply likewise_ret].
  change (FeSpec_ (dcr_Spec (view Component_FE d))) with (FeSpec_ (dcr_Spec d)). rewrite Hfe. cbn [deref]. rewrite Hn.
  destruct (st_Replicas est) as [or|]; [cbn [deref]|apply likewise_panic].
  eapply likewise_bind; [apply safeScaleDown_view|]. intros d1 ? ->.
  change (base_of (view Component_FE d1) Component_FE) with (base_of d1 Component_FE).
  destruct (base_of d1 _ ≫= _) as [nr|]; [cbn [deref]|apply likewise_panic]. destruct (_ <? 0).
  { change (dropObserverBySqlClient (view Component_FE d1)) with (dropObserverBySqlClient d1).
    apply likewise_then. intros err. by apply likewise_ret. }
  case_decide; [|by apply likewise_ret].
  apply (likewise_bind (seen Component_FE)); [apply inject_view; auto|]. intros [d2 inject] ? ->. cbn [fst snd].
  destruct inject; [|by apply likewise_ret].
  change (FEStatus (dcr_Status (view Component_FE d2))) with (FEStatus (dcr_Status d2)).
  destruct (FEStatus (dcr_Status d2)); [cbn [deref]|apply likewise_panic]. by apply likewise_ret.
Qed.

Lemma fe_view d fe n : FeSpec_ (dcr_Spec d) = Some fe -> bs_Replicas (fe_Base fe) = Some n ->
  EnableRestartWhenConfigChange (dcr_Spec d) = false ->
  likewise same_error (DcrFe.Sync buildFEPodTemplateSpec d) (DcrFe.Sync buildFEPodTemplateSpec (view Component_FE d)).
Proof.
  intros Hfe Hn He. unfold DcrFe.Sync. change (FeSpec_ (dcr_Spec (view Component_FE d))) with (FeSpec_ (dcr_Spec d)). rewrite Hfe.
  change (FEStatus (dcr_Status (view Component_FE d))) with (FEStatus (dcr_Status d)). set (old := default _ (FEStatus _)). clearbody old.
  apply (likewise_bind (fun d1 d1' => d1' = view Component_FE d1 /\ FeSpec_ (dcr_Spec d1) = Some fe /\
    EnableRestartWhenConfigChange (dcr_Spec d1) = false)).
  { unfold InitStatus. apply likewise_then. intros now. by apply likewise_ret. }
  clear He Hfe. intros d1 ? (-> & Hfe & He).
  change (EnableRestartWhenConfigChange (dcr_Spec (view Component_FE d1))) with (EnableRestartWhenConfigChange (dcr_Spec d1)).
  rewrite He. cbn [bind]. apply likewise_then. intros [cfg err]. apply likewise_fail.
  change (check_component (view Component_FE d1) Component_FE) with (check_component d1 Component_FE). apply likewise_then. intros _.
  change (CheckSharedPVC (view Component_FE d1)) with (CheckSharedPVC d1). apply likewise_then. intros _.
  apply likewise_services; [reflexivity..|]. apply (likewise_bind eq); [apply ready_view|]. intros [] ? <-; [|by apply likewise_ret].
  unfold sync_statefulset. apply (likewise_bind (seen Component_FE)); [by eapply fe_prepare_view|]. intros [d2 err2] ? ->. cbn [fst snd].
  apply likewise_fail.
  change (buildFEStatefulSet buildFEPodTemplateSpec (view Component_FE d2) cfg) with (buildFEStatefulSet buildFEPodTemplateSpec d2 cfg).
  apply likewise_then. intros st. apply likewise_then. intros [u err3]. by apply likewise_ret.
Qed.
End cluster.
