(* ===== verification/ConvergeReconcile.v ===== *)
(** Passes of the DorisCluster reconciler converge, whatever order its loops
    take: the components in turn, each on the cells of its own objects, and the
    steps after them, which write neither a service nor a StatefulSet. *)

From Stdlib Require Import ZArith Lia.
From stdpp Require Import base list gmap strings.
From S2P Require Import Prelude GoStr KubeTypes DdcApi Client Traces Mysql Resource External SubDefault Observers Demo.
From S2P Require Import DcrApi DcrResource DcrSub DcrPods DcrFe DcrTraces DcrFeProps PodProps DcrConfigProps DcrReconciler DcrReconcilerProps.
From S2P Require Import Converge ConvergeProps ConvergeCluster.
From S2P Require DcrBe DcrCn DdcReconciler.

Local Open Scope string_scope.
Local Open Scope Z_scope.
Local Open Scope dop_scope.

(** ** The cells of a cluster *)

Definition components : list ComponentType := [Component_FE; Component_BE; Component_CN; Component_Broker].

(** The objects of a component that the cluster has. *)
Definition cells_of (d : Dcr) (c : ComponentType) : gset cell :=
  match base_of d c with Some _ => component_cells d c | None => ∅ end.
Definition cluster_cells (d : Dcr) : gset cell := ⋃ (cells_of d <$> components).

Lemma component_cells_disjoint d c c' : c ∈ components -> c' ∈ components -> c <> c' ->
  component_cells d c ## component_cells d c'.
Proof.
  intros Hc Hc' Hne x. unfold component_cells, internal_cell, external_cell, sts_cell,
    GenerateInternalCommunicateServiceName, GenerateExternalServiceName, GenerateComponentStatefulSetName.
  assert (Hn : forall s t : string, dcr_Name d +:+ "-" +:+ s = dcr_Name d +:+ "-" +:+ t -> s = t).
  { intros s t E. by apply app_inj_l_str, app_inj_l_str in E. }
  unfold components in Hc, Hc'. rewrite !elem_of_cons in Hc, Hc'.
  destruct Hc as [-> |[-> |[-> |[-> |[]%elem_of_nil]]]], Hc' as [-> |[-> |[-> |[-> |[]%elem_of_nil]]]]; try done;
    rewrite !elem_of_union, ?elem_of_singleton, ?elem_of_empty; intros Hx Hy;
    repeat (destruct Hx as [Hx|Hx]); repeat (destruct Hy as [Hy|Hy]); try done; subst x;
    (injection Hy as Hy%app_inj_l_str || discriminate Hy); discriminate Hy.
Qed.

Lemma cells_disjoint d c c' : c ∈ components -> c' ∈ components -> c <> c' -> cells_of d c ## cells_of d c'.
Proof.
  intros Hc Hc' Hne. unfold cells_of. destruct (base_of d c), (base_of d c'); try set_solver.
  by apply component_cells_disjoint.
Qed.

Lemma cells_in_cluster d c : c ∈ components -> cells_of d c ⊆ cluster_cells d.
Proof. intros Hc x Hx. apply elem_of_union_list. exists (cells_of d c). split; [by apply list_elem_of_fmap_2 | exact Hx]. Qed.

(** ** The controllers *)

Definition sc_of `{External} (c : ComponentType) : SubController :=
  match c with
  | Component_FE => feController buildFEPodTemplateSpec
  | Component_BE => beController buildBEPodTemplateSpec
  | Component_CN => cnController buildCnPodTemplateSpec
  | _ => brokerController buildBrokerPodTemplateSpec
  end.

(** An order of the loops over the controllers. *)
Definition order_of `{External} (o : list SubController) : Prop := o ≡ₚ Scs.

(** A pass of the reconciler over the cluster of a name: each of its loops in some order. *)
Abbreviation reconcile_op := (op (strmap * (DdcReconciler.Result * option goerr))).
Inductive a_pass `{External} (ns name : string) : reconcile_op -> Prop :=
  pass_in_order o1 o2 o3 w : order_of o1 -> order_of o2 -> order_of o3 -> a_pass ns name (Reconcile o1 o2 o3 ns name w).

(** The pass ends without an error. *)
Definition reconciled (sv : Server) (p : reconcile_op) (s : shelf) : Prop :=
  exists w r, (run (shelf_env sv) p s).1.2 = Done (w, (r, None)).

(** No pass has anything to write on the shelf, in whatever order it goes, and
    whatever else the shelf holds. *)
Definition idle `{External} (sv : Server) (d : Dcr) (ns name : string) (s : shelf) : Prop :=
  forall p s', a_pass ns name p -> agree (cluster_cells d) s s' -> calm sv p s'.

Section cluster.
Context `{Hext : External} (sv : Server) `{!Keeps sv} (d0 : Dcr) (Hrest : at_rest d0).
Local Abbreviation env := (shelf_env sv).

Local Abbreviation sync c d := (sc_Sync (sc_of c) d).

(** What a component's pass is given: the cluster of the reconciler, up to
    what the other components wrote into it. *)
Definition given (c : ComponentType) (d : Dcr) : Prop := alike d0 d /\ view c d = view c d0.

Lemma alike_present c d : c ∈ components -> alike d0 d -> base_of d c = None <-> base_of d0 c = None.
Proof.
  intros Hc Ha. pose proof (alike_be _ _ Ha) as Hb. pose proof (alike_broker _ _ Ha) as Hk.
  unfold components in Hc. rewrite !elem_of_cons in Hc. destruct Hc as [-> |[-> |[-> |[-> |[]%elem_of_nil]]]]; cbn [base_of].
  - by rewrite (alike_fe _ _ Ha).
  - destruct (BeSpec_ (dcr_Spec d)), (BeSpec_ (dcr_Spec d0)); cbn; try done; destruct Hb as [H1 H2];
      [by destruct H1 as [? [=]] | by destruct H2 as [? [=]]].
  - by rewrite (alike_cn _ _ Ha).
  - destruct (BrokerSpec_ (dcr_Spec d)), (BrokerSpec_ (dcr_Spec d0)); cbn; try done; destruct Hk as [H1 H2];
      [by destruct H1 as [? [=]] | by destruct H2 as [? [=]]].
Qed.

Lemma component_cells_alike c d : alike d0 d -> component_cells d c = component_cells d0 c.
Proof. intros Ha. destruct (cells_of_name d0 d c (alike_name _ _ Ha)) as (E1 & E2 & E3). unfold component_cells. by rewrite E1, E2, E3. Qed.

Lemma sync_converges c d : c ∈ components -> alike d0 d -> converges sv (cells_of d0 c) (sync c d).
Proof.
  intros Hc Ha. pose proof (alike_present c d Hc Ha) as Hp. unfold cells_of. rewrite <- (component_cells_alike c d Ha).
  destruct (base_of d0 c) as [b|] eqn:Hb.
  - unfold components in Hc. rewrite !elem_of_cons in Hc. destruct Hc as [-> |[-> |[-> |[-> |[]%elem_of_nil]]]]; cbn [sc_of sc_Sync feController beController cnController brokerController].
    + destruct (FeSpec_ (dcr_Spec d0)) as [fe|] eqn:Hfe; [|by cbn in Hb; rewrite Hfe in Hb].
      destruct (rest_fe _ Hrest fe Hfe) as (n & Hn & _). destruct (rest_restart _ Hrest) as [He Hno].
      apply (fe_converges sv buildFEPodTemplateSpec d fe n); [by rewrite (alike_fe _ _ Ha) | done | by rewrite (alike_restart _ _ Ha)|].
      by eapply alike_no_restart.
    + apply be_converges; exact _.
    + apply cn_converges; exact _.
    + apply broker_converges; exact _.
  - destruct Hp as [_ Hp]. specialize (Hp eq_refl).
    unfold components in Hc. rewrite !elem_of_cons in Hc. destruct Hc as [-> |[-> |[-> |[-> |[]%elem_of_nil]]]];
      cbn [sc_of sc_Sync feController beController cnController brokerController base_of] in *.
    + unfold DcrFe.Sync. destruct (FeSpec_ (dcr_Spec d)); [done | apply converges_ret].
    + unfold DcrBe.Be.Sync. destruct (BeSpec_ (dcr_Spec d)); [done | apply converges_ret].
    + unfold DcrCn.Sync, DcrCn.ClearResources. destruct (CnSpec_ (dcr_Spec d)); [done|].
      destruct (CnStatus_ (dcr_Status d)); [apply converges_panic | apply converges_ret].
    + unfold DcrBe.Broker.Sync. destruct (BrokerSpec_ (dcr_Spec d)); [done | apply converges_ret].
Qed.

Lemma sync_hands c d : c ∈ components -> alike d0 d -> hands_on d0 c d (sync c d).
Proof.
  intros Hc Ha. unfold components in Hc. rewrite !elem_of_cons in Hc. destruct Hc as [-> |[-> |[-> |[-> |[]%elem_of_nil]]]];
    cbn [sc_of sc_Sync feController beController cnController brokerController].
  - exact (fe_hands d0 d Hrest Ha).
  - exact (be_hands d0 d Hrest Ha).
  - apply cn_hands.
  - apply broker_hands.
Qed.

Lemma sync_view c d : c ∈ components -> alike d0 d -> likewise sv same_error (sync c d) (sync c (view c d)).
Proof.
  intros Hc Ha. destruct (rest_restart _ Hrest) as [He _]. pose proof (eq_trans (alike_restart _ _ Ha) He) as He'.
  unfold components in Hc. rewrite !elem_of_cons in Hc. destruct Hc as [-> |[-> |[-> |[-> |[]%elem_of_nil]]]]; cbn [sc_of sc_Sync feController beController cnController brokerController].
  - destruct (FeSpec_ (dcr_Spec d)) as [fe|] eqn:Hfe.
    + destruct (rest_fe _ Hrest fe) as (n & Hn & _); [by rewrite <- (alike_fe _ _ Ha)|]. by eapply fe_view.
    + unfold DcrFe.Sync.
      change (FeSpec_ (dcr_Spec (view Component_FE d))) with (FeSpec_ (dcr_Spec d)). rewrite Hfe. by apply likewise_ret.
  - by apply be_view.
  - apply cn_view.
  - apply broker_view.
Qed.

(** The passes of a component are the same for what it is given. *)
Lemma sync_given c d : c ∈ components -> given c d -> likewise sv same_error (sync c d) (sync c d0).
Proof.
  intros Hc [Ha Hv]. eapply likewise_trans; [by apply sync_view|]. rewrite Hv. apply likewise_sym, sync_view; [done|].
  by apply alike_refl.
Qed.

(** ** The loop over the controllers *)

Definition loop (cs : list ComponentType) (d : Dcr) : pass := until_failure sc_Sync (sc_of <$> cs) d.

Lemma loop_cons c cs d s :
  let r := run env (sync c d) s in
  match r.1.2 with
  | Done (d1, None) => let r1 := run env (loop cs d1) r.2 in run env (loop (c :: cs) d) s = (app r.1.1 r1.1.1, r1.1.2, r1.2)
  | _ => run env (loop (c :: cs) d) s = r /\ ~ succeeds sv (loop (c :: cs) d) s
  end.
Proof.
  cbv zeta. unfold succeeds, loop. cbn [fmap list_fmap until_failure]. rewrite run_bind.
  destruct (run env (sync c d) s) as [[tr [[d1 [e|]]|w]] s1]; cbn [fst snd run].
  - rewrite app_nil_r. split; [done|]. by intros [? [=]].
  - by destruct (run env (until_failure sc_Sync (sc_of <$> cs) d1) s1) as [[? ?] ?].
  - split; [done|]. by intros [? [=]].
Qed.

(** A pass that succeeds gives the other components what they are given. *)
Lemma sync_gives c d s d1 : c ∈ components -> alike d0 d -> (run env (sync c d) s).1.2 = Done (d1, None) ->
  alike d0 d1 /\ forall c', c' <> c -> given c' d -> given c' d1.
Proof.
  intros Hc Ha Ho. pose proof (run_exec env (sync c d) s) as Hex. rewrite Ho in Hex.
  apply (spec_exec _ _ _ _ _ (sync_hands c d Hc Ha)) in Hex as [_ HR]. destruct (HR eq_refl) as [Hd Hv]. cbn [fst] in *.
  split; [auto|]. intros c' Hne [_ Hc']. split; [auto|]. by rewrite (Hv c' Hne).
Qed.

Lemma succeeds_given c d s : c ∈ components -> given c d -> succeeds sv (sync c d) s ->
  succeeds sv (sync c d0) s /\ (run env (sync c d0) s).2 = (run env (sync c d) s).2.
Proof.
  intros Hc Hg Hs. pose proof (sync_given c d Hc Hg) as Hr. split; [by eapply likewise_succeeds|]. by destruct (Hr s) as (_ & -> & _).
Qed.

(** A fact about the cells of each component that its pass establishes, from
    one about the same cells, holds after the loop of all of them. *)
Definition local_to (c : ComponentType) (P : shelf -> Prop) : Prop := forall s s', agree (cells_of d0 c) s s' -> P s -> P s'.

Lemma sync_agree c c' d s : c ∈ components -> c' ∈ components -> c' <> c -> alike d0 d ->
  agree (cells_of d0 c') s (run env (sync c d) s).2.
Proof.
  intros Hc Hc' Hne Ha x Hx. symmetry. apply (converges_frame _ _ _ (sync_converges c d Hc Ha)).
  intros Hx'. by apply (cells_disjoint d0 c' c Hc' Hc Hne x).
Qed.

Lemma loop_agree cs d s c' : (forall c, c ∈ cs -> c ∈ components) -> c' ∈ components -> c' ∉ cs -> alike d0 d ->
  agree (cells_of d0 c') s (run env (loop cs d) s).2.
Proof.
  revert d s; induction cs as [|c cs IH]; intros d s Hcs Hc' Hnot Ha; [done|].
  pose proof (loop_cons c cs d s) as Hr. cbv zeta in Hr.
  assert (Hag : agree (cells_of d0 c') s (run env (sync c d) s).2) by (apply sync_agree; [set_solver..|done]).
  destruct (run env (sync c d) s).1.2 as [[d1 [e|]]|w] eqn:Ho; [by destruct Hr as [-> _]| |by destruct Hr as [-> _]].
  rewrite Hr. cbn [snd]. destruct (sync_gives c d s d1 ltac:(set_solver) Ha Ho) as [Ha1 _].
  intros x Hx. rewrite (Hag x Hx). apply (IH d1); [set_solver..|done | exact Hx].
Qed.

Lemma loop_each (Q P : ComponentType -> shelf -> Prop) cs d s :
  (forall c, local_to c (Q c)) -> (forall c, local_to c (P c)) ->
  (forall c s, c ∈ components -> Q c s -> succeeds sv (sync c d0) s -> P c (run env (sync c d0) s).2) ->
  NoDup cs -> (forall c, c ∈ cs -> c ∈ components /\ given c d) -> alike d0 d ->
  (forall c, c ∈ cs -> Q c s) -> succeeds sv (loop cs d) s -> forall c, c ∈ cs -> P c (run env (loop cs d) s).2.
Proof.
  intros HQ HP Hstep Hnd. revert d s; induction Hnd as [|c cs Hnot Hnd IH]; intros d s Hcs Ha Hqs Hok c' Hc'; [by apply elem_of_nil in Hc'|].
  destruct (Hcs c) as [Hc Hg]; [by left|]. pose proof (loop_cons c cs d s) as Hr. cbv zeta in Hr.
  destruct (run env (sync c d) s).1.2 as [[d1 [e|]]|w] eqn:Ho; [by destruct Hr as [_ []]| |by destruct Hr as [_ []]].
  assert (Hok1 : succeeds sv (loop cs d1) (run env (sync c d) s).2) by (destruct Hok as [d2 Hd2]; rewrite Hr in Hd2; by exists d2).
  destruct (sync_gives c d s d1 Hc Ha Ho) as [Ha1 Hg1]. rewrite Hr. cbn [snd]. apply elem_of_cons in Hc' as [-> |Hc'].
  - destruct (succeeds_given c d s Hc Hg) as [Hs Hs2]; [by exists d1|].
    eapply HP; [apply loop_agree; [|done..]; intros; by apply Hcs; right|]. rewrite <- Hs2. apply Hstep; [done | apply Hqs; by left | done].
  - apply (IH d1); [| done | | done | done].
    + intros c2 Hc2. destruct (Hcs c2) as [? ?]; [by right|]. split; [done|]. apply Hg1; [by intros -> | done].
    + intros c2 Hc2. destruct (Hcs c2) as [? _]; [by right|].
      eapply HQ; [apply sync_agree; [done | done | by intros -> | done] | apply Hqs; by right].
Qed.

(** A loop over components that are steady writes nothing. *)
Lemma loop_calm cs d s : NoDup cs -> (forall c, c ∈ cs -> c ∈ components /\ given c d) -> alike d0 d ->
  (forall c, c ∈ cs -> steady sv (cells_of d0 c) (sync c d0) s) -> calm sv (loop cs d) s.
Proof.
  intros Hnd. revert d; induction Hnd as [|c cs Hnot Hnd IH]; intros d Hcs Ha Hst; [by split|].
  destruct (Hcs c) as [Hc Hg]; [by left|].
  assert (Hcalm : calm sv (sync c d) s).
  { eapply likewise_calm; [apply likewise_sym, sync_given; done|]. by apply (Hst c); [left|]. }
  destruct Hcalm as [Ht Hs]. pose proof (loop_cons c cs d s) as Hr. cbv zeta in Hr.
  destruct (run env (sync c d) s).1.2 as [[d1 [e|]]|w] eqn:Ho; [by destruct Hr as [Hr _]; split; rewrite Hr| |by destruct Hr as [Hr _]; split; rewrite Hr].
  destruct (sync_gives c d s d1 Hc Ha Ho) as [Ha1 Hg1]. rewrite Hs in Hr.
  destruct (IH d1) as [Ht1 Hs1]; [| done | intros; apply Hst; by right|].
  - intros c2 Hc2. destruct (Hcs c2) as [? ?]; [by right|]. split; [done|]. apply Hg1; [by intros -> | done].
  - split; rewrite Hr; cbn [fst snd]; [by apply Forall_app | exact Hs1].
Qed.

(** ** After the loop *)

Lemma unwritten_calm {A} (p : op A) s : only unwritten p -> calm sv p s.
Proof.
  intros Hp. split; [pose proof (run_exec env p s) as Hex; by apply (spec_exec _ _ _ _ _ Hp) in Hex as [? _]|].
  pose proof (run_exec env p s) as Hex. apply (spec_exec _ _ _ _ _ Hp) in Hex as [Hf _]. clear Hp.
  revert s Hf; induction p as [a|w|X e k IH]; intros s Hf; cbn [run] in *; [done..|].
  destruct (env X e s) as [x s1] eqn:Hx.
  assert (He : unwritten (Ev e x) /\ Forall unwritten (run env (k x) s1).1.1).
  { destruct (run env (k x) s1) as [[tr o] s2]. cbn in *. by apply Forall_cons in Hf. }
  destruct He as [He Hk].
  assert (Hs : s1 = s) by (destruct e; cbn in Hx; try (by injection Hx as _ <-); destruct k0; try done; by injection Hx as _ <-).
  subst s1. specialize (IH x s Hk). by destruct (run env (k x) s) as [[? ?] ?].
Qed.

#[local] Hint Extern 1 (unwritten (Ev _ _)) => exact eq_refl : spec.

Lemma fe_clear_unwritten d : alike d0 d -> spec unwritten (fun r => alike d0 r.1) (DcrFe.ClearResources d).
Proof.
  intros Ha. assert (Hdel : forall sel sts v max left err, only unwritten (delete_from d sel sts v max left err)).
  { intros sel sts v max left; revert max; induction left as [|left IH]; intros max err; cbn [delete_from]; [by apply spec_ret|].
    unfold DeletePVC, warn. spec_go. }
  assert (Hsur : forall sel sts n all pvcs vs err, only unwritten (delete_surplus d sel sts n all pvcs vs err)).
  { intros sel sts n all pvcs; induction vs as [|v vs IH]; intros err; cbn [delete_surplus]; [by apply spec_ret|].
    unfold deletePVCs. spec_go. }
  assert (Hl : only unwritten (recycleFEResources d)).
  { unfold recycleFEResources, listAndDeletePersistentVolumeClaim, claim_replicas.
    destruct (base_of d Component_FE) as [b|]; [cbn [deref]|by apply spec_panic].
    destruct (bs_PersistentVolumes b); [by apply spec_ret|]. destruct (bs_Replicas b); [cbn [deref]|by apply spec_panic].
    apply with_claims_spec; [intros; exact eq_refl..|intros; by apply spec_ret|auto]. }
  unfold DcrFe.ClearResources. destruct (FEStatus _); [|by apply spec_ret]. cbn [RecycleResources].
  eapply spec_bind; [exact Hl|]. intros [e|] _; [by apply spec_ret|].
  rewrite (alike_meta _ _ Ha), (rest_kept _ Hrest). by apply spec_ret.
Qed.

Lemma cn_clear_unwritten d : alike d0 d -> spec unwritten (fun r => alike d0 r.1) (DcrCn.ClearResources d).
Proof.
  intros Ha. unfold DcrCn.ClearResources. destruct (CnStatus_ _) as [cns|] eqn:Hcns; [|by apply spec_ret].
  destruct (CnSpec_ _) as [cn|] eqn:Hcn; [cbn [deref]|by apply spec_panic].
  assert (Hdel : spec unwritten (fun r => alike d0 r.1) (DcrCn.DeleteAutoscaler_ d)).
  { unfold DcrCn.DeleteAutoscaler_. rewrite Hcns. destruct (cns_HorizontalScaler cns) as [h|]; [|by apply spec_ret].
    eapply (spec_bind _ (fun _ => True)); [unfold DeleteAutoscaler; spec_go|]. intros err _.
    destruct err as [e|]; [destruct (IsNotFound e)|]; apply spec_ret; try done; by apply alike_cn_status. }
  eapply (spec_bind _ (fun d' => alike d0 d')).
  { destruct (_ && _); [by apply spec_ret|]. eapply spec_bind; [exact Hdel|]. intros [d' [e|]] Hd'; [|by apply spec_ret].
    unfold warn. apply spec_call; [exact (fun _ => eq_refl)|]. intros _ _. by apply spec_ret. }
  intros d' Ha'. rewrite (alike_cn _ _ Ha'), <- (alike_cn _ _ Ha), Hcn. by apply spec_ret.
Qed.

Lemma clear_unwritten c d : c ∈ components -> alike d0 d -> spec unwritten (fun r => alike d0 r.1) (sc_ClearResources (sc_of c) d).
Proof.
  intros Hc Ha. unfold components in Hc. rewrite !elem_of_cons in Hc. destruct Hc as [-> |[-> |[-> |[-> |[]%elem_of_nil]]]];
    cbn [sc_of sc_ClearResources feController beController cnController brokerController].
  - by apply fe_clear_unwritten.
  - unfold DcrBe.Be.ClearResources, DcrBe.clear_when_removed. destruct (BEStatus _) eqn:Hs; [|by apply spec_ret].
    destruct (alike_be_status _ _ Ha) as [b Hb]; [by rewrite Hs|]. destruct (base_of d Component_BE) eqn:He; [by apply spec_ret|].
    apply (alike_present Component_BE d ltac:(set_solver) Ha) in He. cbn in He. by rewrite Hb in He.
  - by apply cn_clear_unwritten.
  - unfold DcrBe.Broker.ClearResources, DcrBe.clear_when_removed. destruct (BrokerStatus _) eqn:Hs; [|by apply spec_ret].
    destruct (alike_broker_status _ _ Ha) as [b Hb]; [by rewrite Hs|]. destruct (base_of d Component_Broker) eqn:He; [by apply spec_ret|].
    apply (alike_present Component_Broker d ltac:(set_solver) Ha) in He. cbn in He. by rewrite Hb in He.
Qed.

Lemma update_unwritten c d : c ∈ components -> only unwritten (sc_UpdateComponentStatus (sc_of c) d).
Proof.
  intros Hc. assert (Hcl : forall ns st l n c, only unwritten (ClassifyPodsByStatus ns st l n c)).
  { intros. unfold ClassifyPodsByStatus. spec_go. }
  assert (Hh : forall d c, only unwritten (BuildCoreConfigmapStatusHash d c)).
  { intros. apply BuildCoreConfigmapStatusHash_spec; intros; exact eq_refl. }
  unfold components in Hc. rewrite !elem_of_cons in Hc. destruct Hc as [-> |[-> |[-> |[-> |[]%elem_of_nil]]]];
    cbn [sc_of sc_UpdateComponentStatus feController beController cnController brokerController].
  - unfold DcrFe.UpdateComponentStatus. spec_go.
  - unfold DcrBe.Be.UpdateComponentStatus. spec_go.
  - unfold DcrCn.UpdateComponentStatus, warn. spec_go.
  - unfold DcrBe.Broker.UpdateComponentStatus. spec_go.
Qed.

(** ** The pass of the reconciler *)

Lemma order_components o : order_of o -> exists cs, o = sc_of <$> cs /\ NoDup cs /\ (forall c, c ∈ cs <-> c ∈ components).
Proof.
  intros Ho. destruct (Permutation_map_inv sc_of components Ho) as (cs & -> & Hp). exists cs. split; [done|]. split.
  - rewrite <- Hp. unfold components. repeat constructor; set_solver.
  - intros c. by rewrite Hp.
Qed.

Lemma clear_all_unwritten cs d : (forall c, c ∈ cs -> c ∈ components) -> alike d0 d ->
  spec unwritten (alike d0) (clear_all (sc_of <$> cs) d).
Proof.
  intros Hcs. revert d; induction cs as [|c cs IH]; intros d Ha; cbn [fmap list_fmap clear_all]; [by apply spec_ret|].
  eapply spec_bind; [apply clear_unwritten; [apply Hcs; by left | done]|]. intros [d' r] Hd'.
  apply IH; [intros; apply Hcs; by right | exact Hd'].
Qed.
Lemma update_all_unwritten cs d : (forall c, c ∈ cs -> c ∈ components) ->
  only unwritten (until_failure sc_UpdateComponentStatus (sc_of <$> cs) d).
Proof.
  intros Hcs. revert d; induction cs as [|c cs IH]; intros d; cbn [fmap list_fmap until_failure]; [by apply spec_ret|].
  eapply spec_bind; [apply update_unwritten, Hcs; by left|]. intros [d' [e|]] _; [by apply spec_ret|]. apply IH. intros; apply Hcs; by right.
Qed.

(** The end of a pass that read the cluster [d0], after the loop over [Sync]. *)
Definition after_sync (o2 o3 : list SubController) (watched : strmap) (r : Dcr * option goerr)
  : op (strmap * (DdcReconciler.Result * option goerr)) :=
  let '(dcr, err) := r in
  match err with
  | Some e => Ret (watched, (DdcReconciler.noResult, Some e))
  | None =>
      let! dcr := clearNoEffectResources o2 dcr in
      let! '(dcr, err) := until_failure sc_UpdateComponentStatus o3 dcr in
      match err with
      | Some e => Ret (watched, (DdcReconciler.noResult, Some e))
      | None =>
          let! '(dcr, err) := revertDorisClusterSomeFields d0 dcr in
          match err with
          | Some e => Ret (watched, (DdcReconciler.noResult, Some e))
          | None => let! r := updateDorisClusterStatus dcr in Ret (watched, r)
          end
      end
  end.

Lemma after_sync_unwritten o2 o3 w r : order_of o2 -> order_of o3 -> (r.2 = None -> alike d0 r.1) ->
  spec unwritten (fun x => x.2.2 = None -> r.2 = None) (after_sync o2 o3 w r).
Proof.
  intros (cs2 & -> & _ & H2)%order_components (cs3 & -> & _ & H3)%order_components Hr. destruct r as [d [e|]]; cbn [after_sync snd fst] in *.
  { by apply spec_ret. }
  eapply (spec_weaken _ _ (fun _ => True)); [| done | by intros x _ _].
  eapply spec_bind; [by apply clear_all_unwritten; [intros; apply H2 | auto]|]. intros d1 _.
  eapply spec_bind; [by apply update_all_unwritten; intros; apply H3|]. intros [d2 [e|]] _; [by apply spec_ret|].
  eapply (spec_bind _ (fun _ => True)).
  { unfold revertDorisClusterSomeFields, ApplyDorisCluster. destruct (fe_replicas d0); [cbn [deref]|by apply spec_panic].
    destruct (fe_replicas d2); [cbn [deref]|by apply spec_panic]. spec_go. }
  intros [d3 [e|]] _; [by apply spec_ret|]. assert (Hu : forall n d, only unwritten (update_attempts n d)).
  { induction n as [|n IH]; intros d'; cbn [update_attempts]; [by apply spec_ret|]. apply spec_call; [done|].
    intros [e|] _; [|by apply spec_ret]. destruct (IsConflict e); [|by apply spec_ret]. destruct n; [by apply spec_ret | apply IH]. }
  eapply (spec_bind _ (fun _ => True)); [|intros; by apply spec_ret]. unfold updateDorisClusterStatus. apply spec_call; [done|].
  intros [edcr|e] _; [|by apply spec_ret]. destruct (inconsistentStatus _ _) as [st differs].
  assert (Hw : only unwritten (let! err := update_attempts 4 (edcr <| dcr_Status := st |>) in Ret (DdcReconciler.noResult, err))).
  { eapply spec_bind; [apply Hu|]. intros. by apply spec_ret. }
  cbn. destruct differs; [exact Hw|]. destruct (reconcile _) as [[]|]; cbn [deref]; [by apply spec_ret | exact Hw | by apply spec_panic].
Qed.

Lemma loop_alike cs d s d1 : (forall c, c ∈ cs -> c ∈ components) -> alike d0 d ->
  (run env (loop cs d) s).1.2 = Done (d1, None) -> alike d0 d1.
Proof.
  revert d s; induction cs as [|c cs IH]; intros d s Hcs Ha Ho; [by injection Ho as <-|].
  pose proof (loop_cons c cs d s) as Hr. cbv zeta in Hr.
  destruct (run env (sync c d) s).1.2 as [[d2 [e|]]|w] eqn:Hs; [destruct Hr as [_ []]; by exists d1| |destruct Hr as [_ []]; by exists d1].
  destruct (sync_gives c d s d2 ltac:(set_solver) Ha Hs) as [Ha2 _]. rewrite Hr in Ho.
  by apply (IH d2 (run env (sync c d) s).2); [set_solver|..].
Qed.

Context (ns name : string) (Hget : sv_answer sv _ (CGet KDcr ns name) = Ok d0).

(** A pass does on the shelf as its loop over [Sync]. *)
Lemma reconcile_loop cs o2 o3 w s : (forall c, c ∈ cs -> c ∈ components) -> order_of o2 -> order_of o3 ->
  let p := Reconcile (sc_of <$> cs) o2 o3 ns name w in
  (run env p s).2 = (run env (loop cs d0) s).2 /\ (reconciled sv p s -> succeeds sv (loop cs d0) s) /\
  (calm sv (loop cs d0) s -> calm sv p s).
Proof.
  intros Hcs H2 H3. cbv zeta.
  assert (Hrun : exists w', run env (Reconcile (sc_of <$> cs) o2 o3 ns name w) s =
    let r := run env (bind (loop cs d0) (after_sync o2 o3 w')) s in (Ev (CGet KDcr ns name) (Ok d0) :: r.1.1, r.1.2, r.2)).
  { unfold Reconcile. cbn [run bind call shelf_env]. pose proof Hget as Hg. cbn in Hg. rewrite Hg, (rest_kept _ Hrest). exists (watch_config_maps d0 w).
    match goal with |- context [run env ?q s] => change q with (bind (loop cs d0) (after_sync o2 o3 (watch_config_maps d0 w))) end.
    by destruct (run env (bind (loop cs d0) _) s) as [[? ?] ?]. }
  destruct Hrun as [w' Hrun]. unfold reconciled, calm, succeeds. rewrite Hrun. cbn [fst snd]. clear Hrun. rewrite run_bind.
  destruct (run env (loop cs d0) s) as [[tr [r|why]] s1] eqn:Hl; cbn [fst snd].
  - pose proof (after_sync_unwritten o2 o3 w' r H2 H3) as Hu.
    assert (Ha : r.2 = None -> alike d0 r.1).
    { destruct r as [d1 e]. cbn. intros ->. apply (loop_alike cs d0 s); [done | by apply alike_refl | by rewrite Hl]. }
    specialize (Hu Ha). destruct (unwritten_calm (after_sync o2 o3 w' r) s1) as [Ht Hs].
    { eapply spec_weaken; [exact Hu | done | done]. }
    pose proof (run_exec env (after_sync o2 o3 w' r) s1) as Hex. apply (spec_exec _ _ _ _ _ Hu) in Hex as [_ HR].
    destruct (run env (after_sync o2 o3 w' r) s1) as [[tr2 o] s2]. cbn [fst snd] in *. subst s2. split; [done|]. split.
    + intros (w1 & r1 & ->). exists r.1. cbn in HR. rewrite <- (HR eq_refl). by destruct r.
    + intros [Htr ->]. split; [|done]. constructor; [done|]. by apply Forall_app.
  - split; [done|]. split; [by intros (? & ? & [=])|]. intros [Htr ->]. split; [by constructor | done].
Qed.

Lemma steady_idle s : (forall c, c ∈ components -> steady sv (cells_of d0 c) (sync c d0) s) -> idle sv d0 ns name s.
Proof.
  intros Hs p s' [o1 o2 o3 w (cs & -> & Hnd & Hcs)%order_components H2 H3] Ha.
  apply reconcile_loop; [intros; by apply Hcs | done | done|]. apply loop_calm; [done | | by apply alike_refl|].
  - intros c Hc. split; [by apply Hcs|]. split; [by apply alike_refl | done].
  - intros c Hc%Hcs s'' Ha'. apply (Hs c Hc). etransitivity; [|exact Ha']. eapply agree_mono; [by apply cells_in_cluster | exact Ha].
Qed.

(** A pass that succeeds does to the cells of each component as that component's own pass. *)
Lemma pass_each (Q P : ComponentType -> shelf -> Prop) p s :
  (forall c, local_to c (Q c)) -> (forall c, local_to c (P c)) ->
  (forall c s, c ∈ components -> Q c s -> succeeds sv (sync c d0) s -> P c (run env (sync c d0) s).2) ->
  a_pass ns name p -> (forall c, c ∈ components -> Q c s) -> reconciled sv p s ->
  forall c, c ∈ components -> P c (run env p s).2.
Proof.
  intros HQ HP Hstep [o1 o2 o3 w (cs & -> & Hnd & Hcs)%order_components H2 H3] Hq Hok c Hc.
  destruct (reconcile_loop cs o2 o3 w s) as (-> & Hs & _); [intros; by apply Hcs | done..|].
  apply (loop_each Q P); [done | done | done | done | | by apply alike_refl | | by apply Hs | by apply Hcs].
  - intros c' Hc'. split; [by apply Hcs|]. split; [by apply alike_refl | done].
  - intros c' Hc'. by apply Hq, Hcs.
Qed.

Lemma local_warm c : local_to c (warm sv (cells_of d0 c) (sync c d0)).
Proof. intros s s' Ha Hw s2 Ha2. apply Hw. by transitivity s'. Qed.
Lemma local_steady c : local_to c (steady sv (cells_of d0 c) (sync c d0)).
Proof. intros s s' Ha Hw s2 Ha2. apply Hw. by transitivity s'. Qed.

Lemma warm_settles p s : a_pass ns name p -> (forall c, c ∈ components -> warm sv (cells_of d0 c) (sync c d0) s) ->
  reconciled sv p s -> idle sv d0 ns name (run env p s).2.
Proof.
  intros Hp Hw Hok. apply steady_idle.
  apply (pass_each (fun c => warm sv (cells_of d0 c) (sync c d0)) (fun c => steady sv (cells_of d0 c) (sync c d0)) p s);
    [apply local_warm | apply local_steady | | done..]. intros c s' _ Hws Hs. by apply (Hws s').
Qed.

Lemma passes_idle p p' s : a_pass ns name p -> a_pass ns name p' ->
  let s1 := (run env p s).2 in
  ((forall c, c ∈ cluster_cells d0 -> filled s c) -> reconciled sv p s -> idle sv d0 ns name s1) /\
  (reconciled sv p s -> reconciled sv p' s1 -> idle sv d0 ns name (run env p' s1).2).
Proof.
  intros Hp Hp'. pose proof (alike_refl _ Hrest) as Ha. cbv zeta. split.
  - intros Hf Hok. apply warm_settles; [done | | done]. intros c Hc. apply (converges_filled _ _ _ (sync_converges c d0 Hc Ha)).
    intros x Hx. apply Hf. by apply (cells_in_cluster d0 c Hc).
  - intros Hok Hok'. apply warm_settles; [done | | done].
    apply (pass_each (fun _ _ => True) (fun c => warm sv (cells_of d0 c) (sync c d0)) p s); [done | apply local_warm | | done..].
    intros c s' Hc _ Hs. exact (converges_first _ _ _ (sync_converges c d0 Hc Ha) s' Hs).
Qed.
End cluster.

(** C14: The whole reconciliation of a DorisCluster settles on its services and
    StatefulSets.  The API server stores these, keeping the annotations, the
    namespace and the replicas of what is written; everything else it answers
    alike at every call: the cluster itself, to which a written status is not
    added, config maps, pods, claims and the clock.  The cluster is at rest: it
    is not being deleted, restarts on no change of its configuration and carries
    no time of a restart of the frontends, wants at least as many frontends as elect the master,
    and has a status of BE or broker only with their specs.  Then a pass that
    succeeds when every service and StatefulSet of the four components exists
    leaves nothing for any later pass to write on them, and when some do not
    exist two passes that succeed are enough.  This is so in whatever order each loop of each
    pass ranges over the map of the controllers, and whatever other services and
    StatefulSets come and go between the passes. *)
Theorem cluster_pass_settles `{External} (sv : Server) (Hkeeps : Keeps sv) (d : Dcr) (ns name : string)
    (Hget : sv_answer sv _ (CGet KDcr ns name) = Ok d) (Hrest : at_rest d)
    (p p' : reconcile_op) (Hp : a_pass ns name p) (Hp' : a_pass ns name p') (s : shelf) :
  let s1 := (run (shelf_env sv) p s).2 in
  let s2 := (run (shelf_env sv) p' s1).2 in
  ((forall c, c ∈ cluster_cells d -> filled s c) -> reconciled sv p s -> idle sv d ns name s1) /\
  (reconciled sv p s -> reconciled sv p' s1 -> idle sv d ns name s2).
Proof. by apply passes_idle. Qed.

(** ** Witness *)

(** A cluster of all four components, FE at an address that is configured. *)
Definition demo_base (replicas : Z) : BaseSpec :=
  emptyBase <| bs_Replicas := Some replicas |> <| bs_Image := "doris" |>
            <| bs_FeAddress := Some (mkFeAddress "" (mkFeEndpoints ["fe.example"] 9030)) |>.
Definition demo_cluster : Dcr :=
  demo_dcr <| dcr_Spec := (dcr_Spec demo_dcr)
    <| FeSpec_ := Some (mkFeSpec None (demo_base 3)) |>
    <| BeSpec_ := Some (mkBeSpec (demo_base 2) true false true false) |>
    <| CnSpec_ := Some (mkCnSpec (demo_base 1) false None false) |>
    <| BrokerSpec_ := Some (mkBrokerSpec (demo_base 1) true) |> |>.
(** A server that holds the cluster, fills in nothing, and answers the rest as the demonstration does. *)
Definition cluster_answer (d : Dcr) (X : Type) (e : OpE X) : X :=
  match e in OpE X return X -> X with
  | CGet k _ _ => match k return res (obj k) -> res (obj k) with KDcr => fun _ => Ok d | _ => fun x => x end
  | _ => fun x => x
  end (demo_env X e demo_fe_world).1.
Definition cluster_server (d : Dcr) : Server :=
  mkServer (cluster_answer d) (fun s => s) (fun _ s => s) (fun s => s)
    (fun old s => s <| st_VolumeClaimTemplates := st_VolumeClaimTemplates old |>).

Local Existing Instance demo_external.

(** Two passes over an empty shelf, the second in the opposite order. *)
Definition first_pass : reconcile_op := Reconcile Scs Scs Scs "ns" "c" ∅.
Definition second_pass : reconcile_op := Reconcile (reverse Scs) (reverse Scs) (reverse Scs) "ns" "c" ∅.
Definition first_shelf : shelf := (run (shelf_env (cluster_server demo_cluster)) first_pass ∅).2.

Definition is_reconciled (o : outcome (strmap * (DdcReconciler.Result * option goerr))) : bool :=
  match o with Done (_, (_, None)) => true | _ => false end.
Lemma reconciled_true sv p s : is_reconciled (run (shelf_env sv) p s).1.2 = true -> reconciled sv p s.
Proof. unfold reconciled. destruct (run _ _ _).1.2 as [[w [r [e|]]]|w]; [done| |done]. intros _. by exists w, r. Qed.

Lemma demo_cluster_rests : at_rest demo_cluster.
Proof.
  split; [done | done | | by intros [? [=]]..].
  intros fe [= <-]. exists 3. split; [done|]. by compute.
Qed.

Lemma cluster_pass_settles_witness :
  size first_shelf = 11%nat /\
  idle (cluster_server demo_cluster) demo_cluster "ns" "c" (run (shelf_env (cluster_server demo_cluster)) second_pass first_shelf).2.
Proof.
  split; [vm_compute; reflexivity|].
  apply (cluster_pass_settles (cluster_server demo_cluster) ltac:(by split) demo_cluster "ns" "c" eq_refl demo_cluster_rests
    first_pass second_pass); [constructor; apply Permutation_refl | constructor; apply reverse_Permutation |
    apply reconciled_true; vm_compute; reflexivity..].
Defined.
