(* ===== verification/GracefulLive.v ===== *)
(** A rolling update goes through: the passes of the state machine over a
    cluster whose StatefulSet controller replaces a deleted pod by one of the
    new revision, which its kubelet gets ready in the end, reach the end of the
    action with every pod replaced. *)

From Stdlib Require Import ZArith Lia.
From stdpp Require Import base list gmap strings.
From S2P Require Import Prelude GoStr Json KubeTypes DdcApi Client Traces Mysql Resource External SubDefault.
From S2P Require Import Demo PrepareModify Quiet GracefulCodec Graceful GracefulSpec GracefulLemmas.

Local Open Scope string_scope.
Local Open Scope Z_scope.
Local Open Scope dop_scope.

(** ** The cluster of the pods *)

(** The pods of the group, each with the time from which the API server shows
    it, the clock, and how many calls were answered. *)
Record kube := mkKube { k_pods : list (Pod * Z); k_now : Z; k_calls : nat }.

(** What the operator does not decide: the answers of Doris, of the commands
    run in pods and of the rest, each at its call; how long passes until the
    next reading of the clock; the status of a pod at a time; and the pod that
    replaces one deleted at a time, with the time it appears. *)
Record Surroundings := mkSurroundings {
  sr_answer : nat -> forall X, OpE X -> X;
  sr_elapse : nat -> Z;
  sr_status : Z -> Pod -> PodStatus;
  sr_replace : Z -> Pod -> Pod * Z
}.

(** Pods of the revision [rev] replace those deleted and get ready in the end,
    time passes, and from some call on the answers stay the same. *)
Class Recovers (rev : string) (sr : Surroundings) : Prop := {
  replaced_name t p : p_Name (sr_replace sr t p).1 = p_Name p;
  replaced_revision t p : outdated rev (sr_replace sr t p).1 = false;
  ready_in_the_end p : outdated rev p = false -> exists t0, forall t, t0 <= t -> PodIsReady (sr_status sr t p) = true;
  time_passes n : 0 < sr_elapse sr n;
  answers_settle : exists n0, forall n, (n0 <= n)%nat -> forall X e, sr_answer sr n X e = sr_answer sr n0 X e
}.

Section world.
Context (sr : Surroundings).

Definition shown (t : Z) (p : Pod) : Pod := mkPod (p_Meta p) (p_TerminationGracePeriodSeconds p) (sr_status sr t p).
Definition visible (w : kube) : list Pod :=
  omap (fun m => if m.2 <=? k_now w then Some (shown (k_now w) m.1) else None) (k_pods w).
Definition pod_named (name : string) (w : kube) : option Pod :=
  List.find (fun p => bool_decide (p_Name p = name)) (visible w).
Definition replaced (name : string) (w : kube) : list (Pod * Z) :=
  (fun m => if bool_decide (p_Name m.1 = name) then sr_replace sr (k_now w) m.1 else m) <$> k_pods w.

Definition answered (w : kube) : kube := mkKube (k_pods w) (k_now w) (S (k_calls w)).
Definition pod_gone : goerr := mkErr ReasonNotFound "pod not found".

Definition kube_env (X : Type) (e : OpE X) (w : kube) : X * kube :=
  match e in OpE X return X -> X * kube with
  | TimeNow => fun _ => (k_now w, mkKube (k_pods w) (k_now w + sr_elapse sr (k_calls w)) (S (k_calls w)))
  | CGet k _ name =>
      match k return res (obj k) -> res (obj k) * kube with
      | KPod => fun _ => (match pod_named name w with Some p => Ok p | None => Er pod_gone end, w)
      | _ => fun x => (x, answered w)
      end
  | CList k _ _ =>
      match k return res (list (obj k)) -> res (list (obj k)) * kube with
      | KPod => fun _ => (Ok (visible w), w)
      | _ => fun x => (x, answered w)
      end
  | CDelete k o =>
      match k return obj k -> option goerr -> option goerr * kube with
      | KPod => fun o _ =>
          match pod_named (p_Name o) w with
          | Some _ => (None, mkKube (replaced (p_Name o) w) (k_now w) (k_calls w))
          | None => (Some pod_gone, w)
          end
      | _ => fun _ x => (x, answered w)
      end o
  | _ => fun x => (x, answered w)
  end (sr_answer sr (k_calls w) X e).

(** ** Calls beside the pods and the clock *)

Definition foreign (e : event OpE) : Prop :=
  match e with
  | Ev TimeNow _ => False
  | Ev (CGet k _ _) _ | Ev (CList k _ _) _ | Ev (CDelete k _) _ => k <> KPod
  | _ => True
  end.

Lemma foreign_run {A} (p : op A) w : only foreign p ->
  exists tr o, run kube_env p w = (tr, o, mkKube (k_pods w) (k_now w) (k_calls w + length tr)).
Proof.
  intros Hp. pose proof (run_exec kube_env p w) as Hex. apply (spec_exec _ _ _ _ _ Hp) in Hex as [Hf _]. clear Hp.
  revert w Hf; induction p as [a|why|X e k IH]; intros w Hf; cbn [run] in *.
  - exists [], (Done a). rewrite Nat.add_0_r. by destruct w.
  - exists [], (Crashed why). rewrite Nat.add_0_r. by destruct w.
  - destruct (kube_env X e w) as [x w1] eqn:Hx.
    assert (He : foreign (Ev e x) /\ Forall foreign (run kube_env (k x) w1).1.1).
    { destruct (run kube_env (k x) w1) as [[tr o] w2]. cbn in *. by apply Forall_cons in Hf. }
    destruct He as [He Hk].
    assert (w1 = answered w) as -> by (destruct e; try done; cbn in Hx; try (by injection Hx as _ <-); destruct k0; try done; by injection Hx as _ <-).
    destruct (IH x _ Hk) as (tr & o & ->). exists (Ev e x :: tr), o. cbn. by rewrite Nat.add_succ_r.
Qed.

(** Once the answers stay the same, so does what such a program returns. *)
Lemma foreign_settled {A} (p : op A) n0 w w' : (forall n, (n0 <= n)%nat -> forall X e, sr_answer sr n X e = sr_answer sr n0 X e) ->
  only foreign p -> (n0 <= k_calls w)%nat -> (n0 <= k_calls w')%nat -> (run kube_env p w').1.2 = (run kube_env p w).1.2.
Proof.
  intros Hn Hp. pose proof (run_exec kube_env p w) as Hex. apply (spec_exec _ _ _ _ _ Hp) in Hex as [Hf _]. clear Hp.
  revert w w' Hf; induction p as [a|why|X e k IH]; intros w w' Hf Hw Hw'; cbn [run] in *; [done..|].
  destruct (kube_env X e w) as [x w1] eqn:Hx, (kube_env X e w') as [x' w1'] eqn:Hx'.
  assert (He : foreign (Ev e x) /\ Forall foreign (run kube_env (k x) w1).1.1).
  { destruct (run kube_env (k x) w1) as [[tr o] w2]. cbn in *. by apply Forall_cons in Hf. }
  destruct He as [He Hk].
  assert (Hs : w1 = answered w /\ w1' = answered w' /\ x' = x).
  { pose proof (Hn _ Hw X e) as E1. pose proof (Hn _ Hw' X e) as E2.
    pose proof (eq_trans E2 (eq_sym E1)) as E. clear E1 E2.
    destruct e; try done; cbn in Hx, Hx'; try (injection Hx as <- <-; injection Hx' as <- <-; by repeat split);
      destruct k0; try done; injection Hx as <- <-; injection Hx' as <- <-; by repeat split. }
  destruct Hs as (-> & -> & ->). specialize (IH x (answered w) (answered w') Hk). cbn in IH.
  destruct (run kube_env (k x) (answered w)) as [[? ?] ?], (run kube_env (k x) (answered w')) as [[? ?] ?].
  cbn in *. apply IH; lia.
Qed.

(** ** The pods by their names *)

Definition names (w : kube) : list string := (fun m => p_Name m.1) <$> k_pods w.

Lemma pod_named_Some name w p : pod_named name w = Some p ->
  p_Name p = name /\ exists m, m ∈ k_pods w /\ p = shown (k_now w) m.1 /\ m.2 <= k_now w.
Proof.
  intros Hf. apply List.find_some in Hf as [Hin Hn]. apply bool_decide_eq_true in Hn. split; [done|].
  apply list_elem_of_In, list_elem_of_omap in Hin as (m & Hm & Hs). exists m. destruct (Z.leb_spec m.2 (k_now w)); [|done].
  by injection Hs as <-.
Qed.

Lemma pod_named_visible m w : NoDup (names w) -> m ∈ k_pods w ->
  pod_named (p_Name m.1) w = if m.2 <=? k_now w then Some (shown (k_now w) m.1) else None.
Proof.
  unfold pod_named, visible, names. induction (k_pods w) as [|x l IH]; [by intros _ ?%elem_of_nil|].
  cbn [fmap list_fmap omap list_omap]. intros [Hnot Hnd]%NoDup_cons Hm.
  assert (Hother : forall l', (forall y, y ∈ l' -> p_Name y.1 <> p_Name m.1) ->
    List.find (fun p => bool_decide (p_Name p = p_Name m.1))
      (omap (fun m => if m.2 <=? k_now w then Some (shown (k_now w) m.1) else None) l') = None).
  { clear. intros l' Hl. induction l' as [|y l' IH]; [done|]. cbn [omap list_omap]. destruct (y.2 <=? _); [cbn [List.find]|].
    - change (p_Name (shown _ y.1)) with (p_Name y.1). rewrite bool_decide_false by (apply Hl; by left). apply IH. intros; apply Hl; by right.
    - apply IH. intros; apply Hl; by right. }
  apply elem_of_cons in Hm as [-> |Hm].
  - destruct (x.2 <=? _); [cbn [List.find]|].
    + change (p_Name (shown _ x.1)) with (p_Name x.1). by rewrite bool_decide_true.
    + apply Hother. intros y Hy E. apply Hnot. rewrite <- E. by apply (list_elem_of_fmap_2 (fun m => p_Name m.1)).
  - assert (Hne : p_Name x.1 <> p_Name m.1).
    { intros E. apply Hnot. rewrite E. by apply (list_elem_of_fmap_2 (fun m => p_Name m.1)). }
    destruct (x.2 <=? _); [cbn [List.find]|by apply IH].
    change (p_Name (shown _ x.1)) with (p_Name x.1). rewrite bool_decide_false by done. by apply IH.
Qed.

Lemma replaced_names rev `{!Recovers rev sr} name w : (fun m => p_Name m.1) <$> replaced name w = names w.
Proof.
  unfold replaced, names. rewrite <- list_fmap_compose. apply list_fmap_ext. intros i m _. unfold compose.
  destruct (bool_decide _); [by rewrite replaced_name | done].
Qed.

(** ** The pods that are not of the revision *)

Definition old_pods (rev : string) (w : kube) : nat := length (filter (fun m => outdated rev m.1 = true) (k_pods w)).

Lemma replaced_fewer rev `{!Recovers rev sr} w m : NoDup (names w) -> m ∈ k_pods w -> outdated rev m.1 = true ->
  length (filter (fun m => outdated rev m.1 = true) (k_pods w)) =
  S (length (filter (fun m => outdated rev m.1 = true) (replaced (p_Name m.1) w))).
Proof.
  unfold replaced, names. induction (k_pods w) as [|x l IH]; [by intros _ ?%elem_of_nil|].
  cbn [fmap list_fmap]. intros [Hnot Hnd]%NoDup_cons Hm Ho. apply elem_of_cons in Hm as [-> |Hm].
  - rewrite bool_decide_true by done. rewrite filter_cons_True by done. cbn [length]. f_equal.
    rewrite filter_cons_False by (rewrite (replaced_revision (k_now w) x.1); done). f_equal. f_equal.
    symmetry. rewrite <- (list_fmap_id l) at 2. apply list_fmap_ext. intros i y Hy. rewrite bool_decide_false; [done|].
    intros E. apply Hnot. rewrite <- E. apply (list_elem_of_fmap_2 (fun m => p_Name m.1)). by eapply list_elem_of_lookup_2.
  - assert (Hne : p_Name x.1 <> p_Name m.1).
    { intros E. apply Hnot. rewrite E. by apply (list_elem_of_fmap_2 (fun m => p_Name m.1)). }
    rewrite (bool_decide_false (p_Name x.1 = _)) by done. rewrite !filter_cons. destruct (decide _); cbn [length]; by rewrite IH.
Qed.
End world.

(** ** The passes *)

Section rollout.
Context `{External} (sr : Surroundings) (cluster : Ddc) (cgStatus : ComputeGroupStatus) (est : StatefulSet).
Local Abbreviation env := (kube_env sr).
Local Abbreviation rev := (st_UpdateRevision est).
Context `{!Recovers rev sr}.

(** The pods of the cluster and the stored action; a pass that fails or panics
    stores nothing. *)
Definition state : Type := kube * GracefulAction.
Definition pass_step (s : state) : state :=
  match run env (runGracefulStateMachine cluster cgStatus est (refreshRollingUpdateTargetRevision est s.2)) s.1 with
  | (_, Done (ga, None), w) => (w, persisted ga)
  | (_, _, w) => (w, s.2)
  end.

(** Passes lead from the states of [P] to one of [Q]. *)
Definition leads (P Q : state -> Prop) : Prop := forall s, P s -> exists k, Q (Nat.iter k pass_step s).

Lemma leads_refl P Q : (forall s, P s -> Q s) -> leads P Q.
Proof. intros HPQ s Hs. exists 0%nat. by apply HPQ. Qed.
Lemma leads_trans P Q R : leads P Q -> leads Q R -> leads P R.
Proof. intros HPQ HQR s Hs. destruct (HPQ s Hs) as [k Hk], (HQR _ Hk) as [j Hj]. exists (j + k)%nat. by rewrite Nat.iter_add. Qed.
Lemma leads_step P Q : (forall s, P s -> Q (pass_step s)) -> leads P Q.
Proof. intros Hs s HP. exists 1%nat. by apply Hs. Qed.
Lemma leads_or P P' Q : leads P Q -> leads P' Q -> leads (fun s => P s \/ P' s) Q.
Proof. intros H1 H2 s [Hs|Hs]; auto. Qed.

(** A wait that comes to an end: each pass leaves it or lessens a measure. *)
Lemma leads_wait (m : state -> nat) P Q : (forall s, P s -> Q (pass_step s) \/ P (pass_step s) /\ (m (pass_step s) < m s)%nat) -> leads P Q.
Proof.
  intros Hstep s. remember (m s) as n eqn:Hn. revert s Hn. induction n as [n IH] using lt_wf_ind. intros s -> Hs.
  destruct (Hstep s Hs) as [Hq|[Hp Hlt]]; [by exists 1%nat|]. destruct (IH _ Hlt _ eq_refl Hp) as [k Hk].
  exists (k + 1)%nat. by rewrite Nat.iter_add.
Qed.

(** ** Programs that do not fail *)

Definition total {A} (p : op A) : Prop := forall w, exists a, (run env p w).1.2 = Done a.
Lemma total_ret {A} (a : A) : total (Ret a).
Proof. intros w. by exists a. Qed.
Lemma total_call {A X} (e : OpE X) (k : X -> op A) : (forall x, total (k x)) -> total (Call e k).
Proof.
  intros Hk w. cbn [run]. destruct (env X e w) as [x w1]. destruct (Hk x w1) as [a Ha]. exists a.
  by destruct (run env (k x) w1) as [[? ?] ?].
Qed.
Lemma total_bind {A B} (p : op A) (f : A -> op B) : total p -> (forall a, total (f a)) -> total (bind p f).
Proof.
  intros Hp Hf w. rewrite run_bind. destruct (Hp w) as [a Ha]. destruct (run env p w) as [[tr o] w1]. cbn in Ha. subst o.
  destruct (Hf a w1) as [b Hb]. exists b. by destruct (run env (f a) w1) as [[? ?] ?].
Qed.

Lemma total_close {A} db (p : op A) : total p -> total (with_close db p).
Proof.
  intros Hp w. specialize (Hp w). revert w Hp. induction p as [a|why|X e k IH]; intros w [a' Ha]; cbn [with_close run] in *.
  - exact (total_call _ _ (fun _ => total_ret _) w).
  - done.
  - destruct (env X e w) as [x w1]. destruct (IH x w1) as [b Hb]; [|exists b; by destruct (run env (with_close db (k x)) w1) as [[? ?] ?]].
    exists a'. by destruct (run env (k x) w1) as [[? ?] ?].
Qed.

(** What a program beside the pods and the clock does. *)
Lemma foreign_done {A} (R : A -> Prop) (p : op A) w : spec foreign R p -> total p ->
  exists tr a w', run env p w = (tr, Done a, w') /\ R a /\ w' = mkKube (k_pods w) (k_now w) (k_calls w + length tr).
Proof.
  intros Hp Ht. destruct (foreign_run sr p w) as (tr & o & Hr); [eapply spec_weaken; [exact Hp | done | done]|].
  destruct (Ht w) as [a Ha]. rewrite Hr in Ha. cbn in Ha. subst o. exists tr, a. eexists. split; [exact Hr|]. split; [|done].
  pose proof (run_exec env p w) as Hex. rewrite Hr in Hex. by apply (spec_exec _ _ _ _ _ Hp) in Hex as [_ ?].
Qed.

#[local] Hint Extern 1 (foreign (Ev _ _)) => (exact I || (cbn; discriminate)) : spec.

Lemma backend_foreign pod : only foreign (getBackendByPodName cluster cgStatus pod).
Proof.
  unfold getBackendByPodName. eapply (spec_bind _ (fun _ => True)).
  - unfold getMasterSqlClient, GetManagementAdminUserAndPWD, assert_ok, GetSecret.
    assert (Hcm : forall ns key cms, only foreign (GetConfigValuesFromConfigMaps ns key cms)).
    { intros ns key cms; induction cms as [|cm cms IH]; cbn; [by apply spec_ret|]. spec_go. }
    assert (Hdb : forall cfg tls sec, only foreign (NewDorisMasterSqlDB cfg tls sec)).
    { intros. unfold NewDorisMasterSqlDB, GetFollowers, ShowFrontends, Close, NewDorisSqlDB, open_and_ping. spec_go. }
    spec_go.
  - intros [c|err] _; [|by apply spec_ret]. apply with_close_spec; [done|].
    eapply (spec_bind _ (fun _ => True)); [unfold GetBackendsByComputeGroupId, ShowBackends; spec_go|]. intros [l|err] _; spec_go.
Qed.

(** ** Programs that make a call *)

Definition asks {A} (p : op A) : Prop := wp p (fun tr o => (exists a, o = Done a) -> tr <> []).
Lemma asks_call {A X} (e : OpE X) (k : X -> op A) : asks (Call e k).
Proof. intros x. by apply wp_true. Qed.
Lemma asks_left {A B} (p : op A) (f : A -> op B) : asks p -> asks (bind p f).
Proof.
  intros Hp. apply wp_bind. eapply wp_mono; [exact Hp|]. intros tr [a|w] Ha; [|by intros []].
  apply wp_true. intros tr' o' _ [E _]%app_nil. by eapply Ha; [eexists|].
Qed.
Lemma asks_right {A B} (p : op A) (f : A -> op B) : (forall a, asks (f a)) -> asks (bind p f).
Proof.
  intros Hf. apply wp_bind. apply wp_true. intros tr [a|w]; [|by intros []].
  eapply wp_mono; [apply Hf|]. intros tr' o' Ho Hd [_ E]%app_nil. by apply Ho.
Qed.

Lemma backend_asks pod : asks (getBackendByPodName cluster cgStatus pod).
Proof.
  unfold getBackendByPodName. apply asks_left. unfold getMasterSqlClient. apply asks_right. intros [user pw].
  apply asks_right. intros cms. unfold assert_ok. destruct (GetPort _ _); [|by intros []].
  destruct (FindSecretTLSConfig _ _) as [[tls secret]|]; [|by intros []]. apply asks_call.
Qed.

(** ** The states on the way *)

Context (Hrev : rev <> "") (Hsel : LabelSelectorAsSelector (st_Selector est) = None).
Context (Hdoris : forall pod, total (getBackendByPodName cluster cgStatus pod)).
Context (w0 : kube) (Hnames : NoDup (names w0)) (Hnow : 0 <= k_now w0).
Context (Hvisible : forall m, m ∈ k_pods w0 -> outdated rev m.1 = true -> m.2 <= k_now w0).

(** A pod of the start, or what stands in its place: the pod itself, or, for an
    outdated one, a pod of its name and of the revision. *)
Definition renewed (m m' : Pod * Z) : Prop :=
  p_Name m'.1 = p_Name m.1 /\ (m' = m \/ outdated rev m.1 = true /\ outdated rev m'.1 = false).
Definition under_way (w : kube) : Prop := Forall2 renewed (k_pods w0) (k_pods w) /\ k_now w0 <= k_now w.

Lemma under_way_start : under_way w0.
Proof. split; [|lia]. apply Forall_Forall2_diag, Forall_forall. intros m _. by split; [|left]. Qed.
Lemma under_way_names w : under_way w -> names w = names w0.
Proof.
  intros [Hf _]. unfold names. revert Hf. generalize (k_pods w0) (k_pods w). clear.
  induction 1 as [|m m' l l' [Hn _] _ IH]; cbn; [done|]. by rewrite Hn, IH.
Qed.
Lemma under_way_same w w' : under_way w -> k_pods w' = k_pods w -> k_now w <= k_now w' -> under_way w'.
Proof. intros [Hf Hn] Hp Hle. split; [by rewrite Hp | lia]. Qed.
Lemma outdated_visible w m : under_way w -> m ∈ k_pods w -> outdated rev m.1 = true -> m.2 <= k_now w.
Proof.
  intros [Hf Hn] Hm Ho. apply list_elem_of_lookup_1 in Hm as [i Hi].
  destruct (Forall2_lookup_r _ _ _ _ _ Hf Hi) as (m0 & Hi0 & _ & [->|[_ Hno]]); [|congruence].
  pose proof (Hvisible m0 (list_elem_of_lookup_2 _ _ _ Hi0) Ho). lia.
Qed.
Lemma under_way_nodup w : under_way w -> NoDup (names w).
Proof. intros Hw. by rewrite under_way_names. Qed.

Definition rolling (n : nat) (ph : GracefulActionPhase) (s : state) : Prop :=
  under_way s.1 /\ old_pods rev s.1 = n /\ ga_Type s.2 = GracefulActionRollingUpdate /\ ga_Phase s.2 = ph.
(** The current pod: an outdated one, or its replacement. *)
Definition current (o : bool) (s : state) : Prop :=
  ga_StableBackendObservations s.2 = 0 /\
  exists m, m ∈ k_pods s.1 /\ outdated rev m.1 = o /\ p_Name m.1 = ga_CurrentPod s.2.

Definition at_trigger n s := rolling n GracefulPhaseTriggerDrain s /\ ga_CurrentPod s.2 = "".
Definition at_drain n s := rolling n GracefulPhaseWaitDrain s /\ current true s.
Definition at_delete n s := rolling n GracefulPhaseDeletePod s /\ current true s.
Definition at_ready n s := rolling n GracefulPhaseWaitPodReady s /\ current false s.
Definition at_alive n s := rolling n GracefulPhaseWaitBEAlive s /\ 0 <= ga_StableBackendObservations s.2 < 2 /\
  truncated (ga_DeadlineAt s.2) = ga_DeadlineAt s.2.
Definition at_done s := rolling 0 GracefulPhaseDone s /\ ga_TargetRevision s.2 = rev.

Lemma refreshed ga : ga_Type ga = GracefulActionRollingUpdate ->
  refreshRollingUpdateTargetRevision est ga = ga <| ga_TargetRevision := rev |>.
Proof. intros Ht. unfold refreshRollingUpdateTargetRevision. rewrite decide_False by (intros E; by apply E). by rewrite decide_False. Qed.

(** A pass, by the machine from the refreshed action. *)
Lemma pass_runs w ga g tr w' : ga_Type ga = GracefulActionRollingUpdate ->
  run env (runGracefulStateMachine cluster cgStatus est (ga <| ga_TargetRevision := rev |>)) w = (tr, Done (g, None), w') ->
  pass_step (w, ga) = (w', persisted g).
Proof. intros Ht Hr. unfold pass_step. cbn [fst snd]. by rewrite refreshed, Hr by done. Qed.

(** *** WaitDrain *)

(** The pod that is processed, as the API server shows it. *)
Lemma current_shown w ga : under_way w -> current true (w, ga) ->
  exists m, m ∈ k_pods w /\ outdated rev m.1 = true /\ p_Name m.1 = ga_CurrentPod ga /\
    pod_named sr (ga_CurrentPod ga) w = Some (shown sr (k_now w) m.1).
Proof.
  intros Hw (_ & m & Hm & Ho & Hn). exists m. repeat split; try done. cbn in Hn. rewrite <- Hn.
  rewrite pod_named_visible by (done || by apply under_way_nodup). pose proof (outdated_visible w m Hw Hm Ho).
  by destruct (Z.leb_spec m.2 (k_now w)); [|lia].
Qed.

Definition time_left (s : state) : nat := Z.to_nat (ga_DeadlineAt s.2 - k_now s.1 + 1).

Lemma truncated_bounds t : t - 1000000000 < truncated t <= t.
Proof. unfold truncated. pose proof (Z.mul_div_le t 1000000000). pose proof (Z.mod_pos_bound t 1000000000). pose proof (Z.div_mod t 1000000000). lia. Qed.

Lemma truncated_idem t : truncated (truncated t) = truncated t.
Proof. unfold truncated. by rewrite Z.div_mul. Qed.

(** What a pass that leaves the pods alone keeps. *)
Lemma rolls_on n ph ph' w ga w' g' : rolling n ph (w, ga) -> k_pods w' = k_pods w -> k_now w <= k_now w' ->
  ga_Type g' = ga_Type ga -> ga_Phase g' = ph' -> rolling n ph' (w', persisted g').
Proof.
  intros (Hw & Hn & Ht & _) Hp Hle Ht' Hph. split; [by eapply under_way_same|].
  split; [unfold old_pods in *; cbn in *; by rewrite Hp|]. split; [by etrans | exact Hph].
Qed.

Lemma pass_moves n ph o w ga g' tr w' : rolling n (ga_Phase ga) (w, ga) -> current o (w, ga) ->
  run env (runGracefulStateMachine cluster cgStatus est (ga <| ga_TargetRevision := rev |>)) w = (tr, Done (g', None), w') ->
  k_pods w' = k_pods w -> k_now w <= k_now w' -> ga_Type g' = ga_Type ga -> ga_CurrentPod g' = ga_CurrentPod ga ->
  ga_StableBackendObservations g' = ga_StableBackendObservations ga -> ga_Phase g' = ph ->
  pass_step (w, ga) = (w', persisted g') /\ rolling n ph (pass_step (w, ga)) /\ current o (pass_step (w, ga)).
Proof.
  intros Hroll [Hob0 (m & Hm & Ho & Hname)] Hr Hp' Hn' Ht' Hcp Hob Hph. pose proof Hroll as (_ & _ & Ht & _). cbn [fst snd] in *.
  rewrite (pass_runs w ga g' tr w' Ht Hr). split; [done|]. split; [by eapply rolls_on|].
  split; [cbn; by rewrite Hob|]. exists m. cbn. by rewrite Hp', Hcp.
Qed.

Lemma drain_ends n : leads (at_drain n) (at_delete n).
Proof.
  apply (leads_wait time_left). intros [w ga] [Hr Hc]. pose proof Hr as (Hw & Hn & Ht & Hp). cbn [fst snd] in *.
  destruct (current_shown w ga Hw Hc) as (m & Hm & Ho & Hname & Hshow).
  assert (Hrun : exists tr g' w', run env (runGracefulStateMachine cluster cgStatus est (ga <| ga_TargetRevision := rev |>)) w =
      (tr, Done (g', None), w') /\ k_pods w' = k_pods w /\ k_now w <= k_now w' /\ ga_Type g' = ga_Type ga /\
    ga_CurrentPod g' = ga_CurrentPod ga /\ ga_StableBackendObservations g' = ga_StableBackendObservations ga /\
    (ga_Phase g' = GracefulPhaseDeletePod \/
     ga_Phase g' = GracefulPhaseWaitDrain /\ ga_DeadlineAt g' = ga_DeadlineAt ga /\ k_now w <= ga_DeadlineAt ga /\ k_now w < k_now w')).
  { unfold runGracefulStateMachine. cbn [ga_Phase update_field]. 
    change (ga_Phase (ga <| ga_TargetRevision := rev |>)) with (ga_Phase ga). rewrite Hp. unfold handleWaitDrain, getPod.
    cbn [run bind call kube_env].
    change (ga_CurrentPod (ga <| ga_TargetRevision := rev |>)) with (ga_CurrentPod ga). rewrite Hshow.
    destruct (isContainerTerminated _ _); [cbn; do 3 eexists; split; [reflexivity|]; cbn; repeat split; try lia; by left|].
    destruct (_ <? _); [cbn; do 3 eexists; split; [reflexivity|]; cbn; repeat split; try lia; by left|].
    pose proof (time_passes (k_calls w)) as Htime.
    cbn [run bind call kube_env]. change (ga_DeadlineAt (ga <| ga_TargetRevision := rev |>)) with (ga_DeadlineAt ga).
    destruct (Z.ltb_spec (ga_DeadlineAt ga) (k_now w)).
    - cbn. do 3 eexists. split; [reflexivity|]. cbn. repeat split; [lia|]. by left.
    - cbn. do 3 eexists. split; [reflexivity|]. cbn. repeat split; [lia|]. right. repeat split; [exact Hp | lia..]. }
  destruct Hrun as (tr & g' & w' & Hrun & Hp' & Hle & Ht' & Hcp & Hob & Hph).
  destruct Hph as [Hph|(Hph & Hd & Hdl & Hlt)]; [left|right].
  - destruct (pass_moves n GracefulPhaseDeletePod true w ga g' tr w') as (_ & Hr' & Hc'); [by rewrite Hp | done..|]. by split.
  - destruct (pass_moves n GracefulPhaseWaitDrain true w ga g' tr w') as (Hs & Hr' & Hc'); [by rewrite Hp | done..|].
    split; [by split|]. rewrite Hs. unfold time_left. cbn [fst snd]. pose proof (truncated_bounds (ga_DeadlineAt g')).
    change (ga_DeadlineAt (persisted g')) with (truncated (ga_DeadlineAt g')). rewrite Hd in *. lia.
Qed.

(** *** DeletePod *)

Lemma name_unique w m m' : NoDup (names w) -> m ∈ k_pods w -> m' ∈ k_pods w -> p_Name m'.1 = p_Name m.1 -> m' = m.
Proof.
  intros Hnd [i Hi]%list_elem_of_lookup_1 [j Hj]%list_elem_of_lookup_1 E.
  assert (i = j) as ->; [|congruence]. eapply (NoDup_lookup _ _ _ (p_Name m.1) Hnd); unfold names; rewrite list_lookup_fmap.
  - by rewrite Hi.
  - rewrite Hj. cbn. by rewrite E.
Qed.

Lemma under_way_replaced w m t c : under_way w -> m ∈ k_pods w -> outdated rev m.1 = true -> k_now w <= t ->
  under_way (mkKube (replaced sr (p_Name m.1) w) t c).
Proof.
  intros Hw Hm Ho Ht. pose proof (under_way_nodup w Hw) as Hnd. destruct Hw as [Hf Hn]. split; [|cbn; lia].
  cbn [k_pods]. unfold replaced. apply Forall2_fmap_r. apply Forall2_same_length_lookup_2; [by eapply Forall2_length|].
  intros i x y Hx Hy. cbn. pose proof (Forall2_lookup_lr _ _ _ _ _ _ Hf Hx Hy) as Hxy.
  destruct (decide (p_Name y.1 = p_Name m.1)) as [E|]; [|by rewrite bool_decide_false].
  rewrite bool_decide_true by done. assert (y = m) as -> by (eapply name_unique; [done.. | by eapply list_elem_of_lookup_2 | done]).
  destruct Hxy as [Hnm Hor]. split; [by rewrite replaced_name|]. right. split; [|apply replaced_revision].
  destruct Hor as [->|[? _]]; done.
Qed.

Lemma delete_replaces n : leads (at_delete n) (fun s => exists n', n = S n' /\ at_ready n' s).
Proof.
  apply leads_step. intros [w ga] [(Hw & Hn & Ht & Hp) Hc]. cbn [fst snd] in *.
  destruct (current_shown w ga Hw Hc) as (m & Hm & Ho & Hname & Hshow).
  assert (Hrun : exists tr g' c, run env (runGracefulStateMachine cluster cgStatus est (ga <| ga_TargetRevision := rev |>)) w =
      (tr, Done (g', None), mkKube (replaced sr (p_Name m.1) w) (k_now w) c) /\ ga_Type g' = ga_Type ga /\
    ga_CurrentPod g' = ga_CurrentPod ga /\ ga_StableBackendObservations g' = ga_StableBackendObservations ga /\
    ga_Phase g' = GracefulPhaseWaitPodReady).
  { unfold runGracefulStateMachine.
    change (ga_Phase (ga <| ga_TargetRevision := rev |>)) with (ga_Phase ga). rewrite Hp. unfold handleDeletePod, getPod.
    cbn [run bind call kube_env].
    change (ga_CurrentPod (ga <| ga_TargetRevision := rev |>)) with (ga_CurrentPod ga). rewrite Hshow.
    cbn [run bind call kube_env]. change (p_Name (shown sr (k_now w) m.1)) with (p_Name m.1). rewrite Hname, Hshow.
    cbn [run bind call kube_env]. unfold afterPodDeleted.
    change (ga_Type (ga <| ga_TargetRevision := rev |>)) with (ga_Type ga). rewrite Ht. cbn.
    do 3 eexists. split; [reflexivity|]. by repeat split. }
  destruct Hrun as (tr & g' & c & Hrun & Ht' & Hcp & Hob & Hph).
  rewrite (pass_runs w ga g' tr _ Ht Hrun). unfold old_pods in Hn.
  rewrite (replaced_fewer sr rev w m (under_way_nodup w Hw) Hm Ho) in Hn.
  exists (old_pods rev (mkKube (replaced sr (p_Name m.1) w) (k_now w) c)). split; [by rewrite <- Hn|]. split.
  - split; [by apply under_way_replaced|]. split; [done|]. cbn. by split; [rewrite Ht'|].
  - destruct Hc as [Hob0 _]. split; [cbn; by rewrite Hob|]. exists (sr_replace sr (k_now w) m.1). cbn. split.
    + unfold replaced. apply list_elem_of_fmap. exists m. by rewrite bool_decide_true.
    + by rewrite (replaced_revision (k_now w)), (replaced_name (k_now w)), Hcp.
Qed.

(** *** WaitPodReady *)

(** What a wait keeps of the action. *)
Definition steady_action (ga ga' : GracefulAction) : Prop :=
  ga_Type ga' = ga_Type ga /\ ga_Phase ga' = ga_Phase ga /\ ga_CurrentPod ga' = ga_CurrentPod ga /\
  ga_StableBackendObservations ga' = ga_StableBackendObservations ga.
(** What is as it was but for a later clock. *)
Definition later (w w' : kube) : Prop := k_pods w' = k_pods w /\ k_now w <= k_now w' /\ (k_calls w <= k_calls w')%nat.
#[local] Instance later_preorder : PreOrder later.
Proof. split; [by intros w | intros w1 w2 w3 (E1 & ? & ?) (E2 & ? & ?)]. split; [congruence | lia]. Qed.

Lemma ensure_timer_run timeout ga w : exists tr ga' w', run env (ensure_timer timeout ga) w = (tr, Done ga', w') /\
  later w w' /\ (ga_DeadlineAt ga <> 0 /\ ga' = ga /\ w' = w \/
    ga_DeadlineAt ga = 0 /\ ga' = ga <| ga_StartedAt := k_now w |> <| ga_DeadlineAt := k_now w + timeout |>).
Proof.
  unfold ensure_timer, start_timer. case_decide as Hd; cbn; do 3 eexists; (split; [reflexivity|]).
  - pose proof (time_passes (k_calls w)). split; [repeat split; cbn; lia|]. by right.
  - split; [done|]. by left.
Qed.

Lemma wait_replacement_run what ga w : exists tr ga' w', run env (wait_replacement what ga) w = (tr, Done (ga', None), w') /\
  later w w' /\ k_now w < k_now w' /\ steady_action ga ga'.
Proof.
  unfold wait_replacement, start_timer. cbn [run bind call kube_env]. pose proof (time_passes (k_calls w)) as Ht.
  destruct (_ <? _); cbn.
  - pose proof (time_passes (S (S (k_calls w)))). do 3 eexists. split; [reflexivity|]. repeat split; cbn; lia.
  - do 3 eexists. split; [reflexivity|]. repeat split; cbn; lia.
Qed.

Lemma ready_ends n : leads (at_ready n) (at_alive n).
Proof.
  intros [w0' ga0] [Hr0 (Hob0 & m & Hm0 & Ho & Hname0)]. cbn [fst snd] in *.
  destruct (ready_in_the_end m.1 Ho) as [t0 Ht0].
  set (P := fun s : state => rolling n GracefulPhaseWaitPodReady s /\ m ∈ k_pods s.1 /\
    ga_StableBackendObservations s.2 = 0 /\ p_Name m.1 = ga_CurrentPod s.2).
  apply (leads_wait (fun s => Z.to_nat (Z.max m.2 t0 - k_now s.1)) P); [|by repeat split; try apply Hr0]. clear w0' ga0 Hr0 Hob0 Hm0 Hname0.
  intros [w ga] (Hroll & Hm & Hob & Hname). pose proof Hroll as (Hw & Hn & Ht & Hp). cbn [fst snd] in *.
  assert (Hrun : exists tr g' w', run env (runGracefulStateMachine cluster cgStatus est (ga <| ga_TargetRevision := rev |>)) w =
      (tr, Done (g', None), w') /\ later w w' /\ ga_Type g' = ga_Type ga /\ ga_CurrentPod g' = ga_CurrentPod ga /\
    ga_StableBackendObservations g' = ga_StableBackendObservations ga /\
    (ga_Phase g' = GracefulPhaseWaitBEAlive \/
     ga_Phase g' = GracefulPhaseWaitPodReady /\ k_now w < Z.max m.2 t0 /\ k_now w < k_now w')).
  { unfold runGracefulStateMachine. set (g := ga <| ga_TargetRevision := rev |>).
    change (ga_Phase g) with (ga_Phase ga). rewrite Hp. unfold handleWaitPodReady, getPod. rewrite run_bind.
    destruct (ensure_timer_run replacementTimeout g w) as (tr1 & g1 & w1 & -> & Hl1 & Hg1).
    assert (Hs1 : steady_action ga g1) by (destruct Hg1 as [(_ & -> & _)|[_ ->]]; by repeat split). clear Hg1.
    destruct Hs1 as (Ht1 & Hp1 & Hc1 & Ho1). destruct Hl1 as (Hpods1 & Hnow1 & Hcalls1).
    cbn [run bind call kube_env]. rewrite Hc1, <- Hname.
    assert (Hnd1 : NoDup (names w1)) by (unfold names; rewrite Hpods1; by apply under_way_nodup).
    assert (Hm1 : m ∈ k_pods w1) by by rewrite Hpods1.
    rewrite (pod_named_visible sr m w1) by done.
    destruct (Z.leb_spec m.2 (k_now w1)) as [Hvis|Hinv].
    2:{ change (IsNotFound pod_gone) with true. cbv iota.
        destruct (wait_replacement_run "be created" g1 w1) as (tr2 & g2 & w2 & -> & (Hp2 & Hn2 & Hc2) & Hlt & Ht2 & Hph2 & Hcp2 & Hob2).
        cbn. do 3 eexists. split; [reflexivity|]. repeat split; try congruence; try lia. right. repeat split; [congruence | lia..]. }
    change (p_Status (shown sr (k_now w1) m.1)) with (sr_status sr (k_now w1) m.1).
    destruct (PodIsReady (sr_status sr (k_now w1) m.1)) eqn:Hready.
    - cbn. do 3 eexists. split; [reflexivity|]. split; [repeat split; cbn; (congruence || lia)|]. cbn. do 3 (split; [first [exact Ht1|exact Hc1|exact Ho1|congruence]|]). by left.
    - assert (Hlt0 : k_now w1 < t0) by (destruct (Z.lt_ge_cases (k_now w1) t0) as [|Hge]; [done | rewrite (Ht0 _ Hge) in Hready; done]).
      destruct (wait_replacement_run "become ready" g1 w1) as (tr2 & g2 & w2 & -> & (Hp2 & Hn2 & Hc2) & Hlt & Ht2 & Hph2 & Hcp2 & Hob2).
      cbn. do 3 eexists. split; [reflexivity|]. repeat split; try congruence; try lia. right. repeat split; [congruence | lia..]. }
  destruct Hrun as (tr & g' & w' & Hrun & (Hp' & Hle & _) & Ht' & Hcp & Hob' & Hph).
  rewrite (pass_runs w ga g' tr w' Ht Hrun). destruct Hph as [Hph|(Hph & Hlt & Hlt')]; [left|right].
  - split; [by eapply rolls_on|]. split; [cbn; rewrite Hob', Hob; lia | by apply truncated_idem].
  - split; [|cbn; lia]. split; [by eapply rolls_on|]. cbn. rewrite Hp', Hob', Hcp. by repeat split.
Qed.

(** *** WaitBEAlive *)

(** Whether what Doris says of the pod counts as its new generation, and
    whether that generation was seen once. *)
Definition accepted (ga : GracefulAction) (found : res Backend) : bool :=
  match found with
  | Ok b => match backendIsShutdown b with
            | Ok shutdown => be_Alive b && negb shutdown && acceptStartTime ga b && acceptEpoch ga b
            | Er _ => false
            end
  | Er _ => false
  end.
Definition seen (found : res Backend) (ga : GracefulAction) : bool :=
  match found with
  | Ok b => bool_decide (ga_ReplacementBackendStartTime ga = backendLastStartTime b /\
                         ga_ReplacementBackendEpoch ga = (backendProcessEpoch b).1 /\ ga_StableBackendObservations ga = 1)
  | Er _ => false
  end.
Definition alive_left (s : state) : nat :=
  if decide (ga_DeadlineAt s.2 = 0) then Z.to_nat (aliveTimeout + 2) else time_left s.
(** What the wait asks of the action. *)
Definition same_wait (ga ga' : GracefulAction) : Prop :=
  ga_CurrentPod ga' = ga_CurrentPod ga /\ ga_InitialBackendStartTime ga' = ga_InitialBackendStartTime ga /\
  ga_InitialBackendEpoch ga' = ga_InitialBackendEpoch ga.

Lemma accepted_same ga ga' found : same_wait ga ga' -> accepted ga' found = accepted ga found.
Proof. intros (_ & E1 & E2). unfold accepted, acceptStartTime, acceptEpoch. by rewrite E1, E2. Qed.

(** What the handler leaves: the next pod's turn, or the same wait. *)
Definition alive_result (found : res Backend) (ga g' : GracefulAction) (w w' : kube) : Prop :=
  ga_Type g' = ga_Type ga /\
  (ga_Phase g' = GracefulPhaseTriggerDrain /\ ga_CurrentPod g' = "" \/
   ga_Phase g' = GracefulPhaseWaitBEAlive /\ same_wait ga g' /\ 0 <= ga_StableBackendObservations g' < 2 /\
   (accepted ga found = true -> seen found ga = false /\ seen found g' = true) /\
   (accepted ga found = false -> ga_DeadlineAt g' = ga_DeadlineAt ga /\ k_now w <= ga_DeadlineAt ga /\ k_now w < k_now w')).

Lemma force_or_wait_run found m1 m2 ga w : ga_Phase ga = GracefulPhaseWaitBEAlive -> ga_DeadlineAt ga <> 0 ->
  0 <= ga_StableBackendObservations ga < 2 -> accepted ga found = false ->
  exists tr g' w', run env (force_or_wait m1 m2 ga) w = (tr, Done (g', None), w') /\ later w w' /\ alive_result found ga g' w w'.
Proof.
  intros Hp Hd Hob Ha. unfold force_or_wait. rewrite decide_False, bool_decide_false by done. cbn [run bind call kube_env negb andb].
  pose proof (time_passes (k_calls w)). destruct (Z.ltb_spec (ga_DeadlineAt ga) (k_now w)); cbn [run bind].
  - do 3 eexists. split; [reflexivity|]. split; [repeat split; cbn; lia|]. split; [done|]. by left.
  - do 3 eexists. split; [reflexivity|]. split; [repeat split; cbn; lia|]. split; [done|]. right.
    split; [done|]. split; [done|]. split; [done|]. split; [congruence|]. intros _. cbn. lia.
Qed.

Lemma observed ga b : seen (Ok b) ga = true ->
  ga_StableBackendObservations (observe ga (backendLastStartTime b) (backendProcessEpoch b).1) = 2.
Proof.
  intros Hs. apply bool_decide_eq_true in Hs as (E1 & E2 & E3). unfold observe. rewrite decide_False by (intros [?|?]; by subst).
  cbn. by rewrite E3.
Qed.
Lemma observed_first ga b : seen (Ok b) ga = false -> 0 <= ga_StableBackendObservations ga < 2 ->
  seen (Ok b) (observe ga (backendLastStartTime b) (backendProcessEpoch b).1) = true.
Proof.
  intros Hs Hob. apply bool_decide_eq_true. apply bool_decide_eq_false in Hs. unfold observe. case_decide as Hd; [done|].
  cbn. assert (E1 : ga_ReplacementBackendStartTime ga = backendLastStartTime b) by (destruct (decide (ga_ReplacementBackendStartTime ga = backendLastStartTime b)); tauto).
  assert (E2 : ga_ReplacementBackendEpoch ga = (backendProcessEpoch b).1) by (destruct (decide (ga_ReplacementBackendEpoch ga = (backendProcessEpoch b).1)); tauto).
  assert (ga_StableBackendObservations ga = 0) as -> by (destruct (decide (ga_StableBackendObservations ga = 1)); [tauto | lia]). done.
Qed.

Lemma observe_keeps ga b : let g := observe ga (backendLastStartTime b) (backendProcessEpoch b).1 in
  ga_Type g = ga_Type ga /\ ga_Phase g = ga_Phase ga /\ same_wait ga g.
Proof. unfold observe. case_decide; by repeat split. Qed.

Lemma alive_timer ga g1 t : 0 <= t ->
  (ga_DeadlineAt ga <> 0 /\ ga_DeadlineAt g1 = ga_DeadlineAt ga \/ ga_DeadlineAt ga = 0 /\ ga_DeadlineAt g1 = t + aliveTimeout) ->
  ga_DeadlineAt g1 <> 0.
Proof. intros Ht [[? ->]|[_ ->]]; [done|]. assert (0 < aliveTimeout) by done. lia. Qed.

Lemma alive_run ga w : ga_Phase ga = GracefulPhaseWaitBEAlive -> 0 <= ga_StableBackendObservations ga < 2 -> 0 <= k_now w ->
  exists w1 w2 found g1 tr g' w', run env (handleWaitBEAlive cluster cgStatus ga) w = (tr, Done (g', None), w') /\
    later w w1 /\ later w2 w' /\ k_pods w2 = k_pods w1 /\ k_now w2 = k_now w1 /\ (k_calls w1 < k_calls w2)%nat /\
    (run env (getBackendByPodName cluster cgStatus (ga_CurrentPod ga)) w1).1.2 = Done found /\
    steady_action ga g1 /\ same_wait ga g1 /\ seen found g1 = seen found ga /\
    (ga_DeadlineAt ga <> 0 /\ ga_DeadlineAt g1 = ga_DeadlineAt ga \/ ga_DeadlineAt ga = 0 /\ ga_DeadlineAt g1 = k_now w + aliveTimeout) /\
    alive_result found g1 g' w2 w'.
Proof.
  intros Hp Hob Hnow0. unfold handleWaitBEAlive. rewrite run_bind.
  destruct (ensure_timer_run aliveTimeout ga w) as (tr1 & g1 & w1 & -> & Hl1 & Hg1).
  assert (Hg : steady_action ga g1 /\ same_wait ga g1 /\ (forall found, seen found g1 = seen found ga) /\
    (ga_DeadlineAt ga <> 0 /\ ga_DeadlineAt g1 = ga_DeadlineAt ga \/ ga_DeadlineAt ga = 0 /\ ga_DeadlineAt g1 = k_now w + aliveTimeout)).
  { destruct Hg1 as [(Hd & -> & _)|[Hd ->]]; (split; [by repeat split|]); (split; [by repeat split|]); (split; [by intros []|]); [by left | by right]. }
  clear Hg1. destruct Hg as (Hst & Hsame & Hseen & Hd). pose proof Hst as (_ & Hp1 & Hcp1 & Hob1). rewrite run_bind.
  destruct (foreign_done (fun _ => True) _ w1 (backend_foreign (ga_CurrentPod g1)) (Hdoris _)) as (tr2 & found & w2 & Hrun & _ & Hw2).
  assert (Hcalls : (0 < length tr2)%nat).
  { pose proof (wp_run env _ w1 _ (backend_asks (ga_CurrentPod g1))) as Hask. rewrite Hrun in Hask. cbn in Hask.
    destruct tr2; [|cbn; lia]. by destruct (Hask (ex_intro _ _ eq_refl)). }
  rewrite Hrun. match goal with |- context [run env ?p w2] => set (judge := p) end.
  assert (Hend : exists tr3 g' w', run env judge w2 = (tr3, Done (g', None), w') /\ later w2 w' /\ alive_result found g1 g' w2 w').
  { pose proof (alive_timer _ _ _ Hnow0 Hd) as Hd0. rewrite <- Hp1 in Hp. rewrite <- Hob1 in Hob. clear Hrun Hw2 Hd Hst Hsame.
    subst judge. destruct found as [b|err]; [|by apply force_or_wait_run].
    destruct (backendIsShutdown b) as [shutdown|err] eqn:Hsd; [|apply force_or_wait_run; try done; unfold accepted; by rewrite Hsd].
    cbv zeta. destruct (be_Alive b && negb shutdown && acceptStartTime g1 b && acceptEpoch g1 b) eqn:Hacc.
    2:{ apply force_or_wait_run; try done. unfold accepted. by rewrite Hsd. }
    assert (Hok : accepted g1 (Ok b) = true) by (unfold accepted; by rewrite Hsd).
    destruct (seen (Ok b) g1) eqn:Hs.
    - rewrite (observed g1 b Hs). cbn. do 3 eexists. split; [reflexivity|]. split; [repeat split; cbn; lia|].
      split; [apply (observe_keeps g1 b)|]. by left.
    - pose proof (observed_first g1 b Hs Hob) as Hs'. pose proof Hs' as (_ & _ & E)%bool_decide_eq_true. rewrite E.
      destruct (observe_keeps g1 b) as (Et & Ep & Hsw). cbn. do 3 eexists. split; [reflexivity|]. split; [done|].
      split; [exact Et|]. right. split; [etrans; [exact Ep | done]|]. split; [exact Hsw|]. split; [cbn; rewrite E; lia|].
      split; [done|]. intros Hno. by rewrite Hok in Hno. }
  destruct Hend as (tr3 & g' & w' & -> & Hl & Hres).
  exists w1, w2, found, g1. do 3 eexists. split; [reflexivity|]. rewrite Hcp1 in Hrun. subst w2.
  repeat (split; [first [done | by rewrite Hrun | cbn; lia]|]). done.
Qed.

Lemma alive_pass n w ga : at_alive n (w, ga) -> exists w1 found, later w w1 /\
  (run env (getBackendByPodName cluster cgStatus (ga_CurrentPod ga)) w1).1.2 = Done found /\
  (at_trigger n (pass_step (w, ga)) \/
   at_alive n (pass_step (w, ga)) /\ same_wait ga (pass_step (w, ga)).2 /\ (k_calls w < k_calls (pass_step (w, ga)).1)%nat /\
   (accepted ga found = true -> seen found ga = false /\ seen found (pass_step (w, ga)).2 = true) /\
   (accepted ga found = false -> (alive_left (pass_step (w, ga)) < alive_left (w, ga))%nat)).
Proof.
  intros (Hroll & Hob & Hwhole). pose proof Hroll as (Hw & Hn & Ht & Hp). cbn [fst snd] in *.
  assert (Hnow0 : 0 <= k_now w) by (destruct Hw; lia).
  assert (Hp0 : ga_Phase (ga <| ga_TargetRevision := rev |>) = GracefulPhaseWaitBEAlive) by exact Hp.
  destruct (alive_run _ w Hp0 Hob Hnow0)
    as (w1 & w2 & found & g1 & tr & g' & w' & Hrun & Hl1 & Hl2 & Hp2 & Hn2 & Hc2 & Hfound & Hst & Hsame & Hseen & Hd & Ht' & Hres).
  exists w1, found. split; [done|]. split; [exact Hfound|].
  assert (Hsame0 : same_wait ga g1) by exact Hsame.
  assert (Hpass : pass_step (w, ga) = (w', persisted g')).
  { apply (pass_runs w ga g' tr w' Ht). unfold runGracefulStateMachine.
    change (ga_Phase (ga <| ga_TargetRevision := rev |>)) with (ga_Phase ga). rewrite Hp. exact Hrun. }
  rewrite Hpass. destruct Hl1 as (Hpods1 & Hnow1 & Hcalls1), Hl2 as (Hpods2 & Hnow2 & Hcalls2).
  assert (Hroll' : forall ph, ga_Phase g' = ph -> rolling n ph (w', persisted g')).
  { intros ph. eapply rolls_on; [exact Hroll | congruence | lia | etrans; [exact Ht'|]; apply Hst]. }
  destruct Hres as [[Hph Hcp]|(Hph & Hsame' & Hob' & Hacc & Hrej)]; [left; by split; [apply Hroll'|]|right].
  split; [|split; [|split; [|split]]].
  - split; [by apply Hroll'|]. split; [done|]. apply truncated_idem.
  - destruct Hsame as (E1 & E2 & E3), Hsame' as (F1 & F2 & F3). by repeat split; cbn; etrans; eauto.
  - cbn. lia.
  - intros Ha. rewrite <- (accepted_same _ _ found Hsame0) in Ha. apply Hacc in Ha as [Hs Hs']. split; [|by destruct found].
    rewrite Hseen in Hs. by destruct found.
  - intros Ha. rewrite <- (accepted_same _ _ found Hsame0) in Ha. apply Hrej in Ha as (Ed & Hdl & Hlt).
    unfold alive_left, time_left. cbn [fst snd]. change (ga_DeadlineAt (persisted g')) with (truncated (ga_DeadlineAt g')). rewrite Ed.
    pose proof (truncated_bounds (ga_DeadlineAt g1)) as [Hb1 Hb2].
    destruct Hd as [[Hd0 Hd1]|[Hd0 Hd1]]; change (ga_DeadlineAt (ga <| ga_TargetRevision := rev |>)) with (ga_DeadlineAt ga) in Hd0, Hd1.
    + rewrite Hd1, Hwhole in *. rewrite !decide_False by done. lia.
    + rewrite (decide_True (P := ga_DeadlineAt ga = 0)) by done. assert (1000000000 < aliveTimeout) by done.
      rewrite decide_False by lia. lia.
Qed.

Lemma alive_settles n : leads (at_alive n) (at_trigger n).
Proof.
  destruct (answers_settle (sr := sr)) as [n0 Hsettled].
  apply (leads_trans _ (fun s => at_trigger n s \/ at_alive n s /\ (n0 <= k_calls s.1)%nat)).
  - apply (leads_wait (fun s => (n0 - k_calls s.1)%nat)). intros [w ga] Ha.
    destruct (alive_pass n w ga Ha) as (_ & _ & _ & _ & [?|(Ha' & _ & Hc & _)]); [by left; left|].
    destruct (Nat.le_gt_cases n0 (k_calls (pass_step (w, ga)).1)); [left; by right|right]. split; [done|].
    change (fst (w, ga)) with w. lia.
  - apply leads_or; [by apply leads_refl|]. intros [wr gr] [Ha Hc].
    destruct (Hdoris (ga_CurrentPod gr) wr) as [F HF].
    set (P := fun s : state => (at_alive n s /\ (n0 <= k_calls s.1)%nat) /\ same_wait gr s.2).
    apply (leads_wait (fun s => if accepted gr F then if seen F s.2 then 0%nat else 1%nat else alive_left s) P); [|split; [split; [exact Ha | exact Hc] | by repeat split]].
    clear Ha. intros [w ga] [[Ha Hcw] Hsame].
    destruct (alive_pass n w ga Ha) as (w1 & found & (_ & _ & Hc1) & Hfound & Hres).
    assert (found = F) as ->.
    { pose proof (foreign_settled sr _ n0 wr w1 Hsettled (backend_foreign (ga_CurrentPod gr)) Hc ltac:(etrans; [exact Hcw | exact Hc1])) as E.
      destruct Hsame as [E1 _]. cbn in E1. rewrite E1 in Hfound. congruence. }
    rewrite <- (accepted_same _ _ F Hsame). cbn [snd] in *. destruct Hres as [?|(Ha' & Hsame' & Hc' & Hacc & Hrej)]; [by left|right].
    split.
    + split; [split; [done | change (fst (w, ga)) with w in Hcw; lia]|]. destruct Hsame as (E1 & E2 & E3), Hsame' as (F1 & F2 & F3). by repeat split; etrans; eauto.
    + destruct (accepted ga F); [|by apply Hrej]. destruct (Hacc eq_refl) as [-> ->]. lia.
Qed.

(** *** TriggerDrain *)

Lemma none_old w : under_way w -> Forall (fun p => outdated rev p = false) (visible sr w) -> old_pods rev w = 0%nat.
Proof.
  intros Hw Hv. unfold old_pods. replace (filter _ (k_pods w)) with (@nil (Pod * Z)); [done|]. symmetry.
  apply elem_of_nil_inv. intros m [Ho Hm]%list_elem_of_filter.
  pose proof (outdated_visible w m Hw Hm Ho) as Hle. rewrite Forall_forall in Hv.
  enough (outdated rev (shown sr (k_now w) m.1) = false) by (unfold outdated in *; cbn in *; congruence).
  apply Hv. unfold visible. apply list_elem_of_omap. exists m. split; [done|]. by destruct (Z.leb_spec m.2 (k_now w)); [|lia].
Qed.

Lemma select_run w ga : under_way w -> ga_CurrentPod ga = "" -> ga_Type ga = GracefulActionRollingUpdate -> ga_TargetRevision ga = rev ->
  exists tr sel, run env (select_current cgStatus est ga) w = (tr, Done sel, w) /\
    match sel with
    | SelWait _ => False
    | SelNone g => g = ga /\ old_pods rev w = 0%nat
    | SelPod g => ga_Type g = ga_Type ga /\ ga_DrainTriggered g = false /\
        exists m, m ∈ k_pods w /\ outdated rev m.1 = true /\ p_Name m.1 = ga_CurrentPod g
    end.
Proof.
  intros Hw Hc Ht Hg. unfold select_current. rewrite decide_True by done. rewrite decide_False by (rewrite Hg; by intros []).
  unfold selectNextPod. rewrite Ht. unfold selectNextRollingUpdatePod. rewrite Hsel. cbn [run bind call kube_env].
  rewrite decide_False by (by rewrite Hg). rewrite Hg. pose proof (select_listed rev (visible sr w)) as Hs.
  destruct (sort_desc _) as [|p l]; cbn [run bind]; do 2 eexists; (split; [reflexivity|]).
  - split; [done|]. by apply none_old.
  - destruct Hs as (q & Hq & Ho & Hn & _). unfold visible in Hq. apply list_elem_of_omap in Hq as (m & Hm & Hs).
    destruct (m.2 <=? k_now w); [|done]. injection Hs as <-. by repeat split; [..|exists m].
Qed.

Definition recorded_pod (ga g : GracefulAction) : Prop :=
  ga_Type g = ga_Type ga /\ ga_CurrentPod g = ga_CurrentPod ga /\ ga_StableBackendObservations g = 0 /\ ga_DrainTriggered g = ga_DrainTriggered ga.

Lemma record_foreign pod ga : spec foreign (recorded_pod ga) (record_generation cluster cgStatus pod ga).
Proof.
  unfold record_generation. eapply spec_bind; [apply backend_foreign|]. intros [b|err] _; [|by apply spec_ret].
  destruct (backendProcessEpoch b) as [epoch []]; by apply spec_ret.
Qed.
Lemma record_total pod ga : total (record_generation cluster cgStatus pod ga).
Proof.
  unfold record_generation. apply total_bind; [apply Hdoris|]. intros [b|err]; [|apply total_ret].
  destruct (backendProcessEpoch b) as [epoch []]; apply total_ret.
Qed.

Definition drained (ga g : GracefulAction) : Prop :=
  ga_Type g = ga_Type ga /\ ga_CurrentPod g = ga_CurrentPod ga /\ ga_StableBackendObservations g = ga_StableBackendObservations ga.
Lemma drain_foreign ga : spec foreign (drained ga) (drain_pod cluster ga).
Proof.
  unfold drain_pod, ExecInPod. eapply (spec_bind _ (fun _ => True)); [spec_go|]. intros [[out err] e] _.
  eapply (spec_bind _ (fun _ => True)); [spec_go|]. intros [[out' err'] e'] _. cbv zeta.
  eapply (spec_bind _ (fun _ => True)); [destruct e'; spec_go|]. intros _ _.
  apply spec_call; [done|]. intros _ _. apply spec_ret. by destruct e.
Qed.
Lemma drain_total ga : total (drain_pod cluster ga).
Proof.
  unfold drain_pod, ExecInPod. apply total_bind; [|intros [[out err] e]; apply total_bind; [|intros [[out' err'] e']; apply total_bind]].
  all: repeat first [apply total_ret | apply total_call; intros ? | progress cbn [bind call] | progress intros
    | match goal with |- total (match ?x with _ => _ end) => destruct x end].
Qed.

Lemma trigger_selects n : leads (at_trigger n) (fun s => at_drain n s \/ n = 0%nat /\ at_done s).
Proof.
  apply leads_step. intros [w ga] [Hroll Hc]. pose proof Hroll as (Hw & Hn & Ht & Hp). cbn [fst snd] in *.
  assert (Hrun : exists tr g' w', run env (runGracefulStateMachine cluster cgStatus est (ga <| ga_TargetRevision := rev |>)) w =
      (tr, Done (g', None), w') /\ later w w' /\ ga_Type g' = ga_Type ga /\
    (ga_Phase g' = GracefulPhaseDone /\ old_pods rev w = 0%nat /\ ga_TargetRevision g' = rev \/
     ga_Phase g' = GracefulPhaseWaitDrain /\ current true (w, persisted g'))).
  { unfold runGracefulStateMachine. set (g := ga <| ga_TargetRevision := rev |>).
    change (ga_Phase g) with (ga_Phase ga). rewrite Hp. unfold handleTriggerDrain. rewrite refreshed by done. cbv zeta.
    match goal with |- context [select_current _ _ ?x] => set (gr := x) end.
    destruct (select_run w gr Hw Hc Ht eq_refl) as (tr1 & sel & Hr1 & Hsel1). rewrite run_bind, Hr1.
    destruct sel as [g1|g1|g1]; [done| |].
    { destruct Hsel1 as [-> H0]. cbn. do 3 eexists. split; [reflexivity|]. split; [done|]. split; [done|]. by left. }
    destruct Hsel1 as (Ht1 & Hd1 & m & Hm & Ho & Hname). unfold getPod. cbn [run bind call kube_env]. rewrite <- Hname.
    rewrite (pod_named_visible sr m w) by (done || by apply under_way_nodup).
    destruct (Z.leb_spec m.2 (k_now w)) as [_|Hlt]; [|pose proof (outdated_visible w m Hw Hm Ho); lia].
    rewrite run_bind. destruct (foreign_done _ _ w (record_foreign (shown sr (k_now w) m.1) g1) (record_total _ _))
      as (tr2 & g2 & w2 & -> & (Ht2 & Hc2 & Hob2 & Hd2) & ->). cbn [run bind call kube_env k_pods k_now k_calls].
    match goal with |- context [ga_DrainTriggered ?x] => set (g3 := x) end.
    assert (ga_DrainTriggered g3 = false) as -> by (etrans; [exact Hd2 | exact Hd1]). rewrite run_bind.
    match goal with |- context [run env (drain_pod _ _) ?x] => set (w3 := x) end.
    destruct (foreign_done _ _ w3 (drain_foreign g3) (drain_total g3)) as (tr4 & g4 & w4 & -> & (Ht4 & Hc4 & Hob4) & ->).
    cbn [run bind]. pose proof (time_passes (k_calls w + length tr2)) as Htime. do 3 eexists. split; [reflexivity|].
    split; [repeat split; cbn; lia|]. split; [etrans; [exact Ht4|]; etrans; [exact Ht2 | exact Ht1]|]. right. split; [done|].
    split; [etrans; [exact Hob4 | exact Hob2]|]. exists m. split; [done|]. split; [done|]. cbn [snd].
    rewrite Hname, <- Hc2. symmetry. exact Hc4. }
  destruct Hrun as (tr & g' & w' & Hrun & (Hp' & Hle & _) & Ht' & Hph). rewrite (pass_runs w ga g' tr w' Ht Hrun).
  destruct Hph as [(Hph & H0 & Htg)|[Hph [Hob (m & Hm & Ho & Hname)]]].
  - right. assert (n = 0%nat) as -> by congruence. split; [done|]. by split; [eapply rolls_on|].
  - left. split; [by eapply rolls_on|]. split; [done|]. exists m. cbn [fst snd]. by rewrite Hp'.
Qed.

(** *** From pod to pod *)

Lemma trigger_done n : leads (at_trigger n) at_done.
Proof.
  induction n as [|n IH].
  all: eapply leads_trans; [apply trigger_selects|]; apply leads_or; [|by apply leads_refl; intros s [_ Hs]].
  all: eapply leads_trans; [apply drain_ends|]; eapply leads_trans; [apply delete_replaces|].
  - intros s (n' & E & _). done.
  - apply (leads_trans _ (at_ready n)); [apply leads_refl; intros s (n' & [= <-] & Hs); exact Hs|].
    eapply leads_trans; [apply ready_ends|]. eapply leads_trans; [apply alive_settles | exact IH].
Qed.

Lemma done_none_old s : at_done s -> Forall (fun m => outdated rev m.1 = false) (k_pods s.1).
Proof.
  intros [(_ & Hn & _) _]. unfold old_pods in Hn. apply length_zero_iff_nil in Hn. apply Forall_forall. intros m Hm.
  destruct (outdated rev m.1) eqn:Ho; [|done]. exfalso. apply (not_elem_of_nil m). rewrite <- Hn. by apply list_elem_of_filter.
Qed.

(** The reconcile then takes the action off. *)
Lemma done_finalizes s : at_done s ->
  exists tr, run env (shouldFinalizeGracefulAction est s.2) s.1 = (tr, Done true, s.1).
Proof.
  intros Hd. pose proof (done_none_old s Hd) as Hold. destruct Hd as [(_ & _ & Ht & _) Htarget].
  unfold shouldFinalizeGracefulAction, selectNextRollingUpdatePod. rewrite Ht, Hsel. fold (target_revision est s.2).
  assert (target_revision est s.2 = rev) as -> by (unfold target_revision; by case_decide).
  cbn [run bind call kube_env]. pose proof (select_listed rev (visible sr s.1)) as Hs.
  destruct (sort_desc _) as [|p l]; [by eexists|]. destruct Hs as (q & Hq & Ho & _). exfalso.
  unfold visible in Hq. apply list_elem_of_omap in Hq as (m & Hm & Hs). destruct (m.2 <=? k_now s.1); [|done]. injection Hs as <-.
  rewrite Forall_forall in Hold. specialize (Hold m Hm). unfold outdated in *. cbn in *. congruence.
Qed.

(** ** The pass within the reconcile *)

(** The detection looks, and does not replace a stored rolling update of a
    compute group that is not made smaller. *)
Lemma detection_looks st r r' c w : st_Replicas st = Some r -> st_Replicas est = Some r' -> r' <= r ->
  exists tr a, run env (detectGracefulAction st est c) w = (tr, Done a, w) /\
    forall ga, ga_Type ga = GracefulActionRollingUpdate -> preferred a ga = ga.
Proof.
  intros Hr Hr' Hle. unfold detectGracefulAction. rewrite Hr, Hr'. cbn [deref]. rewrite (proj2 (Z.ltb_ge _ _) Hle).
  assert (Hroll : forall a ga : GracefulAction, ga_Type a = GracefulActionRollingUpdate ->
    ga_Type ga = GracefulActionRollingUpdate -> preferred (Some a) ga = ga).
  { intros a ga Ha Hg. unfold preferred. rewrite decide_False; [done | congruence]. }
  destruct (statefulSetSpecChanged st est); [do 2 eexists; split; [reflexivity | intros; by apply Hroll]|].
  case_decide; [|do 2 eexists; by split]. unfold selectNextRollingUpdatePod.
  destruct (LabelSelectorAsSelector _); [do 2 eexists; by split|]. cbn [run bind call kube_env].
  destruct (sort_desc _); cbn [run bind]; do 2 eexists; (split; [reflexivity|]); [done | intros; by apply Hroll].
Qed.

(** The reconcile of a StatefulSet that carries the action makes the pass, and
    hands the action on by the StatefulSet it is about to apply. *)
Lemma reconcile_passes st r r' cg w ga tr g w' :
  getGracefulAction est = Ok (Some ga) -> ga_Type ga = GracefulActionRollingUpdate ->
  st_Replicas st = Some r -> st_Replicas est = Some r' -> r' <= r ->
  run env (runGracefulStateMachine cluster cgStatus est (refreshRollingUpdateTargetRevision est ga)) w = (tr, Done (g, None), w') ->
  ga_Phase g <> GracefulPhaseDone ->
  exists tr0 cgStatus', run env (gracefulRolloutReconcile st est cluster cg cgStatus) w =
    (tr0, Done (hold st est g, cgStatus', true, None), w') /\ pass_step (w, ga) = (w', persisted g).
Proof.
  intros Hga Ht Hr Hr' Hle Hrun Hph. unfold gracefulRolloutReconcile. cbv zeta. rewrite run_bind.
  destruct (detection_looks st r r' (cgStatus <| cgs_GracefulAction := None |>) w Hr Hr' Hle) as (tr1 & a & -> & Ha).
  rewrite Hga, (Ha ga Ht). cbv zeta. rewrite run_bind.
  match goal with |- context [run env (runGracefulStateMachine cluster ?c est ?x) w] =>
    change (run env (runGracefulStateMachine cluster c est x) w)
      with (run env (runGracefulStateMachine cluster cgStatus est x) w) end.
  rewrite Hrun. rewrite decide_False by done. cbn [run bind]. do 2 eexists. split; [reflexivity|].
  unfold pass_step. cbn [fst snd]. by rewrite Hrun.
Qed.
End rollout.

(** ** An update of three pods *)

Definition pod_ready : PodStatus :=
  mkPodStatus "Running" "10.0.0.1" (Some [mkContainerStatus "compute" true 0 "c1" None]) "" "".
Definition r2_pod (p : Pod) : Pod :=
  mkPod ((p_Meta p) <| m_Labels := {[ POD_CONTROLLER_REVISION_HASH_KEY := "r2" ]} |>) (p_TerminationGracePeriodSeconds p) (p_Status p).
Definition demo_surroundings : Surroundings :=
  mkSurroundings (fun _ X e => (demo_env X e (demo_world false)).1) (fun _ => 5000000000) (fun _ _ => pod_ready)
    (fun t p => (r2_pod p, t + 30000000000)).
Definition demo_kube : kube := mkKube ((fun p => (p, 0)) <$> w_pods (demo_world false)) 1000000000 0.
Definition r2_sts : StatefulSet := (demo_sts 3) <| st_UpdateRevision := "r2" |>.
Definition r2_update : GracefulAction :=
  zeroGA <| ga_Type := GracefulActionRollingUpdate |> <| ga_Phase := GracefulPhaseTriggerDrain |>.

#[local] Instance demo_recovers : Recovers "r2" demo_surroundings.
Proof.
  split; [done| |by intros; exists 0|done|by exists 0%nat].
  intros t p. unfold outdated. by rewrite bool_decide_true.
Qed.

#[local] Existing Instance demo_external.
Lemma demo_doris pod : total demo_surroundings (getBackendByPodName demo_ddc demo_status pod).
Proof.
  assert (Hopen : forall w, (run (kube_env demo_surroundings) (getMasterSqlClient demo_ddc) w).1.2 = Done (Ok (mkDB "root:@tcp(c-fe.ns:9030)/mysql"))).
  { intros w. vm_compute. reflexivity. }
  intros w. unfold getBackendByPodName. rewrite run_bind. specialize (Hopen w).
  destruct (run _ (getMasterSqlClient demo_ddc) w) as [[tr o] w1]. cbn in Hopen. subst o.
  match goal with |- context [run ?h ?p w1] => assert (Ht : total demo_surroundings p); [|destruct (Ht w1) as [a Ha]] end.
  - apply total_close. unfold GetBackendsByComputeGroupId. apply total_bind; [|intros [l|e]; [destruct (List.find _ _)|]; apply total_ret].
    apply total_call. intros [l|e]; apply total_ret.
  - exists a. by destruct (run _ _ w1) as [[? ?] ?].
Qed.

(** ** The property *)

(** C15: A rolling update comes to its end.  Whatever Doris and the commands
    run in pods answer, as long as the answers settle and asking Doris does not
    panic, and whatever the pods are, as long as the API server shows those
    that are outdated, has the deleted ones replaced by pods of the update
    revision, and these get ready in the end, some number of passes of the
    state machine over the stored action reaches the phase Done with no pod of
    an older revision left.  Each pod that was outdated is replaced under its
    name, those of the revision are as they were, and the reconcile of the last
    pass finds that it can finalize the action.  The waits for the drain and for
    the backend end by their deadlines, the one for the pod by its readiness.
    By [reconcile_passes] a pass is the reconcile of a StatefulSet that carries
    the action and is not made smaller. *)
Theorem rolling_update_completes `{External} sr cluster cgStatus est `{!Recovers (st_UpdateRevision est) sr} w ga :
  st_UpdateRevision est <> "" -> LabelSelectorAsSelector (st_Selector est) = None ->
  (forall pod, total sr (getBackendByPodName cluster cgStatus pod)) ->
  NoDup (names w) -> 0 <= k_now w ->
  (forall m, m ∈ k_pods w -> outdated (st_UpdateRevision est) m.1 = true -> m.2 <= k_now w) ->
  ga_Type ga = GracefulActionRollingUpdate -> ga_Phase ga = GracefulPhaseTriggerDrain -> ga_CurrentPod ga = "" ->
  exists k, let s := Nat.iter k (pass_step sr cluster cgStatus est) (w, ga) in
    ga_Phase s.2 = GracefulPhaseDone /\
    Forall2 (renewed est) (k_pods w) (k_pods s.1) /\
    Forall (fun m => outdated (st_UpdateRevision est) m.1 = false) (k_pods s.1) /\
    exists tr, run (kube_env sr) (shouldFinalizeGracefulAction est s.2) s.1 = (tr, Done true, s.1).
Proof.
  intros Hrev Hsel Hdoris Hnd Hnow Hvisible Ht Hp Hc.
  destruct (trigger_done sr cluster cgStatus est Hrev Hsel Hdoris w Hnd Hnow Hvisible
    (old_pods (st_UpdateRevision est) w) (w, ga)) as [k Hk].
  { split; [|exact Hc]. split; [by apply under_way_start|]. by repeat split. }
  exists k. cbv zeta. split; [apply Hk|]. split; [apply Hk|]. split; [by eapply done_none_old | by eapply done_finalizes].
Qed.

Lemma rolling_update_completes_witness :
  old_pods "r2" demo_kube = 3%nat /\
  exists k, let s := Nat.iter k (pass_step demo_surroundings demo_ddc demo_status r2_sts) (demo_kube, r2_update) in
    ga_Phase s.2 = GracefulPhaseDone /\
    Forall2 (renewed r2_sts) (k_pods demo_kube) (k_pods s.1) /\
    Forall (fun m => outdated "r2" m.1 = false) (k_pods s.1) /\
    exists tr, run (kube_env demo_surroundings) (shouldFinalizeGracefulAction r2_sts s.2) s.1 = (tr, Done true, s.1).
Proof.
  split; [vm_compute; reflexivity|].
  apply (rolling_update_completes demo_surroundings demo_ddc demo_status r2_sts demo_kube r2_update);
    [done | reflexivity | exact demo_doris | | done | | done..].
  - by apply (bool_decide_unpack _).
  - intros m Hm _. assert (Forall (fun m => m.2 <= k_now demo_kube) (k_pods demo_kube)) as Hall by by repeat constructor.
    rewrite Forall_forall in Hall. by apply Hall.
Defined.
